(* ===== verification/_CoqProject ===== *)
-Q . S2P
Prelude.v
PyDict.v
LakeTypes.v
Agent.v
GrpcAgent.v
PoolIface.v
NodeScheduler.v
SchedulerRun.v
Sampling.v
InputBatch.v
ModelRunner.v
Serving.v
WorkerEngine.v
ColdStart.v
Attention.v
TorchAttention.v
CostModel.v
PyStr.v
Bench.v
KvcmTypes.v
Ledger.v
Keys.v
Instances.v
WorkerConfig.v
WorkerMain.v
ModelLoad.v
Qwen3.v
Capability.v
RankTopology.v
ArgParse.v
SubmitGate.v
Backend.v
Prefetch.v
Keepalive.v
Events.v
TaskEngine.v
Intents.v
Json.v
Smoke.v
KeyFiles.v
Precopy.v
StoreDemo.v
Admin.v
StoreClient.v
Daemon.v
DaemonMain.v
Prototype.v
