(* ===== verification/Prelude.v ===== *)
(** * Lake / kvcm: a verification development

    The repository holds a serving runtime, a control plane for cached blocks,
    and an early single-process prototype.  Paths below are relative to [src/].

    ** The parts and how they interact

    _The runtime_ ([python/lake]).  A worker process accepts generation requests
    over gRPC ([runtime/worker.py]), queues them ([runtime/worker_engine.py]) and
    feeds a [NodeScheduler] ([runtime/node_scheduler.py]).  Each step the scheduler
    admits requests, shares a token budget among them, asks the storage agent
    ([engine/agents/memory.py] or [engine/agents/grpc_skeleton.py], behind
    [engine/pool_iface.py]) to reserve room, has
    the model runner execute the batch ([engine/model_runner.py] over
    [engine/input_batch.py]), reports the step as done and processes the sampled
    tokens ([engine/sample]).

    _The control plane_ ([kvcm/kvcm]).  A daemon accepts intents "bring this prefix
    to that instance" ([api/grpc_server.py]), keeps them in a table and a queue
    ([task_engine.py]), and for each one copies the missing keys to the target
    ([flows/prefetch.py], [backends/mooncake/backend.py]).  Keys come from
    [engines/vllm/keys.py], the segments of an instance from [instances.py], their
    rank order from [engines/vllm/topology.py].  What is in flight is recorded in a
    sqlite ledger ([ledger.py]) so that a restart finds it.  Ready prefixes are kept
    alive ([loops.py]) and announced ([api/events.py]).  [daemon.py] starts and stops
    all of it.

    _Beside them_: a command line tool that copies the keys of a prompt to a worker
    without the daemon ([kvcm/demo/precopy]); a demonstration and two smoke tests
    ([kvcm/demo/tools]); the probes of the runtime ([runtime/bench.py]); a model of the
    cost of loading against computing ([bench/cost_model.py]); an early prototype
    ([src/]: a block pool, two compute pools, a router, a tiered cache).

    ** Which file models what

    - [Prelude]: outcomes, states, tactics, generic lemmas; [PyDict]: insertion
      ordered dictionaries; [PyStr], [Json]: text, numbers, [json.loads].
    - [LakeTypes]: dataclasses and enums of [python/lake/runtime], roles, prefix
      hints, [FutureMap].
    - [Agent]: the [StorageAgent] interface (a class) and the in-memory agent.
    - [GrpcAgent]: the agent over the control plane and the data service, whose
      contract (what they accept, refuse and answer) is a class with a plain instance.
    - [PoolIface]: the pool facade over any [StorageAgent].
    - [NodeScheduler]: admission, [schedule], [run_batch], [process_batch_result],
      both main loops; [SchedulerRun]: what the loops compute over any reliable
      agent and executor.
    - [Sampling], [InputBatch], [ModelRunner]: one step of the model; [Attention]:
      the reference kernel and the list backends; [TorchAttention]: the tensor backend
      over an abstract tensor library; [ModelLoad]: the model registry and the loaders;
      [Qwen3]: the modules of the Qwen3 model and their parameters.
    - [Serving]: the composition of scheduler, facade, runner and either agent.
    - [WorkerEngine]: lifecycle, submission queue, loop thread, the servicer;
      [ColdStart]: both start strategies; [Bench]: the probes and the drawn waterfall;
      [WorkerConfig]: the role read from the environment and the node built from it;
      [WorkerMain]: the worker process from its environment to its end.
    - [KvcmTypes]: prefixes, handles, task states, exceptions; [Ledger]: the four
      tables; [Keys]: key strings, ranks, plans; [KeyFiles]: reading and writing
      them; [Instances]: the directory; [RankTopology]: processes, ports, ranks and
      segments; [Capability]: what a backend can do.
    - [SubmitGate]: all submissions in progress as a transition system; [Backend]:
      every operation of the mooncake backend; [Admin], [StoreClient]: the HTTP
      admin endpoints, the store bindings and the intent service.
    - [Prefetch]: one copy until its end; [TaskEngine]: one prefetch with throttle,
      room and gate; [Intents]: the intent table as events; [Keepalive]: the
      renewal loop; [Events]: republished block events; [Daemon]: start-up and
      shutdown; [ArgParse]: command lines; [DaemonMain]: the daemon's.
    - [Precopy]: the command line tool; [StoreDemo]: the demonstration without an
      engine; [Smoke]: the smoke tests over [Backend] and [TaskEngine]; [CostModel]:
      the cost model; [Prototype]: the prototype.

    State is a record per class, named as in the source; an operation is a
    function from a state to the new state with an outcome ([Ok] or [Raise] with the
    exception), so what a call mutated before it raised stays visible.  Objects
    whose identity the code compares (submitted requests, intent records) live in a
    store.  Threads and coroutines are interleaved at the points where the code can
    switch: an event or an argument is what runs between two of them.  A Python
    [dict] is a [gmap] where only lookups matter and a [dict] of [PyDict] where its
    order is observed.

    ** What the theorems show

    - _Serving_: every admitted request receives exactly its tokens, whichever loop
      and batching policy runs, over the in-memory agent and over the gRPC agent with
      services that keep their contract and are used by nobody else; each [schedule] stays within the budget, the batch
      size and the lengths, covers contiguous ranges and makes progress; the facade
      accepts an answer exactly when it fits the plan.
    - _Storage fence_: a request's end reaches the agent once, and never between
      ready and done; committed and reserved room add up; between ready and done only
      the commit of a request lowers its own resident extent.
    - _gRPC agent_: a request reuses every full block it shares with an earlier one and
      registers the rest, unless the hash function collides; a failure of the services leaves no step ready.
    - _Step_: buffers hold what the batch says; the chain sampler gives the greedy
      tokens; a masked choice is allowed; attention computed in chunks is attention,
      in IEEE arithmetic (the laws are proved of binary64) up to the sign of a zero;
      with grouped heads every query head attends to its own group.
    - _Model_: loading Qwen3 with made up weights builds and loads exactly the
      parameters of the configuration.
    - _Worker_: a submitted request is answered at most once, and by the loop; a loop
      that is told to stop has answered everything it accepted, one that fails all but
      at most one submit it raced with; so has the process when its thread ends in time.
    - _Probes_: the cold start sweep stays within its budget, a percentile is one, every
      start can be drawn.
    - _Copies_: READY is reported only after every replica was verified on its
      target segment; a restart restores the tracked copies; watch entries do not
      outlive their handles; no more submissions are awaited than the bound allows
      (calls that timed out may still be out); the bytes a copy adds fit the target.
    - _Ledger_: registrations refine a map from a prefix to the opening of its
      window; garbage collection keeps running rows.
    - _Keys_: a plan sends every key to the segment of its rank, extending a prefix
      keeps its keys, written keys can be read again.
    - _Precopy tool_: it agrees with the daemon on plans and segments, ends, closes its
      client, and reports success only for keys whose replica is on its segment.
    - _Demonstration and smoke tests_: the demonstration passes only with both replicas
      in place; what a passing smoke test has observed; when the admission test and the
      backend agree; the test of copies and events cannot pass.
    - _Cost model_: within its assumptions the decision is the cheaper choice.
    - _Intents_: an accepted intent runs once, its receipts have no gap, it settles
      when its prefetch ends, the table forgets only settled ones; a prefetch ends
      within its deadline and with the outcome its trace justifies.
    - _Keepalive, events, admin_: a sweep stops renewing only what expired or was
      answered absent; batches go to the publisher of their target; long key lists
      are split within the limits of the endpoint; answers are decoded or refused,
      never guessed, and which errors of the JSON decoder escape untranslated.
    - _Ranks_: the walk over the process table ends with the descendants of the
      worker; several ranks are resolved exactly when the checks of the code pass, each to
      a segment its own process listens on, and when two of them share one; probing through a remote shell changes
      nothing.
    - _Daemon_: every run follows the start-up and shutdown protocol of [Daemon.next]
      and closes everything, or ends the process because a call hangs; the store
      client is closed only when no thread is inside it; a started daemon answers only
      segments that are mounted under their own endpoint; each option of the command
      line sets the argument it is named after, and the defaults are those written.

    Theorems marked as a defect state a flaw of the code with a concrete run
    ([failed_loop_strands_submit], [timed_out_calls_exceed_bound],
    [decoder_errors_escape], [script_counts_placed_keys],
    [stale_absence_drops_registration], [shared_port_accepted],
    [mismatched_blocks_not_loaded], [demotion_loses_value], [short_load_refused],
    [threshold_truncated], [e14_cannot_pass], [failed_helper_strands_first]).
    A handle that a cancelled flow drops is the exception of [flow_settles].

    ** Fuel

    - The main loops run [2 * load + 1] iterations, [load] being the tokens still to
      schedule plus the pending results: each iteration decreases it, and the
      theorems on serving prove that this many are enough from any initial state.
    - Draining the submission queue and flushing deferred ends run on the length of
      the queue.
    - Polling a copy runs [left / poll + 3] rounds for a deadline [left] away;
      waiting for room runs one round more than the ticks of its timeout; the tool
      polls once per interval of its deadline ([precopy_terminates]).
    - The JSON decoder gets twice the length of the text plus two ([loads_fuel_enough]);
      walking a process tree gets one unit for the root and one per child
      ([process_tree_reachable]).
    - The demonstration polls 241 times ([demo_ends]); the smoke tests grow their prompt
      2001 times ([grow_enough]) and run a prefetch for its timeout ([run_once_ends]).
    Each bound has a theorem that the fuel is not exhausted, or the function is
    applied to a fuel computed from its input and its contract covers the result.

    ** What is not modelled

    Code outside the repository is a parameter: the mooncake bindings and its
    master, the upstream key classes and block hash, the event publisher, SHA-256, the
    tokenizer, configuration files of models, [torch] (an interface with its documented
    laws and a plain instance), floating point arithmetic of the attention kernel, the
    gRPC library, processes and signals of the host.  So are the control plane and the
    data service the gRPC agent calls (the Rust programs of the repository), in the state
    the agent can observe; other clients of them, quotas and eviction are left out.

    Inside the repository: generated protocol stubs ([python/lake/pb],
    [kvcm/api/pb]) have no logic of their own; the loop of the engine probe in
    [runtime/bench.py] drives the worker of [WorkerEngine] with a pool of its own; log
    lines, help texts and what is printed for a reader are left out; the tests drive the
    code above; the Go router and the Rust store are other programs.

    Floating point occurs elsewhere as durations (ticks or milliseconds here), as
    logits (rationals or minus infinity) and in the cost model (rationals).
    Failures of sqlite itself and exhaustion of memory are not modelled. *)

From Stdlib Require Export ZArith Lia.
From stdpp Require Export base gmap strings numbers list.
Export list_relations.list.

#[export] Set Default Goal Selector "!".
#[export] Set Warnings "-clear-no-such-hyp".
Global Open Scope Z_scope.
Global Open Scope list_scope.

(** ** Outcomes of Python calls

    A Python call returns a value or raises.  The state it mutated before it
    raised stays mutated, so effectful code is a function from a state to the
    new state together with the outcome. *)

Inductive result (E A : Type) : Type :=
| Ok (a : A)
| Raise (e : E).
Arguments Ok {E A} a.
Arguments Raise {E A} e.

Definition M (S E A : Type) : Type := S -> S * result E A.

#[global] Instance M_ret {S E} : MRet (M S E) := fun A a s => (s, Ok a).
#[global] Instance M_bind {S E} : MBind (M S E) :=
  fun A B k c s =>
    match c s with
    | (s', Ok a) => k a s'
    | (s', Raise e) => (s', Raise e)
    end.
#[global] Instance result_ret {E} : MRet (result E) := fun A a => Ok a.
#[global] Instance result_bind {E} : MBind (result E) :=
  fun A B k c => match c with Ok a => k a | Raise e => Raise e end.

Section monad_ops.
Context {S E : Type}.

Definition raise {A} (e : E) : M S E A := fun s => (s, Raise e).
Definition gets {A} (f : S -> A) : M S E A := fun s => (s, Ok (f s)).
Definition modify (f : S -> S) : M S E unit := fun s => (f s, Ok tt).
Definition lift {A} (r : result E A) : M S E A := fun s => (s, r).

(** [try: c except e: h e]; the handler runs in the state [c] left behind. *)
Definition try_catch {A} (c : M S E A) (h : E -> M S E A) : M S E A := fun s =>
  match c s with
  | (s', Raise e) => h e s'
  | r => r
  end.

(** [try: c finally: f]; an exception of [f] replaces the pending outcome. *)
Definition try_finally {A} (c : M S E A) (f : M S E unit) : M S E A := fun s =>
  match c s with
  | (s1, r) =>
      match f s1 with
      | (s2, Ok _) => (s2, r)
      | (s2, Raise e) => (s2, Raise e)
      end
  end.

Fixpoint for_each {A} (l : list A) (body : A -> M S E unit) : M S E unit :=
  match l with
  | [] => mret tt
  | x :: l' => body x ≫= fun _ => for_each l' body
  end.

Fixpoint fold_m {A B} (f : B -> A -> M S E B) (l : list A) (b : B) : M S E B :=
  match l with
  | [] => mret b
  | x :: l' => f b x ≫= fun b' => fold_m f l' b'
  end.

(** Hoare triples with separate postconditions for the two outcomes. *)
Definition hoare {A} (P : S -> Prop) (c : M S E A)
    (Q : A -> S -> Prop) (X : E -> S -> Prop) : Prop :=
  forall s, P s ->
    match c s with
    | (s', Ok a) => Q a s'
    | (s', Raise e) => X e s'
    end.

Lemma hoare_ret {A} (a : A) P (Q : A -> S -> Prop) X :
  (forall s, P s -> Q a s) -> hoare P (mret a) Q X.
Proof. intros H s Hs. apply H, Hs. Qed.

Lemma hoare_bind {A B} (c : M S E A) (k : A -> M S E B) P Q R X :
  hoare P c Q X -> (forall a, hoare (Q a) (k a) R X) -> hoare P (c ≫= k) R X.
Proof.
  intros Hc Hk s Hs. specialize (Hc s Hs). unfold mbind, M_bind.
  destruct (c s) as [s' [a|e]]; [apply Hk, Hc | exact Hc].
Qed.

Lemma hoare_conseq {A} (c : M S E A) (P P' : S -> Prop) (Q Q' : A -> S -> Prop)
    (X X' : E -> S -> Prop) :
  hoare P' c Q' X' ->
  (forall s, P s -> P' s) -> (forall a s, Q' a s -> Q a s) ->
  (forall e s, X' e s -> X e s) -> hoare P c Q X.
Proof.
  intros Hc HP HQ HX s Hs. specialize (Hc s (HP s Hs)).
  destruct (c s) as [s' [a|e]]; auto.
Qed.

Lemma hoare_for_each {A} (l : list A) (body : A -> M S E unit) (I : S -> Prop) X :
  (forall x, x ∈ l -> hoare I (body x) (fun _ => I) X) ->
  hoare I (for_each l body) (fun _ => I) X.
Proof.
  induction l as [|x l IH]; intros H.
  - apply hoare_ret. auto.
  - simpl. eapply hoare_bind; [apply H; left|]. intros [].
    simpl.
    apply IH. intros y Hy. apply H. by right.
Qed.

(** The invariant sees the elements already folded and the ones to come. *)
Lemma hoare_fold_m {A B} (f : B -> A -> M S E B) (l : list A) (b : B)
    (I : list A -> list A -> B -> S -> Prop) X :
  (forall done x todo b, hoare (I done (x :: todo) b) (f b x) (I (done ++ [x]) todo) X) ->
  hoare (I [] l b) (fold_m f l b) (I l []) X.
Proof.
  intros H.
  enough (Hpre : forall pre b, hoare (I pre l b) (fold_m f l b) (I (pre ++ l) []) X)
    by apply (Hpre []).
  clear b. induction l as [|x l IH]; intros pre b.
  - rewrite app_nil_r. apply hoare_ret. auto.
  - simpl. eapply hoare_bind; [apply H|]. intros b'. simpl.
    replace (pre ++ x :: l) with ((pre ++ [x]) ++ l) by by rewrite <- app_assoc.
    apply IH.
Qed.

Lemma bind_ok {A B} (c : M S E A) (k : A -> M S E B) s s1 a :
  c s = (s1, Ok a) -> (c ≫= k) s = k a s1.
Proof. intros H. unfold mbind, M_bind. by rewrite H. Qed.

Lemma bind_raise {A B} (c : M S E A) (k : A -> M S E B) s s1 e :
  c s = (s1, Raise e) -> (c ≫= k) s = (s1, Raise e).
Proof. intros H. unfold mbind, M_bind. by rewrite H. Qed.

Lemma bind_ok_inv {A B} (c : M S E A) (k : A -> M S E B) s s2 b :
  (c ≫= k) s = (s2, Ok b) ->
  exists s1 a, c s = (s1, Ok a) /\ k a s1 = (s2, Ok b).
Proof.
  unfold mbind, M_bind. destruct (c s) as [s1 [a|e]] eqn:Hc; intros H; [|done].
  eauto.
Qed.

(** [c] does not change what [f] sees of the state, whether it returns or raises. *)
Definition keeps {X A} (f : S -> X) (c : M S E A) : Prop := forall s, f (c s).1 = f s.

Lemma keeps_bind {X A B} (f : S -> X) (c : M S E A) (k : A -> M S E B) :
  keeps f c -> (forall a, keeps f (k a)) -> keeps f (c ≫= k).
Proof.
  intros Hc Hk s. specialize (Hc s). unfold mbind, M_bind. destruct (c s) as [s1 [a|e]]; [|done].
  by rewrite (Hk a s1).
Qed.

Lemma keeps_for_each {X A} (f : S -> X) (l : list A) (body : A -> M S E unit) :
  (forall x, keeps f (body x)) -> keeps f (for_each l body).
Proof. intros H. induction l as [|x l IH]; [done|]. by apply keeps_bind. Qed.

Lemma keeps_run {X A} (f : S -> X) (c : M S E A) s s1 r : keeps f c -> c s = (s1, r) -> f s1 = f s.
Proof. intros H Hc. specialize (H s). by rewrite Hc in H. Qed.

Lemma hoare_run {A} (c : M S E A) (s s' : S) (x : A) Q X :
  hoare (fun u => u = s) c Q X -> c s = (s', Ok x) -> Q x s'.
Proof. intros H Hc. specialize (H s eq_refl). by rewrite Hc in H. Qed.

End monad_ops.

(** ** Python integers, ranges and slices *)

Abbreviation zlen l := (Z.of_nat (length l)).

(** [range(n)] and [range(a, b)]. *)
Definition zseq (a : Z) (n : nat) : list Z := (fun i => a + Z.of_nat i) <$> seq 0 n.
Definition py_range (n : Z) : list Z := zseq 0 (Z.to_nat n).
Definition py_range2 (a b : Z) : list Z := zseq a (Z.to_nat (b - a)).

(** [l[:k]], with Python's reading of a negative bound. *)
Definition py_take {A} (k : Z) (l : list A) : list A :=
  if k <? 0 then take (Z.to_nat (zlen l + k)) l else take (Z.to_nat k) l.

(** [l[a:b]]: bounds count from the end when negative and are clipped. *)
Definition py_clip {A} (i : Z) (l : list A) : nat :=
  Z.to_nat (if i <? 0 then Z.max 0 (zlen l + i) else Z.min i (zlen l)).
Definition py_slice {A} (a b : Z) (l : list A) : list A :=
  take (py_clip b l - py_clip a l) (drop (py_clip a l) l).

Definition zsum (l : list Z) : Z := foldr Z.add 0 l.

(** ** Tactics *)

(** Splits every hypothesis that is a conjunction or an existential. *)
Ltac split_hyps :=
  repeat match goal with
  | H : _ /\ _ |- _ => destruct H
  | H : exists _, _ |- _ => destruct H
  end.

(** Turns the boolean tests the model is written with into propositions. *)
Ltac zbool :=
  repeat match goal with
  | H : (_ <? _) = true |- _ => apply Z.ltb_lt in H
  | H : (_ <? _) = false |- _ => apply Z.ltb_ge in H
  | H : (_ <=? _) = true |- _ => apply Z.leb_le in H
  | H : (_ <=? _) = false |- _ => apply Z.leb_gt in H
  | H : (_ =? _) = true |- _ => apply Z.eqb_eq in H
  | H : (_ =? _) = false |- _ => apply Z.eqb_neq in H
  | H : (_ && _) = true |- _ => apply andb_true_iff in H as [? ?]
  | H : (_ || _) = false |- _ => apply orb_false_iff in H as [? ?]
  | H : negb _ = true |- _ => apply negb_true_iff in H
  | H : negb _ = false |- _ => apply negb_false_iff in H
  | H : bool_decide _ = true |- _ => apply bool_decide_eq_true_1 in H
  | H : bool_decide _ = false |- _ => apply bool_decide_eq_false_1 in H
  end.

(** Case analysis on the [if]s and [match]es of the goal, boolean tests
    reflected. *)
Ltac cases :=
  repeat (case_match; try done); zbool; simplify_eq/=.

Create HintDb lake.

(** ** Lists *)

Section lists.
Context {A : Type}.
Implicit Types l : list A.

Lemma zlen_nonneg l : 0 <= zlen l.
Proof. lia. Qed.

Lemma zsum_app (l k : list Z) : zsum (l ++ k) = zsum l + zsum k.
Proof. unfold zsum. induction l as [|x l IH]; simpl in *; lia. Qed.

Lemma zsum_nonneg (l : list Z) : Forall (fun x => 0 <= x) l -> 0 <= zsum l.
Proof. unfold zsum. induction 1; simpl in *; lia. Qed.

Lemma length_zseq a n : length (zseq a n) = n.
Proof. unfold zseq. by rewrite length_fmap, length_seq. Qed.

Lemma zseq_S a n : zseq a (S n) = a :: zseq (a + 1) n.
Proof.
  unfold zseq. simpl. f_equal; [lia|].
  rewrite <- seq_shift, <- list_fmap_compose. apply list_fmap_ext.
  intros i x Hi. simpl. lia.
Qed.

Lemma zseq_app a n m : zseq a (n + m) = zseq a n ++ zseq (a + Z.of_nat n) m.
Proof.
  revert a. induction n as [|n IH]; intros a.
  - unfold zseq at 2. simpl. by rewrite Z.add_0_r.
  - change (S n + m)%nat with (S (n + m)). rewrite !zseq_S, IH. by replace (a + Z.of_nat (S n)) with (a + 1 + Z.of_nat n) by lia.
Qed.

Lemma elem_of_zseq a n x : x ∈ zseq a n <-> a <= x < a + Z.of_nat n.
Proof.
  revert a. induction n as [|n IH]; intros a.
  - unfold zseq. simpl. rewrite elem_of_nil. lia.
  - rewrite zseq_S, elem_of_cons, IH. lia.
Qed.

Lemma lookup_zseq a n i : (i < n)%nat -> zseq a n !! i = Some (a + Z.of_nat i).
Proof.
  intros H. unfold zseq. rewrite list_lookup_fmap, lookup_seq_lt by done. done.
Qed.

Lemma py_take_nonneg k l : 0 <= k -> py_take k l = take (Z.to_nat k) l.
Proof. intros H. unfold py_take. destruct (k <? 0) eqn:E; [zbool; lia|done]. Qed.

Lemma py_slice_take {X} a b (l : list X) : 0 <= a -> a <= b -> b <= zlen l ->
  py_slice a b l = drop (Z.to_nat a) (take (Z.to_nat b) l).
Proof.
  intros Ha Hab Hb. unfold py_slice, py_clip. rewrite (proj2 (Z.ltb_ge b 0)), (proj2 (Z.ltb_ge a 0)) by lia.
  rewrite !Z.min_l by lia.
  rewrite take_drop_commute. f_equal. f_equal. lia.
Qed.

Lemma length_py_slice a b l :
  0 <= a -> a <= b -> b <= zlen l -> zlen (py_slice a b l) = b - a.
Proof.
  intros. unfold py_slice, py_clip. rewrite length_take, length_drop.
  repeat case_match; zbool; lia.
Qed.

Lemma filter_iff_in (P Q : A -> Prop) `{forall x, Decision (P x), forall x, Decision (Q x)} l :
  (forall x, x ∈ l -> P x <-> Q x) -> filter P l = filter Q l.
Proof.
  induction l as [|x l IH]; intros H'; [done|]. rewrite !filter_cons.
  rewrite IH by set_solver. pose proof (H' x ltac:(left)) as Hx.
  repeat case_decide; tauto || done.
Qed.

Lemma filter_nil_in (P : A -> Prop) `{forall x, Decision (P x)} l :
  (forall x, x ∈ l -> ~ P x) -> filter P l = [].
Proof.
  induction l as [|x l IH]; intros H'; [done|]. rewrite filter_cons.
  rewrite decide_False by (apply H'; left). apply IH. set_solver.
Qed.

Lemma list_filter_fmap {B} (f : B -> A) (P : A -> Prop) `{forall x, Decision (P x)} (l : list B) :
  filter P (f <$> l) = f <$> filter (fun x => P (f x)) l.
Proof. induction l as [|x l IH]; [done|]. rewrite fmap_cons, !filter_cons, IH. by case_decide. Qed.

(** [list.remove(x)] of a list without duplicates. *)
Fixpoint remove_first `{EqDecision A} (x : A) (l : list A) : list A :=
  match l with
  | [] => []
  | y :: l' => if decide (x = y) then l' else y :: remove_first x l'
  end.

Lemma elem_of_remove_first `{EqDecision A} (x y : A) l :
  NoDup l -> y ∈ remove_first x l <-> y ∈ l /\ y <> x.
Proof.
  induction 1 as [|z l Hz Hl IH]; simpl; [set_solver|].
  case_decide; subst; set_solver.
Qed.

Lemma elem_of_remove_first_1 `{EqDecision A} (x y : A) l :
  y ∈ remove_first x l -> y ∈ l.
Proof. induction l as [|z l IH]; simpl; [done|]. case_decide; set_solver. Qed.

Lemma NoDup_remove_first `{EqDecision A} (x : A) l :
  NoDup l -> NoDup (remove_first x l).
Proof.
  induction 1 as [|z l Hz Hl IH]; simpl; [constructor|].
  case_decide; [done|]. constructor; [|done].
  intros Hin. apply Hz. by eapply elem_of_remove_first_1.
Qed.

Lemma length_remove_first_le `{EqDecision A} (x : A) l :
  (length (remove_first x l) <= length l)%nat.
Proof. induction l as [|z l IH]; simpl; [lia|]. case_decide; simpl; lia. Qed.

Lemma remove_first_not_in `{EqDecision A} (x : A) l :
  x ∉ l -> remove_first x l = l.
Proof.
  induction l as [|z l IH]; simpl; [done|]. rewrite not_elem_of_cons.
  intros [? ?]. rewrite decide_False by done. f_equal. auto.
Qed.

Lemma zsum_cons (x : Z) (l : list Z) : zsum (x :: l) = x + zsum l.
Proof. done. Qed.

Lemma zsum_le {B} (f g : B -> Z) (l : list B) : (forall k, f k <= g k) -> zsum (f <$> l) <= zsum (g <$> l).
Proof.
  intros H. induction l as [|x l IH]; [done|]. rewrite !fmap_cons, !zsum_cons.
  specialize (H x). lia.
Qed.

Lemma zsum_lt {B} (f g : B -> Z) (l : list B) x :
  (forall k, f k <= g k) -> x ∈ l -> f x < g x -> zsum (f <$> l) < zsum (g <$> l).
Proof.
  intros H Hx Hlt. induction Hx as [x l|x y l Hx IH]; rewrite !fmap_cons, !zsum_cons.
  - pose proof (zsum_le f g l H). lia.
  - specialize (H y). specialize (IH Hlt). lia.
Qed.

#[export] Instance zsum_perm : Proper ((≡ₚ) ==> (=)) zsum.
Proof. induction 1; rewrite ?zsum_cons in *; lia. Qed.

End lists.

#[export] Hint Resolve NoDup_remove_first elem_of_remove_first_1 : lake.
Create Rewrite HintDb lake_rw.
#[export] Hint Rewrite @length_zseq @length_app @length_fmap : lake_rw.
