(* ===== verification/PyDict.v ===== *)
(** * Python dictionaries

    A [dict] iterates in insertion order, an assignment to a key that is
    present keeps its position, and a deleted key that is assigned again moves
    to the end.  The code iterates over several dictionaries
    ([num_scheduled_tokens], the groups of [rebuild], the [OrderedDict] of
    finished intents), so the order is part of the model: a dictionary is the
    list of its items, with pairwise distinct keys ([dict_wf]). *)

From S2P Require Import Prelude.

Abbreviation dict K V := (list (K * V)).

Section dict.
Context {K V : Type} `{EqDecision K}.
Implicit Types d : dict K V.

(** [d.get(k)] *)
Fixpoint dget (k : K) (d : dict K V) : option V :=
  match d with
  | [] => None
  | (k', v) :: d' => if decide (k = k') then Some v else dget k d'
  end.

(** [d[k] = v] *)
Fixpoint dset (k : K) (v : V) (d : dict K V) : dict K V :=
  match d with
  | [] => [(k, v)]
  | (k', v') :: d' =>
      if decide (k = k') then (k', v) :: d' else (k', v') :: dset k v d'
  end.

(** [d.pop(k, None)], the value discarded *)
Fixpoint ddel (k : K) (d : dict K V) : dict K V :=
  match d with
  | [] => []
  | (k', v') :: d' => if decide (k = k') then d' else (k', v') :: ddel k d'
  end.

(** [d.setdefault(k, v)]: the value found, or [v] once inserted *)
Definition dsetdefault (k : K) (v : V) (d : dict K V) : dict K V * V :=
  match dget k d with
  | Some w => (d, w)
  | None => (dset k v d, v)
  end.

Definition dkeys (d : dict K V) : list K := d.*1.
Definition dvals (d : dict K V) : list V := d.*2.
Definition din (k : K) (d : dict K V) : bool :=
  match dget k d with Some _ => true | None => false end.

(** [OrderedDict.move_to_end(k)] *)
Definition dmove_to_end (k : K) (d : dict K V) : dict K V :=
  match dget k d with
  | Some v => ddel k d ++ [(k, v)]
  | None => d
  end.

Definition dict_wf (d : dict K V) : Prop := NoDup (dkeys d).

Lemma dget_elem_of k v d : dict_wf d -> dget k d = Some v <-> (k, v) ∈ d.
Proof.
  unfold dict_wf, dkeys. induction d as [|[k' v'] d IH]; simpl; intros Hwf.
  - rewrite elem_of_nil. done.
  - apply NoDup_cons in Hwf as [Hk Hwf]. rewrite elem_of_cons. case_decide.
    + subst. split; [intros [= ->]; by left|]. intros [[= ->]|Hin]; [done|].
      exfalso. apply Hk. apply list_elem_of_fmap. by exists (k', v).
    + rewrite IH by done. split; [by right|]. by intros [[= -> ->]|].
Qed.

Lemma dget_elem k v d : dget k d = Some v -> (k, v) ∈ d.
Proof.
  induction d as [|[k' v'] d IH]; simpl; [done|]. case_decide; [intros [= <-]; subst; left|]. right. auto.
Qed.

Lemma elem_of_dset k v k' v' d : (k', v') ∈ dset k v d -> (k', v') = (k, v) \/ (k', v') ∈ d.
Proof.
  induction d as [|[k0 v0] d IH]; simpl; [by intros ->%list_elem_of_singleton; left|].
  case_decide; subst; rewrite !elem_of_cons; naive_solver.
Qed.

Lemma dget_None k d : dget k d = None <-> k ∉ dkeys d.
Proof.
  unfold dkeys. induction d as [|[k' v'] d IH]; simpl.
  - split; [intros _; apply not_elem_of_nil | done].
  - rewrite not_elem_of_cons. case_decide; subst.
    + split; [done|]. by intros [? _].
    + rewrite IH. tauto.
Qed.

Lemma dget_Some_key k v d : dget k d = Some v -> k ∈ dkeys d.
Proof.
  intros H. destruct (decide (k ∈ dkeys d)) as [|Hn]; [done|].
  apply dget_None in Hn. congruence.
Qed.

Lemma dget_is_Some k d : is_Some (dget k d) <-> k ∈ dkeys d.
Proof.
  split; [intros [v Hv]; by eapply dget_Some_key|].
  intros H. destruct (dget k d) eqn:E; [eauto|]. by apply dget_None in E.
Qed.

Lemma dget_dset_eq k v d : dget k (dset k v d) = Some v.
Proof.
  induction d as [|[k' v'] d IH]; simpl; [by rewrite decide_True|].
  destruct (decide (k = k')); simpl; [by rewrite decide_True|].
  by rewrite decide_False.
Qed.

Lemma dget_dset_ne k k' v d : k <> k' -> dget k (dset k' v d) = dget k d.
Proof.
  intros Hne. induction d as [|[k2 v2] d IH]; simpl; [by rewrite decide_False|].
  destruct (decide (k' = k2)); simpl; subst; repeat case_decide; congruence.
Qed.

Lemma dkeys_dset_in k v d : k ∈ dkeys d -> dkeys (dset k v d) = dkeys d.
Proof.
  unfold dkeys. induction d as [|[k' v'] d IH]; simpl; [by intros ?%elem_of_nil|].
  rewrite elem_of_cons. case_decide; simpl; [by subst|].
  intros [->|Hin]; [done|]. f_equal. auto.
Qed.

Lemma dset_fresh k v d : k ∉ dkeys d -> dset k v d = d ++ [(k, v)].
Proof.
  unfold dkeys. induction d as [|[k' v'] d IH]; simpl; [done|].
  rewrite not_elem_of_cons. intros [? ?]. rewrite decide_False by done.
  f_equal. auto.
Qed.

Lemma dkeys_dset k v d :
  dkeys (dset k v d) = if decide (k ∈ dkeys d) then dkeys d else dkeys d ++ [k].
Proof.
  case_decide; [by apply dkeys_dset_in|].
  rewrite dset_fresh by done. unfold dkeys. by rewrite fmap_app.
Qed.

Lemma elem_of_dkeys_dset k k' v d : k ∈ dkeys (dset k' v d) <-> k = k' \/ k ∈ dkeys d.
Proof.
  rewrite dkeys_dset. case_decide; [|rewrite elem_of_app, list_elem_of_singleton; tauto].
  split; [tauto|]. by intros [->|].
Qed.

Lemma dict_wf_dset k v d : dict_wf d -> dict_wf (dset k v d).
Proof.
  unfold dict_wf. intros H. rewrite dkeys_dset. case_decide; [done|].
  apply NoDup_app. repeat split; [done| |by apply NoDup_singleton].
  intros x Hx ->%list_elem_of_singleton. done.
Qed.

Lemma elem_of_dkeys_ddel k k' d : dict_wf d ->
  k ∈ dkeys (ddel k' d) <-> k ∈ dkeys d /\ k <> k'.
Proof.
  unfold dict_wf, dkeys. induction d as [|[k2 v2] d IH]; simpl; intros Hwf.
  - rewrite elem_of_nil. tauto.
  - apply NoDup_cons in Hwf as [Hk Hwf]. case_decide; simpl.
    + subst. rewrite elem_of_cons. split; [|tauto].
      intros Hin. split; [by right|]. by intros ->.
    + rewrite !elem_of_cons, IH by done. split; [|tauto].
      intros [->|[? ?]]; split; auto.
Qed.

Lemma dict_wf_ddel k d : dict_wf d -> dict_wf (ddel k d).
Proof.
  intros Hwf. assert (Hw := Hwf). revert Hwf. unfold dict_wf, dkeys.
  induction d as [|[k2 v2] d IH]; simpl; [done|].
  rewrite !NoDup_cons. intros [Hk Hd]. case_decide; [done|]. simpl.
  apply NoDup_cons. split; [|apply IH; done].
  intros Hin. apply Hk. by apply (elem_of_dkeys_ddel k2 k d Hd) in Hin as [? _].
Qed.

Lemma dget_ddel_eq k d : dict_wf d -> dget k (ddel k d) = None.
Proof. intros. apply dget_None. rewrite elem_of_dkeys_ddel by done. tauto. Qed.

Lemma dget_ddel_ne k k' d : k <> k' -> dget k (ddel k' d) = dget k d.
Proof.
  intros Hne. induction d as [|[k2 v2] d IH]; simpl; [done|].
  destruct (decide (k' = k2)); simpl; destruct (decide (k = k2)); congruence.
Qed.

Lemma ddel_fresh k d : k ∉ dkeys d -> ddel k d = d.
Proof.
  unfold dkeys. induction d as [|[k' v'] d IH]; simpl; [done|].
  rewrite not_elem_of_cons. intros [? ?]. rewrite decide_False by done. f_equal. auto.
Qed.

Lemma length_dset k v d :
  length (dset k v d) = if decide (k ∈ dkeys d) then length d else S (length d).
Proof.
  assert (Hk := dkeys_dset k v d). apply (f_equal length) in Hk. revert Hk.
  unfold dkeys. rewrite !length_fmap. case_decide.
  - by rewrite length_fmap.
  - rewrite length_app, length_fmap. simpl. lia.
Qed.

Lemma length_ddel k d : k ∈ dkeys d -> S (length (ddel k d)) = length d.
Proof.
  unfold dkeys. induction d as [|[k' v'] d IH]; simpl; [by intros ?%elem_of_nil|].
  rewrite elem_of_cons. destruct (decide (k = k')) as [->|Hne]; [done|].
  intros [->|Hin]; [done|]. simpl. f_equal. auto.
Qed.

Lemma ddel_perm k v d : dget k d = Some v -> d ≡ₚ (k, v) :: ddel k d.
Proof.
  induction d as [|[k' v'] d IH]; simpl; [done|]. case_decide; subst; [by intros [= ->]|].
  intros Hg. rewrite (IH Hg) at 1. apply Permutation_swap.
Qed.

Lemma dict_wf_filter (P : K * V -> Prop) `{forall x, Decision (P x)} d :
  dict_wf d -> dict_wf (filter P d).
Proof.
  unfold dict_wf, dkeys. induction d as [|x d IH]; [done|].
  rewrite fmap_cons, NoDup_cons. intros [Hx Hd]. rewrite filter_cons.
  case_decide; [|auto]. rewrite fmap_cons, NoDup_cons. split; [|auto]. intros Hin. apply Hx.
  apply list_elem_of_fmap in Hin as (y & Hy & Hin). rewrite Hy.
  apply list_elem_of_fmap. exists y. split; [done|].
  by apply list_elem_of_filter in Hin as [_ ?].
Qed.

End dict.

(** A dictionary seen through [dget] only. *)
Definition dict_equiv {K V} `{EqDecision K} (d1 d2 : dict K V) : Prop :=
  forall k, dget k d1 = dget k d2.

#[export] Instance dict_equiv_equivalence {K V} `{EqDecision K} :
  Equivalence (@dict_equiv K V _).
Proof.
  split; unfold dict_equiv; [done|by intros ????|].
  intros d1 d2 d3 H1 H2 k. by rewrite H1.
Qed.

#[export] Instance dget_proper {K V} `{EqDecision K} (k : K) :
  Proper (dict_equiv ==> eq) (@dget K V _ k).
Proof. intros d1 d2 H. apply H. Qed.

#[export] Instance dset_proper {K V} `{EqDecision K} (k : K) (v : V) :
  Proper (dict_equiv ==> dict_equiv) (dset k v).
Proof.
  intros d1 d2 H k'. destruct (decide (k' = k)) as [->|].
  - by rewrite !dget_dset_eq.
  - by rewrite !dget_dset_ne.
Qed.

#[export] Hint Resolve dict_wf_dset dict_wf_ddel : lake.

(** [INSERT OR REPLACE]: the old entry goes, the new one comes last. *)
Section replace.
Context {K V : Type} `{EqDecision K}.
Implicit Types d : dict K V.

Lemma dget_app k d e : dget k (d ++ e) = match dget k d with Some v => Some v | None => dget k e end.
Proof. induction d as [|[k' v] d IH]; simpl; [done|]. by case_decide. Qed.

Lemma dget_replace k v k' d : dict_wf d ->
  dget k' (ddel k d ++ [(k, v)]) = if decide (k' = k) then Some v else dget k' d.
Proof.
  intros Hw. rewrite dget_app. simpl. case_decide; [subst; by rewrite dget_ddel_eq|].
  rewrite dget_ddel_ne by done. by destruct (dget k' d).
Qed.

Lemma dict_wf_replace k v d : dict_wf d -> dict_wf (ddel k d ++ [(k, v)]).
Proof.
  intros Hw. unfold dict_wf, dkeys. rewrite fmap_app. apply NoDup_app. split_and!.
  - by apply dict_wf_ddel.
  - intros k' Hk Hs. apply list_elem_of_singleton in Hs as ->.
    by apply (elem_of_dkeys_ddel k k d Hw) in Hk as [_ []].
  - apply NoDup_singleton.
Qed.

Lemma dget_filter_key (P : K -> Prop) `{forall x, Decision (P x)} k d :
  dget k (filter (fun kv => P kv.1) d) = if decide (P k) then dget k d else None.
Proof.
  induction d as [|[k' v] d IH]; [simpl; by case_decide|]. rewrite filter_cons. simpl.
  destruct (decide (P k')); simpl; rewrite IH; repeat case_decide; subst; done.
Qed.

End replace.

(** ** Dicts and finite maps *)

(** A dict that reads like a finite map lists the map's entries. *)
Lemma dict_map_perm {K V W} `{Countable K} (f : W -> V) (d : dict K V) (m : gmap K W) :
  dict_wf d -> (forall k, dget k d = f <$> m !! k) ->
  d ≡ₚ (fun kv => (kv.1, f kv.2)) <$> map_to_list m.
Proof.
  intros Hwf Hd. apply NoDup_Permutation.
  - by apply (NoDup_fmap_1 fst).
  - apply (NoDup_fmap_1 fst). rewrite <- list_fmap_compose. apply NoDup_fst_map_to_list.
  - intros [k v]. rewrite <- (dget_elem_of k v d Hwf), Hd, list_elem_of_fmap. split.
    + intros (w&Hm&->)%fmap_Some. exists (k, w). by rewrite elem_of_map_to_list.
    + intros ([k' w]&[= -> ->]&Hm%elem_of_map_to_list). by rewrite Hm.
Qed.
