(* ===== verification/LakeTypes.v ===== *)
(** * Data model of the lake runtime

    The dataclasses and enums of [python/lake/runtime] and
    [python/lake/engine/pool_types.py] with the source's fields, the process
    role and its validation, the prefix-hint geometry, and [FutureMap].
    Python [int] is [Z], [float] is [Q]; a [Dict] that is only looked up is a
    [gmap], one whose iteration order is observed is a [dict]. *)

From Stdlib Require Import QArith.
From S2P Require Import Prelude PyDict.
Open Scope Z_scope.

(** ** scheduler_output.py *)

Inductive ForwardMode : Type :=
| EXTEND | DECODE | MIXED | IDLE | TARGET_VERIFY | DRAFT_EXTEND | PREBUILT.

#[export] Instance ForwardMode_eq_dec : EqDecision ForwardMode.
Proof. solve_decision. Defined.

Record SamplingParams : Type := mkSamplingParams {
  max_new_tokens : Z;
  temperature : Q;
  structured_output : option string
}.

Record NewRequestData : Type := mkNewRequestData {
  nr_req_id : string;
  nr_prompt_token_ids : list Z;
  nr_sampling_params : SamplingParams;
  nr_num_computed_tokens : Z;
  nr_lora_id : option string
}.

Record CachedRequestData : Type := mkCachedRequestData {
  cr_req_ids : list string;
  cr_num_computed_tokens : list Z;
  cr_num_output_tokens : list Z;
  cr_new_token_ids : option (dict string (list Z))
}.

Definition empty_cached : CachedRequestData := mkCachedRequestData [] [] [] None.

Inductive PoolKind : Type := TARGET | DRAFT.

Record ReqIoSet : Type := mkReqIoSet {
  io_req_id : string;
  token_start : Z;
  token_end : Z;
  pool_kind : PoolKind
}.

Record GrammarOutput : Type := mkGrammarOutput {
  g_req_ids : list string;
  token_bitmask_by_req : dict string (list bool);
  deferred_req_ids : list string;
  g_reason : string
}.

Record SchedulerOutput : Type := mkSchedulerOutput {
  so_step_id : Z;
  forward_mode : ForwardMode;
  scheduled_new_reqs : list NewRequestData;
  scheduled_cached_reqs : CachedRequestData;
  num_scheduled_tokens : dict string Z;
  total_num_scheduled_tokens : Z;
  read_set : list ReqIoSet;
  write_set : list ReqIoSet;
  global_num_tokens : option (list Z);
  can_run_graph : option bool;
  scheduled_spec_decode_tokens : option (dict string (list Z));
  has_structured_output : bool;
  grammar_output : option GrammarOutput;
  req_forward_modes : dict string ForwardMode;
  req_num_computed_at_schedule : dict string Z;
  req_query_start : dict string Z;
  req_query_end : dict string Z
}.

(** [SchedulerOutput(step_id=.., forward_mode=IDLE, total_num_scheduled_tokens=0)] *)
Definition idle_output (step : Z) : SchedulerOutput :=
  mkSchedulerOutput step IDLE [] empty_cached [] 0 [] [] None None None false None
    [] [] [] [].

(** ** exec_mode.py, prefix_hint.py *)

Inductive ExecMode : Type := COLOCATED | PD_DISAGG | D_DIRECT.

Record PrefixHint : Type := mkPrefixHint {
  hint_computed_tokens : Z;
  hint_reused_blocks : Z;
  local_hit : bool;
  prebuilt : bool
}.

Definition empty_hint : PrefixHint := mkPrefixHint 0 0 false false.

(** ** req.py *)

Record Req : Type := mkReq {
  req_id : string;
  served_model_name : string;
  prompt_token_ids : list Z;
  sampling_params : SamplingParams;
  node_id : string;
  num_computed_tokens : Z;
  output_token_ids : list Z;
  reused_blocks : Z;
  prefill_blocks : Z;
  finished : bool;
  finish_reason : option string;
  exec_mode : ExecMode
}.

Definition num_output_tokens (r : Req) : Z := zlen (output_token_ids r).
Definition all_token_ids (r : Req) : list Z :=
  prompt_token_ids r ++ output_token_ids r.
Definition prompt_len (r : Req) : Z := zlen (prompt_token_ids r).
Definition max_new (r : Req) : Z := max_new_tokens (sampling_params r).

Definition set_num_computed (c : Z) (r : Req) : Req :=
  mkReq (req_id r) (served_model_name r) (prompt_token_ids r) (sampling_params r)
    (node_id r) c (output_token_ids r) (reused_blocks r) (prefill_blocks r)
    (finished r) (finish_reason r) (exec_mode r).

(** [req.output_token_ids.append(tok); req.num_computed_tokens += 1] *)
Definition append_token (tok : Z) (r : Req) : Req :=
  mkReq (req_id r) (served_model_name r) (prompt_token_ids r) (sampling_params r)
    (node_id r) (num_computed_tokens r + 1) (output_token_ids r ++ [tok])
    (reused_blocks r) (prefill_blocks r) (finished r) (finish_reason r) (exec_mode r).

Definition set_blocks (reused prefill : Z) (r : Req) : Req :=
  mkReq (req_id r) (served_model_name r) (prompt_token_ids r) (sampling_params r)
    (node_id r) (num_computed_tokens r) (output_token_ids r) reused prefill
    (finished r) (finish_reason r) (exec_mode r).

Definition set_finished (reason : string) (r : Req) : Req :=
  mkReq (req_id r) (served_model_name r) (prompt_token_ids r) (sampling_params r)
    (node_id r) (num_computed_tokens r) (output_token_ids r) (reused_blocks r)
    (prefill_blocks r) true (Some reason) (exec_mode r).

Definition apply_prefix_hint (h : PrefixHint) (r : Req) : Req :=
  set_blocks (hint_reused_blocks h) (prefill_blocks r)
    (set_num_computed (Z.min (hint_computed_tokens h) (prompt_len r)) r).

(** ** role.py *)

Inductive WorkerRole : Type := PREFILL | DECODE_ROLE | HYBRID.

#[export] Instance WorkerRole_eq_dec : EqDecision WorkerRole.
Proof. solve_decision. Defined.

Record RoleConfig : Type := mkRoleConfig {
  role : WorkerRole;
  enable_drafter : bool;
  num_draft_tokens : Z;
  enable_overlap : bool;
  max_running_reqs : Z;
  max_num_scheduled_tokens : Z;
  long_prefill_token_threshold : Z;
  max_model_length : Z;
  pull_budget_ms : Z;
  allow_partial_hit : bool;
  model_backend : string;
  model_path : string;
  role_served_model_name : string;
  model_revision : string;
  warmup_num_reqs : Z;
  warmup_tokens_per_req : Z
}.

(** [RoleConfig()] *)
Definition default_role : RoleConfig :=
  mkRoleConfig HYBRID false 2 true 8 8192 0 0 0 false "qwen3" EmptyString "model" EmptyString 1 1.

(** ** Errors

    [PoolError] carries a code; of the other exceptions only the class is
    kept, messages are not modelled. *)

Inductive PoolErrorCode : Type :=
| PC_OK | TIMEOUT | CAPACITY | PROTOCOL_ERROR | DOWNSTREAM | INVALID_ARG.

#[export] Instance PoolErrorCode_eq_dec : EqDecision PoolErrorCode.
Proof. solve_decision. Defined.

Inductive lexn : Type :=
| EPool (c : PoolErrorCode)
| EValueError
| ERuntimeError
| EKeyError
| EIndexError
| ENotImplemented
| EAssertion
| EGeneric.

(** [RoleConfig.__post_init__] *)
Definition role_post_init (c : RoleConfig) : result lexn RoleConfig :=
  if max_num_scheduled_tokens c <=? 0 then Raise EValueError
  else if max_running_reqs c <=? 0 then Raise EValueError
  else if warmup_num_reqs c <=? 0 then Raise EValueError
  else if warmup_tokens_per_req c <=? 0 then Raise EValueError
  else Ok c.

(** ** mode_select.py *)

Definition select_exec_mode (h : PrefixHint) (plen : Z) (r : WorkerRole) : ExecMode :=
  if (0 <? plen) && local_hit h && (0 <? hint_computed_tokens h) then D_DIRECT
  else if bool_decide (r = PREFILL) || bool_decide (r = DECODE_ROLE) then PD_DISAGG
  else COLOCATED.

Definition full_local_hit (h : PrefixHint) (plen : Z) : bool :=
  (0 <? plen) && (prebuilt h || (local_hit h && (plen <=? hint_computed_tokens h))).

(** ** pool_types.py *)

Record StepStats : Type := mkStepStats {
  st_reused_blocks : Z;
  st_prefill_blocks : Z;
  st_pulled_blocks : Z
}.

Record ReadyHandle : Type := mkReadyHandle {
  rh_step_id : Z;
  stats_by_req : dict string StepStats;
  effective_read_set : option (list ReqIoSet);
  effective_write_set : option (list ReqIoSet);
  block_table_by_req : dict string (list Z);
  slot_mapping_by_req : dict string (list Z)
}.

Record PreparePlan : Type := mkPreparePlan {
  pp_step_id : Z;
  pp_forward_mode : ForwardMode;
  pp_read_set : list ReqIoSet;
  pp_write_set : list ReqIoSet;
  pp_num_scheduled_tokens : dict string Z;
  pp_pull_budget_ms : Z;
  pp_allow_partial_hit : bool
}.

Record FinishRequest : Type := mkFinishRequest {
  fin_req_id : string;
  fin_node_id : string;
  fin_model_id : string
}.

(** ** model_runner.py: the runner's answer *)

Record ModelRunnerOutput : Type := mkModelRunnerOutput {
  mo_step_id : Z;
  next_token_ids : dict string (list Z);
  next_draft_tokens : dict string (list Z);
  mo_model_backend : string
}.

(** ** future_map.py *)

Module FutureMap.

Record t : Type := mk {
  staged : gmap string Z;
  buf : gmap string Z
}.

Definition init : t := mk ∅ ∅.
Definition stash (rid : string) (tok : Z) (f : t) : t := mk (<[rid := tok]> (staged f)) (buf f).
Definition publish (f : t) : t := mk ∅ (staged f ∪ buf f).
Definition resolve (rid : string) (f : t) : option Z := buf f !! rid.
Definition clear (rid : string) (f : t) : t := mk (delete rid (staged f)) (delete rid (buf f)).

(** A token becomes visible to the next step exactly when it is published,
    and the last one stashed wins. *)
Lemma resolve_publish rid f :
  resolve rid (publish f) = match staged f !! rid with Some t => Some t | None => resolve rid f end.
Proof.
  unfold resolve, publish. simpl. destruct (staged f !! rid) eqn:E.
  - by apply lookup_union_Some_l.
  - by rewrite lookup_union_r.
Qed.

End FutureMap.

(** ** Counters kept in dictionaries *)

(** [d.get(k, 0)] *)
Definition get0 (k : string) (m : gmap string Z) : Z := default 0 (m !! k).

Lemma get0_insert rid k v m :
  get0 rid (<[k := v]> m) = if decide (rid = k) then v else get0 rid m.
Proof. unfold get0. rewrite lookup_insert. repeat case_decide; simplify_eq; done. Qed.

Lemma get0_delete rid k m :
  get0 rid (delete k m) = if decide (rid = k) then 0 else get0 rid m.
Proof. unfold get0. rewrite lookup_delete. repeat case_decide; simplify_eq; done. Qed.

(** ** Facts about requests *)

Lemma full_local_hit_len h plen : full_local_hit h plen = true -> 0 < plen.
Proof. unfold full_local_hit. intros. zbool. lia. Qed.

Lemma apply_prefix_hint_le h r : num_computed_tokens (apply_prefix_hint h r) <= prompt_len r.
Proof. simpl. lia. Qed.

Lemma role_post_init_ok c c' : role_post_init c = Ok c' ->
  c' = c /\ 0 < max_num_scheduled_tokens c /\ 0 < max_running_reqs c.
Proof. unfold role_post_init. intros H. repeat case_match; simplify_eq; zbool; split_and!; lia || done. Qed.
