(* ===== verification/Agent.v ===== *)
(** * The storage agent

    [StorageAgent] is the protocol of [python/lake/engine/agent.py] the engine
    talks to; [InMemory] is the implementation of
    [python/lake/engine/agents/memory.py], with the ready/done fence, the
    deferred end of a request, and the write high-water mark. *)

From S2P Require Import Prelude PyDict LakeTypes.

(** ** The protocol (agent.py)

    The four optional operations are looked up with [getattr] or [isinstance]
    by the caller; an agent without them is legal.  [ag_probe_local] is there
    exactly for the in-memory agent. *)

Class StorageAgent (A : Type) : Type := {
  ag_prepare_step : PreparePlan -> M A lexn ReadyHandle;
  ag_done : Z -> M A lexn unit;
  ag_on_request_finished : FinishRequest -> M A lexn unit;
  ag_commit_write_extent : option (string -> Z -> M A lexn unit);
  ag_probe_local : option (string -> Z -> A -> Z * bool);
  ag_probe_prefix : option (Req -> M A lexn PrefixHint);
  ag_bind_host_reqs : option (gmap string Req -> A -> A)
}.

(** The slots handed out for a write are as many as its tokens. *)
Definition slots_fit (writes : list ReqIoSet) (h : ReadyHandle) : Prop :=
  NoDup (io_req_id <$> writes) ->
  forall io slots, io ∈ writes -> token_start io <= token_end io ->
    dget (io_req_id io) (slot_mapping_by_req h) = Some slots ->
    zlen slots = token_end io - token_start io.

(** What a caller that alternates [prepare_step] and [done] may rely on: in
    an idle state a plan whose writes are all scheduled is made ready with its
    sets unshrunk, [done] with the same step ends it, and the other calls keep
    the agent idle.  An agent that reads the host's requests needs them bound, with
    models and prompts it accepts. *)
Class ReliableAgent (A : Type) {SA : StorageAgent A} (budget : Z) : Type := {
  ag_idle : A -> Prop;
  ag_busy : Z -> A -> Prop;
  ag_prompt_ok : string -> list Z -> Prop;
  ag_bound : gmap string Req -> A -> Prop;
  ag_prepare_ok : forall plan reqs a, ag_idle a -> pp_pull_budget_ms plan = budget -> ag_bound reqs a ->
    (forall io, io ∈ pp_read_set plan ++ pp_write_set plan ->
       exists r, reqs !! io_req_id io = Some r /\ ag_prompt_ok (served_model_name r) (prompt_token_ids r)) ->
    exists a' h, ag_prepare_step plan a = (a', Ok h) /\ ag_busy (pp_step_id plan) a' /\
      rh_step_id h = pp_step_id plan /\
      effective_read_set h = Some (pp_read_set plan) /\
      effective_write_set h = Some (pp_write_set plan) /\
      (forall rid, rid ∈ dkeys (stats_by_req h) ->
         rid ∈ io_req_id <$> pp_read_set plan ++ pp_write_set plan) /\
      slots_fit (pp_write_set plan) h;
  ag_done_ok : forall step a, ag_busy step a ->
    exists a', ag_done step a = (a', Ok tt) /\ ag_idle a';
  ag_finish_ok : forall fin a, ag_idle a ->
    exists a', ag_on_request_finished fin a = (a', Ok tt) /\ ag_idle a';
  ag_commit_ok : forall commit rid e a, ag_commit_write_extent = Some commit -> ag_idle a ->
    exists a', commit rid e a = (a', Ok tt) /\ ag_idle a';
  ag_bind_ok : forall bind reqs a, ag_bind_host_reqs = Some bind -> ag_idle a ->
    ag_idle (bind reqs a) /\ ag_bound reqs (bind reqs a);
  ag_unbound_ok : forall reqs a, ag_bind_host_reqs = None -> ag_bound reqs a
}.

(** ** agents/memory.py *)

Module InMemory.

Record t : Type := mk {
  l0_token_end : gmap string Z;
  ready_step : option Z;
  frozen_reqs : gset string;
  deferred_finish : list FinishRequest;
  finished_log : list string;
  force_pull_reqs : gset string;
  pull_cost_ms : Z;
  prepare_calls : Z;
  done_calls : Z;
  prepares_since_commit : gmap string Z
}.

Definition init : t := mk ∅ None ∅ [] [] ∅ 0 0 0 ∅.

Definition set_l0 (m : gmap string Z) (a : t) : t :=
  mk m (ready_step a) (frozen_reqs a) (deferred_finish a) (finished_log a)
    (force_pull_reqs a) (pull_cost_ms a) (prepare_calls a) (done_calls a)
    (prepares_since_commit a).
Definition set_ready (r : option Z) (a : t) : t :=
  mk (l0_token_end a) r (frozen_reqs a) (deferred_finish a) (finished_log a)
    (force_pull_reqs a) (pull_cost_ms a) (prepare_calls a) (done_calls a)
    (prepares_since_commit a).
Definition set_frozen (f : gset string) (a : t) : t :=
  mk (l0_token_end a) (ready_step a) f (deferred_finish a) (finished_log a)
    (force_pull_reqs a) (pull_cost_ms a) (prepare_calls a) (done_calls a)
    (prepares_since_commit a).
Definition set_deferred (d : list FinishRequest) (a : t) : t :=
  mk (l0_token_end a) (ready_step a) (frozen_reqs a) d (finished_log a)
    (force_pull_reqs a) (pull_cost_ms a) (prepare_calls a) (done_calls a)
    (prepares_since_commit a).
Definition set_prepares (p : gmap string Z) (a : t) : t :=
  mk (l0_token_end a) (ready_step a) (frozen_reqs a) (deferred_finish a) (finished_log a)
    (force_pull_reqs a) (pull_cost_ms a) (prepare_calls a) (done_calls a) p.
Definition bump_prepare (a : t) : t :=
  mk (l0_token_end a) (ready_step a) (frozen_reqs a) (deferred_finish a) (finished_log a)
    (force_pull_reqs a) (pull_cost_ms a) (prepare_calls a + 1) (done_calls a)
    (prepares_since_commit a).
Definition bump_done (a : t) : t :=
  mk (l0_token_end a) (ready_step a) (frozen_reqs a) (deferred_finish a) (finished_log a)
    (force_pull_reqs a) (pull_cost_ms a) (prepare_calls a) (done_calls a + 1)
    (prepares_since_commit a).

Definition seed_local_prefix (rid : string) (e : Z) (a : t) : t :=
  set_l0 (<[rid := Z.max (get0 rid (l0_token_end a)) e]> (l0_token_end a)) a.

Definition probe_local (rid : string) (plen : Z) (a : t) : Z * bool :=
  let have := get0 rid (l0_token_end a) in
  (Z.min have plen, (0 <? plen) && (plen <=? have)).

Definition commit_write_extent (rid : string) (e : Z) : M t lexn unit := fun a =>
  let e' := Z.max 0 e in
  let n := get0 rid (prepares_since_commit a) in
  if 1 <? n then (set_prepares (<[rid := n - 1]> (prepares_since_commit a)) a, Ok tt)
  else
    let a1 := match l0_token_end a !! rid with
              | Some h => set_l0 (<[rid := Z.min h e']> (l0_token_end a)) a
              | None => a
              end in
    (set_prepares (<[rid := 0]> (prepares_since_commit a1)) a1, Ok tt).

Definition apply_finish (fin : FinishRequest) (a : t) : t :=
  mk (delete (fin_req_id fin) (l0_token_end a)) (ready_step a) (frozen_reqs a)
    (deferred_finish a) (finished_log a ++ [fin_req_id fin]) (force_pull_reqs a)
    (pull_cost_ms a) (prepare_calls a) (done_calls a)
    (delete (fin_req_id fin) (prepares_since_commit a)).

Definition flush_deferred_finish (a : t) : t :=
  if bool_decide (ready_step a <> None) || bool_decide (frozen_reqs a <> ∅) then a
  else foldl (fun a fin => apply_finish fin a) (set_deferred [] a) (deferred_finish a).

(** The local variables of [prepare_step]. *)
Record locals : Type := mkLocals {
  pl_stats : dict string StepStats;
  pl_eff_read : list ReqIoSet;
  pl_eff_write : list ReqIoSet;
  pl_pull_ms : Z
}.

Definition zero_stats : StepStats := mkStepStats 0 0 0.
Definition drop_req (rid : string) (l : list ReqIoSet) : list ReqIoSet :=
  filter (fun x => io_req_id x <> rid) l.

(** The body of the [read_set] loop. *)
Definition read_one (plan : PreparePlan) (l : locals) (io : ReqIoSet) : M t lexn locals :=
  fun a =>
  let rid := io_req_id io in
  let have := get0 rid (l0_token_end a) in
  let freeze (a : t) : t := set_frozen ({[rid]} ∪ frozen_reqs a) a in
  if bool_decide (rid ∈ force_pull_reqs a) || (have <? token_end io) then
    let ms := pl_pull_ms l + pull_cost_ms a in
    if (0 <? pp_pull_budget_ms plan) && (pp_pull_budget_ms plan <? ms) then
      if pp_allow_partial_hit plan then
        (a, Ok (mkLocals (pl_stats l) (drop_req rid (pl_eff_read l))
                  (drop_req rid (pl_eff_write l)) ms))
      else (a, Raise (EPool TIMEOUT))
    else
      let st := default zero_stats (dget rid (pl_stats l)) in
      let st' := mkStepStats (st_reused_blocks st) (st_prefill_blocks st)
                   (st_pulled_blocks st + 1) in
      (freeze (set_l0 (<[rid := Z.max have (token_end io)]> (l0_token_end a)) a),
       Ok (mkLocals (dset rid st' (pl_stats l)) (pl_eff_read l) (pl_eff_write l) ms))
  else
    (freeze a, Ok (mkLocals (dsetdefault rid zero_stats (pl_stats l)).1
                     (pl_eff_read l) (pl_eff_write l) (pl_pull_ms l))).

(** The body of the [write_set] loop. *)
Definition write_one (l : locals) (io : ReqIoSet) : M t lexn locals := fun a =>
  let rid := io_req_id io in
  if bool_decide (rid ∈ io_req_id <$> pl_eff_write l) then
    let a1 := set_l0 (<[rid := Z.max (get0 rid (l0_token_end a)) (token_end io)]>
                        (l0_token_end a)) a in
    let a2 := set_prepares (<[rid := get0 rid (prepares_since_commit a1) + 1]>
                              (prepares_since_commit a1)) a1 in
    let a3 := set_frozen ({[rid]} ∪ frozen_reqs a2) a2 in
    let st := default zero_stats (dget rid (pl_stats l)) in
    let st' := if (token_start io =? 0) && (0 <? token_end io)
               then mkStepStats (st_reused_blocks st) (Z.max (st_prefill_blocks st) 1)
                      (st_pulled_blocks st)
               else st in
    (a3, Ok (mkLocals (dset rid st' (pl_stats l)) (pl_eff_read l) (pl_eff_write l)
               (pl_pull_ms l)))
  else (a, Ok l).

(** The block and slot tables. [live_reqs] is a Python set: the order in which
    it fills [block_table_by_req] is not fixed, the model takes the order of
    the sets. *)
Definition block_table (a : t) (live : list ReqIoSet) : dict string (list Z) :=
  foldl (fun d io => dset (io_req_id io)
    (py_range ((get0 (io_req_id io) (l0_token_end a) + 7) / 8)) d) [] live.
Definition slot_table (w : list ReqIoSet) : dict string (list Z) :=
  foldl (fun d io => dset (io_req_id io) (py_range2 (token_start io) (token_end io)) d) [] w.

Definition prepare_step (plan : PreparePlan) : M t lexn ReadyHandle := fun a0 =>
  let a := bump_prepare a0 in
  match ready_step a with
  | Some _ => (a, Raise (EPool PROTOCOL_ERROR))
  | None =>
      (l1 ← fold_m (read_one plan) (pp_read_set plan)
              (mkLocals [] (pp_read_set plan) (pp_write_set plan) 0);
       l2 ← fold_m write_one (pp_write_set plan) l1;
       _ ← modify (set_ready (Some (pp_step_id plan)));
       a' ← gets id;
       mret (mkReadyHandle (pp_step_id plan) (pl_stats l2) (Some (pl_eff_read l2))
               (Some (pl_eff_write l2))
               (block_table a' (pl_eff_read l2 ++ pl_eff_write l2))
               (slot_table (pl_eff_write l2))))
      (flush_deferred_finish a)
  end.

Definition done (step : Z) : M t lexn unit := fun a0 =>
  let a := bump_done a0 in
  if bool_decide (ready_step a = Some step) then
    (flush_deferred_finish (set_frozen ∅ (set_ready None a)), Ok tt)
  else (a, Raise (EPool PROTOCOL_ERROR)).

Definition on_request_finished (fin : FinishRequest) : M t lexn unit := fun a =>
  if bool_decide (fin_req_id fin ∈ frozen_reqs a) || bool_decide (ready_step a <> None)
  then (set_deferred (deferred_finish a ++ [fin]) a, Ok tt)
  else (apply_finish fin a, Ok tt).

#[global] Instance agent : StorageAgent t := {|
  ag_prepare_step := prepare_step;
  ag_done := done;
  ag_on_request_finished := on_request_finished;
  ag_commit_write_extent := Some commit_write_extent;
  ag_probe_local := Some probe_local;
  ag_probe_prefix := None;
  ag_bind_host_reqs := None
|}.

(** ** Frame facts *)

(** What every step of [prepare_step] leaves alone. *)
Definition same_fence (a a' : t) : Prop :=
  ready_step a' = ready_step a /\ deferred_finish a' = deferred_finish a /\
  finished_log a' = finished_log a /\ frozen_reqs a ⊆ frozen_reqs a'.

Definition l0_le (a a' : t) : Prop :=
  forall rid, get0 rid (l0_token_end a) <= get0 rid (l0_token_end a').

Lemma same_fence_refl a : same_fence a a.
Proof. by repeat split. Qed.

Lemma same_fence_trans a b c : same_fence a b -> same_fence b c -> same_fence a c.
Proof. unfold same_fence. intros; split_hyps; split_and!; congruence || set_solver. Qed.

Lemma l0_le_refl a : l0_le a a.
Proof. intros ?. lia. Qed.

Lemma l0_le_trans a b c : l0_le a b -> l0_le b c -> l0_le a c.
Proof. intros H1 H2 rid. specialize (H1 rid). specialize (H2 rid). lia. Qed.

Lemma read_one_frame plan l io a a' r :
  read_one plan l io a = (a', r) ->
  same_fence a a' /\ l0_le a a' /\ prepares_since_commit a' = prepares_since_commit a.
Proof.
  unfold read_one. intros H.
  repeat case_match; simplify_eq/=; (split_and!; [by repeat split; simpl; set_solver| |done]);
    intros k; simpl; rewrite ?get0_insert; repeat (case_decide; subst); lia.
Qed.

Lemma write_one_frame l io a a' r :
  write_one l io a = (a', r) -> same_fence a a' /\ l0_le a a'.
Proof.
  unfold write_one. intros H.
  repeat case_match; simplify_eq/=; (split_and!; [by repeat split; simpl; set_solver|]);
    intros k; simpl; rewrite ?get0_insert; repeat (case_decide; subst); lia.
Qed.

Lemma flush_spec a :
  flush_deferred_finish a = a \/
  (ready_step a = None /\ frozen_reqs a = ∅ /\
  ready_step (flush_deferred_finish a) = None /\
  frozen_reqs (flush_deferred_finish a) = ∅ /\
  deferred_finish (flush_deferred_finish a) = [] /\
  finished_log (flush_deferred_finish a) =
     finished_log a ++ (fin_req_id <$> deferred_finish a)).
Proof.
  unfold flush_deferred_finish. case_match eqn:E; [by left|]. right. zbool.
  assert (Hr : ready_step a = None) by (destruct (ready_step a); [exfalso; naive_solver|done]).
  assert (Hf : frozen_reqs a = ∅) by (destruct (decide (frozen_reqs a = ∅)); naive_solver).
  do 2 (split; [done|]).
  enough (Hgen : forall ds b, ready_step b = None -> frozen_reqs b = ∅ ->
    let b' := foldl (fun a fin => apply_finish fin a) b ds in
    ready_step b' = None /\ frozen_reqs b' = ∅ /\ deferred_finish b' = deferred_finish b /\
    finished_log b' = finished_log b ++ (fin_req_id <$> ds))
    by exact (Hgen (deferred_finish a) (set_deferred [] a) Hr Hf).
  induction ds as [|d ds IH]; intros b Hb1 Hb2; simpl; [by rewrite app_nil_r|].
  destruct (IH (apply_finish d b) Hb1 Hb2) as (?&?&?&Hl). simpl in *.
  rewrite Hl, <- app_assoc. done.
Qed.

Lemma flush_down a : ready_step a = None -> frozen_reqs a = ∅ ->
  deferred_finish (flush_deferred_finish a) = [].
Proof.
  intros Hr Hf. destruct (flush_spec a) as [He|(?&?&?&?&?&?)]; [|done].
  unfold flush_deferred_finish in He |- *. rewrite !bool_decide_eq_false_2 in He |- * by naive_solver.
  simpl in He |- *. clear He.
  enough (Hgen : forall ds b, deferred_finish (foldl (fun a fin => apply_finish fin a) b ds) =
    deferred_finish b) by apply Hgen.
  induction ds as [|d ds IH]; intros b; simpl; [done|]. by rewrite IH.
Qed.

Lemma flush_frame a :
  ready_step (flush_deferred_finish a) = ready_step a /\
  frozen_reqs (flush_deferred_finish a) = frozen_reqs a.
Proof. destruct (flush_spec a) as [->|(?&?&?&?&?&?)]; split; congruence. Qed.

(** The two loops of [prepare_step], as one fact about its runs. *)
Definition read_frame (a a' : t) : Prop :=
  same_fence a a' /\ l0_le a a' /\ prepares_since_commit a' = prepares_since_commit a.

Lemma read_frame_trans a b c : read_frame a b -> read_frame b c -> read_frame a c.
Proof.
  intros (?&?&?) (?&?&?). split_and!;
    [by eapply same_fence_trans|by eapply l0_le_trans|congruence].
Qed.

Lemma reads_frame plan ios l a :
  hoare (fun s => s = a) (fold_m (read_one plan) ios l)
    (fun _ => read_frame a) (fun e s => e = EPool TIMEOUT /\ read_frame a s).
Proof.
  eapply hoare_conseq.
  - apply (hoare_fold_m _ _ _ (fun _ _ _ => read_frame a)
      (fun e s => e = EPool TIMEOUT /\ read_frame a s)).
    intros dn x todo b s Hs. destruct (read_one plan b x s) as [s' [l'|e]] eqn:E;
      pose proof (read_frame_trans _ _ _ Hs (read_one_frame _ _ _ _ _ _ E)); [done|].
    split; [|done]. revert E. unfold read_one. repeat case_match; intros; simplify_eq; done.
  - intros s ->. split_and!; [apply same_fence_refl|apply l0_le_refl|done].
  - simpl. auto.
  - simpl. auto.
Qed.

Lemma writes_frame ios l a :
  hoare (fun s => s = a) (fold_m write_one ios l)
    (fun _ s => same_fence a s /\ l0_le a s) (fun _ _ => False).
Proof.
  eapply hoare_conseq.
  - apply (hoare_fold_m _ _ _ (fun _ _ _ s => same_fence a s /\ l0_le a s) (fun _ _ => False)).
    intros dn x todo b s (Hf & Hl). destruct (write_one b x s) as [s' [l'|e]] eqn:E.
    + destruct (write_one_frame _ _ _ _ _ E) as (?&?).
      split; [by eapply same_fence_trans|by eapply l0_le_trans].
    + revert E. unfold write_one. by repeat case_match.
  - intros s ->. split; [apply same_fence_refl|apply l0_le_refl].
  - simpl. auto.
  - simpl. auto.
Qed.

(** [prepare_step] by cases: refused because a step is ready, timed out in the
    read loop, or ready. *)
Lemma prepare_cases plan a a' r :
  prepare_step plan a = (a', r) ->
  (ready_step a <> None /\ r = Raise (EPool PROTOCOL_ERROR) /\ a' = bump_prepare a) \/
  (ready_step a = None /\ r = Raise (EPool TIMEOUT) /\
   read_frame (flush_deferred_finish (bump_prepare a)) a') \/
  (exists l1 l2 a1 a2 h, ready_step a = None /\ r = Ok h /\
   fold_m (read_one plan) (pp_read_set plan)
     (mkLocals [] (pp_read_set plan) (pp_write_set plan) 0)
     (flush_deferred_finish (bump_prepare a)) = (a1, Ok l1) /\
   fold_m write_one (pp_write_set plan) l1 a1 = (a2, Ok l2) /\
   a' = set_ready (Some (pp_step_id plan)) a2 /\
   h = mkReadyHandle (pp_step_id plan) (pl_stats l2) (Some (pl_eff_read l2))
         (Some (pl_eff_write l2)) (block_table a' (pl_eff_read l2 ++ pl_eff_write l2))
         (slot_table (pl_eff_write l2))).
Proof.
  unfold prepare_step. simpl. destruct (ready_step a) eqn:Hr; intros H.
  { left. simplify_eq. done. }
  right.
  pose proof (reads_frame plan (pp_read_set plan)
    (mkLocals [] (pp_read_set plan) (pp_write_set plan) 0)
    (flush_deferred_finish (bump_prepare a)) _ eq_refl) as H1.
  destruct (fold_m (read_one plan) _ _ (flush_deferred_finish (bump_prepare a)))
    as [a1 [l1|e]] eqn:E1.
  - right. rewrite (bind_ok _ _ _ _ _ E1) in H.
    pose proof (writes_frame (pp_write_set plan) l1 a1 a1 eq_refl) as H2.
    destruct (fold_m write_one _ l1 a1) as [a2 [l2|e]] eqn:E2; [|done].
    rewrite (bind_ok _ _ _ _ _ E2) in H.
    exists l1, l2, a1, a2. eexists.
    unfold mbind, M_bind, modify, gets, mret, M_ret, id in H. simplify_eq.
    split_and!; done.
  - left. rewrite (bind_raise _ _ _ _ _ E1) in H. destruct H1 as [-> ?].
    by simplify_eq.
Qed.

Lemma prepare_ok_frame plan a a' h :
  prepare_step plan a = (a', Ok h) ->
  ready_step a = None /\ ready_step a' = Some (pp_step_id plan) /\
  rh_step_id h = pp_step_id plan.
Proof.
  intros H. destruct (prepare_cases _ _ _ _ H) as [(?&?&?)|[(?&?&?)|Hok]]; [done|done|].
  destruct Hok as (l1&l2&a1&a2&h'&?&?&?&?&?&?). simplify_eq. done.
Qed.

(** ** Histories of calls *)

Inductive call : Type :=
| CPrepare (plan : PreparePlan)
| CDone (step : Z)
| CFinish (fin : FinishRequest)
| CCommit (rid : string) (e : Z)
| CSeed (rid : string) (e : Z).

Inductive reply : Type :=
| RReady (h : ReadyHandle)
| RUnit
| RError (e : lexn).

Definition unit_reply (r : t * result lexn unit) : t * reply :=
  match r with (a, Ok _) => (a, RUnit) | (a, Raise e) => (a, RError e) end.

(** One call of the agent; a raised error is the reply and the state it left
    is kept, as in Python. *)
Definition serve (c : call) (a : t) : t * reply :=
  match c with
  | CPrepare plan =>
      match prepare_step plan a with
      | (a', Ok h) => (a', RReady h)
      | (a', Raise e) => (a', RError e)
      end
  | CDone step => unit_reply (done step a)
  | CFinish fin => unit_reply (on_request_finished fin a)
  | CCommit rid e => unit_reply (commit_write_extent rid e a)
  | CSeed rid e => (seed_local_prefix rid e a, RUnit)
  end.

Definition serve_all (cs : list call) (a : t) : t := foldl (fun a c => (serve c a).1) a cs.

Definition requested (cs : list call) : list string :=
  omap (fun c => match c with CFinish fin => Some (fin_req_id fin) | _ => None end) cs.

(** Finishes are neither lost nor applied twice, and none waits behind a fence
    that is down. *)
Definition finish_inv (req : list string) (a : t) : Prop :=
  finished_log a ++ (fin_req_id <$> deferred_finish a) ≡ₚ req /\
  (deferred_finish a <> [] -> ready_step a <> None \/ frozen_reqs a <> ∅).

Lemma finish_inv_flush req a : finish_inv req a -> finish_inv req (flush_deferred_finish a).
Proof.
  intros [Hp Hd]. destruct (flush_spec a) as [->|(_&_&_&_&Hdf&Hl)]; [done|].
  unfold finish_inv. rewrite Hdf, Hl, app_nil_r. done.
Qed.

Lemma finish_inv_fence req a a' :
  same_fence a a' -> finish_inv req a -> finish_inv req a'.
Proof.
  intros (Hr&Hd&Hl&Hf) [Hp Hw]. unfold finish_inv. rewrite Hd, Hl, Hr.
  split; [done|]. intros H. destruct (Hw H); set_solver.
Qed.

Lemma finish_inv_down req (a : t) :
  finished_log a ++ (fin_req_id <$> deferred_finish a) ≡ₚ req ->
  finish_inv req (flush_deferred_finish (set_frozen ∅ (set_ready None a))).
Proof.
  intros Hp. set (b := set_frozen ∅ (set_ready None a)).
  pose proof (flush_down b eq_refl eq_refl) as Hd. split; [|by rewrite Hd].
  destruct (flush_spec b) as [He|(_&_&_&_&_&Hl)].
  - by rewrite He.
  - by rewrite Hd, Hl, app_nil_r.
Qed.

Lemma finish_inv_prepare req plan a :
  finish_inv req a -> finish_inv req (prepare_step plan a).1.
Proof.
  intros H. destruct (prepare_step plan a) as [a' r] eqn:E. simpl.
  assert (Hb : finish_inv req (flush_deferred_finish (bump_prepare a)))
    by by apply finish_inv_flush.
  destruct (prepare_cases _ _ _ _ E) as [(_&_&->)|[(_&_&[Hf _])|Hok]]; [done|by eapply finish_inv_fence|].
  destruct Hok as (l1&l2&a1&a2&h&Hr&_&E1&E2&->&_).
  destruct (hoare_run _ _ _ _ _ _ (reads_frame _ _ _ _) E1) as (H1&_&_).
  destruct (hoare_run _ _ _ _ _ _ (writes_frame _ _ _) E2) as [H2 _].
  destruct (finish_inv_fence _ _ _ H2 (finish_inv_fence _ _ _ H1 Hb)) as [Hp _].
  split; [exact Hp|]. intros _. by left.
Qed.

Lemma finish_inv_serve req c a :
  finish_inv req a -> finish_inv (req ++ requested [c]) (serve c a).1.
Proof.
  intros H. destruct c as [plan|step|fin|rid e|rid e]; simpl; rewrite ?app_nil_r.
  - pose proof (finish_inv_prepare req plan a H) as Hp.
    by destruct (prepare_step plan a) as [a' [h|e]].
  - unfold done. destruct H as [Hp Hd]. simpl. case_match; [|split; done].
    simpl. by apply (finish_inv_down req (bump_done a)).
  - destruct H as [Hp Hd]. unfold on_request_finished. case_match eqn:E; simpl.
    + split; simpl.
      * by rewrite fmap_app, app_assoc, Hp.
      * intros _. apply orb_true_iff in E as [E|E]; zbool; set_solver.
    + zbool. split; simpl; [|exact Hd]. rewrite <- Hp.
      rewrite <- !app_assoc. f_equiv. by rewrite Permutation_app_comm.
  - unfold commit_write_extent. repeat (case_match; simpl); exact H.
  - exact H.
Qed.

Lemma finish_inv_history cs : finish_inv (requested cs) (serve_all cs init).
Proof.
  induction cs as [|c cs IH] using rev_ind; [by split|].
  unfold serve_all. rewrite foldl_app. simpl.
  unfold requested. rewrite omap_app. by apply finish_inv_serve.
Qed.

(** ** What a ready step promises *)

Definition resident (a : t) (io : ReqIoSet) : Prop :=
  token_end io <= get0 (io_req_id io) (l0_token_end a).

Lemma resident_le a a' io : l0_le a a' -> resident a io -> resident a' io.
Proof. intros H Hr. unfold resident in *. specialize (H (io_req_id io)). lia. Qed.

(** The effective sets only shrink, by whole requests, and never lose a
    request that was not over budget. *)
Definition shrunk (plan : PreparePlan) (l : locals) : Prop :=
  exists dropped : list string,
    pl_eff_read l = filter (fun io => io_req_id io ∉ dropped) (pp_read_set plan) /\
    pl_eff_write l = filter (fun io => io_req_id io ∉ dropped) (pp_write_set plan) /\
    (pp_allow_partial_hit plan = false \/ pp_pull_budget_ms plan <= 0 -> dropped = []).

Lemma drop_req_filter rid dropped (ios : list ReqIoSet) :
  drop_req rid (filter (fun io => io_req_id io ∉ dropped) ios) =
  filter (fun io => io_req_id io ∉ rid :: dropped) ios.
Proof.
  unfold drop_req. rewrite list_filter_filter. apply list_filter_iff.
  intros io. rewrite not_elem_of_cons. tauto.
Qed.

Lemma filter_none (ios : list ReqIoSet) :
  filter (fun io => io_req_id io ∉ ([] : list string)) ios = ios.
Proof. induction ios as [|io ios IH]; [done|]. rewrite filter_cons, decide_True by set_solver. by f_equal. Qed.

Lemma read_one_ready plan l io a a' l' :
  read_one plan l io a = (a', Ok l') -> shrunk plan l ->
  shrunk plan l' /\ (io ∈ pl_eff_read l' -> resident a' io) /\
  pl_eff_read l' ⊆ pl_eff_read l /\ pl_eff_write l' ⊆ pl_eff_write l.
Proof.
  unfold read_one. intros H Hs. repeat case_match; simplify_eq/=.
  - split_and!.
    + destruct Hs as (dr&Hr&Hw&Hd). exists (io_req_id io :: dr). simpl.
      rewrite Hr, Hw, !drop_req_filter. split_and!; [done..|].
      intros []; zbool; [congruence|lia].
    + unfold drop_req. rewrite list_elem_of_filter. naive_solver.
    + intros x. unfold drop_req. rewrite list_elem_of_filter. tauto.
    + intros x. unfold drop_req. rewrite list_elem_of_filter. tauto.
  - split_and!; [exact Hs| |done..]. intros _. unfold resident. simpl.
    rewrite get0_insert, decide_True by done. lia.
  - split_and!; [exact Hs| |done..]. intros _. unfold resident. simpl. zbool. lia.
Qed.

Lemma reads_ready plan a a' l :
  fold_m (read_one plan) (pp_read_set plan)
    (mkLocals [] (pp_read_set plan) (pp_write_set plan) 0) a = (a', Ok l) ->
  shrunk plan l /\ Forall (resident a') (pl_eff_read l).
Proof.
  intros E.
  enough (shrunk plan l /\ forall io, io ∈ pp_read_set plan -> io ∈ pl_eff_read l -> resident a' io)
    as [Hs Hr].
  { split; [done|]. apply Forall_forall. intros io Hio. apply Hr; [|done].
    destruct Hs as (dr&Hr'&_). rewrite Hr' in Hio. by apply list_elem_of_filter in Hio as [_ ?]. }
  refine (hoare_run _ _ _ _ (fun l s => shrunk plan l /\
    forall io, io ∈ pp_read_set plan -> io ∈ pl_eff_read l -> resident s io)
    (fun _ _ => True) _ E).
  eapply hoare_conseq.
  - apply (hoare_fold_m _ _ _ (fun dn _ l s => shrunk plan l /\
      forall io, io ∈ dn -> io ∈ pl_eff_read l -> resident s io) (fun _ _ => True)).
    intros dn x todo b s [Hs Hr]. destruct (read_one plan b x s) as [s' [l'|e]] eqn:E'; [|done].
    destruct (read_one_ready _ _ _ _ _ _ E' Hs) as (Hs'&Hx&Hsub&_). split; [done|].
    intros io Hio Hin. apply elem_of_app in Hio as [Hio|Hio%list_elem_of_singleton].
    + eapply resident_le; [|by apply Hr, Hsub]. by destruct (read_one_frame _ _ _ _ _ _ E') as (_&?&_).
    + subst. auto.
  - intros s ->. split; [|set_solver]. exists []. by rewrite !filter_none.
  - simpl. auto.
  - simpl. auto.
Qed.

Lemma write_one_ready l io a a' l' :
  write_one l io a = (a', Ok l') ->
  pl_eff_read l' = pl_eff_read l /\ pl_eff_write l' = pl_eff_write l /\
  (io ∈ pl_eff_write l -> resident a' io).
Proof.
  unfold write_one. intros H. case_match eqn:E; simplify_eq/=; split_and!; try done.
  - intros _. unfold resident. simpl. rewrite get0_insert, decide_True by done. lia.
  - zbool. intros Hio. destruct E. by apply list_elem_of_fmap_2.
Qed.

Lemma writes_ready ios l a a' l' :
  fold_m write_one ios l a = (a', Ok l') ->
  pl_eff_read l' = pl_eff_read l /\ pl_eff_write l' = pl_eff_write l /\
  (forall io, io ∈ ios -> io ∈ pl_eff_write l -> resident a' io).
Proof.
  intros E. refine (hoare_run _ _ _ _ (fun b s => pl_eff_read b = pl_eff_read l /\
    pl_eff_write b = pl_eff_write l /\
    forall io, io ∈ ios -> io ∈ pl_eff_write l -> resident s io) (fun _ _ => True) _ E).
  eapply hoare_conseq.
  - apply (hoare_fold_m _ _ _ (fun dn _ b s => pl_eff_read b = pl_eff_read l /\
      pl_eff_write b = pl_eff_write l /\
      forall io, io ∈ dn -> io ∈ pl_eff_write l -> resident s io) (fun _ _ => True)).
    intros dn x todo b s (H1&H2&Hr). destruct (write_one b x s) as [s' [b'|e]] eqn:E'; [|done].
    destruct (write_one_ready _ _ _ _ _ E') as (?&?&Hx). split_and!; [congruence..|].
    intros io Hio Hin. apply elem_of_app in Hio as [Hio|Hio%list_elem_of_singleton].
    + eapply resident_le; [|by apply Hr]. by destruct (write_one_frame _ _ _ _ _ E').
    + subst. apply Hx. congruence.
  - intros s ->. split_and!; [done..|]. set_solver.
  - simpl. auto.
  - simpl. auto.
Qed.

Lemma dget_tables {B} (f : ReqIoSet -> B) (ios : list ReqIoSet) (d : dict string B) io :
  io ∈ ios -> (forall x, x ∈ ios -> io_req_id x = io_req_id io -> f x = f io) ->
  dget (io_req_id io) (foldl (fun d x => dset (io_req_id x) (f x) d) d ios) = Some (f io).
Proof.
  induction ios as [|x ios IH] using rev_ind; [set_solver|].
  intros Hin Hf. rewrite foldl_app. simpl.
  destruct (decide (io_req_id io = io_req_id x)) as [He|Hne].
  - rewrite He, dget_dset_eq. f_equal. apply Hf; set_solver.
  - rewrite dget_dset_ne by done. apply IH; [|set_solver].
    apply elem_of_app in Hin as [?|Hx]; [done|].
    apply list_elem_of_singleton in Hx. congruence.
Qed.

Lemma dget_block_table a live io :
  io ∈ live ->
  dget (io_req_id io) (block_table a live) =
    Some (py_range ((get0 (io_req_id io) (l0_token_end a) + 7) / 8)).
Proof. intros H. by apply (dget_tables (fun x => py_range _)); [|intros x _ ->]. Qed.

Lemma dget_slot_table w io :
  io ∈ w -> NoDup (io_req_id <$> w) ->
  dget (io_req_id io) (slot_table w) = Some (py_range2 (token_start io) (token_end io)).
Proof.
  intros Hio Hnd. apply (dget_tables (fun x => py_range2 (token_start x) (token_end x))); [done|].
  intros x Hx He. apply list_elem_of_lookup in Hio as [i Hi], Hx as [j Hj].
  assert (i = j) as ->; [|congruence].
  eapply (NoDup_lookup _ _ _ (io_req_id io) Hnd); rewrite list_lookup_fmap; [by rewrite Hi|].
  rewrite Hj. simpl. by f_equal.
Qed.

Lemma NoDup_eff_ids (dropped : list string) (ios : list ReqIoSet) :
  NoDup (io_req_id <$> ios) ->
  NoDup (io_req_id <$> filter (fun io => io_req_id io ∉ dropped) ios).
Proof.
  induction ios as [|x ios IH]; [done|]. rewrite fmap_cons, NoDup_cons. intros [Hx Hnd].
  rewrite filter_cons. case_decide; [|auto]. rewrite fmap_cons, NoDup_cons. split; [|auto].
  intros Hin. apply Hx. apply list_elem_of_fmap in Hin as (y&->&Hy).
  apply list_elem_of_filter in Hy as [_ Hy]. by apply list_elem_of_fmap_2.
Qed.

Lemma slot_in_blocks x e have :
  0 <= x -> x < e -> e <= have -> x / 8 ∈ py_range ((have + 7) / 8).
Proof.
  intros. unfold py_range. apply elem_of_zseq.
  assert (x / 8 < (have + 7) / 8).
  { apply Z.div_lt_upper_bound; [lia|].
    assert (have < 8 * ((have + 7) / 8) + 1) by (pose proof (Z.mod_pos_bound (have+7) 8); pose proof (Z.div_mod (have+7) 8); lia).
    lia. }
  assert (0 <= x / 8) by (apply Z.div_pos; lia). lia.
Qed.

(** ** Outstanding write reservations

    Every write of a ready step reserves slots up to its [token_end]; a commit
    settles the oldest reservation of its request.  The queue of reservations
    that are not settled is ghost state computed from the history. *)

Abbreviation ghost := (gmap string (list Z)).

Definition pending (g : ghost) (rid : string) : list Z := default [] (g !! rid).
Definition ghost_clear (rids : list string) (g : ghost) : ghost :=
  foldl (fun g rid => delete rid g) g rids.
Definition ghost_push (ws : list ReqIoSet) (g : ghost) : ghost :=
  foldl (fun g io =>
    <[io_req_id io := pending g (io_req_id io) ++ [token_end io]]> g) g ws.

Definition ghost_step (c : call) (a a' : t) (rep : reply) (g : ghost) : ghost :=
  let g1 := ghost_clear (drop (length (finished_log a)) (finished_log a')) g in
  match c, rep with
  | CPrepare _, RReady h => ghost_push (default [] (effective_write_set h)) g1
  | CCommit rid _, _ => <[rid := tail (pending g1 rid)]> g1
  | _, _ => g1
  end.

Definition ghost_serve (ag : t * ghost) (c : call) : t * ghost :=
  let '(a, g) := ag in
  let '(a', rep) := serve c a in (a', ghost_step c a a' rep g).
Definition ghost_run (cs : list call) : t * ghost := foldl ghost_serve (init, ∅) cs.

Definition reserve_inv (g : ghost) (a : t) : Prop := forall rid,
  get0 rid (prepares_since_commit a) = zlen (pending g rid) /\
  Forall (fun e => e <= get0 rid (l0_token_end a)) (pending g rid).

Lemma pending_insert g k q rid :
  pending (<[k := q]> g) rid = if decide (rid = k) then q else pending g rid.
Proof. unfold pending. rewrite lookup_insert. repeat case_decide; simplify_eq; done. Qed.

Lemma pending_delete g k rid :
  pending (delete k g) rid = if decide (rid = k) then [] else pending g rid.
Proof. unfold pending. rewrite lookup_delete. repeat case_decide; simplify_eq; done. Qed.

Lemma reserve_raise g a a' :
  l0_le a a' -> prepares_since_commit a' = prepares_since_commit a ->
  reserve_inv g a -> reserve_inv g a'.
Proof.
  intros Hl Hp H rid. destruct (H rid) as [Hn Hf]. rewrite Hp. split; [done|].
  eapply Forall_impl; [exact Hf|]. intros e He. specialize (Hl rid). simpl in *. lia.
Qed.

Lemma reserve_finishes g a fins :
  reserve_inv g a ->
  reserve_inv (ghost_clear (fin_req_id <$> fins) g)
    (foldl (fun a fin => apply_finish fin a) a fins).
Proof.
  revert g a. induction fins as [|fin fins IH]; intros g a H; simpl; [done|].
  apply IH. intros rid. simpl. rewrite pending_delete, !get0_delete.
  case_decide; [by split|]. apply H.
Qed.

Lemma reserve_flush g a :
  reserve_inv g a ->
  reserve_inv
    (ghost_clear (drop (length (finished_log a)) (finished_log (flush_deferred_finish a))) g)
    (flush_deferred_finish a).
Proof.
  intros H. destruct (flush_spec a) as [He|(_&_&_&_&_&Hl)].
  - rewrite He, drop_all. exact H.
  - rewrite Hl, drop_app_length. unfold flush_deferred_finish.
    case_match eqn:E.
    + assert (Hnil : fin_req_id <$> deferred_finish a = []).
      { revert Hl. unfold flush_deferred_finish. rewrite E. intros Hl.
        apply (f_equal length) in Hl. rewrite length_app in Hl.
        destruct (fin_req_id <$> deferred_finish a); [done|]. simpl in Hl. lia. }
      by rewrite Hnil.
    + by apply (reserve_finishes g (set_deferred [] a)).
Qed.

Lemma reserve_writes ios l a a' l' g :
  fold_m write_one ios l a = (a', Ok l') -> reserve_inv g a ->
  reserve_inv (ghost_push (filter (fun io => io_req_id io ∈ io_req_id <$> pl_eff_write l) ios) g) a'.
Proof.
  revert l a g. induction ios as [|io ios IH]; intros l a g H Hg.
  { unfold fold_m, mret, M_ret in H. by simplify_eq/=. }
  apply bind_ok_inv in H as (a1&l1&E1&E2). rewrite filter_cons.
  assert (Hw : pl_eff_write l1 = pl_eff_write l) by apply (write_one_ready _ _ _ _ _ E1).
  assert (IH' := fun g => IH _ _ g E2). rewrite Hw in IH'. clear IH Hw.
  revert E1 IH'. unfold write_one. case_match eqn:E; intros E1 IH; zbool; simplify_eq/=.
  - rewrite decide_True by done. simpl. apply IH.
    intros rid. simpl. rewrite pending_insert, !get0_insert. case_decide; subst; [|apply Hg].
    destruct (Hg (io_req_id io)) as [Hn Hf]. rewrite length_app. simpl. split; [lia|].
    apply Forall_app. split; [|repeat constructor; lia].
    eapply Forall_impl; [exact Hf|]. simpl. lia.
  - rewrite decide_False by done. by apply IH.
Qed.

Lemma shrunk_eff_ids plan l :
  shrunk plan l ->
  filter (fun io => io_req_id io ∈ io_req_id <$> pl_eff_write l) (pp_write_set plan) =
  pl_eff_write l.
Proof.
  intros (dr&_&Hw&_). etransitivity; [|symmetry; exact Hw]. apply filter_iff_in.
  intros io Hio. rewrite Hw, list_elem_of_fmap. split.
  - intros (y&->&Hy). by apply list_elem_of_filter in Hy as [? _].
  - intros Hd. exists io. split; [done|]. by apply list_elem_of_filter.
Qed.

Lemma reserve_prepare plan a a' r g :
  prepare_step plan a = (a', r) -> reserve_inv g a ->
  reserve_inv (ghost_step (CPrepare plan) a a'
    (match r with Ok h => RReady h | Raise e => RError e end) g) a'.
Proof.
  intros E Hg. pose proof (reserve_flush g (bump_prepare a) Hg) as Hfl.
  unfold ghost_step.
  destruct (prepare_cases _ _ _ _ E) as [(_&->&->)|[(_&->&Hf)|Hok]].
  - simpl. by rewrite drop_all.
  - destruct Hf as ((_&_&Hlog&_)&Hl&Hp). rewrite Hlog. by eapply reserve_raise.
  - destruct Hok as (l1&l2&a1&a2&h&_&->&E1&E2&->&->). simpl.
    destruct (hoare_run _ _ _ _ _ _ (reads_frame _ _ _ _) E1) as ((_&_&Hlog1&_)&Hle&Hp).
    destruct (hoare_run _ _ _ _ _ _ (writes_frame _ _ _) E2) as [(_&_&Hlog2&_) _].
    destruct (reads_ready _ _ _ _ E1) as [Hs _].
    destruct (writes_ready _ _ _ _ _ E2) as (_&Hw&_).
    rewrite Hlog2, Hlog1, Hw, <- (shrunk_eff_ids plan l1 Hs).
    apply (reserve_raise _ a2); [by intros ?|done|].
    eapply reserve_writes; [exact E2|]. by eapply reserve_raise.
Qed.

Lemma reserve_commit rid e a g :
  reserve_inv g a ->
  reserve_inv (<[rid := tail (pending g rid)]> g) (commit_write_extent rid e a).1.
Proof.
  intros Hg k. destruct (Hg k) as [Hn Hf], (Hg rid) as [Hn' _]. unfold commit_write_extent.
  rewrite pending_insert. destruct (1 <? _) eqn:E; zbool; simpl.
  - rewrite get0_insert. case_decide; subst; [|by split].
    destruct (pending g rid) as [|x q] eqn:Eq; simpl in *; [lia|].
    split; [lia|]. by apply Forall_cons_1 in Hf as [_ ?].
  - assert (Hk : k <> rid -> get0 k (l0_token_end match l0_token_end a !! rid with
        | Some h => set_l0 (<[rid := Z.min h (Z.max 0 e)]> (l0_token_end a)) a
        | None => a end) = get0 k (l0_token_end a)).
    { intros Hne. case_match; [|done]. simpl. by rewrite get0_insert, decide_False. }
    rewrite get0_insert. case_decide; subst.
    + assert (tail (pending g rid) = []) as ->.
      { destruct (pending g rid) as [|x [|y q]]; simpl in *; done || lia. }
      by split.
    + rewrite Hk by done. by case_match.
Qed.

Lemma reserve_serve c a g :
  reserve_inv g a ->
  reserve_inv (ghost_step c a (serve c a).1 (serve c a).2 g) (serve c a).1.
Proof.
  intros Hg. destruct c as [plan|step|fin|rid e|rid e]; simpl.
  - destruct (prepare_step plan a) as [a' r] eqn:E.
    pose proof (reserve_prepare _ _ _ _ _ E Hg). by destruct r.
  - unfold done, ghost_step. simpl. case_match; simpl; [|by rewrite drop_all].
    by apply (reserve_flush g (set_frozen ∅ (set_ready None (bump_done a)))).
  - unfold on_request_finished, ghost_step. case_match; simpl; [by rewrite drop_all|].
    rewrite drop_app_length. apply (reserve_finishes g a [fin] Hg).
  - unfold ghost_step. destruct (commit_write_extent rid e a) as [a' r] eqn:E.
    assert (finished_log a' = finished_log a /\ r = Ok tt) as [Hl ->].
    { revert E. unfold commit_write_extent. repeat case_match; intros; by simplify_eq/=. }
    pose proof (reserve_commit rid e a g Hg) as H. rewrite E in H. simpl in *.
    by rewrite Hl, drop_all.
  - unfold ghost_step. simpl. rewrite drop_all. apply (reserve_raise _ a); [|done..].
    intros k. simpl. rewrite get0_insert. case_decide; subst; lia.
Qed.

Lemma reserve_history cs : reserve_inv (ghost_run cs).2 (ghost_run cs).1.
Proof.
  induction cs as [|c cs IH] using rev_ind.
  { intros rid. unfold ghost_run, pending, get0. simpl. rewrite !lookup_empty. by split. }
  unfold ghost_run in *. rewrite foldl_app. destruct (foldl _ _ cs) as [a g]. simpl in *.
  pose proof (reserve_serve c a g IH). by destruct (serve c a).
Qed.

Lemma ghost_run_state cs : (ghost_run cs).1 = serve_all cs init.
Proof.
  induction cs as [|c cs IH] using rev_ind; [done|].
  unfold ghost_run, serve_all in *. rewrite !foldl_app, <- IH. simpl.
  destruct (foldl _ _ cs) as [a g]. simpl. by destruct (serve c a).
Qed.

(** ** The agent is reliable without a pull budget *)

Lemma reads_no_budget plan ios l a :
  pp_pull_budget_ms plan <= 0 ->
  exists a' l', fold_m (read_one plan) ios l a = (a', Ok l') /\
    pl_eff_read l' = pl_eff_read l /\ pl_eff_write l' = pl_eff_write l /\
    (forall rid, rid ∈ dkeys (pl_stats l') -> rid ∈ dkeys (pl_stats l) \/ rid ∈ io_req_id <$> ios).
Proof.
  intros Hb. revert l a. induction ios as [|io ios IH]; intros l a; simpl.
  { eexists _, _. split_and!; [done..|]. by left. }
  destruct (read_one plan l io a) as [a1 r] eqn:E.
  assert (exists l1, r = Ok l1 /\ pl_eff_read l1 = pl_eff_read l /\ pl_eff_write l1 = pl_eff_write l /\
    (forall rid, rid ∈ dkeys (pl_stats l1) -> rid ∈ dkeys (pl_stats l) \/ rid = io_req_id io))
    as (l1&->&Hr&Hw&Hk).
  { revert E. unfold read_one, dsetdefault. repeat case_match; intros; simplify_eq/=; zbool; try lia;
      eexists; (split_and!; [done..|]); intros rid; simpl; rewrite ?elem_of_dkeys_dset; tauto. }
  rewrite (bind_ok _ _ _ _ _ E). destruct (IH l1 a1) as (a2&l2&E2&Hr2&Hw2&Hk2).
  exists a2, l2. split_and!; [done|congruence..|]. intros rid Hin.
  destruct (Hk2 rid Hin) as [Hi|?]; [|set_solver]. destruct (Hk rid Hi); set_solver.
Qed.

Lemma writes_stats ios l a :
  exists a' l', fold_m write_one ios l a = (a', Ok l') /\
    pl_eff_read l' = pl_eff_read l /\ pl_eff_write l' = pl_eff_write l /\
    (forall rid, rid ∈ dkeys (pl_stats l') -> rid ∈ dkeys (pl_stats l) \/ rid ∈ io_req_id <$> ios).
Proof.
  revert l a. induction ios as [|io ios IH]; intros l a; simpl.
  { eexists _, _. split_and!; [done..|]. by left. }
  destruct (write_one l io a) as [a1 r] eqn:E.
  assert (exists l1, r = Ok l1 /\ pl_eff_read l1 = pl_eff_read l /\ pl_eff_write l1 = pl_eff_write l /\
    (forall rid, rid ∈ dkeys (pl_stats l1) -> rid ∈ dkeys (pl_stats l) \/ rid = io_req_id io))
    as (l1&->&Hr&Hw&Hk).
  { revert E. unfold write_one. repeat case_match; intros; simplify_eq/=;
      eexists; (split_and!; [done..|]); intros rid; simpl; rewrite ?elem_of_dkeys_dset; tauto. }
  rewrite (bind_ok _ _ _ _ _ E). destruct (IH l1 a1) as (a2&l2&E2&Hr2&Hw2&Hk2).
  exists a2, l2. split_and!; [done|congruence..|]. intros rid Hin.
  destruct (Hk2 rid Hin) as [Hi|?]; [|set_solver]. destruct (Hk rid Hi); set_solver.
Qed.

Definition idle (a : t) : Prop := ready_step a = None /\ frozen_reqs a = ∅.
Definition busy (step : Z) (a : t) : Prop := ready_step a = Some step.

Lemma prepare_no_budget plan a :
  idle a -> pp_pull_budget_ms plan <= 0 ->
  exists a' h, prepare_step plan a = (a', Ok h) /\ busy (pp_step_id plan) a' /\
    rh_step_id h = pp_step_id plan /\ effective_read_set h = Some (pp_read_set plan) /\
    effective_write_set h = Some (pp_write_set plan) /\
    (forall rid, rid ∈ dkeys (stats_by_req h) ->
       rid ∈ io_req_id <$> pp_read_set plan ++ pp_write_set plan) /\
    slots_fit (pp_write_set plan) h.
Proof.
  intros [Hr _] Hb. unfold prepare_step. simpl. rewrite Hr.
  destruct (reads_no_budget plan (pp_read_set plan)
    (mkLocals [] (pp_read_set plan) (pp_write_set plan) 0)
    (flush_deferred_finish (bump_prepare a)) Hb) as (a1&l1&E1&Hr1&Hw1&Hk1).
  rewrite (bind_ok _ _ _ _ _ E1).
  destruct (writes_stats (pp_write_set plan) l1 a1) as (a2&l2&E2&Hr2&Hw2&Hk2).
  rewrite (bind_ok _ _ _ _ _ E2). eexists _, _. split; [reflexivity|]. simpl.
  rewrite Hr2, Hw2, Hr1, Hw1. split_and!; [done..| |].
  - intros rid Hin. rewrite fmap_app, elem_of_app.
    destruct (Hk2 rid Hin) as [Hi|?]; [|by right].
    destruct (Hk1 rid Hi) as [?|?]; [set_solver|by left].
  - intros Hnd io slots Hio Hle. simpl. rewrite dget_slot_table by done.
    intros [= <-]. unfold py_range2. rewrite length_zseq. lia.
Qed.

Lemma done_busy step a : busy step a -> exists a', done step a = (a', Ok tt) /\ idle a'.
Proof.
  unfold busy, done. intros Hb. simpl. rewrite Hb, bool_decide_eq_true_2 by done.
  eexists. split; [done|]. unfold idle.
  destruct (flush_frame (set_frozen ∅ (set_ready None (bump_done a)))) as [-> ->]. done.
Qed.

Lemma finish_idle fin a : idle a ->
  exists a', on_request_finished fin a = (a', Ok tt) /\ idle a'.
Proof.
  intros [Hr Hf]. unfold on_request_finished. rewrite Hr, Hf.
  rewrite !bool_decide_eq_false_2 by set_solver. eexists. split; [done|]. by split.
Qed.

Lemma commit_idle rid e a : idle a ->
  exists a', commit_write_extent rid e a = (a', Ok tt) /\ idle a'.
Proof. intros H. unfold commit_write_extent. repeat case_match; eexists; (split; [done|]); exact H. Qed.

#[global] Instance reliable : ReliableAgent t 0.
Proof.
  refine (Build_ReliableAgent t agent 0 idle busy (fun _ _ => True) (fun _ _ => True) _ _ _ _ _ _).
  - intros plan reqs a Ha Hb _ _. apply prepare_no_budget; [done|lia].
  - apply done_busy.
  - apply finish_idle.
  - intros commit rid e a [= <-]. apply commit_idle.
  - done.
  - done.
Defined.

(** ** Properties *)

(** C4. A request's end is applied exactly once: after any history of calls the
    applied ends together with the deferred ones are the requested ones, and
    as soon as the fence goes down ([done] succeeds) every requested end has
    been applied. *)
Theorem finish_exactly_once cs :
  let a := serve_all cs init in
  finished_log a ++ (fin_req_id <$> deferred_finish a) ≡ₚ requested cs /\
  forall step a', serve (CDone step) a = (a', RUnit) -> finished_log a' ≡ₚ requested cs.
Proof.
  simpl. destruct (finish_inv_history cs) as [Hp Hd]. split; [done|]. intros step a'.
  unfold done. case_match; simpl; intros Hs; simplify_eq.
  destruct (finish_inv_down _ (bump_done (serve_all cs init)) Hp) as [Hp' _].
  revert Hp'. rewrite flush_down by done. by rewrite app_nil_r.
Qed.

(** The resident extent of [rid] after the call [c], while a step is ready: a seed
    raises the extent of its own request; the commit of a request with no further
    reservation outstanding cuts it to what was written; no other call moves it. *)
Definition extent_after (c : call) (a : t) (rid : string) : Z :=
  let have := get0 rid (l0_token_end a) in
  match c with
  | CSeed r e => if bool_decide (rid = r) then Z.max have e else have
  | CCommit r e => if bool_decide (rid = r) && (get0 r (prepares_since_commit a) <=? 1)
                   then Z.min have (Z.max 0 e) else have
  | _ => have
  end.

Lemma extent_after_commit rid e a k :
  get0 k (l0_token_end (commit_write_extent rid e a).1) = extent_after (CCommit rid e) a k.
Proof.
  unfold commit_write_extent, extent_after. destruct (1 <? get0 rid (prepares_since_commit a)) eqn:En; zbool; simpl.
  - by rewrite (proj2 (Z.leb_gt _ _)), andb_false_r by lia.
  - rewrite (proj2 (Z.leb_le _ _)), andb_true_r by lia.
    destruct (l0_token_end a !! rid) as [h|] eqn:El; simpl; rewrite ?get0_insert; case_bool_decide; subst; try done;
      rewrite ?decide_True, ?decide_False by done; unfold get0; rewrite ?El; simpl; lia.
Qed.

(** C9. While a step is ready, whatever call comes in other than the [done] of that
    step, the fence stays up: the ready step and the frozen requests are the same
    and no request end is applied; an end is put off, to be applied later, a
    second [prepare_step] and a foreign [done] are protocol errors.  The
    resident extent of every request after the call is exactly [extent_after]:
    nothing but the commit of a request itself, when no later reservation of it
    is outstanding, lowers its extent, and that to the committed end. *)
Theorem fence_protects st c a a' rep :
  ready_step a = Some st -> serve c a = (a', rep) -> c <> CDone st ->
  ready_step a' = Some st /\ frozen_reqs a' = frozen_reqs a /\ finished_log a' = finished_log a /\
  deferred_finish a' = deferred_finish a ++ match c with CFinish fin => [fin] | _ => [] end /\
  (forall rid, get0 rid (l0_token_end a') = extent_after c a rid) /\
  match c with CPrepare _ | CDone _ => rep = RError (EPool PROTOCOL_ERROR) | _ => rep = RUnit end.
Proof.
  intros Hr Hs Hd. destruct c as [plan|step|fin|rid e|rid e]; simpl in Hs.
  - unfold prepare_step in Hs. simpl in Hs. rewrite Hr in Hs. simplify_eq. by rewrite app_nil_r.
  - unfold done in Hs. simpl in Hs. rewrite Hr, bool_decide_eq_false_2 in Hs by naive_solver.
    simpl in Hs. simplify_eq. by rewrite app_nil_r.
  - unfold on_request_finished in Hs. rewrite (bool_decide_eq_true_2 (ready_step a <> None)), orb_true_r in Hs by congruence.
    simpl in Hs. by simplify_eq.
  - pose proof (extent_after_commit rid e a) as He. unfold commit_write_extent in He, Hs. rewrite app_nil_r.
    repeat case_match; simplify_eq/=; done.
  - simplify_eq. rewrite app_nil_r. split_and!; try done. intros k. simpl. rewrite get0_insert.
    case_bool_decide; case_decide; congruence.
Qed.

Example plan1 : PreparePlan :=
  mkPreparePlan 1 EXTEND [] [mkReqIoSet "a" 0 12 TARGET] [("a", 12)] 0 false.

Lemma fence_protects_witness :
  let a := serve_all [CPrepare plan1; CCommit "a" 3] init in
  ready_step a = Some 1 /\ get0 "a" (l0_token_end a) = 3.
Proof.
  destruct (fence_protects 1 (CCommit "a" 3) (serve_all [CPrepare plan1] init)
    (serve_all [CPrepare plan1; CCommit "a" 3] init) RUnit) as (H1&_&_&_&H2&_);
    [vm_compute; reflexivity|vm_compute; reflexivity|discriminate|].
  split; [exact H1|]. rewrite H2. vm_compute. reflexivity.
Defined.

Lemma finish_exactly_once_witness :
  finished_log (serve_all [CPrepare plan1; CFinish (mkFinishRequest "a" "n" "m"); CDone 1] init)
    ≡ₚ ["a"].
Proof.
  refine (proj2 (finish_exactly_once [CPrepare plan1; CFinish (mkFinishRequest "a" "n" "m")])
    1 (serve_all [CPrepare plan1; CFinish (mkFinishRequest "a" "n" "m"); CDone 1] init) _).
  vm_compute. reflexivity.
Defined.

(** C10. A step reported ready is complete: the effective sets are the plan's less
    the requests dropped for budget (none without [allow_partial_hit]), every
    effective range is resident, and each written slot lies in a block of its
    request's block table. *)
Theorem prepare_step_ready plan a a' h :
  prepare_step plan a = (a', Ok h) ->
  NoDup (io_req_id <$> pp_write_set plan) ->
  Forall (fun io => 0 <= token_start io) (pp_write_set plan) ->
  exists dropped : list string,
    let r := filter (fun io => io_req_id io ∉ dropped) (pp_read_set plan) in
    let w := filter (fun io => io_req_id io ∉ dropped) (pp_write_set plan) in
    (pp_allow_partial_hit plan = false \/ pp_pull_budget_ms plan <= 0 -> dropped = []) /\
    effective_read_set h = Some r /\ effective_write_set h = Some w /\
    Forall (resident a') (r ++ w) /\
    forall io, io ∈ w -> exists blocks,
      dget (io_req_id io) (slot_mapping_by_req h) =
        Some (py_range2 (token_start io) (token_end io)) /\
      dget (io_req_id io) (block_table_by_req h) = Some blocks /\
      forall slot, slot ∈ py_range2 (token_start io) (token_end io) -> slot / 8 ∈ blocks.
Proof.
  intros E Hnd Hpos. destruct (prepare_cases _ _ _ _ E) as [(?&?&?)|[(?&?&?)|Hok]]; [done|done|].
  destruct Hok as (l1&l2&a1&a2&h'&?&[= <-]&E1&E2&->&->).
  destruct (reads_ready _ _ _ _ E1) as [(dr&Hr&Hw&Hd) Hres].
  destruct (writes_ready _ _ _ _ _ E2) as (Hr2&Hw2&Hres2).
  destruct (hoare_run _ _ _ _ _ _ (writes_frame _ _ _) E2) as [_ Hle].
  exists dr. simpl. rewrite Hr2, Hw2, Hr, Hw. rewrite Hr in Hres. rewrite Hw in Hres2.
  assert (Hw' : forall io, io ∈ filter (fun io => io_req_id io ∉ dr) (pp_write_set plan) ->
    io ∈ pp_write_set plan /\ resident a2 io).
  { intros io Hio. assert (Hi := Hio). apply list_elem_of_filter in Hi as [_ Hi]. auto. }
  split_and!; [done..| |].
  - apply Forall_app. split.
    + eapply Forall_impl; [exact Hres|]. intros io. by apply resident_le.
    + apply Forall_forall. intros io Hio. by apply Hw'.
  - intros io Hio. destruct (Hw' io Hio) as [Hin Hre]. eexists. split_and!.
    + apply dget_slot_table; [done|]. by apply NoDup_eff_ids.
    + apply dget_block_table. set_solver.
    + intros slot Hslot. unfold py_range2 in Hslot. apply elem_of_zseq in Hslot.
      rewrite Forall_forall in Hpos. specialize (Hpos io Hin). unfold resident in Hre.
      apply slot_in_blocks with (e := token_end io); [lia..|exact Hre].
Qed.

Lemma prepare_step_ready_witness :
  exists blocks, dget "a" [("a", [0; 1])] = Some blocks /\
    forall slot, slot ∈ py_range2 0 12 -> slot / 8 ∈ (blocks : list Z).
Proof.
  destruct (prepare_step_ready plan1 init _ _ ltac:(reflexivity)
    ltac:(simpl; apply NoDup_singleton) ltac:(repeat constructor; simpl; lia))
    as (dr & Hd & _ & _ & _ & Hs).
  rewrite (Hd (or_introl eq_refl)) in Hs.
  destruct (Hs (mkReqIoSet "a" 0 12 TARGET) ltac:(simpl; left)) as (b & _ & Hb & Hsl).
  exists b. split; [exact Hb|exact Hsl].
Defined.

(** C8. Settling a step never takes away the slots a later step reserved: at every
    point of every history of calls, the resident extent of a request covers
    each of its write reservations that no commit has settled yet (commits
    settle in the order of the steps), although a commit may arrive after the
    next step was prepared. *)
Theorem commit_keeps_reservations cs rid e :
  e ∈ pending (ghost_run cs).2 rid -> e <= get0 rid (l0_token_end (serve_all cs init)).
Proof.
  rewrite <- ghost_run_state. intros He. destruct (reserve_history cs rid) as [_ Hf].
  rewrite Forall_forall in Hf. by apply Hf.
Qed.

Lemma commit_keeps_reservations_witness :
  13 <= get0 "a" (l0_token_end (serve_all [CPrepare plan1; CDone 1;
    CPrepare (mkPreparePlan 2 DECODE [] [mkReqIoSet "a" 12 13 TARGET] [("a", 1)] 0 false);
    CCommit "a" 12] init)).
Proof. apply commit_keeps_reservations. vm_compute. left. Defined.

End InMemory.
