(* ===== verification/GrpcAgent.v ===== *)
(** * The gRPC storage agent

    [GrpcSkeletonAgent] of [python/lake/engine/agents/grpc_skeleton.py]: the agent a
    worker uses against the control plane and the data service.

    The two services are other programs, reached through generated stubs: a stub
    call is a function of the state [W] of the services that answers or fails with
    [grpc.RpcError] ([None]).  [Contract] states what they do of what the agent relies
    on, refusals included, as the protocol file documents it and the control plane
    ([rust/controlplane]) and the data service ([rust/kv-pool]) implement it.
    SHA-256 is a parameter; bytes are integers.  The order in which Python
    iterates over a set of request ids is a parameter. *)

From S2P Require Import Prelude PyDict LakeTypes Agent.

Module Grpc.

Abbreviation bytes := (list Z).

Definition BLOCK_SIZE : Z := 8.

(** [KVBlockID] with the fields that vary: the pool kind is TARGET, the scope public,
    the revision empty. *)
Record BlockID : Type := mkBlockID { bid_model : string; bid_hash : bytes }.
#[export] Instance BlockID_eq_dec : EqDecision BlockID.
Proof. solve_decision. Defined.
#[export] Instance BlockID_countable : Countable BlockID.
Proof.
  refine (inj_countable' (fun b => (bid_model b, bid_hash b)) (fun p => mkBlockID p.1 p.2) _). by intros [].
Defined.

Record OpaqueBlock : Type := mkOpaque { ob_id : BlockID; ob_data : bytes }.
Record Location : Type := mkLocation { loc_node : string; loc_segment : Z; loc_offset : Z }.
Record BlockMeta : Type := mkMeta { bm_id : BlockID; bm_locations : list Location; bm_ref_count : Z }.

Inductive HashAlgo : Type := HASH_ALGO_UNSPECIFIED | HASH_SHA256_256 | HASH_SHA256_128 | HASH_BLAKE3_128.
#[export] Instance HashAlgo_eq_dec : EqDecision HashAlgo.
Proof. solve_decision. Defined.

(** [ModelDescriptor] without its quota, which the agent never sets. *)
Record ModelDescriptor : Type := mkDescriptor {
  md_model_id : string;
  md_revision : string;
  md_num_layers : Z;
  md_block_tokens : Z;
  md_bytes_per_block : Z;
  md_hash_algo : HashAlgo }.
#[export] Instance ModelDescriptor_eq_dec : EqDecision ModelDescriptor.
Proof. solve_decision. Defined.

(** The stubs, over the state of the services. *)
Record Stubs (W : Type) : Type := mkStubs {
  RegisterModel : ModelDescriptor -> W -> W * option bool;                 (* Ack.ok *)
  LookupPrefix : string -> list bytes -> string -> W -> W * option Z;      (* model, hashes, node; hit_length *)
  GetBlocks : list BlockID -> W -> W * option (list OpaqueBlock);
  PutBlocks : string -> list OpaqueBlock -> W -> W * option bool;
  RegisterBlocks : string -> list BlockMeta -> list bytes -> W -> W * option bool;
  RequestBarrier : string -> string -> W -> W * option bool }.
Arguments RegisterModel {W} _.
Arguments LookupPrefix {W} _.
Arguments GetBlocks {W} _.
Arguments PutBlocks {W} _.
Arguments RegisterBlocks {W} _.
Arguments RequestBarrier {W} _.

(** What the agent's own code can raise. *)
Inductive gexn : Type := GRpc | GRuntime | GKey | GIndex | GOverflow.

Record t (W : Type) : Type := mk {
  world : W;
  ready_step : option Z;
  host_reqs : gmap string Req;
  ensured_prefix : gset string;
  registered_models : gset (string * string) }.
Arguments mk {W} _ _ _ _ _.
Arguments world {W} _.
Arguments ready_step {W} _.
Arguments host_reqs {W} _.
Arguments ensured_prefix {W} _.
Arguments registered_models {W} _.

Section agent.
Context {W : Type} (sv : Stubs W) (sha256 : bytes -> bytes) (set_order : list string -> list string).
Abbreviation agent := (t W).

Definition set_world (w : W) (a : agent) : agent := mk w (ready_step a) (host_reqs a) (ensured_prefix a) (registered_models a).
Definition set_ready (r : option Z) (a : agent) : agent := mk (world a) r (host_reqs a) (ensured_prefix a) (registered_models a).
Definition set_ensured (e : gset string) (a : agent) : agent := mk (world a) (ready_step a) (host_reqs a) e (registered_models a).
Definition set_models (m : gset (string * string)) (a : agent) : agent := mk (world a) (ready_step a) (host_reqs a) (ensured_prefix a) m.

Definition bind_host_reqs (reqs : gmap string Req) (a : agent) : agent :=
  mk (world a) (ready_step a) reqs (ensured_prefix a) (registered_models a).

(** A stub call. *)
Definition rpc {B} (f : W -> W * option B) : M agent gexn B := fun a =>
  match f (world a) with
  | (w, Some b) => (set_world w a, Ok b)
  | (w, None) => (set_world w a, Raise GRpc)
  end.

Definition ack (ok : bool) : M agent gexn unit := if ok then mret tt else raise GRuntime.

(** ** Block hashes *)

(** [int(t).to_bytes(4, "little", signed=False)] *)
Definition le4 (x : Z) : option bytes :=
  if (0 <=? x) && (x <? 4294967296)
  then Some [Z.land x 255; Z.land (Z.shiftr x 8) 255; Z.land (Z.shiftr x 16) 255; Z.shiftr x 24]
  else None.

Fixpoint chunk_bytes (chunk : list Z) : option bytes :=
  match chunk with
  | [] => Some []
  | x :: chunk => match le4 x, chunk_bytes chunk with Some b, Some r => Some (b ++ r) | _, _ => None end
  end.

(** The chain over the chunks of [block_size] tokens. *)
Fixpoint chain (chunks : list (list Z)) (parent : bytes) : option (list bytes) :=
  match chunks with
  | [] => Some []
  | c :: chunks =>
      match chunk_bytes c with
      | None => None
      | Some b =>
          let digest := sha256 (parent ++ b) in
          match chain chunks digest with Some l => Some (digest :: l) | None => None end
      end
  end.

(** [token_ids[i : i + block_size]] for [i] in [range(0, len(token_ids), block_size)] *)
Definition chunks (toks : list Z) : list (list Z) :=
  (fun i => py_slice (i * BLOCK_SIZE) (i * BLOCK_SIZE + BLOCK_SIZE) toks) <$>
  py_range ((zlen toks + BLOCK_SIZE - 1) / BLOCK_SIZE).

Definition chain_block_hashes (toks : list Z) : option (list bytes) := chain (chunks toks) [].

Definition mock_kv_bytes (h : bytes) : bytes := [75; 86; 58] ++ take 16 h.

Definition hashes_of (toks : list Z) : M agent gexn (list bytes) :=
  match chain_block_hashes toks with Some l => mret l | None => raise GOverflow end.

(** ** Operations *)

Definition descriptor (model revision : string) : ModelDescriptor :=
  mkDescriptor model revision 1 BLOCK_SIZE 0 HASH_SHA256_256.

Definition ensure_model (model revision : string) : M agent gexn unit := fun a =>
  if bool_decide ((model, revision) ∈ registered_models a) then (a, Ok tt)
  else
    (ok ← rpc (RegisterModel sv (descriptor model revision));
     _ ← ack ok;
     modify (fun a => set_models ({[ (model, revision) ]} ∪ registered_models a) a)) a.

(** The downloaded blocks, compared with what was asked for. *)
Definition starts_kv (d : bytes) : bool := bool_decide (take 3 d = [75; 86; 58]).
Fixpoint check_got (ids : list BlockID) (got : list OpaqueBlock) : result gexn unit :=
  match got, ids with
  | [], _ => Ok tt
  | _ :: _, [] => Raise GIndex
  | b :: got, i :: ids =>
      if negb (bool_decide (bid_hash (ob_id b) = bid_hash i)) then Raise GRuntime
      else if negb (starts_kv (ob_data b)) then Raise GRuntime
      else check_got ids got
  end.

Definition get_reused (ids : list BlockID) (reused : Z) : M agent gexn unit :=
  if reused =? 0 then mret tt
  else
    got ← rpc (GetBlocks sv (py_take reused ids));
    if negb (zlen got =? reused) then raise GRuntime
    else lift (check_got ids got).

Definition put_missed (r : Req) (hashes : list bytes) (miss : list BlockID) : M agent gexn unit :=
  match miss with
  | [] => mret tt
  | _ =>
      ok ← rpc (PutBlocks sv (node_id r) ((fun b => mkOpaque b (mock_kv_bytes (bid_hash b))) <$> miss));
      _ ← ack ok;
      ok ← rpc (RegisterBlocks sv (node_id r) ((fun b => mkMeta b [mkLocation (node_id r) 1 0] 1) <$> miss) hashes);
      ack ok
  end.

Definition ensure_prefix_kv (r : Req) : M agent gexn StepStats :=
  hashes ← hashes_of (prompt_token_ids r);
  _ ← ensure_model (served_model_name r) EmptyString;
  let ids := mkBlockID (served_model_name r) <$> hashes in
  reused ← rpc (LookupPrefix sv (served_model_name r) hashes (node_id r));
  let miss_ids := drop (Z.to_nat reused) ids in
  _ ← get_reused ids reused;
  _ ← put_missed r hashes miss_ids;
  mret (mkStepStats reused (zlen miss_ids) 0).

Definition host_req (rid : string) : M agent gexn Req := fun a =>
  match host_reqs a !! rid with Some r => (a, Ok r) | None => (a, Raise GKey) end.

(** The requests whose prompt this step touches, with the host requests it reads. *)
Fixpoint touch_writes (ios : list ReqIoSet) (touched : gset string) : M agent gexn (gset string) :=
  match ios with
  | [] => mret touched
  | io :: ios =>
      r ← host_req (io_req_id io);
      touch_writes ios (if token_start io <? prompt_len r then {[ io_req_id io ]} ∪ touched else touched)
  end.

Fixpoint touch_reads (ios : list ReqIoSet) (touched : gset string) : M agent gexn (gset string) :=
  match ios with
  | [] => mret touched
  | io :: ios =>
      r ← host_req (io_req_id io);
      ensured ← gets (fun a => bool_decide (io_req_id io ∈ ensured_prefix a));
      touch_reads ios (if (0 <? token_end io) && (token_start io <? prompt_len r) && negb ensured
                       then {[ io_req_id io ]} ∪ touched else touched)
  end.

Fixpoint ensure_all (touched : gset string) (rids : list string) (stats : dict string StepStats) :
    M agent gexn (dict string StepStats) :=
  match rids with
  | [] => mret stats
  | rid :: rids =>
      r ← host_req rid;
      if bool_decide (rid ∈ touched) then
        st ← ensure_prefix_kv r;
        _ ← modify (fun a => set_ensured ({[ rid ]} ∪ ensured_prefix a) a);
        ensure_all touched rids (dset rid st stats)
      else ensure_all touched rids (dsetdefault rid (mkStepStats (reused_blocks r) 0 0) stats).1
  end.

(** [except grpc.RpcError ... except RuntimeError ...] of [prepare_step] *)
Definition prepare_exn (e : gexn) : lexn :=
  match e with GRpc | GRuntime => EPool DOWNSTREAM | GKey => EKeyError | GIndex => EIndexError | GOverflow => EGeneric end.
(** [except grpc.RpcError] of the other two *)
Definition rpc_exn (e : gexn) : lexn := match e with GRuntime => ERuntimeError | e => prepare_exn e end.

Definition convert {B} (f : gexn -> lexn) (c : M agent gexn B) : M agent lexn B := fun a =>
  match c a with (a', Ok b) => (a', Ok b) | (a', Raise e) => (a', Raise (f e)) end.

Definition plan_rids (plan : PreparePlan) : list string := io_req_id <$> pp_read_set plan ++ pp_write_set plan.

Definition prepare_step (plan : PreparePlan) : M agent lexn ReadyHandle := fun a =>
  match ready_step a with
  | Some _ => (a, Raise (EPool PROTOCOL_ERROR))
  | None =>
      (stats ← convert prepare_exn (
         touched ← touch_writes (pp_write_set plan) ∅;
         touched ← touch_reads (pp_read_set plan) touched;
         ensure_all touched (set_order (plan_rids plan)) []);
       _ ← modify (set_ready (Some (pp_step_id plan)));
       mret (mkReadyHandle (pp_step_id plan) stats (Some (pp_read_set plan)) (Some (pp_write_set plan)) [] [])) a
  end.

Definition done (step : Z) : M agent lexn unit := fun a =>
  if bool_decide (ready_step a = Some step) then (set_ready None a, Ok tt) else (a, Raise (EPool PROTOCOL_ERROR)).

Definition on_request_finished (fin : FinishRequest) : M agent lexn unit :=
  _ ← modify (fun a => set_ensured (ensured_prefix a ∖ {[ fin_req_id fin ]}) a);
  _ ← convert rpc_exn (rpc (RequestBarrier sv (fin_req_id fin) (fin_node_id fin)));
  mret tt.

Definition commit_write_extent (rid : string) (e : Z) : M agent lexn unit := mret tt.

Definition probe_prefix (r : Req) : M agent lexn PrefixHint :=
  convert rpc_exn (
    hashes ← hashes_of (prompt_token_ids r);
    match hashes with
    | [] => mret empty_hint
    | _ =>
        _ ← ensure_model (served_model_name r) EmptyString;
        reused ← rpc (LookupPrefix sv (served_model_name r) hashes (node_id r));
        mret (mkPrefixHint (Z.min (reused * BLOCK_SIZE) (prompt_len r)) reused false false)
    end).

#[export] Instance storage_agent : StorageAgent agent := {
  ag_prepare_step := prepare_step;
  ag_done := done;
  ag_on_request_finished := on_request_finished;
  ag_commit_write_extent := Some commit_write_extent;
  ag_probe_local := None;
  ag_probe_prefix := Some probe_prefix;
  ag_bind_host_reqs := Some bind_host_reqs
}.
End agent.

(** ** What the services promise *)

(** Their observable state: the registered models, by id and revision; those a quota
    is set for; the registered blocks, each with the chain of hashes up to it; the
    stored bytes. *)
Record View : Type := mkView {
  v_models : gmap (string * string) ModelDescriptor;
  v_quota : gset (string * string);
  v_blocks : gmap BlockID (list bytes);
  v_data : gmap BlockID bytes }.

(** [RegisterModel]: a new id and revision, or the same immutable fields; the quota is
    the one of the descriptor, none. *)
Definition register_model (d : ModelDescriptor) (v : View) : View * bool :=
  let key := (md_model_id d, md_revision d) in
  let accepted := (mkView (<[key := d]> (v_models v)) (v_quota v ∖ {[ key ]}) (v_blocks v) (v_data v), true) in
  if bool_decide (md_model_id d = EmptyString) then (v, false)
  else match v_models v !! key with
       | Some d' => if bool_decide (d' = d) then accepted else (v, false)
       | None => accepted
       end.

Definition known (m : string) (v : View) : bool := bool_decide (is_Some (v_models v !! (m, EmptyString))).

Section authority.
(** The positional hash of a chain, which the control plane files a block under. *)
Context (lineage : list bytes -> Z).

(** [LookupPrefix]: how many leading blocks are registered with the lineage they have
    in the chain. *)
Fixpoint lead_from (v : View) (model : string) (before hs : list bytes) : Z :=
  match hs with
  | [] => 0
  | h :: hs =>
      match v_blocks v !! mkBlockID model h with
      | Some c => if lineage c =? lineage (before ++ [h]) then 1 + lead_from v model (before ++ [h]) hs else 0
      | None => 0
      end
  end.
Definition lead (v : View) (model : string) (hs : list bytes) : Z := lead_from v model [] hs.
Definition lookup_prefix (v : View) (model : string) (hs : list bytes) : Z := if known model v then lead v model hs else 0.
End authority.

(** The position of a hash in the chain, the last one when it occurs again. *)
Fixpoint last_index (h : bytes) (hs : list bytes) : option nat :=
  match hs with
  | [] => None
  | x :: hs =>
      match last_index h hs with
      | Some i => Some (S i)
      | None => if bool_decide (x = h) then Some O else None
      end
  end.

(** The positions leave no hole between the first and the last one. *)
Definition contiguous (ps : list nat) : bool :=
  forallb (fun p => bool_decide (p = max_list ps) || bool_decide (S p ∈ ps)) ps.

(** [RegisterBlocks] accepts blocks of one registered model, each with a location, that
    are a contiguous segment of the chain; it files each one under its prefix of the
    chain, and refuses anything else unchanged. *)
Definition well_formed (hs : list bytes) (ms : list BlockMeta) (v : View) : bool :=
  match ms with
  | [] => true
  | m0 :: _ =>
      known (bid_model (bm_id m0)) v &&
      forallb (fun m => bool_decide (bid_model (bm_id m) = bid_model (bm_id m0))
                        && match bm_locations m with [] => false | _ => true end) ms &&
      match mapM (fun m => last_index (bid_hash (bm_id m)) hs) ms with Some ps => contiguous ps | None => false end
  end.

Definition file_block (hs : list bytes) (m : BlockMeta) (d : gmap BlockID (list bytes)) : gmap BlockID (list bytes) :=
  match last_index (bid_hash (bm_id m)) hs with Some i => <[bm_id m := take (S i) hs]> d | None => d end.
Definition register_blocks (hs : list bytes) (ms : list BlockMeta) (v : View) : View * bool :=
  if well_formed hs ms v
  then (mkView (v_models v) (v_quota v) (foldr (file_block hs) (v_blocks v) ms) (v_data v), true)
  else (v, false).

(** [PutBlocks] *)
Definition put_all (bs : list OpaqueBlock) (v : View) : View :=
  mkView (v_models v) (v_quota v) (v_blocks v) (foldr (fun b d => <[ob_id b := ob_data b]> d) (v_data v) bs).

(** The behaviour of the services when the transport delivers and nobody else changes
    their state.  Nothing is promised of a registration of blocks while a quota is
    set for their model: it may be refused, or evict other blocks. *)
Class Contract {W : Type} (sv : Stubs W) : Type := {
  view : W -> View;
  lineage : list bytes -> Z;
  c_model : forall d w, exists w',
    RegisterModel sv d w = (w', Some (register_model d (view w)).2) /\ view w' = (register_model d (view w)).1;
  c_lookup : forall m hs n w, exists w',
    LookupPrefix sv m hs n w = (w', Some (lookup_prefix lineage (view w) m hs)) /\ view w' = view w;
  c_get : forall ids w, exists w',
    GetBlocks sv ids w = (w', Some (omap (fun i => mkOpaque i <$> v_data (view w) !! i) ids)) /\ view w' = view w;
  c_put : forall n bs w, exists w', PutBlocks sv n bs w = (w', Some true) /\ view w' = put_all bs (view w);
  c_register : forall n ms hs w, (forall m, m ∈ ms -> (bid_model (bm_id m), EmptyString) ∉ v_quota (view w)) ->
    exists w', RegisterBlocks sv n ms hs w = (w', Some (register_blocks hs ms (view w)).2) /\
      view w' = (register_blocks hs ms (view w)).1;
  c_barrier : forall r n w, exists w',
    RequestBarrier sv r n w = (w', Some (negb (bool_decide (r = EmptyString)) && negb (bool_decide (n = EmptyString)))) /\
    view w' = view w }.

(** The plainest services that keep the promise. *)
Definition demo_lineage (c : list bytes) : Z := foldl (fun a h => 31 * a + 1 + zsum h) 0 c.
Definition plain : Stubs View := mkStubs View
  (fun d v => ((register_model d v).1, Some (register_model d v).2))
  (fun m hs _ v => (v, Some (lookup_prefix demo_lineage v m hs)))
  (fun ids v => (v, Some (omap (fun i => mkOpaque i <$> v_data v !! i) ids)))
  (fun _ bs v => (put_all bs v, Some true))
  (fun _ ms hs v => ((register_blocks hs ms v).1, Some (register_blocks hs ms v).2))
  (fun r n v => (v, Some (negb (bool_decide (r = EmptyString)) && negb (bool_decide (n = EmptyString))))).
#[export] Instance plain_contract : Contract plain.
Proof. refine {| view := id; lineage := demo_lineage |}; intros; eexists; done. Defined.

(** ** Chains *)

Section chains.
Context (sha256 : bytes -> bytes).

Lemma chain_take cs : forall p l k, chain sha256 cs p = Some l -> chain sha256 (take k cs) p = Some (take k l).
Proof.
  induction cs as [|c cs IH]; intros p l k H; simpl in H; [injection H as <-; by destruct k|].
  destruct (chunk_bytes c) as [b|] eqn:Hc; [|done]. destruct (chain _ cs _) as [l'|] eqn:Hl; [|done].
  injection H as <-. destruct k as [|k]; [done|]. simpl. by rewrite Hc, (IH _ _ k Hl).
Qed.

Lemma chain_length cs : forall p l, chain sha256 cs p = Some l -> length l = length cs.
Proof.
  induction cs as [|c cs IH]; intros p l H; simpl in H; [by injection H as <-|].
  destruct (chunk_bytes c); [|done]. destruct (chain _ cs _) eqn:Hl; [|done]. injection H as <-. simpl. by rewrite (IH _ _ Hl).
Qed.

(** Tokens that fit in four bytes can be hashed. *)
Definition token_ok (x : Z) : Prop := 0 <= x < 4294967296.

Lemma chunk_bytes_ok c : Forall token_ok c -> is_Some (chunk_bytes c).
Proof.
  induction 1 as [|x c Hx _ [b IH]]; [by eexists|]. simpl. unfold le4.
  rewrite (proj2 (Z.leb_le _ _)), (proj2 (Z.ltb_lt _ _)) by apply Hx. simpl. rewrite IH. by eexists.
Qed.

Lemma chain_ok cs : forall p, Forall (Forall token_ok) cs -> is_Some (chain sha256 cs p).
Proof.
  induction cs as [|c cs IH]; intros p H; [by eexists|]. apply Forall_cons in H as [[b Hb]%chunk_bytes_ok H].
  simpl. rewrite Hb. destruct (IH (sha256 (p ++ b)) H) as [l ->]. by eexists.
Qed.

Lemma chain_block_hashes_ok toks : Forall token_ok toks -> is_Some (chain_block_hashes sha256 toks).
Proof.
  intros H. apply chain_ok, Forall_fmap, Forall_forall. intros i _. simpl. unfold py_slice. by apply Forall_take, Forall_drop.
Qed.

(** The first [k] chunks depend on the first [k] blocks of tokens only. *)
Lemma chunks_take k t1 t2 : BLOCK_SIZE * Z.of_nat k <= zlen t1 -> BLOCK_SIZE * Z.of_nat k <= zlen t2 ->
  take (8 * k) t1 = take (8 * k) t2 -> take k (chunks t1) = take k (chunks t2).
Proof.
  unfold BLOCK_SIZE. intros H1 H2 Ht. unfold chunks, py_range, BLOCK_SIZE. rewrite <- !fmap_take.
  assert (Htake : forall l : list Z, 8 * Z.of_nat k <= zlen l -> take k (zseq 0 (Z.to_nat ((zlen l + 8 - 1) / 8))) = zseq 0 k).
  { intros l Hl. assert (Z.of_nat k <= (zlen l + 8 - 1) / 8) by (apply Z.div_le_lower_bound; lia).
    unfold zseq. rewrite <- fmap_take. f_equal. rewrite take_seq. f_equal. lia. }
  rewrite !Htake by done. apply list_fmap_ext. intros i x Hi.
  assert (0 <= x < Z.of_nat k) as Hx by (apply list_elem_of_lookup_2, elem_of_zseq in Hi; lia).
  assert (Hs : forall l : list Z, 8 * Z.of_nat k <= zlen l ->
    py_slice (x * 8) (x * 8 + 8) l = drop (Z.to_nat (x * 8)) (take (Z.to_nat (x * 8 + 8)) (take (8 * k) l))).
  { intros l Hl. rewrite py_slice_take by lia. rewrite take_take. f_equal. f_equal. lia. }
  by rewrite !Hs, Ht by done.
Qed.
(** A prompt has a hash for each of its full blocks. *)
Lemma full_blocks r hs k : chain_block_hashes sha256 (prompt_token_ids r) = Some hs ->
  BLOCK_SIZE * Z.of_nat k <= prompt_len r -> (k <= length hs)%nat.
Proof.
  intros Hr Hk. apply chain_length in Hr. rewrite Hr. unfold chunks, py_range. rewrite length_fmap, length_zseq.
  unfold BLOCK_SIZE, prompt_len in *. assert (Z.of_nat k <= (zlen (prompt_token_ids r) + 8 - 1) / 8); [apply Z.div_le_lower_bound; lia|lia].
Qed.
End chains.

(** ** The services' answers *)

Section lookup.
Context (lineage : list bytes -> Z).

(** Block [j] of the chain is registered with the lineage it has there. *)
Definition hit (v : View) (m : string) (c : list bytes) (h : bytes) : Prop :=
  exists c', v_blocks v !! mkBlockID m h = Some c' /\ lineage c' = lineage c.
Definition placed (v : View) (m : string) (hs : list bytes) : Prop :=
  forall j h, hs !! j = Some h -> hit v m (take (S j) hs) h.

Lemma lead_bounds v m hs : 0 <= lead lineage v m hs <= zlen hs.
Proof.
  unfold lead. generalize (@nil bytes). induction hs as [|h hs IH]; intros before; simpl; [lia|].
  case_match; [|lia]. case_match; [|lia]. specialize (IH (before ++ [h])). lia.
Qed.

Lemma lead_from_hit v m hs : forall before j h, (j < Z.to_nat (lead_from lineage v m before hs))%nat -> hs !! j = Some h ->
  hit v m (before ++ take (S j) hs) h.
Proof.
  induction hs as [|x hs IH]; intros before j h Hj Hh; [done|]. cbn [lead_from] in Hj.
  destruct (v_blocks v !! mkBlockID m x) as [c|] eqn:Hc; [|simpl in Hj; lia].
  destruct (lineage c =? _) eqn:He; [|simpl in Hj; lia]. apply Z.eqb_eq in He.
  destruct j as [|j]; [injection Hh as <-; by exists c|].
  change (take (S (S j)) (x :: hs)) with ([x] ++ take (S j) hs). rewrite app_assoc. apply IH; [lia|done].
Qed.
Lemma lead_hit v m hs j h : (j < Z.to_nat (lead lineage v m hs))%nat -> hs !! j = Some h -> hit v m (take (S j) hs) h.
Proof. apply (lead_from_hit v m hs []). Qed.

Lemma lead_from_ge v m hs : forall before k, (k <= length hs)%nat ->
  (forall j h, (j < k)%nat -> hs !! j = Some h -> hit v m (before ++ take (S j) hs) h) -> Z.of_nat k <= lead_from lineage v m before hs.
Proof.
  induction hs as [|x hs IH]; intros before [|k] Hk H; simpl in Hk; try (simpl; lia).
  { simpl. repeat case_match; try lia. pose proof (lead_bounds v m hs). specialize (IH (before ++ [x]) 0%nat ltac:(lia) ltac:(lia)). lia. }
  cbn [lead_from]. destruct (H 0%nat x ltac:(lia) eq_refl) as (c & -> & Hc). simpl in Hc. rewrite take_0 in Hc.
  rewrite (proj2 (Z.eqb_eq _ _) Hc). specialize (IH (before ++ [x]) k ltac:(lia)).
  assert (Z.of_nat k <= lead_from lineage v m (before ++ [x]) hs); [|lia]. apply IH. intros j h Hj Hh.
  rewrite <- app_assoc. apply (H (S j) h); [lia|done].
Qed.
Lemma lead_ge v m hs k : (k <= length hs)%nat ->
  (forall j h, (j < k)%nat -> hs !! j = Some h -> hit v m (take (S j) hs) h) -> Z.of_nat k <= lead lineage v m hs.
Proof. apply (lead_from_ge v m hs []). Qed.

Lemma lead_same_blocks v v' m hs : v_blocks v = v_blocks v' -> lead lineage v m hs = lead lineage v' m hs.
Proof.
  intros E. unfold lead. generalize (@nil bytes). induction hs as [|h hs IH]; intros before; [done|].
  cbn [lead_from]. by rewrite E, IH.
Qed.
End lookup.

Lemma last_index_unique hs : NoDup hs -> forall j h, hs !! j = Some h -> last_index h hs = Some j.
Proof.
  induction 1 as [|x hs Hx _ IH]; intros j h Hj; [done|]. simpl. destruct j as [|j].
  - injection Hj as ->. destruct (last_index h hs) as [i|] eqn:E; [|by rewrite bool_decide_eq_true_2].
    exfalso. apply Hx. clear -E. revert i E. induction hs as [|y hs IH]; intros i E; [done|]. simpl in E.
    destruct (last_index h hs) as [i'|]; [right; by eapply IH|]. case_bool_decide; [subst; left|done].
  - simpl in Hj. by rewrite (IH _ _ Hj).
Qed.

(** The positions of a suffix of a chain without repetitions. *)
Lemma suffix_positions hs k : NoDup hs -> mapM (fun h => last_index h hs) (drop k hs) = Some (seq k (length hs - k)).
Proof.
  intros Hnd. apply mapM_Some, Forall2_lookup. intros i. rewrite lookup_drop.
  destruct (hs !! (k + i)%nat) as [h|] eqn:E.
  - pose proof (lookup_lt_Some _ _ _ E). rewrite lookup_seq_lt by lia. constructor. by apply last_index_unique.
  - apply lookup_ge_None in E. rewrite lookup_seq_ge by lia. constructor.
Qed.

Lemma seq_contiguous k n : contiguous (seq k n) = true.
Proof.
  apply forallb_forall. intros p Hp%list_elem_of_In%elem_of_seq. apply orb_true_iff.
  destruct (decide (S p < k + n)%nat); [right; apply bool_decide_eq_true_2, elem_of_seq; lia|left].
  apply bool_decide_eq_true_2. assert (p = (k + n - 1)%nat) as -> by lia.
  assert (Hmax : forall m, max_list (seq k (S m)) = (k + m)%nat); [|destruct n as [|n]; [lia|rewrite Hmax; lia]].
  clear. intros m. revert k. induction m as [|m IH]; intros k; [simpl; lia|].
  change (max_list (seq k (S (S m)))) with (k `max` max_list (seq (S k) (S m)))%nat. rewrite IH. lia.
Qed.

(** ** The prefix cache *)

(** Every registered block has its bytes, and a model of the default revision was
    registered with the agent's descriptor. *)
Definition consistent (v : View) : Prop :=
  (forall b c, v_blocks v !! b = Some c -> v_data v !! b = Some (mock_kv_bytes (bid_hash b))) /\
  (forall m d, v_models v !! (m, EmptyString) = Some d -> d = descriptor m EmptyString).

Section cache.
Context {W : Type} (sv : Stubs W) {C : Contract sv} (sha256 : bytes -> bytes).

Definition cache (a : t W) : View := view (world a).

(** The models the agent remembers are registered, without a quota. *)
Definition agent_inv (a : t W) : Prop :=
  consistent (cache a) /\
  forall key, key ∈ registered_models a -> is_Some (v_models (cache a) !! key) /\ key ∉ v_quota (cache a).

Lemma register_model_ok m v : m <> EmptyString -> consistent v ->
  register_model (descriptor m EmptyString) v =
    (mkView (<[(m, EmptyString) := descriptor m EmptyString]> (v_models v)) (v_quota v ∖ {[ (m, EmptyString) ]}) (v_blocks v) (v_data v), true).
Proof.
  intros Hm [_ Hd]. unfold register_model. simpl. rewrite bool_decide_eq_false_2 by done.
  destruct (v_models v !! (m, EmptyString)) as [d|] eqn:E; [|done]. apply Hd in E as ->. by rewrite bool_decide_eq_true_2.
Qed.

Lemma ensure_model_ok m a : m <> EmptyString -> agent_inv a -> exists w ms,
  ensure_model sv m EmptyString a = (set_models ms (set_world w a), Ok tt) /\
  agent_inv (set_models ms (set_world w a)) /\ known m (view w) = true /\ ~ (m, EmptyString) ∈ v_quota (view w) /\
  v_blocks (view w) = v_blocks (cache a).
Proof.
  intros Hne [Hc Hm]. unfold ensure_model. case_bool_decide as Hin.
  - exists (world a), (registered_models a). destruct (Hm _ Hin). destruct a. split_and!; try done. by apply bool_decide_eq_true_2.
  - destruct (c_model (descriptor m EmptyString) (world a)) as (w & E & Hv). rewrite register_model_ok in E, Hv by done.
    exists w, ({[ (m, EmptyString) ]} ∪ registered_models a).
    unfold mbind, M_bind, rpc. rewrite E. simpl. unfold agent_inv, cache. simpl. rewrite Hv. simpl. split_and!; try done.
    + split; [apply Hc|]. simpl. intros m' d. rewrite lookup_insert. case_decide as Hk; [injection Hk as <-; by intros [= <-]|apply Hc].
    + intros key. rewrite elem_of_union, elem_of_singleton, lookup_insert. intros [->|H]; [rewrite decide_True by done; split; [by eexists|set_solver]|].
      case_decide; [split; [by eexists|set_solver]|]. destruct (Hm key H). split; [done|set_solver].
    + unfold known. simpl. rewrite lookup_insert_eq. by apply bool_decide_eq_true_2.
    + set_solver.
Qed.

Lemma omap_stored (d : gmap BlockID bytes) (ids : list BlockID) :
  (forall i, i ∈ ids -> d !! i = Some (mock_kv_bytes (bid_hash i))) ->
  omap (fun i => mkOpaque i <$> d !! i) ids = (fun i => mkOpaque i (mock_kv_bytes (bid_hash i))) <$> ids.
Proof.
  induction ids as [|i ids IH]; intros H; [done|]. simpl. rewrite (H i) by (by left). simpl. f_equal. apply IH. set_solver.
Qed.

Lemma check_got_ok ids k : check_got ids ((fun i => mkOpaque i (mock_kv_bytes (bid_hash i))) <$> take k ids) = Ok tt.
Proof.
  revert k. induction ids as [|i ids IH]; intros [|k]; try done. simpl.
  rewrite bool_decide_eq_true_2 by done. simpl. apply IH.
Qed.

Lemma get_reused_ok m hs a : consistent (cache a) -> exists w,
  get_reused sv (mkBlockID m <$> hs) (lead lineage (cache a) m hs) a = (set_world w a, Ok tt) /\ view w = cache a.
Proof.
  intros [Hc _]. unfold get_reused. pose proof (lead_bounds lineage (cache a) m hs) as Hb.
  destruct (_ =? 0); [exists (world a); by destruct a|].
  rewrite py_take_nonneg by lia. set (k := Z.to_nat (lead lineage (cache a) m hs)).
  destruct (c_get (take k (mkBlockID m <$> hs)) (world a)) as (w & E & Hv). exists w. split; [|done].
  unfold mbind, M_bind, rpc. rewrite E. rewrite omap_stored.
  2: { intros i Hi. rewrite <- fmap_take in Hi. apply list_elem_of_fmap in Hi as (h & -> & Hh).
       apply list_elem_of_lookup_1 in Hh as [j Hj]. apply lookup_take_Some in Hj as [Hj Hlt].
       destruct (lead_hit lineage _ _ _ _ _ Hlt Hj) as (c & Hcb & _). by eapply Hc. }
  rewrite (proj2 (Z.eqb_eq _ _)) by (rewrite length_fmap, length_take, length_fmap; unfold k; lia).
  simpl. unfold lift. by rewrite check_got_ok.
Qed.

Lemma put_all_lookup miss v b :
  v_data (put_all ((fun b => mkOpaque b (mock_kv_bytes (bid_hash b))) <$> miss) v) !! b =
  if decide (b ∈ miss) then Some (mock_kv_bytes (bid_hash b)) else v_data v !! b.
Proof.
  unfold put_all. cbn [v_data]. induction miss as [|x miss IH]; [done|]. rewrite fmap_cons. cbn [foldr ob_id ob_data].
  destruct (decide (b = x)) as [->|Hne].
  - rewrite lookup_insert_eq, decide_True by (by left). done.
  - rewrite lookup_insert_ne, IH by done. destruct (decide (b ∈ miss)); [rewrite decide_True by (by right)|rewrite decide_False by set_solver]; done.
Qed.

(** The blocks as the agent registers them. *)
Definition metas (node m : string) (l : list bytes) : list BlockMeta :=
  (fun b => mkMeta b [mkLocation node 1 0] 1) <$> (mkBlockID m <$> l).

Lemma metas_well_formed node m hs k v : NoDup hs -> known m v = true -> well_formed hs (metas node m (drop k hs)) v = true.
Proof.
  intros Hnd Hk. pose proof (suffix_positions hs k Hnd) as Hp. revert Hp. generalize (drop k hs) as l. intros l Hp.
  assert (forall l', mapM (fun x => last_index (bid_hash (bm_id x)) hs) (metas node m l') = mapM (fun h => last_index h hs) l') as E.
  { induction l' as [|x l' IH]; [done|]. simpl. by rewrite <- IH. }
  specialize (E l). rewrite Hp in E. unfold well_formed. rewrite E, seq_contiguous.
  destruct l as [|h l]; [done|]. change (metas node m (h :: l)) with (mkMeta (mkBlockID m h) [mkLocation node 1 0] 1 :: metas node m l) at 1.
  cbn [bm_id bid_model]. rewrite Hk, andb_true_r. apply forallb_forall. intros x Hx%list_elem_of_In.
  apply list_elem_of_fmap in Hx as (b & -> & (h' & -> & _)%list_elem_of_fmap). simpl. by rewrite bool_decide_eq_true_2.
Qed.

(** What filing a suffix of the chain makes of the blocks. *)
Lemma file_lookup node m hs l : NoDup hs -> (forall h, h ∈ l -> h ∈ hs) -> forall d b,
  foldr (file_block hs) d (metas node m l) !! b =
    if decide (bid_model b = m /\ bid_hash b ∈ l)
    then match last_index (bid_hash b) hs with Some i => Some (take (S i) hs) | None => d !! b end else d !! b.
Proof.
  intros Hnd. induction l as [|x l IH]; intros Hl d b; [simpl; rewrite decide_False by set_solver; done|].
  change (metas node m (x :: l)) with (mkMeta (mkBlockID m x) [mkLocation node 1 0] 1 :: metas node m l). cbn [foldr].
  unfold file_block at 1. cbn [bm_id bid_hash].
  destruct (list_elem_of_lookup_1 _ _ (Hl x ltac:(by left))) as [j Hj]. rewrite (last_index_unique hs Hnd j x Hj).
  destruct (decide (b = mkBlockID m x)) as [->|Hne].
  - rewrite lookup_insert_eq, decide_True by (split; [done|by left]). simpl. by rewrite (last_index_unique hs Hnd j x Hj).
  - rewrite lookup_insert_ne, IH by (done || set_solver). destruct b as [bm bh]. simpl in *.
    destruct (decide (bm = m /\ bh ∈ l)) as [[-> Hin]|Hno]; [rewrite decide_True by set_solver; done|].
    rewrite decide_False; [done|]. intros [-> [->|Hin]%elem_of_cons]; [done|]. by apply Hno.
Qed.

(** Storing and registering the missed suffix of the chain [hs] of a known model. *)
Lemma put_missed_ok r m hs k a : NoDup hs -> known m (cache a) = true -> (m, EmptyString) ∉ v_quota (cache a) -> consistent (cache a) ->
  exists w, put_missed sv r hs (mkBlockID m <$> drop k hs) a = (set_world w a, Ok tt) /\
    v_models (view w) = v_models (cache a) /\ v_quota (view w) = v_quota (cache a) /\ consistent (view w) /\
    (forall b, v_blocks (view w) !! b = if decide (bid_model b = m /\ bid_hash b ∈ drop k hs)
       then match last_index (bid_hash b) hs with Some i => Some (take (S i) hs) | None => v_blocks (cache a) !! b end
       else v_blocks (cache a) !! b).
Proof.
  intros Hnd Hk Hq [Hc Hd]. assert (Hsub : forall h, h ∈ drop k hs -> h ∈ hs) by (intros h; apply subseteq_drop).
  pose proof (metas_well_formed (node_id r) m hs k) as Hwf. revert Hsub Hwf. set (l := drop k hs). clearbody l. intros Hsub Hwf.
  destruct l as [|x l]; [exists (world a); split_and!; try done; [by destruct a|intros b; rewrite decide_False by set_solver; done]|].
  set (L := x :: l) in *. set (ids := mkBlockID m <$> L).
  destruct (c_put (node_id r) ((fun b => mkOpaque b (mock_kv_bytes (bid_hash b))) <$> ids) (world a)) as (w1 & E1 & Hv1).
  set (v1 := put_all _ _) in Hv1.
  destruct (c_register (node_id r) (metas (node_id r) m L) hs w1) as (w2 & E2 & Hv2).
  { intros y (b & -> & (h & -> & _)%list_elem_of_fmap)%list_elem_of_fmap. by rewrite Hv1. }
  rewrite Hv1 in E2, Hv2. unfold register_blocks in E2, Hv2. rewrite (Hwf v1 Hnd Hk) in E2, Hv2. cbn [fst snd] in E2, Hv2.
  assert (Hblocks : forall b, v_blocks (view w2) !! b = if decide (bid_model b = m /\ bid_hash b ∈ L)
    then match last_index (bid_hash b) hs with Some i => Some (take (S i) hs) | None => v_blocks (cache a) !! b end
    else v_blocks (cache a) !! b) by (intros b; rewrite Hv2; cbn [v_blocks]; by rewrite file_lookup).
  exists w2. split_and!; [|by rewrite Hv2|by rewrite Hv2|split|exact Hblocks].
  - change (put_missed sv r hs ids a) with
      ((ok ← rpc (PutBlocks sv (node_id r) ((fun b => mkOpaque b (mock_kv_bytes (bid_hash b))) <$> ids)); _ ← ack ok;
        ok ← rpc (RegisterBlocks sv (node_id r) (metas (node_id r) m L) hs); ack ok) a).
    unfold mbind, M_bind, rpc. rewrite E1. simpl ack. cbn [mret M_ret]. change (world (set_world w1 a)) with w1. by rewrite E2.
  - intros b c. rewrite Hblocks. rewrite Hv2. cbn [v_data]. unfold v1. rewrite put_all_lookup. intros Hb.
    destruct (decide (b ∈ ids)) as [Hin|Hin]; [done|]. rewrite decide_False in Hb; [by eapply Hc|]. intros [E1' E2']. apply Hin. unfold ids.
    apply list_elem_of_fmap. exists (bid_hash b). split; [destruct b; simpl in *; by subst|done].
  - rewrite Hv2. exact Hd.
Qed.

(** A prompt of a named model that the hash function accepts: its tokens fit in four
    bytes, and no two of its blocks have the same hash. *)
Definition encodable (r : Req) : Prop :=
  served_model_name r <> EmptyString /\ exists hs, chain_block_hashes sha256 (prompt_token_ids r) = Some hs /\ NoDup hs.

(** Ensuring a prompt: the blocks that lead its chain are reused, the others are
    stored and registered, and nothing else of the cache changes. *)
Lemma ensure_prefix_ok r hs a : served_model_name r <> EmptyString ->
  chain_block_hashes sha256 (prompt_token_ids r) = Some hs -> NoDup hs -> agent_inv a ->
  exists a', ensure_prefix_kv sv sha256 r a =
      (a', Ok (mkStepStats (lead lineage (cache a) (served_model_name r) hs)
                           (zlen hs - lead lineage (cache a) (served_model_name r) hs) 0)) /\
    agent_inv a' /\ ready_step a' = ready_step a /\ host_reqs a' = host_reqs a /\ ensured_prefix a' = ensured_prefix a /\
    placed lineage (cache a') (served_model_name r) hs /\
    (forall b, v_blocks (cache a') !! b = v_blocks (cache a) !! b \/
       exists j, bid_model b = served_model_name r /\ hs !! j = Some (bid_hash b) /\ v_blocks (cache a') !! b = Some (take (S j) hs)).
Proof.
  intros Hne Hh Hnd Hinv. set (m := served_model_name r) in *. unfold ensure_prefix_kv, hashes_of. rewrite Hh.
  destruct (ensure_model_ok m a Hne Hinv) as (w1 & ms & E1 & Hinv1 & Hk & Hq & Hb1).
  set (a1 := set_models ms (set_world w1 a)) in *.
  assert (Hlead : lead lineage (view w1) m hs = lead lineage (cache a) m hs) by by apply lead_same_blocks.
  destruct (c_lookup m hs (node_id r) w1) as (w2 & E2 & Hv2). unfold lookup_prefix in E2. rewrite Hk, Hlead in E2.
  set (a2 := set_world w2 a1).
  assert (Hc2 : cache a2 = view w1) by exact Hv2.
  destruct (get_reused_ok m hs a2) as (w3 & E3 & Hv3); [rewrite Hc2; apply Hinv1|]. rewrite Hc2, Hlead in E3.
  set (a3 := set_world w3 a2). assert (Hc3 : cache a3 = view w1) by (rewrite <- Hc2; exact Hv3).
  set (k := Z.to_nat (lead lineage (cache a) m hs)).
  destruct (put_missed_ok r m hs k a3) as (w4 & E4 & Hm4 & Hq4 & Hc4 & Hb4); [done|rewrite Hc3; first [done|apply Hinv1]..|].
  exists (set_world w4 a3). pose proof (lead_bounds lineage (cache a) m hs) as Hb.
  rewrite Hc3 in Hm4, Hq4, Hb4. rewrite Hb1 in Hb4.
  split; [|split; [|split_and!; [done..| |]]].
  - unfold mbind, M_bind at 1. cbn [mret M_ret]. unfold mbind, M_bind. fold m. rewrite E1. unfold rpc at 1. change (world a1) with w1.
    rewrite E2. fold a2. rewrite E3. fold a3. fold k. rewrite <- fmap_drop, E4. unfold mret, M_ret.
    repeat f_equal. rewrite length_fmap, length_drop. unfold k. lia.
  - split; [exact Hc4|]. intros key Hin. change (cache (set_world w4 a3)) with (view w4). rewrite Hm4, Hq4. by apply Hinv1.
  - intros j h Hj. change (cache (set_world w4 a3)) with (view w4). destruct (decide (h ∈ drop k hs)) as [Hin|Hout].
    + exists (take (S j) hs). rewrite Hb4. simpl. rewrite decide_True, (last_index_unique hs Hnd j h Hj) by done. done.
    + assert (j < k)%nat as Hlt. { apply dec_stable. intros Hge. apply Hout, list_elem_of_lookup. exists (j - k)%nat. rewrite lookup_drop. by replace (k + (j - k))%nat with j by lia. }
      destruct (lead_hit lineage _ _ _ _ _ Hlt Hj) as (c & Hc & Hl). exists c. rewrite Hb4. simpl. rewrite decide_False by tauto. done.
  - intros b. change (cache (set_world w4 a3)) with (view w4). rewrite Hb4. destruct (decide (bid_model b = m /\ _)) as [[Hbm Hin]|_]; [|by left].
    right. destruct (list_elem_of_lookup_1 _ _ Hin) as [i Hi]. rewrite lookup_drop in Hi. exists (k + i)%nat.
    rewrite (last_index_unique hs Hnd _ _ Hi). done.
Qed.

(** No two blocks after different prefixes have the same hash, over these chains. *)
Definition prefixes (hs : list bytes) : list (list bytes) := (fun i => take (S i) hs) <$> seq 0 (length hs).
Definition collision_free (chains : list (list bytes)) : Prop :=
  Forall (fun p => Forall (fun p' => last p = last p' -> p = p') (chains ≫= prefixes)) (chains ≫= prefixes).

Lemma collision_free_chains chains hs hs' i j h : collision_free chains -> hs ∈ chains -> hs' ∈ chains ->
  hs !! i = Some h -> hs' !! j = Some h -> take (S i) hs = take (S j) hs'.
Proof.
  assert (Hp : forall l n, l ∈ chains -> l !! n = Some h -> take (S n) l ∈ chains ≫= prefixes /\ last (take (S n) l) = Some h).
  { intros l n Hl Hn. pose proof (lookup_lt_Some _ _ _ Hn). split.
    - apply list_elem_of_bind. exists l. split; [|done]. apply list_elem_of_fmap. exists n. split; [done|]. apply elem_of_seq. lia.
    - by rewrite (take_S_r _ _ _ Hn), last_snoc. }
  intros Hf H1 H2 Hi Hj. destruct (Hp hs i H1 Hi) as [P1 L1], (Hp hs' j H2 Hj) as [P2 L2].
  unfold collision_free in Hf. rewrite Forall_forall in Hf. specialize (Hf _ P1). rewrite Forall_forall in Hf. apply (Hf _ P2). congruence.
Qed.

(** Ensuring one request after the other. *)
Definition ensure_each (rs : list Req) : M (t W) gexn unit :=
  for_each rs (fun r => _ ← ensure_prefix_kv sv sha256 r; mret tt).
Definition chains_of (rs : list Req) : list (list bytes) := omap (fun r => chain_block_hashes sha256 (prompt_token_ids r)) rs.

Lemma chains_of_elem rs r hs : r ∈ rs -> chain_block_hashes sha256 (prompt_token_ids r) = Some hs -> hs ∈ chains_of rs.
Proof. intros Hr Hh. apply list_elem_of_omap. eauto. Qed.

(** Ensuring another prompt does not lose the blocks of an earlier one. *)
Lemma placed_kept chains v v' m1 hs1 m hs : collision_free chains -> hs1 ∈ chains -> hs ∈ chains -> placed lineage v m1 hs1 ->
  (forall b, v_blocks v' !! b = v_blocks v !! b \/
     exists j, bid_model b = m /\ hs !! j = Some (bid_hash b) /\ v_blocks v' !! b = Some (take (S j) hs)) ->
  placed lineage v' m1 hs1.
Proof.
  intros Hf H1 H Hp Hb j h Hj. destruct (Hp j h Hj) as (c & Hc & Hl). destruct (Hb (mkBlockID m1 h)) as [E|(i & _ & Hi & E)].
  - exists c. by rewrite E.
  - exists (take (S i) hs). split; [done|]. f_equal. by eapply collision_free_chains.
Qed.

Lemma ensure_each_ok chains rs : forall a, collision_free chains -> Forall encodable rs -> (forall hs, hs ∈ chains_of rs -> hs ∈ chains) ->
  agent_inv a -> exists a', ensure_each rs a = (a', Ok tt) /\ agent_inv a' /\
  (forall m hs, hs ∈ chains -> placed lineage (cache a) m hs -> placed lineage (cache a') m hs) /\
  forall r hs, r ∈ rs -> chain_block_hashes sha256 (prompt_token_ids r) = Some hs -> placed lineage (cache a') (served_model_name r) hs.
Proof.
  induction rs as [|r rs IH]; intros a Hf He Hsub Hinv; [exists a; split_and!; [done..|by intros ? ? ?%elem_of_nil]|].
  apply Forall_cons in He as [(Hm & hs & Hh & Hnd) He].
  destruct (ensure_prefix_ok r hs a Hm Hh Hnd Hinv) as (a1 & E & Hinv1 & _ & _ & _ & Hpl & Hb).
  assert (hs ∈ chains) as Hin by (apply Hsub; eapply chains_of_elem; [left|done]).
  destruct (IH a1 Hf He) as (a2 & E2 & Hinv2 & Hkeep & Hall); [|done|].
  { intros hs' (r' & Hr' & Hh')%list_elem_of_omap. apply Hsub. eapply chains_of_elem; [by right|done]. }
  exists a2. split_and!; [|done| |].
  - unfold ensure_each in *. simpl. unfold mbind, M_bind at 1. unfold mbind, M_bind. rewrite E. exact E2.
  - intros m hs' Hin' Hp. apply Hkeep; [done|]. eapply (placed_kept chains (cache a) (cache a1) m hs' (served_model_name r) hs); done.
  - intros r' hs' [->|Hin']%elem_of_cons Hh'; [|by eapply Hall]. rewrite Hh in Hh'. injection Hh' as <-. by apply Hkeep.
Qed.

(** C33. The prefix cache: after any requests were ensured, a request of the same model
    reuses at least every full block of tokens it shares with one of them from the
    start on, and all of its blocks when the prompts are equal; what it does not
    reuse it adds, so that reused and added blocks are its blocks, and no call is
    refused.  The services keep their [Contract], where a registration of blocks that
    are not a contiguous part of the chain they come with is refused, nobody else
    uses them meanwhile, and the hash function does not collide on these prompts. *)
Theorem shared_prefix_reused rs r1 r2 k a :
  agent_inv a -> Forall encodable rs -> encodable r2 -> collision_free (chains_of (r2 :: rs)) ->
  r1 ∈ rs -> served_model_name r1 = served_model_name r2 ->
  BLOCK_SIZE * Z.of_nat k <= prompt_len r1 -> BLOCK_SIZE * Z.of_nat k <= prompt_len r2 ->
  take (8 * k) (prompt_token_ids r1) = take (8 * k) (prompt_token_ids r2) ->
  exists a1 a2 st, ensure_each rs a = (a1, Ok tt) /\ ensure_prefix_kv sv sha256 r2 a1 = (a2, Ok st) /\ agent_inv a2 /\
    Z.of_nat k <= st_reused_blocks st /\ 0 <= st_prefill_blocks st /\
    st_reused_blocks st + st_prefill_blocks st = (prompt_len r2 + BLOCK_SIZE - 1) / BLOCK_SIZE /\
    (prompt_token_ids r1 = prompt_token_ids r2 -> st_prefill_blocks st = 0).
Proof.
  intros Hinv He (Hm2 & hs2 & Hh2 & Hnd2) Hf Hin Hm Hk1 Hk2 Ht.
  destruct (ensure_each_ok (chains_of (r2 :: rs)) rs a Hf He) as (a1 & E1 & Hinv1 & _ & Hall); [|done|].
  { intros hs (r & Hr & Hh)%list_elem_of_omap. eapply chains_of_elem; [by right|done]. }
  destruct (ensure_prefix_ok r2 hs2 a1 Hm2 Hh2 Hnd2 Hinv1) as (a2 & E2 & Hinv2 & _).
  exists a1, a2. eexists. split_and!; [exact E1|exact E2|done|..]; simpl.
  all: pose proof (lead_bounds lineage (cache a1) (served_model_name r2) hs2) as Hb.
  - rewrite Forall_forall in He. destruct (He r1 Hin) as (_ & hs1 & Hh1 & _).
    apply lead_ge; [by eapply (full_blocks sha256 r2)|]. intros j h Hj Hh.
    assert (Heq : take k hs1 = take k hs2).
    { apply (chain_take _ _ _ _ k) in Hh1, Hh2. rewrite (chunks_take k _ (prompt_token_ids r2)) in Hh1 by done. congruence. }
    assert (take (S j) hs1 = take (S j) hs2) as Htj.
    { replace (S j) with (S j `min` k)%nat by lia. by rewrite <- !take_take, Heq. }
    rewrite <- Htj, <- Hm. apply (Hall r1 hs1 Hin Hh1). rewrite <- (lookup_take_lt _ k j Hj), Heq. by rewrite lookup_take_lt.
  - lia.
  - apply chain_length in Hh2. unfold chunks, py_range in Hh2. rewrite length_fmap, length_zseq in Hh2. unfold prompt_len.
    assert (0 <= (zlen (prompt_token_ids r2) + BLOCK_SIZE - 1) / BLOCK_SIZE) by (apply Z.div_pos; unfold BLOCK_SIZE; lia). lia.
  - intros Heq. assert (Z.of_nat (length hs2) <= lead lineage (cache a1) (served_model_name r2) hs2); [|lia].
    apply lead_ge; [done|]. intros j h _ Hh. rewrite <- Hm. apply (Hall r1 hs2 Hin); [by rewrite Heq|done].
Qed.

(** ** Steps *)

Context (set_order : list string -> list string).

(** The host requests a plan names are bound and can be hashed. *)
Definition bound (plan : PreparePlan) (a : t W) : Prop :=
  forall rid, rid ∈ plan_rids plan -> exists r, host_reqs a !! rid = Some r /\ encodable r.

Lemma host_req_ok rid r (a : t W) : host_reqs a !! rid = Some r -> host_req rid a = (a, Ok r).
Proof. intros H. unfold host_req. by rewrite H. Qed.

Lemma touch_ok ios : forall ts (a : t W), (forall io, io ∈ ios -> exists r, host_reqs a !! io_req_id io = Some r) ->
  (exists ts', touch_writes ios ts a = (a, Ok ts')) /\ (exists ts', touch_reads ios ts a = (a, Ok ts')).
Proof.
  induction ios as [|io ios IH]; intros ts a Hb; [split; by eexists|].
  destruct (Hb io ltac:(by left)) as [r Hr]. simpl. unfold mbind, M_bind. rewrite (host_req_ok _ _ _ Hr).
  split; (edestruct IH as [Hw Hrd]; [intros io' Hin; apply Hb; by right|]); [exact Hw|exact Hrd].
Qed.

Lemma ensure_all_ok touched rids : forall stats a, agent_inv a ->
  (forall rid, rid ∈ rids -> exists r, host_reqs a !! rid = Some r /\ encodable r) ->
  exists a' stats', ensure_all sv sha256 touched rids stats a = (a', Ok stats') /\ agent_inv a' /\
    ready_step a' = ready_step a /\ host_reqs a' = host_reqs a /\
    forall rid, rid ∈ dkeys stats' -> rid ∈ dkeys stats \/ rid ∈ rids.
Proof.
  induction rids as [|rid rids IH]; intros stats a Hinv Hb; [exists a, stats; split_and!; auto|].
  destruct (Hb rid ltac:(by left)) as (r & Hr & (Hm & hs & Hh & Hnd)). simpl. unfold mbind, M_bind. rewrite (host_req_ok _ _ _ Hr).
  case_bool_decide as Ht.
  - destruct (ensure_prefix_ok r hs a Hm Hh Hnd Hinv) as (a1 & E & Hinv1 & Hrd & Hhost & _ & _). rewrite E. unfold modify.
    set (a2 := set_ensured _ a1).
    destruct (IH (dset rid (mkStepStats (lead lineage (cache a) (served_model_name r) hs) (zlen hs - lead lineage (cache a) (served_model_name r) hs) 0) stats) a2 Hinv1)
      as (a3 & st & E3 & Hinv3 & Hrd3 & Hh3 & Hk); [intros x Hx; simpl; rewrite Hhost; apply Hb; by right|].
    exists a3, st. split_and!; [exact E3|done|by rewrite Hrd3|by rewrite Hh3|].
    intros x [Hx|Hx]%Hk; [|right; by right]. apply elem_of_dkeys_dset in Hx as [->|Hx]; [right; by left|by left].
  - destruct (IH (dsetdefault rid (mkStepStats (reused_blocks r) 0 0) stats).1 a Hinv)
      as (a3 & st & E3 & Hinv3 & Hrd3 & Hh3 & Hk); [intros x Hx; apply Hb; by right|].
    exists a3, st. split_and!; [exact E3|done|done|done|]. intros x [Hx|Hx]%Hk; [|right; by right].
    unfold dsetdefault in Hx. destruct (dget rid stats); [by left|].
    apply elem_of_dkeys_dset in Hx as [->|Hx]; [right; by left|by left].
Qed.

(** What the scheduler relies on: with working services, a step whose requests are
    bound becomes ready with its sets unshrunk, and [done] with its number ends it. *)
Theorem grpc_step_ready plan a :
  (forall l x, x ∈ set_order l -> x ∈ l) -> agent_inv a -> ready_step a = None -> bound plan a ->
  exists a' h, prepare_step sv sha256 set_order plan a = (a', Ok h) /\ agent_inv a' /\
    ready_step a' = Some (pp_step_id plan) /\ rh_step_id h = pp_step_id plan /\
    effective_read_set h = Some (pp_read_set plan) /\ effective_write_set h = Some (pp_write_set plan) /\
    (forall rid, rid ∈ dkeys (stats_by_req h) -> rid ∈ plan_rids plan) /\
    exists a2, done (pp_step_id plan) a' = (a2, Ok tt) /\ ready_step a2 = None /\ agent_inv a2.
Proof.
  intros Hord Hinv Hr Hb. unfold prepare_step. rewrite Hr.
  assert (Hios : forall io, io ∈ pp_read_set plan ++ pp_write_set plan -> exists r, host_reqs a !! io_req_id io = Some r).
  { intros io Hin. destruct (Hb (io_req_id io)) as (r & H & _); [|eauto]. apply list_elem_of_fmap. eauto. }
  destruct (touch_ok (pp_write_set plan) ∅ a) as [[tw Ew] _]; [intros io Hin; apply Hios; set_solver|].
  destruct (touch_ok (pp_read_set plan) tw a) as [_ [tr Er]]; [intros io Hin; apply Hios; set_solver|].
  destruct (ensure_all_ok tr (set_order (plan_rids plan)) [] a Hinv) as (a1 & st & E & Hinv1 & Hr1 & _ & Hk).
  { intros rid Hin. apply Hb. by apply Hord in Hin. }
  exists (set_ready (Some (pp_step_id plan)) a1). eexists.
  unfold convert, mbind, M_bind. rewrite Ew, Er, E. split; [reflexivity|]. split_and!; try done.
  - intros rid [H%elem_of_nil|H]%Hk; [done|]. by apply Hord in H.
  - exists (set_ready None a1). split_and!; [|done|done]. unfold done. simpl. by rewrite bool_decide_eq_true_2.
Qed.

Context (order_ok : forall l x, x ∈ set_order l -> x ∈ l).

Definition idle (a : t W) : Prop := agent_inv a /\ ready_step a = None.
Definition busy (step : Z) (a : t W) : Prop := agent_inv a /\ ready_step a = Some step.

(** With working services the agent keeps what the scheduler relies on, for any pull
    budget: prompts that can be hashed, and the host's requests bound. *)
Definition reliable (budget : Z) : ReliableAgent (SA := storage_agent sv sha256 set_order) (t W) budget.
Proof.
  refine {| ag_idle := idle; ag_busy := busy;
            ag_prompt_ok := fun m toks => m <> EmptyString /\ exists hs, chain_block_hashes sha256 toks = Some hs /\ NoDup hs;
            ag_bound := fun reqs a => host_reqs a = reqs |}.
  - intros plan reqs a [Hinv Hr] _ Hb Hios.
    destruct (grpc_step_ready plan a order_ok Hinv Hr) as (a' & h & E & Hinv' & Hr' & Hst & Hrs & Hws & Hk & _).
    { intros rid (io & -> & Hin)%list_elem_of_fmap. rewrite Hb. by apply Hios. }
    exists a', h. split_and!; try done.
    intros _ io slots _ _ Hs. exfalso. revert E Hs. unfold prepare_step. rewrite Hr. unfold mbind, M_bind.
    destruct (convert _ _ a) as [a1 [st|e]]; [|done]. simpl. by intros [= _ <-].
  - intros step a [Hinv Hr]. exists (set_ready None a). split; [|done].
    simpl. unfold done. by rewrite bool_decide_eq_true_2.
  - intros fin a [Hinv Hr]. simpl. unfold on_request_finished, modify, convert, rpc, mbind, M_bind. simpl.
    destruct (c_barrier (fin_req_id fin) (fin_node_id fin) (world a)) as (w & E & Hv). rewrite E.
    eexists. split; [reflexivity|]. split; [|done]. revert Hinv. unfold agent_inv, cache. simpl. by rewrite Hv.
  - intros commit rid e a [= <-] Hi. by exists a.
  - by intros bind reqs a [= <-] Hi.
  - done.
Defined.
End cache.

(** ** Failures

    Whatever the services answer. *)

Section failures.
Context {W : Type} (sv : Stubs W) (sha256 : bytes -> bytes) (set_order : list string -> list string).

(** The step in progress is none of the business of the calls to the services. *)
Abbreviation same_step := (keeps (E := gexn) (@ready_step W)).

Lemma same_step_rpc {B} (f : W -> W * option B) : same_step (rpc f).
Proof. intros a. unfold rpc. by destruct (f (world a)) as [w [b|]]. Qed.
Lemma same_step_ack ok : same_step (ack ok).
Proof. by destruct ok. Qed.
Lemma same_step_host rid : same_step (host_req rid).
Proof. intros a. unfold host_req. by destruct (host_reqs a !! rid). Qed.

Lemma same_step_ensure_model m rv : same_step (ensure_model sv m rv).
Proof.
  intros a. unfold ensure_model. case_bool_decide; [done|].
  apply (keeps_bind _ (rpc _)); [apply same_step_rpc|]. intros ok. apply keeps_bind; [apply same_step_ack|done].
Qed.

Lemma same_step_ensure r : same_step (ensure_prefix_kv sv sha256 r).
Proof.
  unfold ensure_prefix_kv. apply keeps_bind; [unfold hashes_of; by case_match|]. intros hs.
  apply keeps_bind; [apply same_step_ensure_model|]. intros _. apply keeps_bind; [apply same_step_rpc|]. intros k.
  apply keeps_bind.
  { unfold get_reused. case_match; [done|]. apply keeps_bind; [apply same_step_rpc|]. intros got. by case_match. }
  intros _. apply keeps_bind; [|done]. unfold put_missed. case_match; [done|].
  apply keeps_bind; [apply same_step_rpc|]. intros ok. apply keeps_bind; [apply same_step_ack|]. intros _.
  apply keeps_bind; [apply same_step_rpc|]. apply same_step_ack.
Qed.

Lemma same_step_touch ios : forall ts, same_step (touch_writes ios ts) /\ same_step (touch_reads ios ts).
Proof.
  induction ios as [|io ios IH]; intros ts; [done|]. simpl. split.
  - apply keeps_bind; [apply same_step_host|]. intros r. apply IH.
  - apply keeps_bind; [apply same_step_host|]. intros r. apply keeps_bind; [done|]. intros b. apply IH.
Qed.

Lemma same_step_ensure_all ts rids : forall stats, same_step (ensure_all sv sha256 ts rids stats).
Proof.
  induction rids as [|rid rids IH]; intros stats; [done|]. simpl. apply keeps_bind; [apply same_step_host|]. intros r.
  case_match; [|apply IH]. apply keeps_bind; [apply same_step_ensure|]. intros st. apply keeps_bind; [done|]. intros _. apply IH.
Qed.

(** The fence of the gRPC agent under failures: while a step is ready another one is
    refused and nothing changes; a failed preparation leaves no step ready, so it can
    be tried again, and a failure of the services is reported as DOWNSTREAM, never as
    a protocol error; a successful one makes its own step ready; and [done] accepts
    the ready step only. *)
Theorem grpc_fence plan a :
  match ready_step a with
  | Some _ => prepare_step sv sha256 set_order plan a = (a, Raise (EPool PROTOCOL_ERROR))
  | None =>
      match prepare_step sv sha256 set_order plan a with
      | (a', Ok h) => ready_step a' = Some (pp_step_id plan) /\ rh_step_id h = pp_step_id plan /\
          effective_read_set h = Some (pp_read_set plan) /\ effective_write_set h = Some (pp_write_set plan)
      | (a', Raise e) => ready_step a' = None /\ e ∈ [EPool DOWNSTREAM; EKeyError; EIndexError; EGeneric]
      end
  end /\
  forall step, (done step a).2 = Ok tt <-> ready_step a = Some step.
Proof.
  split.
  - unfold prepare_step. destruct (ready_step a) eqn:Hr; [done|].
    set (c := (touched ← touch_writes (pp_write_set plan) ∅; touched ← touch_reads (pp_read_set plan) touched;
               ensure_all sv sha256 touched (set_order (plan_rids plan)) [])).
    assert (Hc : same_step c).
    { apply keeps_bind; [apply same_step_touch|]. intros ts. apply keeps_bind; [apply same_step_touch|]. intros ts'. apply same_step_ensure_all. }
    specialize (Hc a). unfold mbind at 1, M_bind at 1. unfold convert. fold c. destruct (c a) as [a1 [st|e]].
    + done.
    + split; [by rewrite <- Hr|]. destruct e; simpl; set_solver.
  - intros step. unfold done. case_bool_decide; split; done || congruence.
Qed.
End failures.

(** A cache with one prompt, and one that begins like it. *)
Definition demo_sha (b : bytes) : bytes := [zsum b; zlen b].
Definition demo_req (id : string) (toks : list Z) : Req :=
  mkReq id "m" toks (mkSamplingParams 1 (QArith_base.Qmake 0 1) None) "n" 0 [] 0 0 false None COLOCATED.
Definition demo_agent : t View := mk (mkView ∅ ∅ ∅ ∅) None ∅ ∅ ∅.

Example demo_stats :
  (ensure_prefix_kv plain demo_sha (demo_req "a" (zseq 1 10)) demo_agent).2 = Ok (mkStepStats 0 2 0) /\
  ((_ ← ensure_each plain demo_sha [demo_req "a" (zseq 1 10)];
    ensure_prefix_kv plain demo_sha (demo_req "b" (zseq 1 9 ++ zseq 50 8))) demo_agent).2 = Ok (mkStepStats 1 2 0).
Proof. split; vm_compute; reflexivity. Qed.

Lemma demo_agent_inv : agent_inv plain demo_agent.
Proof.
  split; [split; intros ? ? H; exfalso; revert H; unfold cache; simpl; by rewrite lookup_empty|].
  intros key Hk. exfalso. revert Hk. apply not_elem_of_empty.
Qed.

Lemma shared_prefix_reused_witness :
  exists a1 a2 st, ensure_each plain demo_sha [demo_req "a" (zseq 1 10)] demo_agent = (a1, Ok tt) /\
    ensure_prefix_kv plain demo_sha (demo_req "b" (zseq 1 12)) a1 = (a2, Ok st) /\ 1 <= st_reused_blocks st.
Proof.
  destruct (shared_prefix_reused plain demo_sha [demo_req "a" (zseq 1 10)] (demo_req "a" (zseq 1 10)) (demo_req "b" (zseq 1 12)) 1 demo_agent)
    as (a1 & a2 & st & E1 & E2 & _ & Hk & _).
  - exact demo_agent_inv.
  - constructor; [|constructor]. split; [discriminate|]. eexists. split; [vm_compute; reflexivity|]. by apply (bool_decide_unpack _).
  - split; [discriminate|]. eexists. split; [vm_compute; reflexivity|]. by apply (bool_decide_unpack _).
  - unfold collision_free. apply (bool_decide_unpack _). vm_compute. exact I.
  - by left.
  - reflexivity.
  - vm_compute. discriminate.
  - vm_compute. discriminate.
  - reflexivity.
  - exists a1, a2, st. split; [exact E1|]. split; [exact E2|exact Hk].
Defined.

End Grpc.
