(* ===== verification/PoolIface.v ===== *)
(** * The pool facade

    [python/lake/engine/pool_iface.py]: turns a [SchedulerOutput] into a
    [PreparePlan], calls the storage agent, checks its answer, and forwards the
    end of a request at most once.  The agent is any [StorageAgent]. *)

From S2P Require Import Prelude PyDict LakeTypes Agent.

Record PoolIfaceStats : Type := mkStats {
  prepare_calls : Z;
  done_calls : Z;
  commit_calls : Z;
  finish_calls : Z;
  duplicate_finish_calls : Z;
  error_calls : Z;
  last_error_code : option PoolErrorCode
}.

Record PoolIface (A : Type) : Type := mkPool {
  pi_agent : A;
  pi_pull_budget_ms : Z;
  pi_allow_partial_hit : bool;
  pi_last_ready : option ReadyHandle;
  pi_finished_req_ids : gset string;
  pi_stats : PoolIfaceStats
}.
Arguments mkPool {A}.
Arguments pi_agent {A}.
Arguments pi_pull_budget_ms {A}.
Arguments pi_allow_partial_hit {A}.
Arguments pi_last_ready {A}.
Arguments pi_finished_req_ids {A}.
Arguments pi_stats {A}.

Module Pool.
Section ops.
Context {A : Type} {SA : StorageAgent A}.
Abbreviation pool := (PoolIface A).

Definition init (a : A) (budget : Z) (partial : bool) : pool :=
  mkPool a budget partial None ∅ (mkStats 0 0 0 0 0 0 None).

Definition set_agent (a : A) (p : pool) : pool :=
  mkPool a (pi_pull_budget_ms p) (pi_allow_partial_hit p) (pi_last_ready p)
    (pi_finished_req_ids p) (pi_stats p).
Definition set_last (h : option ReadyHandle) (p : pool) : pool :=
  mkPool (pi_agent p) (pi_pull_budget_ms p) (pi_allow_partial_hit p) h
    (pi_finished_req_ids p) (pi_stats p).
Definition add_finished (rid : string) (p : pool) : pool :=
  mkPool (pi_agent p) (pi_pull_budget_ms p) (pi_allow_partial_hit p) (pi_last_ready p)
    ({[rid]} ∪ pi_finished_req_ids p) (pi_stats p).
Definition map_stats (f : PoolIfaceStats -> PoolIfaceStats) (p : pool) : pool :=
  mkPool (pi_agent p) (pi_pull_budget_ms p) (pi_allow_partial_hit p) (pi_last_ready p)
    (pi_finished_req_ids p) (f (pi_stats p)).

Definition inc_prepare (s : PoolIfaceStats) : PoolIfaceStats :=
  mkStats (prepare_calls s + 1) (done_calls s) (commit_calls s) (finish_calls s)
    (duplicate_finish_calls s) (error_calls s) (last_error_code s).
Definition inc_done (s : PoolIfaceStats) : PoolIfaceStats :=
  mkStats (prepare_calls s) (done_calls s + 1) (commit_calls s) (finish_calls s)
    (duplicate_finish_calls s) (error_calls s) (last_error_code s).
Definition inc_commit (s : PoolIfaceStats) : PoolIfaceStats :=
  mkStats (prepare_calls s) (done_calls s) (commit_calls s + 1) (finish_calls s)
    (duplicate_finish_calls s) (error_calls s) (last_error_code s).
Definition inc_finish (s : PoolIfaceStats) : PoolIfaceStats :=
  mkStats (prepare_calls s) (done_calls s) (commit_calls s) (finish_calls s + 1)
    (duplicate_finish_calls s) (error_calls s) (last_error_code s).
Definition inc_duplicate (s : PoolIfaceStats) : PoolIfaceStats :=
  mkStats (prepare_calls s) (done_calls s) (commit_calls s) (finish_calls s)
    (duplicate_finish_calls s + 1) (error_calls s) (last_error_code s).
Definition note_error (c : PoolErrorCode) (s : PoolIfaceStats) : PoolIfaceStats :=
  mkStats (prepare_calls s) (done_calls s) (commit_calls s) (finish_calls s)
    (duplicate_finish_calls s) (error_calls s + 1) (Some c).

(** [_call_agent]: a [PoolError] is counted and passes through, any other
    exception becomes [PoolError(DOWNSTREAM)]. *)
Definition call_agent {B} (fn : M A lexn B) : M pool lexn B := fun p =>
  match fn (pi_agent p) with
  | (a, Ok b) => (set_agent a p, Ok b)
  | (a, Raise (EPool c)) => (map_stats (note_error c) (set_agent a p), Raise (EPool c))
  | (a, Raise _) =>
      (map_stats (note_error DOWNSTREAM) (set_agent a p), Raise (EPool DOWNSTREAM))
  end.

(** Not through [_call_agent]: an exception of the agent leaves as it is. *)
Definition probe_prefix (r : Req) : M pool lexn PrefixHint := fun p =>
  match ag_probe_local with
  | Some probe =>
      let '(computed, full) := probe (req_id r) (prompt_len r) (pi_agent p) in
      (p, Ok (mkPrefixHint computed (computed / 8) (0 <? computed) full))
  | None =>
      match ag_probe_prefix with
      | Some probe => let '(a, o) := probe r (pi_agent p) in (set_agent a p, o)
      | None => (p, Ok empty_hint)
      end
  end.

(** The loop over one effective set in [_validate_ready]; the result is
    [seen_effective]. *)
Fixpoint validate_ios (planned : list string) (ios : list ReqIoSet) (seen : list string)
    : result lexn (list string) :=
  match ios with
  | [] => Ok seen
  | io :: ios' =>
      if token_end io <? token_start io then Raise (EPool PROTOCOL_ERROR)
      else if negb (bool_decide (io_req_id io ∈ planned)) then Raise (EPool PROTOCOL_ERROR)
      else validate_ios planned ios' (io_req_id io :: seen)
  end.

Definition validate_opt (planned : list string) (ios : option (list ReqIoSet))
    (seen : list string) : result lexn (list string) :=
  match ios with None => Ok seen | Some l => validate_ios planned l seen end.

Fixpoint validate_stats (planned : list string) (rids : list string) : result lexn unit :=
  match rids with
  | [] => Ok tt
  | rid :: rids' =>
      if negb (bool_decide (rid ∈ planned)) then Raise (EPool PROTOCOL_ERROR)
      else validate_stats planned rids'
  end.

Definition same_set (l k : list string) : bool :=
  bool_decide (l ⊆ k) && bool_decide (k ⊆ l).

Definition validate_ready (allow_partial : bool) (output : SchedulerOutput) (h : ReadyHandle)
    : result lexn unit :=
  if negb (rh_step_id h =? so_step_id output) then Raise (EPool PROTOCOL_ERROR)
  else
    let planned := dkeys (num_scheduled_tokens output) in
    match validate_opt planned (effective_read_set h) [] with
    | Raise e => Raise e
    | Ok seen1 =>
        match validate_opt planned (effective_write_set h) seen1 with
        | Raise e => Raise e
        | Ok seen =>
            let has_effective :=
              match effective_read_set h, effective_write_set h with
              | None, None => false
              | _, _ => true
              end in
            if has_effective && negb allow_partial && negb (same_set seen planned)
            then Raise (EPool PROTOCOL_ERROR)
            else validate_stats planned (dkeys (stats_by_req h))
        end
    end.

Definition make_plan (output : SchedulerOutput) (p : pool) : PreparePlan :=
  mkPreparePlan (so_step_id output) (forward_mode output) (read_set output) (write_set output)
    (num_scheduled_tokens output) (pi_pull_budget_ms p) (pi_allow_partial_hit p).

Definition bind_host (reqs : gmap string Req) (p : pool) : pool :=
  match ag_bind_host_reqs with
  | Some bind => set_agent (bind reqs (pi_agent p)) p
  | None => p
  end.

Definition prepare_step (output : SchedulerOutput) (reqs : gmap string Req)
    : M pool lexn ReadyHandle :=
  plan ← gets (make_plan output);
  _ ← modify (bind_host reqs);
  _ ← modify (map_stats inc_prepare);
  handle ← call_agent (ag_prepare_step plan);
  partial ← gets pi_allow_partial_hit;
  _ ← lift (validate_ready partial output handle);
  _ ← modify (set_last (Some handle));
  mret handle.

Definition done (step : Z) : M pool lexn unit :=
  _ ← modify (map_stats inc_done);
  _ ← call_agent (ag_done step);
  modify (set_last None).

Definition on_request_finished (r : Req) : M pool lexn unit := fun p =>
  if bool_decide (req_id r ∈ pi_finished_req_ids p) then (map_stats inc_duplicate p, Ok tt)
  else
    (_ ← modify (map_stats inc_finish);
     _ ← call_agent (ag_on_request_finished
           (mkFinishRequest (req_id r) (node_id r) (served_model_name r)));
     modify (add_finished (req_id r))) p.

Definition commit_write_extent (rid : string) (e : Z) : M pool lexn unit :=
  if e <? 0 then raise (EPool INVALID_ARG)
  else match ag_commit_write_extent with
       | None => mret tt
       | Some commit =>
           _ ← modify (map_stats inc_commit);
           call_agent (commit rid e)
       end.

(** ** The answer of an agent, checked *)

Definition io_ok (planned : list string) (io : ReqIoSet) : Prop :=
  token_start io <= token_end io /\ io_req_id io ∈ planned.

Definition effective_ios (h : ReadyHandle) : list ReqIoSet :=
  default [] (effective_read_set h) ++ default [] (effective_write_set h).

(** What [_validate_ready] is meant to enforce. *)
Definition ready_ok (partial : bool) (output : SchedulerOutput) (h : ReadyHandle) : Prop :=
  let planned := dkeys (num_scheduled_tokens output) in
  rh_step_id h = so_step_id output /\
  Forall (io_ok planned) (effective_ios h) /\
  (partial = false -> effective_read_set h <> None \/ effective_write_set h <> None ->
   planned ⊆ io_req_id <$> effective_ios h) /\
  dkeys (stats_by_req h) ⊆ planned.

Lemma validate_ios_spec planned ios seen :
  match validate_ios planned ios seen with
  | Ok seen' => Forall (io_ok planned) ios /\ (forall x, x ∈ seen' <-> x ∈ seen \/ x ∈ io_req_id <$> ios)
  | Raise e => ~ Forall (io_ok planned) ios /\ e = EPool PROTOCOL_ERROR
  end.
Proof.
  revert seen. induction ios as [|io ios IH]; intros seen; simpl; [split; [done|set_solver]|].
  destruct (token_end io <? token_start io) eqn:E1.
  { zbool. split; [|done]. intros [[? _] _]%Forall_cons_1. lia. }
  destruct (bool_decide (io_req_id io ∈ planned)) eqn:E2; simpl; zbool.
  - specialize (IH (io_req_id io :: seen)).
    destruct (validate_ios planned ios _); [|destruct IH as [IH ?]; split; [|done]].
    + destruct IH as [IH1 IH2]. split; [constructor; [by split|done]|].
      intros x. rewrite IH2. set_solver.
    + intros [_ ?]%Forall_cons_1. done.
  - split; [|done]. by intros [[_ ?] _]%Forall_cons_1.
Qed.

Lemma validate_opt_spec planned ios seen :
  match validate_opt planned ios seen with
  | Ok seen' => Forall (io_ok planned) (default [] ios) /\
      (forall x, x ∈ seen' <-> x ∈ seen \/ x ∈ io_req_id <$> default [] ios)
  | Raise e => ~ Forall (io_ok planned) (default [] ios) /\ e = EPool PROTOCOL_ERROR
  end.
Proof. destruct ios; simpl; [apply validate_ios_spec|]. split; [done|set_solver]. Qed.

Lemma validate_stats_spec planned rids :
  validate_stats planned rids = (if decide (rids ⊆ planned) then Ok tt else Raise (EPool PROTOCOL_ERROR)).
Proof.
  induction rids as [|rid rids IH]; cbn [validate_stats].
  { case_decide as Hs; [done|]. destruct Hs. set_solver. }
  destruct (bool_decide (rid ∈ planned)) eqn:E; cbn [negb]; cbv iota; zbool.
  - rewrite IH. repeat case_decide; set_solver.
  - clear IH. case_decide as Hs; [|done]. destruct E. apply Hs. left.
Qed.

Lemma same_set_spec l k : same_set l k = true <-> forall x, x ∈ l <-> x ∈ k.
Proof.
  unfold same_set. rewrite andb_true_iff, !bool_decide_eq_true. set_solver.
Qed.

Lemma validate_ready_spec partial output h :
  (validate_ready partial output h = Ok tt /\ ready_ok partial output h) \/
  (validate_ready partial output h = Raise (EPool PROTOCOL_ERROR) /\ ~ ready_ok partial output h).
Proof.
  unfold validate_ready, ready_ok, effective_ios.
  destruct (rh_step_id h =? so_step_id output) eqn:Es; simpl; zbool; [|right; tauto].
  set (planned := dkeys (num_scheduled_tokens output)).
  pose proof (validate_opt_spec planned (effective_read_set h) []) as H1.
  destruct (validate_opt planned (effective_read_set h) []) as [s1|e1].
  2: { destruct H1 as [H1 ->]. right. rewrite Forall_app. tauto. }
  pose proof (validate_opt_spec planned (effective_write_set h) s1) as H2.
  destruct (validate_opt planned (effective_write_set h) s1) as [s2|e2].
  2: { destruct H2 as [H2 ->]. right. rewrite Forall_app. tauto. }
  destruct H1 as [F1 S1], H2 as [F2 S2].
  assert (Hios : Forall (io_ok planned) (default [] (effective_read_set h) ++ default [] (effective_write_set h)))
    by (apply Forall_app; done).
  assert (Hseen : forall x, x ∈ s2 <->
    x ∈ io_req_id <$> default [] (effective_read_set h) ++ default [] (effective_write_set h)).
  { intros x. rewrite S2, S1, fmap_app. set_solver. }
  assert (Hsub : forall x, x ∈ s2 -> x ∈ planned).
  { intros x Hx. apply Hseen, list_elem_of_fmap in Hx as (io&->&Hio).
    rewrite Forall_forall in Hios. by destruct (Hios io Hio). }
  rewrite validate_stats_spec. destruct (same_set s2 planned) eqn:Ess.
  - rewrite andb_false_r. rewrite same_set_spec in Ess. case_decide; [left|right; tauto].
    split_and!; try done. intros _ _ x Hx. by apply Hseen, Ess.
  - destruct partial; simpl.
    + rewrite andb_false_r. simpl. case_decide; [left|right; tauto]. by split_and!.
    + assert (Hn : ~ planned ⊆ io_req_id <$> default [] (effective_read_set h) ++ default [] (effective_write_set h)).
      { intros Hp. apply not_true_iff_false in Ess. apply Ess. apply same_set_spec.
        intros x. split; [auto|]. intros Hx. by apply Hseen, Hp. }
      destruct (effective_read_set h) eqn:Er, (effective_write_set h) eqn:Ew; simpl;
        try (right; split; [done|]; intros (_&_&Hx&_); apply Hn, Hx; [done|by (left + right)]).
      case_decide; [left|right; tauto]. split_and!; try done. by intros _ [].
Qed.

(** ** Errors and counters *)

Definition only_pool_errors {B} (c : M pool lexn B) : Prop :=
  forall p p' e, c p = (p', Raise e) -> exists code, e = EPool code.

Lemma only_pool_bind {B C} (c : M pool lexn B) (k : B -> M pool lexn C) :
  only_pool_errors c -> (forall b, only_pool_errors (k b)) -> only_pool_errors (c ≫= k).
Proof.
  intros Hc Hk p p' e. unfold mbind, M_bind. destruct (c p) as [p1 [b|e1]] eqn:E; intros H.
  - by eapply Hk.
  - simplify_eq. by eapply Hc.
Qed.

Lemma only_pool_call {B} (fn : M A lexn B) : only_pool_errors (call_agent fn).
Proof. intros p p' e. unfold call_agent. repeat case_match; intros; simplify_eq; eauto. Qed.

Lemma only_pool_modify f : only_pool_errors (modify f).
Proof. by intros p p' e. Qed.

Lemma only_pool_gets {B} (f : pool -> B) : only_pool_errors (gets f).
Proof. by intros p p' e. Qed.

Lemma only_pool_validate partial output h : only_pool_errors (lift (validate_ready partial output h)).
Proof.
  intros p p' e. unfold lift. destruct (validate_ready_spec partial output h) as [[-> _]|[-> _]];
    intros; simplify_eq; eauto.
Qed.

(** The error counter moves exactly with the agent's failures. *)
Lemma call_agent_errors {B} (fn : M A lexn B) p p' r :
  call_agent fn p = (p', r) ->
  error_calls (pi_stats p') =
    error_calls (pi_stats p) + (match r with Ok _ => 0 | Raise _ => 1 end).
Proof. unfold call_agent. repeat case_match; intros; simplify_eq/=; lia. Qed.

End ops.

#[global] Hint Resolve only_pool_call only_pool_modify only_pool_gets only_pool_validate : lake.

(** Discharges [only_pool_errors] of a sequence of facade steps. *)
Ltac pool_errors :=
  repeat (apply only_pool_bind; [auto with lake|intros ?]); auto with lake.

(** ** The facade over a reliable agent *)

Section reliable.
Context {A : Type} {SA : StorageAgent A} {budget : Z} {RA : ReliableAgent A budget}.
Abbreviation pool := (PoolIface A).

Definition idle (p : pool) : Prop :=
  ag_idle (pi_agent p) /\ pi_pull_budget_ms p = budget.
Definition busy (step : Z) (p : pool) : Prop :=
  ag_busy step (pi_agent p) /\ pi_pull_budget_ms p = budget.

(** An output whose ranges are well formed, whose writes name every scheduled
    request, and whose reads and writes name no other. *)
Definition plan_ok (output : SchedulerOutput) : Prop :=
  let planned := dkeys (num_scheduled_tokens output) in
  Forall (io_ok planned) (read_set output ++ write_set output) /\
  planned ⊆ io_req_id <$> write_set output.

(** The scheduled requests are among the host's, with models and prompts the agent accepts. *)
Definition reqs_ok (output : SchedulerOutput) (reqs : gmap string Req) : Prop :=
  forall rid, rid ∈ dkeys (num_scheduled_tokens output) ->
    exists r, reqs !! rid = Some r /\ ag_prompt_ok (served_model_name r) (prompt_token_ids r).

Lemma prepare_reliable output reqs p :
  idle p -> plan_ok output -> reqs_ok output reqs ->
  exists p' h, prepare_step output reqs p = (p', Ok h) /\ busy (so_step_id output) p' /\
    rh_step_id h = so_step_id output /\
    effective_read_set h = Some (read_set output) /\
    effective_write_set h = Some (write_set output) /\
    pi_finished_req_ids p' = pi_finished_req_ids p /\
    dkeys (stats_by_req h) ⊆ dkeys (num_scheduled_tokens output) /\
    slots_fit (write_set output) h.
Proof.
  intros [Hi Hb] [Hio Hpl] Hreqs. unfold prepare_step.
  set (q := map_stats inc_prepare (bind_host reqs p)).
  assert (Hq : (ag_idle (pi_agent q) /\ ag_bound reqs (pi_agent q)) /\ pi_pull_budget_ms q = budget /\
    pi_finished_req_ids q = pi_finished_req_ids p).
  { unfold q, bind_host. destruct ag_bind_host_reqs eqn:E; simpl; (split; [|done]).
    - by eapply ag_bind_ok.
    - split; [done|by apply ag_unbound_ok]. }
  destruct Hq as ((Hqi & Hbound) & Hqb & Hqf).
  destruct (ag_prepare_ok (make_plan output p) reqs (pi_agent q) Hqi Hb Hbound)
    as (a' & h & E & Hbusy & Hst & Hr & Hw & Hk & Hsl).
  { intros io Hin. rewrite Forall_forall in Hio. apply Hreqs. by apply Hio. }
  assert (Hstats : dkeys (stats_by_req h) ⊆ dkeys (num_scheduled_tokens output)).
  { intros rid Hrid. apply Hk, list_elem_of_fmap in Hrid as (io & -> & Hin).
    rewrite Forall_forall in Hio. by destruct (Hio io Hin). }
  exists (set_last (Some h) (set_agent a' q)), h. split.
  - unfold mbind, M_bind, gets, modify. fold q. unfold call_agent. rewrite E. unfold lift.
    destruct (validate_ready_spec (pi_allow_partial_hit (set_agent a' q)) output h) as [[-> _]|[_ Hn]]; [done|].
    destruct Hn. unfold ready_ok, effective_ios. rewrite Hr, Hw. simpl in *.
    split_and!; [done|done| |done]. intros _ _ x Hx. rewrite fmap_app. set_solver.
  - simpl. split_and!; try done; by split.
Qed.

Lemma done_reliable step p : busy step p ->
  exists p', done step p = (p', Ok tt) /\ idle p' /\
    pi_finished_req_ids p' = pi_finished_req_ids p.
Proof.
  intros [Hbusy Hb]. destruct (ag_done_ok step (pi_agent p) Hbusy) as (a' & E & Hi).
  eexists. unfold done, mbind, M_bind, modify, call_agent. simpl. rewrite E.
  split; [done|]. by repeat split.
Qed.

Lemma finish_reliable r p : idle p ->
  exists p', on_request_finished r p = (p', Ok tt) /\ idle p'.
Proof.
  intros [Hi Hb]. unfold on_request_finished. case_match.
  - eexists. split; [done|]. by split.
  - destruct (ag_finish_ok (mkFinishRequest (req_id r) (node_id r) (served_model_name r)) (pi_agent p) Hi)
      as (a' & E & Hi').
    eexists. unfold mbind, M_bind, modify, call_agent. simpl. rewrite E.
    split; [done|]. by split.
Qed.

Lemma commit_reliable rid e p : idle p -> 0 <= e ->
  exists p', commit_write_extent rid e p = (p', Ok tt) /\ idle p'.
Proof.
  intros [Hi Hb] He. unfold commit_write_extent. rewrite (proj2 (Z.ltb_ge e 0)) by done.
  destruct ag_commit_write_extent as [commit|] eqn:Ec.
  - destruct (ag_commit_ok commit rid e (pi_agent p) Ec Hi) as (a' & E & Hi').
    eexists. unfold mbind, M_bind, modify, call_agent. simpl. rewrite E.
    split; [done|]. by split.
  - eexists. split; [done|]. by split.
Qed.

End reliable.

(** ** Properties *)

(** [_validate_ready] decides the contract between scheduler and agent: it
    accepts an answer exactly when the step ids agree, every effective range is
    well formed and belongs to a scheduled request, no scheduled request is
    missing unless partial hits are allowed (or the agent fills neither set),
    and the statistics name only scheduled requests; otherwise it raises
    [PROTOCOL_ERROR]. *)
Theorem validate_ready_decides partial output h :
  (validate_ready partial output h = Ok tt <-> ready_ok partial output h) /\
  (validate_ready partial output h = Raise (EPool PROTOCOL_ERROR) <-> ~ ready_ok partial output h).
Proof. destruct (validate_ready_spec partial output h) as [[-> ?]|[-> ?]]; naive_solver. Qed.

(** Whatever the agent does, the facade's callers see no exception but
    [PoolError]; a failed [on_request_finished] is not remembered, so that the
    end can be reported again, and a successful one is forwarded once: a second
    report of the same request never reaches the agent. *)
Theorem facade_errors_and_finish {A} {SA : StorageAgent A} :
  (forall output reqs, only_pool_errors (A := A) (prepare_step output reqs)) /\
  (forall step, only_pool_errors (A := A) (done step)) /\
  (forall rid e, only_pool_errors (A := A) (commit_write_extent rid e)) /\
  (forall r, only_pool_errors (A := A) (on_request_finished r)) /\
  forall r p p' o, on_request_finished (A := A) r p = (p', o) ->
    match o with
    | Raise _ => pi_finished_req_ids p' = pi_finished_req_ids p
    | Ok _ => forall r', req_id r' = req_id r ->
        on_request_finished r' p' = (map_stats inc_duplicate p', Ok tt)
    end.
Proof.
  split_and!.
  - intros. unfold prepare_step. pool_errors. by intros ? ? ?.
  - intros. unfold done. pool_errors.
  - intros. unfold commit_write_extent. repeat case_match.
    + intros p p' e' H'. unfold raise in H'. simplify_eq. eauto.
    + pool_errors.
    + by intros ? ? ?.
  - intros r p p' e. unfold on_request_finished. case_match; [done|].
    revert p p' e H. intros p p' e _. revert p p' e.
    change (only_pool_errors (A := A) (_ ← modify (map_stats inc_finish);
      _ ← call_agent (ag_on_request_finished
        (mkFinishRequest (req_id r) (node_id r) (served_model_name r)));
      modify (add_finished (req_id r)))). pool_errors.
  - intros r p p' o. unfold on_request_finished. case_match eqn:E.
    + intros H'. simplify_eq. intros r' ->. simpl. by rewrite E.
    + unfold mbind, M_bind, modify, call_agent. simpl.
      repeat case_match; intros; simplify_eq/=; try done.
      rewrite bool_decide_eq_true_2; [done|]. set_solver.
Qed.

Lemma facade_errors_and_finish_witness :
  let p := Pool.init InMemory.init 0 false in
  let r := mkReq "a" "m" [1] (mkSamplingParams 1 (QArith_base.inject_Z 1) None) "n" 0 [] 0 0 true None COLOCATED in
  let p1 := (on_request_finished r p).1 in
  on_request_finished r p1 = (map_stats inc_duplicate p1, Ok tt).
Proof.
  intros p r p1.
  assert (E : on_request_finished r p = (p1, Ok tt)) by (vm_compute; reflexivity).
  destruct facade_errors_and_finish as (_ & _ & _ & _ & H).
  exact (H r p p1 (Ok tt) E r eq_refl).
Defined.

End Pool.
