(* ===== verification/NodeScheduler.v ===== *)
(** * The node scheduler

    [python/lake/runtime/node_scheduler.py]: admission, continuous batching
    under a token budget, the ready/execute/done step, and the processing of a
    batch result, with the two main loops.

    The storage agent [A], the runner [R] and the owner's state [X] (the worker
    engine's, reached through the [on_req_finished] callback) are parameters.
    A [Dict] that is only looked up is a [gmap]; the dictionaries of a
    [SchedulerOutput], which are iterated, are [dict]s.  A Python object that
    several containers share ([Req]) has its only mutable copy in [_reqs]. *)

From S2P Require Import Prelude PyDict LakeTypes Agent PoolIface.

(** ** Data *)

Record BatchResult : Type := mkBatch {
  br_output : SchedulerOutput;
  br_runner_out : ModelRunnerOutput;
  br_ready : ReadyHandle
}.

Inductive tl_event : Type := TL_execute | TL_process.

(** executor.py: [RuntimeExecutor] is a protocol in the source. *)
Class RuntimeExecutor (R : Type) : Type := {
  execute_model : SchedulerOutput -> ReadyHandle -> gmap string Req -> M R lexn ModelRunnerOutput;
  clear_drafter : string -> R -> R
}.

Record sched (A R X : Type) : Type := mkSched {
  s_pool : PoolIface A;
  s_runner : R;
  s_role : RoleConfig;
  s_reqs : gmap string Req;
  s_waiting : list string;
  s_running : list string;
  s_step_id : Z;
  s_mock_remaining : gmap string (list Z);
  s_inflight_decode : gmap string Z;
  s_future_map : FutureMap.t;
  s_result_queue : list BatchResult;
  s_pending_drafts : gmap string (list Z);
  s_timeline : list (tl_event * Z);
  s_ext : X
}.
Arguments mkSched {A R X}.
Arguments s_pool {A R X}.
Arguments s_runner {A R X}.
Arguments s_role {A R X}.
Arguments s_reqs {A R X}.
Arguments s_waiting {A R X}.
Arguments s_running {A R X}.
Arguments s_step_id {A R X}.
Arguments s_mock_remaining {A R X}.
Arguments s_inflight_decode {A R X}.
Arguments s_future_map {A R X}.
Arguments s_result_queue {A R X}.
Arguments s_pending_drafts {A R X}.
Arguments s_timeline {A R X}.
Arguments s_ext {A R X}.

(** [(seed + i + 1) % 1000 + 1000 for i in range(max_new)] *)
Definition mock_decode_tokens (prompt : list Z) (max_new : Z) : list Z :=
  let seed := default 0 (last prompt) in
  (fun i => (seed + i + 1) mod 1000 + 1000) <$> py_range max_new.

Definition build_req_from_generate (request_id model : string) (prompt : list Z)
    (max_new : Z) (node : string) : result lexn Req :=
  if bool_decide (model = EmptyString) then Raise EValueError
  else Ok (mkReq request_id model prompt
             (mkSamplingParams (if max_new =? 0 then 4 else max_new) (QArith_base.inject_Z 1) None)
             node 0 [] 0 0 false None COLOCATED).

(** The locals of [schedule]. *)
Record acc : Type := mkAcc {
  ac_budget : Z;
  ac_new : list NewRequestData;
  ac_cached : CachedRequestData;
  ac_num : dict string Z;
  ac_read : list ReqIoSet;
  ac_write : list ReqIoSet;
  ac_modes : dict string ForwardMode;
  ac_computed_at : dict string Z;
  ac_qs : dict string Z;
  ac_qe : dict string Z;
  ac_spec : dict string (list Z)
}.

Definition acc0 (budget : Z) : acc := mkAcc budget [] empty_cached [] [] [] [] [] [] [] [].

Definition cached_add (rid : string) (computed out : Z) (c : CachedRequestData)
    : CachedRequestData :=
  mkCachedRequestData (cr_req_ids c ++ [rid]) (cr_num_computed_tokens c ++ [computed])
    (cr_num_output_tokens c ++ [out]) (cr_new_token_ids c).

(** [{r: d[r] for r in keys}] *)
Fixpoint reindex {V} (d : dict string V) (keys : list string) : result lexn (dict string V) :=
  match keys with
  | [] => Ok []
  | k :: keys' =>
      match dget k d with
      | None => Raise EKeyError
      | Some v => match reindex d keys' with Ok d' => Ok ((k, v) :: d') | Raise e => Raise e end
      end
  end.

(** The mode of a batch from the modes of its requests. *)
Definition batch_mode (modes : list ForwardMode) : ForwardMode :=
  if forallb (fun m => bool_decide (m = EXTEND)) modes then EXTEND
  else if forallb (fun m => bool_decide (m = DECODE)) modes then DECODE
  else if forallb (fun m => bool_decide (m = TARGET_VERIFY)) modes then TARGET_VERIFY
  else MIXED.

Definition req_has_structured_output (r : Req) : bool :=
  match structured_output (sampling_params r) with
  | Some g => negb (bool_decide (g = EmptyString))
  | None => false
  end.

Fixpoint structured_ids (reqs : gmap string Req) (rids : list string) : result lexn (list string) :=
  match rids with
  | [] => Ok []
  | rid :: rids' =>
      match reqs !! rid with
      | None => Raise EKeyError
      | Some r =>
          match structured_ids reqs rids' with
          | Ok l => Ok (if req_has_structured_output r then rid :: l else l)
          | Raise e => Raise e
          end
      end
  end.

(** [vals[i]] for the positions of the kept requests, where there is one. *)
Definition keep_idx (keep : string -> bool) (ids : list string) (vals : list Z) : list Z :=
  omap (fun '(i, rid) => if keep rid then vals !! (i : nat) else None) (imap pair ids).

Definition keep_dict {V} (keep : string -> bool) (d : dict string V) : dict string V :=
  filter (fun kv => keep kv.1 = true) d.
Definition keep_ids (keep : string -> bool) (l : list string) : list string :=
  filter (fun rid => keep rid = true) l.

Definition filter_grammar_output (g : option GrammarOutput) (keep : string -> bool)
    : option GrammarOutput :=
  match g with
  | None => None
  | Some g =>
      let req_ids := keep_ids keep (g_req_ids g) in
      let masks := keep_dict keep (token_bitmask_by_req g) in
      let deferred := keep_ids keep (deferred_req_ids g) in
      if bool_decide (req_ids = []) && bool_decide (length masks = 0%nat) && bool_decide (deferred = [])
      then None
      else Some (mkGrammarOutput req_ids masks deferred (g_reason g))
  end.

(** ** Operations *)

Module Sched.
Section ops.
Context {A R X : Type} {SA : StorageAgent A} {RE : RuntimeExecutor R}.
Abbreviation node := (sched A R X).

Definition set_pool (v : PoolIface A) (s : node) : node :=
  mkSched v (s_runner s) (s_role s) (s_reqs s) (s_waiting s) (s_running s)
    (s_step_id s) (s_mock_remaining s) (s_inflight_decode s) (s_future_map s)
    (s_result_queue s) (s_pending_drafts s) (s_timeline s) (s_ext s).
Definition set_runner (v : R) (s : node) : node :=
  mkSched (s_pool s) v (s_role s) (s_reqs s) (s_waiting s) (s_running s)
    (s_step_id s) (s_mock_remaining s) (s_inflight_decode s) (s_future_map s)
    (s_result_queue s) (s_pending_drafts s) (s_timeline s) (s_ext s).
Definition set_role (v : RoleConfig) (s : node) : node :=
  mkSched (s_pool s) (s_runner s) v (s_reqs s) (s_waiting s) (s_running s)
    (s_step_id s) (s_mock_remaining s) (s_inflight_decode s) (s_future_map s)
    (s_result_queue s) (s_pending_drafts s) (s_timeline s) (s_ext s).
Definition set_reqs (v : gmap string Req) (s : node) : node :=
  mkSched (s_pool s) (s_runner s) (s_role s) v (s_waiting s) (s_running s)
    (s_step_id s) (s_mock_remaining s) (s_inflight_decode s) (s_future_map s)
    (s_result_queue s) (s_pending_drafts s) (s_timeline s) (s_ext s).
Definition set_waiting (v : list string) (s : node) : node :=
  mkSched (s_pool s) (s_runner s) (s_role s) (s_reqs s) v (s_running s)
    (s_step_id s) (s_mock_remaining s) (s_inflight_decode s) (s_future_map s)
    (s_result_queue s) (s_pending_drafts s) (s_timeline s) (s_ext s).
Definition set_running (v : list string) (s : node) : node :=
  mkSched (s_pool s) (s_runner s) (s_role s) (s_reqs s) (s_waiting s) v
    (s_step_id s) (s_mock_remaining s) (s_inflight_decode s) (s_future_map s)
    (s_result_queue s) (s_pending_drafts s) (s_timeline s) (s_ext s).
Definition set_step_id (v : Z) (s : node) : node :=
  mkSched (s_pool s) (s_runner s) (s_role s) (s_reqs s) (s_waiting s) (s_running
    s) v (s_mock_remaining s) (s_inflight_decode s) (s_future_map s)
    (s_result_queue s) (s_pending_drafts s) (s_timeline s) (s_ext s).
Definition set_mock_remaining (v : gmap string (list Z)) (s : node) : node :=
  mkSched (s_pool s) (s_runner s) (s_role s) (s_reqs s) (s_waiting s) (s_running
    s) (s_step_id s) v (s_inflight_decode s) (s_future_map s) (s_result_queue s)
    (s_pending_drafts s) (s_timeline s) (s_ext s).
Definition set_inflight_decode (v : gmap string Z) (s : node) : node :=
  mkSched (s_pool s) (s_runner s) (s_role s) (s_reqs s) (s_waiting s) (s_running
    s) (s_step_id s) (s_mock_remaining s) v (s_future_map s) (s_result_queue s)
    (s_pending_drafts s) (s_timeline s) (s_ext s).
Definition set_future_map (v : FutureMap.t) (s : node) : node :=
  mkSched (s_pool s) (s_runner s) (s_role s) (s_reqs s) (s_waiting s) (s_running
    s) (s_step_id s) (s_mock_remaining s) (s_inflight_decode s) v
    (s_result_queue s) (s_pending_drafts s) (s_timeline s) (s_ext s).
Definition set_result_queue (v : list BatchResult) (s : node) : node :=
  mkSched (s_pool s) (s_runner s) (s_role s) (s_reqs s) (s_waiting s) (s_running
    s) (s_step_id s) (s_mock_remaining s) (s_inflight_decode s) (s_future_map s)
    v (s_pending_drafts s) (s_timeline s) (s_ext s).
Definition set_pending_drafts (v : gmap string (list Z)) (s : node) : node :=
  mkSched (s_pool s) (s_runner s) (s_role s) (s_reqs s) (s_waiting s) (s_running
    s) (s_step_id s) (s_mock_remaining s) (s_inflight_decode s) (s_future_map s)
    (s_result_queue s) v (s_timeline s) (s_ext s).
Definition set_timeline (v : list (tl_event * Z)) (s : node) : node :=
  mkSched (s_pool s) (s_runner s) (s_role s) (s_reqs s) (s_waiting s) (s_running
    s) (s_step_id s) (s_mock_remaining s) (s_inflight_decode s) (s_future_map s)
    (s_result_queue s) (s_pending_drafts s) v (s_ext s).
Definition set_ext (v : X) (s : node) : node :=
  mkSched (s_pool s) (s_runner s) (s_role s) (s_reqs s) (s_waiting s) (s_running
    s) (s_step_id s) (s_mock_remaining s) (s_inflight_decode s) (s_future_map s)
    (s_result_queue s) (s_pending_drafts s) (s_timeline s) v.

Definition use_runner_tokens (s : node) : bool := bool_decide (model_backend (s_role s) = "qwen3").
Definition spec_enabled (s : node) : bool := false.

Definition init (pool : PoolIface A) (runner : R) (rl : RoleConfig) (x : X) : node :=
  mkSched pool runner rl ∅ [] [] 0 ∅ ∅ FutureMap.init [] ∅ [] x.

Definition on_pool {B} (c : M (PoolIface A) lexn B) : M node lexn B := fun s =>
  let '(p, r) := c (s_pool s) in (set_pool p s, r).
Definition on_runner {B} (c : M R lexn B) : M node lexn B := fun s =>
  let '(x, r) := c (s_runner s) in (set_runner x s, r).

(** The geometry part of [add_request]: the hint, and the whole prompt when it
    is already local. *)
Definition admit_req (h : option PrefixHint) (r : Req) : Req :=
  match h with
  | None => r
  | Some h =>
      let r1 := apply_prefix_hint h r in
      if full_local_hit h (prompt_len r) then set_num_computed (prompt_len r) r1 else r1
  end.

Definition add_request (r : Req) (h : option PrefixHint) : M node lexn unit := fun s =>
  match s_reqs s !! req_id r with
  | Some _ => (s, Raise EValueError)
  | None =>
      let mml := max_model_length (s_role s) in
      if (0 <? mml) && (mml <? prompt_len r + max_new r) then (s, Raise EValueError)
      else
        let r' := admit_req h r in
        let remaining := if bool_decide (model_backend (s_role s) = "mock")
                         then mock_decode_tokens (prompt_token_ids r) (max_new r) else [] in
        (set_mock_remaining (<[req_id r := remaining]> (s_mock_remaining s))
           (set_waiting (s_waiting s ++ [req_id r])
              (set_reqs (<[req_id r := r']> (s_reqs s)) s)), Ok tt)
  end.

Definition nonempty {B} (l : list B) : bool := match l with [] => false | _ => true end.

Definition has_work (s : node) : bool :=
  nonempty (s_waiting s) || nonempty (s_running s) || nonempty (s_result_queue s).
Definition num_waiting (s : node) : Z := zlen (s_waiting s).
Definition num_running (s : node) : Z := zlen (s_running s).
Definition has_req (rid : string) (s : node) : bool := bool_decide (is_Some (s_reqs s !! rid)).

Definition release_req (rid : string) (s : node) : node * option Req :=
  (set_reqs (delete rid (s_reqs s)) s, s_reqs s !! rid).

Definition abandon_req (rid : string) (s : node) : node * option Req :=
  let s1 := set_waiting (remove_first rid (s_waiting s)) s in
  let s2 := set_running (remove_first rid (s_running s1)) s1 in
  let s3 := set_inflight_decode (delete rid (s_inflight_decode s2)) s2 in
  let s4 := set_pending_drafts (delete rid (s_pending_drafts s3)) s3 in
  let s5 := set_mock_remaining (delete rid (s_mock_remaining s4)) s4 in
  let s6 := set_future_map (FutureMap.clear rid (s_future_map s5)) s5 in
  let s7 := set_runner (clear_drafter rid (s_runner s6)) s6 in
  release_req rid s7.

(** [_has_unprocessed_prompt] *)
Definition has_unprocessed_prompt (rid : string) (plen : Z) (s : node) : bool :=
  existsb (fun br =>
    match dget rid (num_scheduled_tokens (br_output br)) with
    | None => false
    | Some _ => default 0 (dget rid (req_num_computed_at_schedule (br_output br))) <? plen
    end) (s_result_queue s).

(** The while loop that fills the running slots. *)
Fixpoint fill_running (cap : Z) (waiting running : list string) : list string * list string :=
  match waiting with
  | [] => ([], running)
  | rid :: waiting' =>
      if zlen running <? cap then fill_running cap waiting' (running ++ [rid])
      else (waiting, running)
  end.

(** [left] of pass A, [None] where the code continues. *)
Definition gen_left (rid : string) (r : Req) (inflight : Z) (s : node) : option Z :=
  let lft := if use_runner_tokens s
              then max_new r - num_output_tokens r - inflight
              else zlen (default [] (s_mock_remaining s !! rid)) - inflight in
  if lft <=? 0 then None else Some lft.

Definition gen_room (computed inflight budget lft : Z) (s : node) : option Z :=
  let mml := max_model_length (s_role s) in
  if 0 <? mml then
    let room := mml - (computed + inflight) in
    if room <=? 0 then None else Some room
  else Some (budget + lft).

(** The common tail of the two generation branches: [n] tokens of mode [mode],
    with the draft tokens to verify. *)
Definition emit_gen (rid : string) (r : Req) (inflight n : Z) (mode : ForwardMode)
    (spec : option (list Z)) (ac : acc) (s : node) : node * acc :=
  let qs := Z.max 0 (zlen (all_token_ids r) + inflight - 1) in
  (set_inflight_decode (<[rid := inflight + n]> (s_inflight_decode s)) s,
   mkAcc (ac_budget ac - n) (ac_new ac)
     (cached_add rid (num_computed_tokens r + inflight) (num_output_tokens r + inflight) (ac_cached ac))
     (dset rid n (ac_num ac))
     (ac_read ac ++ [mkReqIoSet rid 0 qs TARGET])
     (ac_write ac ++ [mkReqIoSet rid qs (qs + n) TARGET])
     (dset rid mode (ac_modes ac))
     (dset rid (num_computed_tokens r) (ac_computed_at ac))
     (dset rid qs (ac_qs ac))
     (dset rid (qs + n) (ac_qe ac))
     (match spec with Some d => dset rid d (ac_spec ac) | None => ac_spec ac end)).

(** The body of pass A for one running request. *)
Definition pass_a_one (rid : string) (ac : acc) : M node lexn acc := fun s =>
  match s_reqs s !! rid with
  | None => (s, Raise EKeyError)
  | Some r =>
      let computed := num_computed_tokens r in
      let inflight := get0 rid (s_inflight_decode s) in
      let budget := ac_budget ac in
      if finished r || (computed <? prompt_len r) then (s, Ok ac)
      else match gen_left rid r inflight s with
           | None => (s, Ok ac)
           | Some lft =>
               let pending := default [] (s_pending_drafts s !! rid) in
               match gen_room computed inflight budget lft s with
               | None => (s, Ok ac)
               | Some room =>
                   if spec_enabled s && nonempty pending then
                     let n := Z.min (Z.min (Z.min (zlen pending + 1) lft) budget) room in
                     if n <=? 0 then (s, Ok ac)
                     else let '(s', ac') := emit_gen rid r inflight n TARGET_VERIFY
                                              (Some (py_take (n - 1) pending)) ac s in (s', Ok ac')
                   else
                     let n := Z.min (Z.min (Z.min 1 lft) budget) room in
                     if n <=? 0 then (s, Ok ac)
                     else let '(s', ac') := emit_gen rid r inflight n DECODE None ac s in (s', Ok ac')
               end
           end
  end.

Fixpoint pass_a (rids : list string) (ac : acc) : M node lexn acc :=
  match rids with
  | [] => mret ac
  | rid :: rids' =>
      if ac_budget ac <=? 0 then mret ac
      else ac' ← pass_a_one rid ac; pass_a rids' ac'
  end.

(** The chunk of pass B. *)
Definition chunk_size (rl : RoleConfig) (plen computed budget : Z) : Z :=
  let n := Z.min (plen - computed) budget in
  let cap := long_prefill_token_threshold rl in
  let n := if 0 <? cap then Z.min n cap else n in
  let mml := max_model_length rl in
  if 0 <? mml then Z.min n (mml - computed) else n.

Definition emit_extend (rid : string) (r : Req) (n : Z) (ac : acc) : acc :=
  let computed := num_computed_tokens r in
  let fresh := (computed =? 0) && (num_output_tokens r =? 0) in
  mkAcc (ac_budget ac - n)
    (if fresh then ac_new ac ++ [mkNewRequestData rid (prompt_token_ids r) (sampling_params r) computed None]
     else ac_new ac)
    (if fresh then ac_cached ac else cached_add rid computed (num_output_tokens r) (ac_cached ac))
    (dset rid n (ac_num ac))
    (if 0 <? computed then ac_read ac ++ [mkReqIoSet rid 0 computed TARGET] else ac_read ac)
    (ac_write ac ++ [mkReqIoSet rid computed (computed + n) TARGET])
    (dset rid EXTEND (ac_modes ac))
    (dset rid computed (ac_computed_at ac))
    (dset rid computed (ac_qs ac))
    (dset rid (computed + n) (ac_qe ac))
    (ac_spec ac).

Definition pass_b_one (rid : string) (ac : acc) : M node lexn acc := fun s =>
  if din rid (ac_num ac) then (s, Ok ac)
  else match s_reqs s !! rid with
  | None => (s, Raise EKeyError)
  | Some r =>
      let computed := num_computed_tokens r in
      if finished r || (prompt_len r <=? computed)
         || has_unprocessed_prompt rid (prompt_len r) s then (s, Ok ac)
      else
        let n := chunk_size (s_role s) (prompt_len r) computed (ac_budget ac) in
        if n <=? 0 then (s, Ok ac) else (s, Ok (emit_extend rid r n ac))
  end.

Fixpoint pass_b (rids : list string) (ac : acc) : M node lexn acc :=
  match rids with
  | [] => mret ac
  | rid :: rids' =>
      if ac_budget ac <=? 0 then mret ac
      else ac' ← pass_b_one rid ac; pass_b rids' ac'
  end.

Definition can_graph (mode : ForwardMode) (ac : acc) : bool :=
  (bool_decide (mode = DECODE) || bool_decide (mode = TARGET_VERIFY)) &&
  forallb (fun rn => (rn.2 =? 1) || bool_decide (dget rn.1 (ac_modes ac) = Some TARGET_VERIFY))
    (ac_num ac).

Definition finish_schedule (step : Z) (ac : acc) : M node lexn SchedulerOutput := fun s =>
  let rids := dkeys (ac_num ac) in
  if negb (nonempty (ac_num ac)) then (s, Ok (idle_output step))
  else
    let mode := batch_mode (dvals (ac_modes ac)) in
    (ids ← lift (structured_ids (s_reqs s) rids);
     computed_at ← lift (reindex (ac_computed_at ac) rids);
     qs ← lift (reindex (ac_qs ac) rids);
     qe ← lift (reindex (ac_qe ac) rids);
     let grammar := if nonempty ids then Some (mkGrammarOutput ids [] [] EmptyString) else None in
     mret (mkSchedulerOutput step mode (ac_new ac) (ac_cached ac) (ac_num ac)
             (zsum (dvals (ac_num ac))) (ac_read ac) (ac_write ac) None (Some (can_graph mode ac))
             (if nonempty (ac_spec ac) then Some (ac_spec ac) else None)
             (match grammar with Some _ => true | None => false end) grammar
             (ac_modes ac) computed_at qs qe)) s.

Definition schedule : M node lexn SchedulerOutput := fun s0 =>
  let step := s_step_id s0 + 1 in
  let '(w, r) := fill_running (max_running_reqs (s_role s0)) (s_waiting s0) (s_running s0) in
  let s := set_running r (set_waiting w (set_step_id step s0)) in
  if negb (nonempty r) then (s, Ok (idle_output step))
  else
    (ac1 ← pass_a r (acc0 (Z.max 0 (max_num_scheduled_tokens (s_role s))));
     ac2 ← pass_b r ac1;
     finish_schedule step ac2) s.

(** ** One step: ready, execute, done *)

Definition planned_dropped (output : SchedulerOutput) (keep : list string) : list string :=
  filter (fun rid => rid ∉ keep) (dkeys (num_scheduled_tokens output)).

(** The roll-back of the dropped requests' inflight counters. *)
Definition rollback (output : SchedulerOutput) (rid : string) (m : gmap string Z) : gmap string Z :=
  let n := default 0 (dget rid (num_scheduled_tokens output)) in
  if n =? 0 then m else <[rid := Z.max 0 (get0 rid m - n)]> m.

Definition shrink_output (output : SchedulerOutput) (eff_r eff_w : list ReqIoSet)
    (keep : list string) : SchedulerOutput :=
  let kp rid := bool_decide (rid ∈ keep) in
  let num := keep_dict kp (num_scheduled_tokens output) in
  if negb (nonempty num) then idle_output (so_step_id output)
  else
    let c := scheduled_cached_reqs output in
    let modes := keep_dict kp (req_forward_modes output) in
    let spec := match scheduled_spec_decode_tokens output with
                | Some d => let d' := keep_dict kp d in if nonempty d' then Some d' else None
                | None => None
                end in
    let grammar := filter_grammar_output (grammar_output output) kp in
    mkSchedulerOutput (so_step_id output) (batch_mode (dvals modes))
      (filter (fun r => nr_req_id r ∈ keep) (scheduled_new_reqs output))
      (mkCachedRequestData (keep_ids kp (cr_req_ids c))
         (keep_idx kp (cr_req_ids c) (cr_num_computed_tokens c))
         (keep_idx kp (cr_req_ids c) (cr_num_output_tokens c)) None)
      num (zsum (dvals num))
      (filter (fun io => io_req_id io ∈ keep) eff_r)
      (filter (fun io => io_req_id io ∈ keep) eff_w)
      (global_num_tokens output) (can_run_graph output) spec
      (match grammar with Some _ => true | None => false end) grammar modes
      (keep_dict kp (req_num_computed_at_schedule output))
      (keep_dict kp (req_query_start output))
      (keep_dict kp (req_query_end output)).

Definition respect_effective_sets (output : SchedulerOutput) (ready : ReadyHandle)
    (s : node) : node * SchedulerOutput :=
  match effective_read_set ready, effective_write_set ready with
  | None, None => (s, output)
  | er, ew =>
      let eff_r := default (read_set output) er in
      let eff_w := default (write_set output) ew in
      let keep := (io_req_id <$> eff_r) ++ (io_req_id <$> eff_w) in
      let dropped := planned_dropped output keep in
      if negb (nonempty dropped) then (s, output)
      else
        (set_inflight_decode (foldl (fun m rid => rollback output rid m) (s_inflight_decode s) dropped) s,
         shrink_output output eff_r eff_w keep)
  end.

Definition log_event (e : tl_event) (step : Z) (s : node) : node :=
  set_timeline (s_timeline s ++ [(e, step)]) s.

(** [done] takes the step id of the output after the effective sets were
    respected; [shrink_output] keeps it. *)
Definition run_batch (output : SchedulerOutput) : M node lexn unit :=
  reqs ← gets s_reqs;
  ready ← on_pool (Pool.prepare_step output reqs);
  res ← try_finally
    (fun s =>
       let '(s1, out) := respect_effective_sets output ready s in
       let s2 := log_event TL_execute (so_step_id out) s1 in
       match on_runner (execute_model out ready (s_reqs s2)) s2 with
       | (s3, Ok ro) => (s3, Ok (mkBatch out ro ready))
       | (s3, Raise e) => (s3, Raise e)
       end)
    (on_pool (Pool.done (so_step_id output)));
  modify (fun s => set_result_queue (s_result_queue s ++ [res]) s).

(** ** Processing a result *)

Definition apply_stat (s : node) (kv : string * StepStats) : node :=
  let '(rid, st) := kv in
  match s_reqs s !! rid with
  | None => s
  | Some r =>
      if st_prefill_blocks st =? 0 then s
      else set_reqs (<[rid := set_blocks (st_reused_blocks st) (st_prefill_blocks st) r]> (s_reqs s)) s
  end.
Definition apply_ready_stats (ready : ReadyHandle) (s : node) : node :=
  foldl apply_stat s (stats_by_req ready).

Context (on_req_finished : option (Req -> node -> node)).

Definition finish_req (rid : string) : M node lexn unit := fun s =>
  match s_reqs s !! rid with
  | None => (s, Raise EKeyError)
  | Some r =>
      let s1 := set_running (remove_first rid (s_running s)) s in
      let s2 := set_inflight_decode (delete rid (s_inflight_decode s1)) s1 in
      let s3 := set_pending_drafts (delete rid (s_pending_drafts s2)) s2 in
      let s4 := set_future_map (FutureMap.clear rid (s_future_map s3)) s3 in
      let s5 := set_runner (clear_drafter rid (s_runner s4)) s4 in
      (_ ← on_pool (Pool.on_request_finished r);
       match on_req_finished with
       | Some cb => modify (cb r)
       | None => mret tt
       end) s5
  end.

(** A prompt chunk: the request advances by what was scheduled. *)
Definition process_extend (rid : string) (r : Req) (before n : Z) (ro : ModelRunnerOutput)
    : M node lexn unit :=
  let c := Z.min (prompt_len r) (before + n) in
  _ ← modify (fun s => set_reqs (<[rid := set_num_computed c r]> (s_reqs s)) s);
  _ ← on_pool (Pool.commit_write_extent rid c);
  modify (fun s =>
    let drafts := default [] (dget rid (next_draft_tokens ro)) in
    if (prompt_len r <=? c) && nonempty drafts
    then set_pending_drafts (<[rid := drafts]> (s_pending_drafts s)) s else s).

(** A generation step: the tokens the runner produced, or the next mock token. *)
Definition take_runner_tokens (rid : string) (r : Req) (ro : ModelRunnerOutput) (s : node) : node * Req :=
  let produced0 := default [] (dget rid (next_token_ids ro)) in
  let lft := max_new r - num_output_tokens r in
  let produced := if lft <? zlen produced0 then py_take lft produced0 else produced0 in
  let r' := foldl (fun r tok => append_token tok r) r produced in
  let s1 := set_reqs (<[rid := r']> (s_reqs s)) s in
  (match last produced with
   | Some tok => set_future_map (FutureMap.stash rid tok (s_future_map s1)) s1
   | None => s1
   end, r').

Definition take_mock_token (rid : string) (r : Req) (s : node) : node * Req :=
  match default [] (s_mock_remaining s !! rid) with
  | [] => (s, r)
  | tok :: remain =>
      let r' := append_token tok r in
      let s1 := set_reqs (<[rid := r']> (s_reqs s)) s in
      let s2 := set_mock_remaining (<[rid := remain]> (s_mock_remaining s1)) s1 in
      (set_future_map (FutureMap.stash rid tok (s_future_map s2)) s2, r')
  end.

Definition process_generate (rid : string) (r : Req) (n : Z) (spec : option (list Z))
    (ro : ModelRunnerOutput) : M node lexn unit := fun s0 =>
  let s1 := set_inflight_decode
              (<[rid := Z.max 0 (get0 rid (s_inflight_decode s0) - n)]> (s_inflight_decode s0)) s0 in
  let s2 := match spec with
            | Some _ => set_pending_drafts (delete rid (s_pending_drafts s1)) s1
            | None => s1
            end in
  let runner := use_runner_tokens s2 in
  let '(s3, r') := if runner then take_runner_tokens rid r ro s2 else take_mock_token rid r s2 in
  (_ ← on_pool (Pool.commit_write_extent rid (zlen (all_token_ids r')));
   _ ← modify (fun s =>
     let next_d := default [] (dget rid (next_draft_tokens ro)) in
     if runner && nonempty next_d && negb (finished r')
     then set_pending_drafts (<[rid := next_d]> (s_pending_drafts s)) s else s);
   if max_new r' <=? num_output_tokens r' then
     _ ← modify (fun s => set_reqs (<[rid := set_finished "length" r']> (s_reqs s)) s);
     finish_req rid
   else mret tt) s3.

Definition process_one (output : SchedulerOutput) (ro : ModelRunnerOutput) (kv : string * Z)
    : M node lexn unit := fun s =>
  let '(rid, n) := kv in
  match s_reqs s !! rid with
  | None => (s, Ok tt)
  | Some r =>
      let before := default (num_computed_tokens r) (dget rid (req_num_computed_at_schedule output)) in
      let spec := dget rid (default [] (scheduled_spec_decode_tokens output)) in
      if before <? prompt_len r then process_extend rid r before n ro s
      else process_generate rid r n spec ro s
  end.

Definition process_batch_result (output : SchedulerOutput) (ro : ModelRunnerOutput) : M node lexn unit :=
  for_each (num_scheduled_tokens output) (process_one output ro).

Definition pop_and_process : M node lexn unit := fun s =>
  match s_result_queue s with
  | [] => (s, Ok tt)
  | b :: q =>
      (_ ← modify (log_event TL_process (so_step_id (br_output b)));
       _ ← modify (apply_ready_stats (br_ready b));
       _ ← process_batch_result (br_output b) (br_runner_out b);
       modify (fun s => set_future_map (FutureMap.publish (s_future_map s)) s))
      (set_result_queue q s)
  end.

(** [while self._result_queue: self._pop_and_process()]; processing appends
    nothing to the queue, so its length bounds the loop. *)
Fixpoint drain_n (n : nat) : M node lexn unit :=
  match n with
  | O => mret tt
  | S n' => _ ← pop_and_process; drain_n n'
  end.
Definition drain_results : M node lexn unit := fun s => drain_n (length (s_result_queue s)) s.

(** ** The main loops *)

Definition should_disable_overlap (s : node) : bool :=
  nonempty (s_result_queue s) &&
  existsb (fun rid =>
    match s_reqs s !! rid with
    | None => false
    | Some r =>
        negb (finished r) && negb (num_computed_tokens r <? prompt_len r) &&
        nonempty (default [] (s_pending_drafts s !! rid)) && req_has_structured_output r
    end) (s_running s).

Context (before_schedule : M node lexn unit) (should_stop : node -> bool).

(** The body of [_event_loop_normal]; [true]: the loop is left. *)
Definition normal_body : M node lexn bool := fun s =>
  if should_stop s then (s, Ok true)
  else
    (_ ← before_schedule;
     output ← schedule;
     if total_num_scheduled_tokens output =? 0 then
       _ ← drain_results;
       s' ← gets id;
       mret ((negb (nonempty (s_waiting s')) && negb (nonempty (s_running s'))) || should_stop s')
     else
       _ ← run_batch output;
       _ ← pop_and_process;
       mret false) s.

(** Both loops are unbounded in the source; [false] means that [fuel]
    iterations did not reach the exit. *)
Fixpoint event_loop_normal (fuel : nat) : M node lexn bool :=
  match fuel with
  | O => mret false
  | S fuel' => fun s =>
      if has_work s then
        (stop ← normal_body; if stop : bool then mret true else event_loop_normal fuel') s
      else (s, Ok true)
  end.

Definition overlap_body : M node lexn bool := fun s =>
  if should_stop s then (s, Ok true)
  else
    (_ ← before_schedule;
     disable ← gets should_disable_overlap;
     _ ← (if disable : bool then drain_results else mret tt);
     output ← schedule;
     if total_num_scheduled_tokens output =? 0 then
       _ ← drain_results;
       s' ← gets id;
       mret (negb (has_work s') || should_stop s')
     else
       _ ← run_batch output;
       s' ← gets id;
       _ ← (if negb disable && (1 <? zlen (s_result_queue s')) then pop_and_process else mret tt);
       mret false) s.

Fixpoint overlap_loop (fuel : nat) : M node lexn bool :=
  match fuel with
  | O => mret false
  | S fuel' => stop ← overlap_body; if stop : bool then mret true else overlap_loop fuel'
  end.

Definition event_loop_overlap (fuel : nat) : M node lexn bool :=
  stop ← overlap_loop fuel;
  if stop : bool then _ ← drain_results; mret true else mret false.

Definition run_until_idle (fuel : nat) : M node lexn bool := fun s =>
  if enable_overlap (s_role s) then event_loop_overlap fuel s else event_loop_normal fuel s.

End ops.
(** ** What one call of [schedule] decides

    The accumulators of [schedule] are the columns of one table with a row per
    scheduled request; the lemmas speak of the rows. *)

Record entry : Type := mkEntry {
  e_req : Req;
  e_rid : string;
  e_n : Z;
  e_mode : ForwardMode;
  e_infl : Z;
  e_qs : Z
}.

Definition e_c (e : entry) : Z := num_computed_tokens (e_req e).
Definition e_fresh (e : entry) : bool :=
  bool_decide (e_mode e = EXTEND) && (e_c e =? 0) && (num_output_tokens (e_req e) =? 0).
Definition e_write (e : entry) : ReqIoSet :=
  mkReqIoSet (e_rid e) (e_qs e) (e_qs e + e_n e) TARGET.
Definition e_read (e : entry) : option ReqIoSet :=
  if bool_decide (e_mode e = EXTEND) && (e_qs e <=? 0) then None
  else Some (mkReqIoSet (e_rid e) 0 (e_qs e) TARGET).
Definition e_new (e : entry) : NewRequestData :=
  mkNewRequestData (e_rid e) (prompt_token_ids (e_req e)) (sampling_params (e_req e)) (e_c e) None.
Definition col {V} (f : entry -> V) (es : list entry) : dict string V :=
  (fun e => (e_rid e, f e)) <$> es.
Definition cached_of (es : list entry) : CachedRequestData :=
  let c := filter (fun e => e_fresh e = false) es in
  mkCachedRequestData (e_rid <$> c) ((fun e => e_c e + e_infl e) <$> c)
    ((fun e => num_output_tokens (e_req e) + e_infl e) <$> c) None.

Definition acc_repr (B : Z) (es : list entry) (ac : acc) : Prop :=
  ac_budget ac = B - zsum (e_n <$> es) /\
  ac_new ac = e_new <$> filter (fun e => e_fresh e = true) es /\
  ac_cached ac = cached_of es /\
  ac_num ac = col e_n es /\ ac_read ac = omap e_read es /\ ac_write ac = e_write <$> es /\
  ac_modes ac = col e_mode es /\ ac_computed_at ac = col e_c es /\
  ac_qs ac = col e_qs es /\ ac_qe ac = col (fun e => e_qs e + e_n e) es /\ ac_spec ac = [].

(** What an output says in terms of its rows. *)
Definition out_repr (step : Z) (es : list entry) (out : SchedulerOutput) : Prop :=
  so_step_id out = step /\
  scheduled_new_reqs out = e_new <$> filter (fun e => e_fresh e = true) es /\
  scheduled_cached_reqs out = cached_of es /\
  num_scheduled_tokens out = col e_n es /\
  total_num_scheduled_tokens out = zsum (e_n <$> es) /\
  read_set out = omap e_read es /\ write_set out = e_write <$> es /\
  req_forward_modes out = col e_mode es /\
  req_num_computed_at_schedule out = col e_c es /\
  req_query_start out = col e_qs es /\
  req_query_end out = col (fun e => e_qs e + e_n e) es /\
  scheduled_spec_decode_tokens out = None.

Lemma dkeys_col {V} (f : entry -> V) es : dkeys (col f es) = e_rid <$> es.
Proof. unfold dkeys, col. rewrite <- list_fmap_compose. done. Qed.

Lemma dvals_col {V} (f : entry -> V) es : dvals (col f es) = f <$> es.
Proof. unfold dvals, col. rewrite <- list_fmap_compose. done. Qed.

Lemma col_snoc {V} (f : entry -> V) es e :
  e_rid e ∉ e_rid <$> es -> dset (e_rid e) (f e) (col f es) = col f (es ++ [e]).
Proof.
  intros H. rewrite dset_fresh by by rewrite dkeys_col. unfold col. by rewrite fmap_app.
Qed.

Lemma dget_col {V} (f : entry -> V) es e :
  NoDup (e_rid <$> es) -> e ∈ es -> dget (e_rid e) (col f es) = Some (f e).
Proof.
  intros Hnd He. apply dget_elem_of.
  - unfold dict_wf. by rewrite dkeys_col.
  - unfold col. apply list_elem_of_fmap. eauto.
Qed.

Lemma dget_col_inv {V} (f : entry -> V) es rid v :
  dget rid (col f es) = Some v -> exists e, e ∈ es /\ e_rid e = rid /\ f e = v.
Proof.
  unfold col. induction es as [|e es IH]; simpl; [done|]. case_decide.
  - intros [= <-]. exists e. split; [left|done].
  - intros H'. destruct (IH H') as (e'&?&?&?). exists e'. split; [by right|done].
Qed.

Lemma reindex_app {V} (d1 d2 : dict string V) :
  dict_wf (d1 ++ d2) -> reindex (d1 ++ d2) (dkeys d2) = Ok d2.
Proof.
  revert d1. induction d2 as [|[k v] d2 IH]; intros d1 Hwf; [done|].
  simpl. fold (dkeys d2). rewrite (proj2 (dget_elem_of k v (d1 ++ (k, v) :: d2) Hwf)) by set_solver.
  specialize (IH (d1 ++ [(k, v)])). rewrite <- app_assoc in IH. simpl in IH. by rewrite IH.
Qed.

Lemma reindex_self {V} (d : dict string V) : dict_wf d -> reindex d (dkeys d) = Ok d.
Proof. apply (reindex_app []). Qed.

Lemma acc_repr_snoc B es ac e :
  acc_repr B es ac -> e_rid e ∉ e_rid <$> es ->
  acc_repr B (es ++ [e]) (mkAcc (ac_budget ac - e_n e)
    (if e_fresh e then ac_new ac ++ [e_new e] else ac_new ac)
    (if e_fresh e then ac_cached ac
     else cached_add (e_rid e) (e_c e + e_infl e) (num_output_tokens (e_req e) + e_infl e) (ac_cached ac))
    (dset (e_rid e) (e_n e) (ac_num ac))
    (match e_read e with Some io => ac_read ac ++ [io] | None => ac_read ac end)
    (ac_write ac ++ [e_write e])
    (dset (e_rid e) (e_mode e) (ac_modes ac))
    (dset (e_rid e) (e_c e) (ac_computed_at ac))
    (dset (e_rid e) (e_qs e) (ac_qs ac))
    (dset (e_rid e) (e_qs e + e_n e) (ac_qe ac)) []).
Proof.
  intros (Hb&Hn&Hc&Hnum&Hr&Hw&Hm&Hca&Hqs&Hqe&Hsp) Hf. unfold acc_repr. simpl.
  rewrite Hb, Hn, Hc, Hnum, Hr, Hw, Hm, Hca, Hqs, Hqe. rewrite !fmap_app, !filter_app, !omap_app.
  split_and!.
  - rewrite zsum_app. unfold zsum. simpl. lia.
  - rewrite filter_cons, filter_nil. destruct (e_fresh e) eqn:E.
    + rewrite decide_True by done. by rewrite fmap_app.
    + rewrite decide_False by done. by rewrite app_nil_r.
  - unfold cached_of. rewrite filter_app, filter_cons, filter_nil. destruct (e_fresh e) eqn:E.
    + rewrite decide_False by done. by rewrite app_nil_r.
    + rewrite decide_True by done. rewrite !fmap_app. done.
  - by apply col_snoc.
  - simpl. destruct (e_read e); simpl; [done|by rewrite app_nil_r].
  - done.
  - by apply col_snoc.
  - by apply col_snoc.
  - by apply col_snoc.
  - by apply (col_snoc (fun e => e_qs e + e_n e)).
  - done.
Qed.

Lemma filter_rid es e :
  NoDup (e_rid <$> es) -> e ∈ es -> filter (fun x => e_rid x = e_rid e) es = [e].
Proof.
  induction es as [|x es IH]; [set_solver|]. rewrite fmap_cons, NoDup_cons, filter_cons, elem_of_cons.
  intros [Hx Hnd] [->|He].
  - rewrite decide_True by done. f_equal. apply filter_nil_in. intros y Hy Hr. apply Hx. rewrite <- Hr.
    by apply list_elem_of_fmap_2.
  - rewrite decide_False; [auto|]. intros Hr. apply Hx. rewrite Hr. by apply list_elem_of_fmap_2.
Qed.

Section rows.
Context {A R X : Type} {SA : StorageAgent A} {RE : RuntimeExecutor R}.
Abbreviation node := (sched A R X).

Abbreviation infl s rid := (get0 rid (s_inflight_decode s)).

(** A running request that pass A may advance by one token. *)
Definition can_decode (s : node) (rid : string) (r : Req) : Prop :=
  finished r = false /\ prompt_len r <= num_computed_tokens r /\
  gen_left rid r (infl s rid) s <> None /\
  (0 < max_model_length (s_role s) ->
   num_computed_tokens r + infl s rid < max_model_length (s_role s)).

(** A running request whose prompt pass B may advance. *)
Definition can_extend (s : node) (rid : string) (r : Req) : Prop :=
  finished r = false /\ num_computed_tokens r < prompt_len r /\
  has_unprocessed_prompt rid (prompt_len r) s = false /\
  (0 < max_model_length (s_role s) -> num_computed_tokens r < max_model_length (s_role s)).

Inductive entry_valid (s : node) (e : entry) : Prop :=
| ev_decode :
    s_reqs s !! e_rid e = Some (e_req e) -> can_decode s (e_rid e) (e_req e) ->
    e_mode e = DECODE -> e_n e = 1 -> e_infl e = infl s (e_rid e) ->
    e_qs e = Z.max 0 (zlen (all_token_ids (e_req e)) + e_infl e - 1) -> entry_valid s e
| ev_extend :
    s_reqs s !! e_rid e = Some (e_req e) -> can_extend s (e_rid e) (e_req e) ->
    e_mode e = EXTEND -> e_infl e = 0 -> e_qs e = e_c e ->
    (exists b, e_n e = chunk_size (s_role s) (prompt_len (e_req e)) (e_c e) b) -> 0 < e_n e ->
    entry_valid s e.

(** The number of generated tokens the rows schedule for a request. *)
Definition gen_count (rid : string) (es : list entry) : Z :=
  zlen (filter (fun e => e_rid e = rid /\ e_mode e = DECODE) es).

Definition pass_inv (s : node) (B : Z) (es : list entry) (ac : acc) (s' : node) : Prop :=
  acc_repr B es ac /\ Forall (entry_valid s) es /\ NoDup (e_rid <$> es) /\
  0 <= ac_budget ac /\
  exists m, s' = set_inflight_decode m s /\
    forall rid, get0 rid m = infl s rid + gen_count rid es.

Lemma gen_count_snoc rid es e :
  gen_count rid (es ++ [e]) =
  gen_count rid es + (if decide (e_rid e = rid /\ e_mode e = DECODE) then 1 else 0).
Proof.
  unfold gen_count. rewrite filter_app, filter_cons, filter_nil, length_app.
  case_decide; simpl; lia.
Qed.

Lemma gen_count_fresh rid es : rid ∉ e_rid <$> es -> gen_count rid es = 0.
Proof.
  intros H. unfold gen_count. rewrite filter_nil_in; [done|].
  intros e He [<- _]. apply H. by apply list_elem_of_fmap_2.
Qed.

Lemma NoDup_snoc_rid es e :
  NoDup (e_rid <$> es) -> e_rid e ∉ e_rid <$> es -> NoDup (e_rid <$> (es ++ [e])).
Proof.
  intros Hnd Hf. rewrite fmap_app. apply NoDup_app. split_and!; [done| |apply NoDup_singleton].
  intros x Hx ->%list_elem_of_singleton. done.
Qed.

Lemma set_inflight_twice m m' (s : node) :
  set_inflight_decode m (set_inflight_decode m' s) = set_inflight_decode m s.
Proof. done. Qed.

Lemma pass_inv_decode s B es ac s' rid r :
  pass_inv s B es ac s' -> rid ∉ e_rid <$> es -> s_reqs s !! rid = Some r ->
  can_decode s rid r -> 0 < ac_budget ac ->
  exists e s'' ac', emit_gen rid r (infl s rid) 1 DECODE None ac s' = (s'', ac') /\
    e_rid e = rid /\ pass_inv s B (es ++ [e]) ac' s''.
Proof.
  intros (Hr&Hv&Hnd&Hb&m&->&Hm) Hf Hreq Hcan Hpos.
  set (e := mkEntry r rid 1 DECODE (infl s rid) (Z.max 0 (zlen (all_token_ids r) + infl s rid - 1))).
  eexists e, _, _. split; [reflexivity|]. split; [done|]. split_and!.
  - assert (Hsp : ac_spec ac = []) by apply Hr. simpl. rewrite Hsp.
    apply (acc_repr_snoc B es ac e Hr Hf).
  - apply Forall_app. split; [done|]. apply Forall_singleton. by apply ev_decode.
  - by apply NoDup_snoc_rid.
  - simpl. lia.
  - eexists. simpl. split; [apply set_inflight_twice|]. intros k. rewrite get0_insert, gen_count_snoc.
    simpl. case_decide; subst.
    + rewrite gen_count_fresh by done. rewrite decide_True by done. lia.
    + rewrite Hm, decide_False by naive_solver. lia.
Qed.

Lemma pass_inv_extend s B es ac s' rid r n :
  pass_inv s B es ac s' -> rid ∉ e_rid <$> es -> s_reqs s !! rid = Some r ->
  can_extend s rid r ->
  n = chunk_size (s_role s) (prompt_len r) (num_computed_tokens r) (ac_budget ac) ->
  0 < n -> n <= ac_budget ac ->
  exists e, e_rid e = rid /\ pass_inv s B (es ++ [e]) (emit_extend rid r n ac) s'.
Proof.
  intros (Hr&Hv&Hnd&Hb&m&->&Hm) Hf Hreq Hcan Hn Hpos Hle.
  set (e := mkEntry r rid n EXTEND 0 (num_computed_tokens r)).
  exists e. split; [done|]. split_and!.
  - assert (Hsp : ac_spec ac = []) by apply Hr.
    pose proof (acc_repr_snoc B es ac e Hr Hf) as H. unfold emit_extend. rewrite Hsp.
    unfold e_read, e_fresh, e_c in H. simpl in H.
    rewrite !Z.add_0_r in H. destruct (num_computed_tokens r <=? 0) eqn:E; zbool.
    + rewrite (proj2 (Z.ltb_ge 0 _)) by lia. exact H.
    + rewrite (proj2 (Z.ltb_lt 0 _)) by lia. exact H.
  - apply Forall_app. split; [done|]. apply Forall_singleton. apply ev_extend; simpl; eauto.
  - by apply NoDup_snoc_rid.
  - simpl. lia.
  - exists m. split; [done|]. intros k. rewrite gen_count_snoc, Hm.
    rewrite decide_False by naive_solver. lia.
Qed.

Lemma pass_inv_infl s B es ac s' rid :
  pass_inv s B es ac s' -> rid ∉ e_rid <$> es -> infl s' rid = infl s rid.
Proof.
  intros (_&_&_&_&m&->&Hm) Hf. simpl. rewrite Hm, gen_count_fresh by done. lia.
Qed.

Lemma pass_inv_state s B es ac s' :
  pass_inv s B es ac s' ->
  s_reqs s' = s_reqs s /\ s_role s' = s_role s /\ s_result_queue s' = s_result_queue s /\
  s_mock_remaining s' = s_mock_remaining s.
Proof. intros (_&_&_&_&m&->&_). done. Qed.

(** Pass A on one request: it is advanced exactly when it can be. *)
Lemma pass_a_one_spec s B es ac s' rid r :
  pass_inv s B es ac s' -> rid ∉ e_rid <$> es -> s_reqs s !! rid = Some r -> 0 < ac_budget ac ->
  exists s'' ac' es', pass_a_one rid ac s' = (s'', Ok ac') /\
    pass_inv s B (es ++ es') ac' s'' /\
    ((es' = [] /\ ac' = ac /\ ~ can_decode s rid r) \/ exists e, es' = [e] /\ e_rid e = rid).
Proof.
  intros HI Hf Hreq Hpos. unfold pass_a_one. assert (HI' := HI).
  destruct (pass_inv_state _ _ _ _ _ HI) as (Hrq&Hrl&_&Hmk).
  rewrite Hrq, Hreq, (pass_inv_infl _ _ _ _ _ _ HI Hf).
  assert (Hgl : gen_left rid r (infl s rid) s' = gen_left rid r (infl s rid) s).
  { unfold gen_left, use_runner_tokens. by rewrite Hrl, Hmk. }
  assert (Hskip : forall (Hn : ~ can_decode s rid r), exists s'' ac' es', (s', Ok ac) = (s'', @Ok lexn _ ac') /\
    pass_inv s B (es ++ es') ac' s'' /\
    ((es' = [] /\ ac' = ac /\ ~ can_decode s rid r) \/ exists e, es' = [e] /\ e_rid e = rid)).
  { intros Hn. exists s', ac, []. rewrite app_nil_r. auto 6. }
  rewrite Hgl. destruct (finished r || (num_computed_tokens r <? prompt_len r)) eqn:E1.
  { apply Hskip. intros (Hfi&Hc&_). apply orb_true_iff in E1 as [E1|E1]; [congruence|]. zbool. lia. }
  zbool. destruct (gen_left rid r (infl s rid) s) as [lft|] eqn:E2.
  2: { apply Hskip. by intros (_&_&?&_). }
  assert (Hl : 0 < lft) by (revert E2; unfold gen_left; case_match; intros; simplify_eq; zbool; lia).
  destruct (gen_room _ _ _ _ s') as [room|] eqn:E3.
  2: { apply Hskip. intros (_&_&_&Hm). revert E3. unfold gen_room. rewrite Hrl.
       repeat case_match; intros; simplify_eq. zbool. lia. }
  assert (0 < room /\ can_decode s rid r) as [Hro Hcan].
  { revert E3. unfold gen_room. rewrite Hrl. repeat case_match; intros; simplify_eq; zbool;
      split; try lia; split_and!; try done; try lia; congruence. }
  simpl. replace (Z.min (Z.min (Z.min 1 lft) (ac_budget ac)) room) with 1 by lia.
  simpl. destruct (pass_inv_decode s B es ac s' rid r HI Hf Hreq Hcan Hpos) as (e&s''&ac'&E&He&HI'').
  exists s'', ac', [e]. unfold emit_gen in E. simplify_eq. split_and!; [done|done|]. right. eauto.
Qed.

Lemma pass_a_spec s B rids : forall es ac s',
  pass_inv s B es ac s' -> NoDup rids -> (forall rid, rid ∈ rids -> rid ∉ e_rid <$> es) ->
  (forall rid, rid ∈ rids -> is_Some (s_reqs s !! rid)) ->
  exists s'' ac' es', pass_a rids ac s' = (s'', Ok ac') /\ pass_inv s B (es ++ es') ac' s'' /\
    e_rid <$> es' ⊆ rids /\
    (es' = [] -> 0 < ac_budget ac -> ac' = ac /\
     forall rid r, rid ∈ rids -> s_reqs s !! rid = Some r -> ~ can_decode s rid r).
Proof.
  induction rids as [|rid rids IH]; intros es ac s' HI Hnd Hf Hin.
  { exists s', ac, []. rewrite app_nil_r. split_and!; [done..|set_solver]. }
  simpl. destruct (ac_budget ac <=? 0) eqn:Eb; zbool.
  { exists s', ac, []. rewrite app_nil_r. split_and!; [done..|set_solver|lia]. }
  apply NoDup_cons in Hnd as [Hrid Hnd]. destruct (Hin rid ltac:(left)) as [r Hr].
  destruct (pass_a_one_spec s B es ac s' rid r HI (Hf rid ltac:(left)) Hr Eb)
    as (s1&ac1&es1&E1&HI1&Hcase).
  rewrite (bind_ok _ _ _ _ _ E1).
  destruct (IH (es ++ es1) ac1 s1 HI1 Hnd) as (s2&ac2&es2&E2&HI2&Hsub&Hnone).
  - intros k Hk. rewrite fmap_app, not_elem_of_app. split; [set_solver|].
    destruct Hcase as [(->&_&_)|(e&->&He)]; simpl; set_solver.
  - set_solver.
  - exists s2, ac2, (es1 ++ es2). rewrite app_assoc. split_and!; [done|done| |].
    + rewrite fmap_app. destruct Hcase as [(->&_&_)|(e&->&He)]; simpl; set_solver.
    + intros [-> ->]%app_eq_nil Hpos. destruct Hcase as [(_&->&Hn)|(e&?&_)]; [|done].
      destruct (Hnone eq_refl Hpos) as [-> Hn2]. split; [done|].
      intros k rk Hk Hrk. apply elem_of_cons in Hk as [->|Hk]; [|by eapply Hn2].
      rewrite Hr in Hrk. by simplify_eq.
Qed.

Lemma chunk_size_le rl plen c b : chunk_size rl plen c b <= Z.min (plen - c) b.
Proof. unfold chunk_size. repeat case_match; lia. Qed.

Lemma chunk_size_pos (s : node) rid r b :
  can_extend s rid r -> 0 < b -> 0 < chunk_size (s_role s) (prompt_len r) (num_computed_tokens r) b.
Proof. intros (_&?&_&Hm) ?. unfold chunk_size. repeat case_match; zbool; lia. Qed.

Lemma pass_b_one_spec s B es ac s' rid r :
  pass_inv s B es ac s' -> s_reqs s !! rid = Some r -> 0 < ac_budget ac ->
  exists ac' es', pass_b_one rid ac s' = (s', Ok ac') /\
    pass_inv s B (es ++ es') ac' s' /\
    ((es' = [] /\ ac' = ac /\ (rid ∉ e_rid <$> es -> ~ can_extend s rid r)) \/
     exists e, es' = [e] /\ e_rid e = rid /\ rid ∉ e_rid <$> es).
Proof.
  intros HI Hreq Hpos. unfold pass_b_one. assert (HI' := HI).
  destruct (pass_inv_state _ _ _ _ _ HI) as (Hrq&Hrl&Hq&_).
  assert (Hnum : ac_num ac = col e_n es) by apply HI.
  assert (Hskip : forall (Hn : rid ∉ e_rid <$> es -> ~ can_extend s rid r),
    exists ac' es', (s', Ok ac) = (s', @Ok lexn _ ac') /\ pass_inv s B (es ++ es') ac' s' /\
    ((es' = [] /\ ac' = ac /\ (rid ∉ e_rid <$> es -> ~ can_extend s rid r)) \/
     exists e, es' = [e] /\ e_rid e = rid /\ rid ∉ e_rid <$> es)).
  { intros Hn. exists ac, []. rewrite app_nil_r. auto 6. }
  assert (Hdin : din rid (ac_num ac) = bool_decide (rid ∈ e_rid <$> es)).
  { unfold din. rewrite Hnum. destruct (dget rid (col e_n es)) eqn:E.
    - apply dget_Some_key in E. rewrite dkeys_col in E. by rewrite bool_decide_eq_true_2.
    - apply dget_None in E. rewrite dkeys_col in E. by rewrite bool_decide_eq_false_2. }
  rewrite Hdin, Hrq, Hreq. case_bool_decide as Hf; [apply Hskip; done|].
  assert (Hup : has_unprocessed_prompt rid (prompt_len r) s' = has_unprocessed_prompt rid (prompt_len r) s)
    by (unfold has_unprocessed_prompt; by rewrite Hq).
  rewrite Hup, Hrl.
  destruct (finished r || (prompt_len r <=? num_computed_tokens r) || has_unprocessed_prompt _ _ _) eqn:E1.
  { apply Hskip. intros _ (Hfi&Hc&Hu&_). rewrite Hfi, Hu, orb_false_r in E1. simpl in E1. zbool. lia. }
  zbool. destruct (chunk_size _ _ _ _ <=? 0) eqn:E2; zbool.
  { apply Hskip. intros _ Hcan. pose proof (chunk_size_pos s rid r (ac_budget ac) Hcan Hpos). lia. }
  assert (Hcan : can_extend s rid r).
  { split_and!; [done|lia|done|]. revert E2. unfold chunk_size. repeat case_match; zbool; lia. }
  destruct (pass_inv_extend s B es ac s' rid r _ HI Hf Hreq Hcan eq_refl E2) as (e&He&HI'').
  { pose proof (chunk_size_le (s_role s) (prompt_len r) (num_computed_tokens r) (ac_budget ac)). lia. }
  eexists _, [e]. split_and!; [done|done|]. right. eauto.
Qed.

Lemma pass_b_spec s B rids : forall es ac s',
  pass_inv s B es ac s' ->
  (forall rid, rid ∈ rids -> is_Some (s_reqs s !! rid)) ->
  exists ac' es', pass_b rids ac s' = (s', Ok ac') /\ pass_inv s B (es ++ es') ac' s' /\
    e_rid <$> es' ⊆ rids /\
    (es ++ es' = [] -> 0 < ac_budget ac ->
     forall rid r, rid ∈ rids -> s_reqs s !! rid = Some r -> ~ can_extend s rid r).
Proof.
  induction rids as [|rid rids IH]; intros es ac s' HI Hin.
  { exists ac, []. rewrite app_nil_r. split_and!; [done..|set_solver]. }
  simpl. destruct (ac_budget ac <=? 0) eqn:Eb; zbool.
  { exists ac, []. rewrite app_nil_r. split_and!; [done..|set_solver|lia]. }
  destruct (Hin rid ltac:(left)) as [r Hr].
  destruct (pass_b_one_spec s B es ac s' rid r HI Hr Eb) as (ac1&es1&E1&HI1&Hcase).
  rewrite (bind_ok _ _ _ _ _ E1).
  destruct (IH (es ++ es1) ac1 s' HI1 ltac:(set_solver)) as (ac2&es2&E2&HI2&Hsub&Hnone).
  exists ac2, (es1 ++ es2). rewrite app_assoc. split_and!; [done|done| |].
  - rewrite fmap_app. destruct Hcase as [(->&_&_)|(e&->&He&_)]; simpl; set_solver.
  - intros Hnil Hpos. assert (Hnil' := Hnil). rewrite <- app_assoc in Hnil'.
    apply app_eq_nil in Hnil' as [-> [-> ->]%app_eq_nil].
    destruct Hcase as [(_&->&Hn)|(e&?&_)]; [|done].
    intros k rk Hk Hrk. apply elem_of_cons in Hk as [->|Hk].
    + rewrite Hr in Hrk. simplify_eq. apply Hn. set_solver.
    + by eapply Hnone.
Qed.

Lemma fill_running_spec cap w r : forall w' r', fill_running cap w r = (w', r') ->
  r' ++ w' = r ++ w /\ r `prefix_of` r' /\ zlen r' <= Z.max (zlen r) cap /\
  (w' = [] \/ cap <= zlen r').
Proof.
  revert r. induction w as [|x w IH]; intros r w' r'; simpl.
  { intros [= <- <-]. split_and!; [done..|lia|by left]. }
  case_match eqn:E; zbool.
  - intros H'. destruct (IH _ _ _ H') as (H1&H2&H3&H4). rewrite <- app_assoc in H1.
    split_and!; [done|by eapply prefix_app_l| |done]. rewrite length_app in H3. simpl in H3. lia.
  - intros [= <- <-]. split_and!; [done..|lia|right; lia].
Qed.

(** The state after the running slots were filled. *)
Definition filled (s : node) : node :=
  let '(w, r) := fill_running (max_running_reqs (s_role s)) (s_waiting s) (s_running s) in
  set_running r (set_waiting w (set_step_id (s_step_id s + 1) s)).

Lemma filled_spec (s : node) :
  s_running (filled s) ++ s_waiting (filled s) = s_running s ++ s_waiting s /\
  zlen (s_running (filled s)) <= Z.max (zlen (s_running s)) (max_running_reqs (s_role s)) /\
  (s_waiting (filled s) = [] \/ max_running_reqs (s_role s) <= zlen (s_running (filled s))).
Proof.
  unfold filled. destruct (fill_running _ _ _) as [w r] eqn:E.
  destruct (fill_running_spec _ _ _ _ _ E) as (?&?&?&?). done.
Qed.

Lemma filled_frame (s : node) :
  s_reqs (filled s) = s_reqs s /\ s_role (filled s) = s_role s /\ s_pool (filled s) = s_pool s /\
  s_result_queue (filled s) = s_result_queue s /\ s_step_id (filled s) = s_step_id s + 1 /\
  s_inflight_decode (filled s) = s_inflight_decode s /\
  s_mock_remaining (filled s) = s_mock_remaining s /\
  s_runner (filled s) = s_runner s /\ s_ext (filled s) = s_ext s /\
  s_pending_drafts (filled s) = s_pending_drafts s.
Proof. unfold filled. by destruct (fill_running _ _ _). Qed.

Lemma structured_ids_total (reqs : gmap string Req) rids :
  (forall rid, rid ∈ rids -> is_Some (reqs !! rid)) -> exists l, structured_ids reqs rids = Ok l.
Proof.
  induction rids as [|rid rids IH]; intros H; simpl; [eauto|].
  destruct (H rid ltac:(left)) as [r ->]. destruct IH as [l ->]; [set_solver|]. eauto.
Qed.

Lemma finish_schedule_spec s B es ac s' step :
  pass_inv s B es ac s' ->
  exists out, finish_schedule step ac s' = (s', Ok out) /\ out_repr step es out.
Proof.
  intros HI. destruct (pass_inv_state _ _ _ _ _ HI) as (Hrq&_).
  destruct HI as ((Hb&Hn&Hc&Hnum&Hr&Hw&Hm&Hca&Hqs&Hqe&Hsp)&Hv&Hnd&_&_).
  assert (Hwf : forall V (f : entry -> V), dict_wf (col f es)).
  { intros V f. unfold dict_wf. by rewrite dkeys_col. }
  unfold finish_schedule. destruct (nonempty (ac_num ac)) eqn:En; simpl.
  - destruct (structured_ids_total (s_reqs s') (dkeys (ac_num ac))) as [ids Hids].
    { intros rid Hrid. rewrite Hnum, dkeys_col in Hrid. apply list_elem_of_fmap in Hrid as (e&->&He).
      rewrite Forall_forall in Hv. rewrite Hrq. destruct (Hv e He); eauto. }
    unfold mbind, M_bind, lift. rewrite Hids.
    assert (Hre : forall V (f : entry -> V), reindex (col f es) (dkeys (ac_num ac)) = Ok (col f es)).
    { intros V f. rewrite Hnum, dkeys_col, <- (dkeys_col f). by apply reindex_self. }
    rewrite Hca, Hqs, Hqe, !Hre. eexists. split; [reflexivity|].
    unfold out_repr. simpl. rewrite Hnum, dvals_col, Hsp. by split_and!.
  - eexists. split; [reflexivity|]. destruct es as [|e es]; [|by rewrite Hnum in En].
    unfold out_repr. simpl. by split_and!.
Qed.

(** Everything the later proofs need of one call of [schedule]. *)
Record schedule_post (s0 : node) (es : list entry) (s' : node) (out : SchedulerOutput) : Prop := {
  sp_run : schedule s0 = (s', Ok out);
  sp_out : out_repr (s_step_id s0 + 1) es out;
  sp_valid : Forall (entry_valid (filled s0)) es;
  sp_nodup : NoDup (e_rid <$> es);
  sp_running : e_rid <$> es ⊆ s_running (filled s0);
  sp_budget : zsum (e_n <$> es) <= Z.max 0 (max_num_scheduled_tokens (s_role s0));
  sp_state : exists m, s' = set_inflight_decode m (filled s0) /\
    forall rid, get0 rid m = infl s0 rid + gen_count rid es;
  sp_progress : es = [] -> 0 < max_num_scheduled_tokens (s_role s0) ->
    forall rid r, rid ∈ s_running (filled s0) -> s_reqs s0 !! rid = Some r ->
    ~ can_decode (filled s0) rid r /\ ~ can_extend (filled s0) rid r
}.

Definition queues_ok (s : node) : Prop :=
  NoDup (s_running s ++ s_waiting s) /\
  forall rid, rid ∈ s_running s ++ s_waiting s -> is_Some (s_reqs s !! rid).

Lemma schedule_filled (s0 : node) :
  schedule s0 =
  (if negb (nonempty (s_running (filled s0))) then (filled s0, Ok (idle_output (s_step_id s0 + 1)))
   else (ac1 ← pass_a (s_running (filled s0)) (acc0 (Z.max 0 (max_num_scheduled_tokens (s_role s0))));
         ac2 ← pass_b (s_running (filled s0)) ac1;
         finish_schedule (s_step_id s0 + 1) ac2) (filled s0)).
Proof. unfold schedule, filled. by destruct (fill_running _ _ _) as [w [|x r]]. Qed.

Lemma schedule_spec s0 : queues_ok s0 -> exists es s' out, schedule_post s0 es s' out.
Proof.
  intros [Hnd Hin]. destruct (filled_spec s0) as (Happ&_&_).
  destruct (filled_frame s0) as (Hrq&Hrl&_&_&_&Hinf&_).
  rewrite <- Happ in Hnd, Hin. apply NoDup_app in Hnd as (Hnd&_&_).
  set (B := Z.max 0 (max_num_scheduled_tokens (s_role s0))).
  assert (H0 : pass_inv (filled s0) B [] (acc0 B) (filled s0)).
  { split; [split_and!; simpl; done || lia|]. split_and!; [constructor..|simpl; lia|].
    exists (s_inflight_decode (filled s0)). split; [by destruct (filled s0)|].
    intros rid. unfold gen_count. simpl. lia. }
  destruct (pass_a_spec (filled s0) B (s_running (filled s0)) [] (acc0 B) (filled s0) H0 Hnd)
    as (s1&ac1&es1&E1&HI1&Hs1&Hn1); [set_solver|rewrite Hrq; set_solver|].
  destruct (pass_b_spec (filled s0) B (s_running (filled s0)) _ ac1 s1 HI1)
    as (ac2&es2&E2&HI2&Hs2&Hn2); [rewrite Hrq; set_solver|].
  destruct (finish_schedule_spec _ _ _ _ _ (s_step_id s0 + 1) HI2) as (out&E3&Hout).
  simpl in *. exists (es1 ++ es2), s1, out. assert (HI := HI2).
  destruct HI as ((Hb&_)&Hv&Hnd'&Hpos&m&Hm1&Hm2).
  split; try done.
  - rewrite schedule_filled. destruct (s_running (filled s0)) as [|x r]; cbn [nonempty negb].
    + simpl in E1, E2. unfold mret, M_ret in E1, E2. injection E1 as <- <-. injection E2 as <-. exact E3.
    + cbv iota. fold B. rewrite (bind_ok _ _ _ _ _ E1), (bind_ok _ _ _ _ _ E2). done.
  - rewrite fmap_app. set_solver.
  - fold B. lia.
  - exists m. split; [done|]. intros rid. rewrite Hm2. by rewrite Hinf.
  - intros Hnil HB rid r Hr Hreq. rewrite <- Hrq in Hreq.
    apply app_eq_nil in Hnil as [-> ->]. destruct (Hn1 eq_refl ltac:(unfold B; simpl; lia)) as [-> Hd].
    split; [by eapply Hd|]. eapply Hn2; [done| |done|done]. unfold B. simpl. lia.
Qed.

(** ** The contract of [schedule] *)

Implicit Types s : node.

Lemma entry_pos s e : entry_valid s e -> 0 < e_n e.
Proof. intros []; lia. Qed.

Lemma dget_row es rid n : NoDup (e_rid <$> es) -> dget rid (col e_n es) = Some n ->
  exists e, e ∈ es /\ e_rid e = rid /\ e_n e = n.
Proof. intros _ H. by apply dget_col_inv. Qed.

Lemma filter_write rid (es : list entry) :
  filter (fun io => io_req_id io = rid) (e_write <$> es) = e_write <$> filter (fun e => e_rid e = rid) es.
Proof.
  induction es as [|e es IH]; [done|]. rewrite fmap_cons, !filter_cons. simpl.
  case_decide; rewrite IH; done.
Qed.

Lemma row_within_model s e : entry_valid s e -> 0 < max_model_length (s_role s) ->
  e_c e + e_infl e + e_n e <= max_model_length (s_role s).
Proof.
  intros [Hr Hc _ Hn Hi _|Hr Hc _ Hi _ [b Hn] _] Hm.
  - destruct Hc as (_&_&_&Hc). specialize (Hc Hm). unfold e_c. rewrite Hi, Hn. lia.
  - rewrite Hi, Hn. unfold chunk_size. rewrite (proj2 (Z.ltb_lt _ _) Hm). lia.
Qed.

(** C5. Every call of [schedule] on consistent queues succeeds and stays within its
    limits: each selected request gets at least one token, the total is the sum
    of the parts and within [max_num_scheduled_tokens], no request is selected
    twice, and the running set grows to [max_running_reqs] at most. *)
Theorem schedule_within_limits s :
  queues_ok s ->
  exists s' out, schedule s = (s', Ok out) /\
    NoDup (dkeys (num_scheduled_tokens out)) /\
    Forall (fun n => 0 < n) (dvals (num_scheduled_tokens out)) /\
    total_num_scheduled_tokens out = zsum (dvals (num_scheduled_tokens out)) /\
    total_num_scheduled_tokens out <= Z.max 0 (max_num_scheduled_tokens (s_role s)) /\
    dkeys (num_scheduled_tokens out) ⊆ s_running s' /\
    s_running s' ++ s_waiting s' = s_running s ++ s_waiting s /\
    zlen (s_running s') <= Z.max (zlen (s_running s)) (max_running_reqs (s_role s)).
Proof.
  intros Hq. destruct (schedule_spec s Hq) as (es&s'&out&HP). exists s', out.
  destruct (sp_out _ _ _ _ HP) as (_&_&_&Hn&Ht&_). destruct (sp_state _ _ _ _ HP) as (m&->&_).
  destruct (filled_spec s) as (Happ&Hcap&_).
  rewrite Ht, Hn, dkeys_col, dvals_col. simpl. split_and!; try done; try apply HP.
  apply Forall_fmap. eapply Forall_impl; [apply HP|]. intros e He. by eapply entry_pos.
Qed.

(** C3. The geometry of a step: a selected request has exactly one write range, its
    query range, and reads only the prefix before it.  A prompt chunk starts at
    the computed position, stays inside the prompt, and is not scheduled while an
    earlier chunk is unprocessed; a generation step is one token placed right
    behind the known and in-flight tokens.  Neither goes past
    [max_model_length]. *)
Theorem schedule_geometry s s' out rid n :
  queues_ok s -> schedule s = (s', Ok out) -> dget rid (num_scheduled_tokens out) = Some n ->
  exists r qs, s_reqs s !! rid = Some r /\ finished r = false /\
    dget rid (req_query_start out) = Some qs /\ dget rid (req_query_end out) = Some (qs + n) /\
    dget rid (req_num_computed_at_schedule out) = Some (num_computed_tokens r) /\
    filter (fun io => io_req_id io = rid) (write_set out) = [mkReqIoSet rid qs (qs + n) TARGET] /\
    (forall io, io ∈ read_set out -> io_req_id io = rid -> io = mkReqIoSet rid 0 qs TARGET) /\
    let c := num_computed_tokens r in
    let inflight := get0 rid (s_inflight_decode s) in
    (c < prompt_len r /\ qs = c /\ c + n <= prompt_len r /\
       has_unprocessed_prompt rid (prompt_len r) s = false /\
       (0 < max_model_length (s_role s) -> c + n <= max_model_length (s_role s)) \/
     prompt_len r <= c /\ n = 1 /\ qs = Z.max 0 (zlen (all_token_ids r) + inflight - 1) /\
       (0 < max_model_length (s_role s) -> c + inflight + n <= max_model_length (s_role s))).
Proof.
  intros Hq Hs Hget. destruct (schedule_spec s Hq) as (es&s1&out1&HP).
  pose proof (sp_run _ _ _ _ HP) as Hrun. rewrite Hs in Hrun. simplify_eq.
  assert (Hnd := sp_nodup _ _ _ _ HP). pose proof (sp_valid _ _ _ _ HP) as Hv. rewrite Forall_forall in Hv.
  destruct (sp_out _ _ _ _ HP) as (_&_&_&Hn&_&Hrd&Hwr&_&Hca&Hqs&Hqe&_). rewrite Hn in Hget.
  destruct (dget_row es rid n Hnd Hget) as (e&He&<-&<-).
  destruct (filled_frame s) as (Hrq&Hrl&_&Hqu&_&Hin&_).
  assert (Hmml := row_within_model _ e (Hv e He)). rewrite Hrl in Hmml.
  exists (e_req e), (e_qs e). rewrite Hqs, Hqe, Hca, Hwr, Hrd.
  rewrite !(dget_col _ es e Hnd He). unfold has_unprocessed_prompt.
  assert (Hreads : forall io, io ∈ omap e_read es -> io_req_id io = e_rid e -> io = mkReqIoSet (e_rid e) 0 (e_qs e) TARGET).
  { intros io Hio Hid. apply list_elem_of_omap in Hio as (e'&He'&Hr). unfold e_read in Hr.
    case_match; simplify_eq/=. assert (e' = e) as ->; [|done].
    assert (Hf := filter_rid es e Hnd He). assert (Hi : e' ∈ filter (fun x => e_rid x = e_rid e) es)
      by by apply list_elem_of_filter. rewrite Hf in Hi. by apply list_elem_of_singleton in Hi. }
  assert (Hw : filter (fun io => io_req_id io = e_rid e) (e_write <$> es) = [e_write e]).
  { rewrite filter_write, filter_rid by done. done. }
  destruct (Hv e He) as [Hreq Hcan Hm Hn1 Hi Hq0|Hreq Hcan Hm Hi Hq0 [b Hnb] Hpos]; rewrite Hrq in Hreq.
  - destruct Hcan as (Hfin&Hge&_). split_and!; try done. right. rewrite Hn1, Hq0, Hi, Hin. split_and!; try done.
    intros Hm0. specialize (Hmml Hm0). rewrite Hi, Hin, Hn1 in Hmml. exact Hmml.
  - destruct Hcan as (Hfin&Hlt&Hup&_). split_and!; try done. left. unfold has_unprocessed_prompt in Hup. rewrite Hqu in Hup.
    pose proof (chunk_size_le (s_role (filled s)) (prompt_len (e_req e)) (e_c e) b). unfold e_c in *.
    split_and!; try done; try lia.
Qed.

(** C6. [schedule] is work conserving: with a positive budget an idle step means that
    no running request could have been advanced, neither by a generated token
    nor by a prompt chunk. *)
Theorem schedule_work_conserving s s' out rid r :
  queues_ok s -> 0 < max_num_scheduled_tokens (s_role s) ->
  schedule s = (s', Ok out) -> total_num_scheduled_tokens out = 0 ->
  rid ∈ s_running s' -> s_reqs s !! rid = Some r ->
  ~ can_decode (filled s) rid r /\ ~ can_extend (filled s) rid r.
Proof.
  intros Hq Hb Hs Ht Hin Hr. destruct (schedule_spec s Hq) as (es&s1&out1&HP).
  pose proof (sp_run _ _ _ _ HP) as Hrun. rewrite Hs in Hrun. simplify_eq.
  destruct (sp_out _ _ _ _ HP) as (_&_&_&_&Htot&_). rewrite Htot in Ht.
  destruct (sp_state _ _ _ _ HP) as (m&->&_). apply (sp_progress _ _ _ _ HP); try done.
  destruct es as [|e es]; [done|]. exfalso. pose proof (sp_valid _ _ _ _ HP) as Hv.
  apply Forall_cons_1 in Hv as [He Hv]. apply entry_pos in He. rewrite fmap_cons, zsum_cons in Ht.
  assert (0 <= zsum (e_n <$> es)); [|lia]. apply zsum_nonneg, Forall_fmap.
  eapply Forall_impl; [exact Hv|]. intros x Hx. apply entry_pos in Hx. simpl. lia.
Qed.

End rows.

End Sched.
