(* ===== verification/SchedulerRun.v ===== *)
(** * Correctness of the scheduler's main loops

    [_event_loop_normal] and [_event_loop_overlap] of
    [python/lake/runtime/node_scheduler.py] with the mock backend, over any
    storage agent that meets [ReliableAgent] and any executor that meets
    [ReliableExecutor]: both loops end, and both deliver to every admitted
    request exactly the tokens of [mock_decode_tokens], however requests were
    batched, chunked and overlapped.

    The invariant follows the work of each request through three places: not
    scheduled yet, scheduled and waiting in the result queue, processed. *)

From S2P Require Import Prelude PyDict LakeTypes Agent PoolIface NodeScheduler.
Import Sched.

(** ** What a step promises to the executor *)

Definition row_ok (reqs : gmap string Req) (e : entry) : Prop :=
  reqs !! e_rid e = Some (e_req e) /\ 0 < e_n e /\ 0 <= e_qs e /\
  ((e_mode e = EXTEND /\ e_qs e = e_c e /\ e_c e + e_n e <= prompt_len (e_req e)) \/
   (e_mode e = DECODE /\ e_n e = 1 /\ prompt_len (e_req e) <= e_c e)).

Definition step_pre (rl : RoleConfig) (out : SchedulerOutput) (h : ReadyHandle)
    (reqs : gmap string Req) : Prop :=
  rh_step_id h = so_step_id out /\ slots_fit (write_set out) h /\
  exists es, out_repr (so_step_id out) es out /\ NoDup (e_rid <$> es) /\
    Forall (row_ok reqs) es /\
    zsum (e_n <$> es) <= max_num_scheduled_tokens rl /\ zlen es <= max_running_reqs rl.

(** An executor that answers every step the scheduler can ask of it. *)
Class ReliableExecutor (R : Type) {RE : RuntimeExecutor R} (rl : RoleConfig) : Type := {
  exec_inv : R -> Prop;
  exec_ok : forall out h reqs x, exec_inv x -> step_pre rl out h reqs ->
    exists x' ro, execute_model out h reqs x = (x', Ok ro) /\ exec_inv x';
  exec_clear : forall rid x, exec_inv x -> exec_inv (clear_drafter rid x)
}.

Section run.
Context {A R X : Type} {SA : StorageAgent A} {budget : Z} {RA : ReliableAgent A budget}.
Context {RE : RuntimeExecutor R} {rl : RoleConfig} {RX : ReliableExecutor R rl}.
Context (mock : model_backend rl = "mock") (role_ok : role_post_init rl = Ok rl).
Abbreviation node := (sched A R X).
Abbreviation infl s rid := (get0 rid (s_inflight_decode s)).
Implicit Types s : node.

Definition rem (s : node) (rid : string) : list Z := default [] (s_mock_remaining s !! rid).
Definition goal (r : Req) : list Z := mock_decode_tokens (prompt_token_ids r) (max_new r).

(** The scheduled, not yet processed steps of a request: token count and
    computed position, oldest first. *)
Definition slot_of (rid : string) (b : BatchResult) : option (Z * Z) :=
  match dget rid (num_scheduled_tokens (br_output b)),
        dget rid (req_num_computed_at_schedule (br_output b)) with
  | Some n, Some c => Some (n, c)
  | _, _ => None
  end.
Definition slots (q : list BatchResult) (rid : string) : list (Z * Z) := omap (slot_of rid) q.

(** A request in progress: its output and the mock tokens left make up the
    goal, and its position is in the prompt or right behind its output. *)
Definition live_ok (s : node) (rid : string) (r : Req) : Prop :=
  req_id r = rid /\ finished r = false /\ 0 <= num_computed_tokens r /\
  (num_computed_tokens r = prompt_len r + num_output_tokens r \/
   (num_computed_tokens r < prompt_len r /\ output_token_ids r = [])) /\
  output_token_ids r ++ rem s rid = goal r /\ rem s rid <> [] /\
  (0 < max_model_length rl -> prompt_len r + max_new r <= max_model_length rl).

(** The scheduled steps of a request in progress: generated tokens one at a
    time and no more than are left, or at most one chunk of the prompt. *)
Definition slots_ok (s : node) (rid : string) (r : Req) (sl : list (Z * Z)) : Prop :=
  let c := num_computed_tokens r in
  if prompt_len r <=? c then
    infl s rid = zlen sl /\ zlen sl <= zlen (rem s rid) /\
    Forall (fun nc => nc.1 = 1 /\ prompt_len r <= nc.2) sl
  else
    infl s rid = 0 /\
    (sl = [] \/ exists n, sl = [(n, c)] /\ 0 < n /\ c + n <= prompt_len r).

Definition completed (r : Req) : Prop :=
  finished r = true /\ finish_reason r = Some "length" /\ output_token_ids r = goal r.

Definition live (s : node) (rid : string) : Prop := rid ∈ s_running s ++ s_waiting s.

(** [G]: the admitted requests, [sl]: their scheduled steps. *)
(** What a request keeps besides its prompt. *)
Definition same_terms (r r0 : Req) : Prop :=
  sampling_params r = sampling_params r0 /\ served_model_name r = served_model_name r0.

Lemma same_terms_trans r1 r2 r3 : same_terms r1 r2 -> same_terms r2 r3 -> same_terms r1 r3.
Proof. intros [] []. split; congruence. Qed.

Record inv (G : gmap string Req) (sl : string -> list (Z * Z)) (s : node) : Prop := {
  inv_role : s_role s = rl;
  inv_pool : Pool.idle (budget := budget) (s_pool s);
  inv_nodup : NoDup (s_running s ++ s_waiting s);
  inv_cap : zlen (s_running s) <= max_running_reqs rl;
  inv_live : forall rid, live s rid -> exists r, s_reqs s !! rid = Some r /\
    live_ok s rid r /\ slots_ok s rid r (sl rid);
  inv_slots : forall rid, sl rid <> [] -> rid ∈ s_running s;
  inv_dom : forall rid, live s rid -> is_Some (G !! rid);
  inv_admitted : forall rid r0, G !! rid = Some r0 -> exists r, s_reqs s !! rid = Some r /\
    prompt_token_ids r = prompt_token_ids r0 /\ same_terms r r0 /\
    (live s rid \/ completed r);
  inv_runner : exec_inv (s_runner s);
  inv_prompts : forall rid r0, G !! rid = Some r0 -> ag_prompt_ok (served_model_name r0) (prompt_token_ids r0)
}.

(** A queued result was made by [schedule]. *)
Definition batch_ok (b : BatchResult) : Prop :=
  exists es, out_repr (so_step_id (br_output b)) es (br_output b) /\ NoDup (e_rid <$> es).

Definition full_inv (G : gmap string Req) (s : node) : Prop :=
  inv G (slots (s_result_queue s)) s /\ Forall batch_ok (s_result_queue s).

(** The work of a request that is not scheduled yet. *)
Definition work_of (r : Req) (m : list Z) (sl : list (Z * Z)) : Z :=
  if finished r then 0
  else if prompt_len r <=? num_computed_tokens r then zlen m - zlen sl
  else prompt_len r - num_computed_tokens r - zsum sl.*1 + zlen m.
Definition work (sl : string -> list (Z * Z)) (s : node) (rid : string) : Z :=
  match s_reqs s !! rid with
  | Some r => work_of r (rem s rid) (sl rid)
  | None => 0
  end.

Lemma work_nonneg G sl s rid : inv G sl s -> live s rid -> 0 <= work sl s rid.
Proof.
  intros HI Hl. destruct (inv_live _ _ _ HI rid Hl) as (r & Hr & _ & Hs).
  unfold work, work_of. rewrite Hr. destruct (finished r); [lia|].
  unfold slots_ok in Hs. destruct (prompt_len r <=? _) eqn:E; zbool; [lia|].
  destruct Hs as [_ [->|(n & -> & ? & ?)]]; unfold zsum; simpl; lia.
Qed.

Lemma length_goal r : 0 <= max_new r -> zlen (goal r) = max_new r.
Proof.
  intros H. unfold goal, mock_decode_tokens, py_range. rewrite length_fmap, length_zseq. lia.
Qed.

Lemma use_mock s : s_role s = rl -> use_runner_tokens s = false.
Proof. intros H. unfold use_runner_tokens. rewrite H, mock. done. Qed.

(** ** Updating one request *)

Definition upd (sl : string -> list (Z * Z)) (rid : string) (v : list (Z * Z)) (k : string)
    : list (Z * Z) := if decide (k = rid) then v else sl k.

Lemma upd_eq sl rid v : upd sl rid v rid = v.
Proof. unfold upd. by rewrite decide_True. Qed.
Lemma upd_ne sl rid v k : k <> rid -> upd sl rid v k = sl k.
Proof. intros. unfold upd. by rewrite decide_False. Qed.

Lemma inv_ext G sl sl' s : (forall k, sl k = sl' k) -> inv G sl s -> inv G sl' s.
Proof.
  intros He []. split; try done.
  - intros rid Hl. rewrite <- He. auto.
  - intros rid. rewrite <- He. auto.
Qed.

(** [s'] differs from [s] in the data of [rid] only. *)
Record only (rid : string) (r' : Req) (s s' : node) : Prop := {
  only_role : s_role s' = s_role s;
  only_pool : Pool.idle (budget := budget) (s_pool s');
  only_reqs : s_reqs s' = <[rid := r']> (s_reqs s);
  only_waiting : s_waiting s' = s_waiting s;
  only_rem : forall k, k <> rid -> rem s' k = rem s k;
  only_infl : forall k, k <> rid -> infl s' k = infl s k;
  only_queue : s_result_queue s' = s_result_queue s;
  only_runner : exec_inv (s_runner s')
}.

Lemma only_live_ok rid r' s s' k r :
  only rid r' s s' -> k <> rid -> live_ok s k r -> live_ok s' k r.
Proof. intros Ho Hk. unfold live_ok. by rewrite (only_rem _ _ _ _ Ho k Hk). Qed.

Lemma only_slots_ok rid r' s s' k r sl :
  only rid r' s s' -> k <> rid -> slots_ok s k r sl -> slots_ok s' k r sl.
Proof.
  intros Ho Hk. unfold slots_ok.
  by rewrite (only_rem _ _ _ _ Ho k Hk), (only_infl _ _ _ _ Ho k Hk).
Qed.

Lemma only_work rid r' s s' sl v k :
  only rid r' s s' -> k <> rid -> work (upd sl rid v) s' k = work sl s k.
Proof.
  intros Ho Hk. unfold work. rewrite (only_reqs _ _ _ _ Ho), lookup_insert_ne by done.
  by rewrite (only_rem _ _ _ _ Ho k Hk), upd_ne.
Qed.

Lemma inv_update G sl s s' rid r r' v :
  inv G sl s -> live s rid -> s_reqs s !! rid = Some r ->
  only rid r' s s' -> s_running s' = s_running s ->
  prompt_token_ids r' = prompt_token_ids r -> same_terms r' r ->
  live_ok s' rid r' -> slots_ok s' rid r' v -> (v <> [] -> sl rid <> []) ->
  inv G (upd sl rid v) s'.
Proof.
  intros HI Hl Hr Ho Hrun Hp Hsp Hlive Hslots Hv.
  assert (Hlv : forall k, live s' k <-> live s k).
  { intros k. unfold live. by rewrite Hrun, (only_waiting _ _ _ _ Ho). }
  destruct HI as [H1 H2 H3 H4 H5 H6 Hdom H7 Hrnr Hpr]. split.
  - by rewrite (only_role _ _ _ _ Ho).
  - apply (only_pool _ _ _ _ Ho).
  - by rewrite Hrun, (only_waiting _ _ _ _ Ho).
  - by rewrite Hrun.
  - intros k Hk. rewrite (only_reqs _ _ _ _ Ho). destruct (decide (k = rid)) as [->|Hne].
    + exists r'. by rewrite lookup_insert_eq, upd_eq.
    + rewrite lookup_insert_ne by done. destruct (H5 k) as (rk&?&?&?); [by apply Hlv|].
      exists rk. rewrite upd_ne by done. eauto using only_live_ok, only_slots_ok.
  - intros k. rewrite Hrun. unfold upd. case_decide; subst; auto.
  - intros k Hk. by apply Hdom, Hlv.
  - intros k r0 HG. rewrite (only_reqs _ _ _ _ Ho). destruct (H7 k r0 HG) as (rk&Hrk&Hpk&Hsk&Hc).
    destruct (decide (k = rid)) as [->|Hne].
    + exists r'. rewrite lookup_insert_eq. split_and!; [done|congruence|by eapply same_terms_trans; [|replace r with rk by congruence]|]. left. by apply Hlv.
    + exists rk. rewrite lookup_insert_ne by done. split_and!; try done. by rewrite Hlv.
  - apply (only_runner _ _ _ _ Ho).
  - exact Hpr.
Qed.

Lemma inv_finish G sl s s' rid r r' :
  inv G sl s -> rid ∈ s_running s -> s_reqs s !! rid = Some r ->
  only rid r' s s' -> s_running s' = remove_first rid (s_running s) ->
  prompt_token_ids r' = prompt_token_ids r -> same_terms r' r ->
  completed r' -> inv G (upd sl rid []) s'.
Proof.
  intros HI Hl Hr Ho Hrun Hp Hsp Hc.
  destruct HI as [H1 H2 H3 H4 H5 H6 Hdom H7 Hrnr Hpr].
  assert (Hnd := H3). apply NoDup_app in Hnd as (Hnd1&Hdj&Hnd2).
  assert (Hlv : forall k, live s' k <-> live s k /\ k <> rid).
  { intros k. unfold live. rewrite Hrun, (only_waiting _ _ _ _ Ho), !elem_of_app.
    rewrite elem_of_remove_first by done. split; [|tauto]. intros [|Hw]; [tauto|].
    split; [by right|]. intros ->. by eapply Hdj. }
  split.
  - by rewrite (only_role _ _ _ _ Ho).
  - apply (only_pool _ _ _ _ Ho).
  - rewrite Hrun, (only_waiting _ _ _ _ Ho). apply NoDup_app. split_and!; [auto with lake| |done].
    intros k Hk. apply Hdj. eauto with lake.
  - rewrite Hrun. pose proof (length_remove_first_le rid (s_running s)). lia.
  - intros k Hk. apply Hlv in Hk as [Hk Hne]. rewrite (only_reqs _ _ _ _ Ho).
    rewrite lookup_insert_ne by done. destruct (H5 k Hk) as (rk&?&?&?).
    exists rk. rewrite upd_ne by done. eauto using only_live_ok, only_slots_ok.
  - intros k. rewrite Hrun. unfold upd. case_decide; [done|]. intros Hs.
    apply elem_of_remove_first; auto.
  - intros k Hk. by apply Hdom, Hlv.
  - intros k r0 HG. rewrite (only_reqs _ _ _ _ Ho). destruct (H7 k r0 HG) as (rk&Hrk&Hpk&Hsk&Hck).
    destruct (decide (k = rid)) as [->|Hne].
    + exists r'. rewrite lookup_insert_eq. split_and!; [done|congruence|by eapply same_terms_trans; [|replace r with rk by congruence]|by right].
    + exists rk. rewrite lookup_insert_ne by done. split_and!; try done. rewrite Hlv. tauto.
  - apply (only_runner _ _ _ _ Ho).
  - exact Hpr.
Qed.

(** ** Processing one scheduled request *)

Lemma on_pool_ok {B} (c : M (PoolIface A) lexn B) s p b :
  c (s_pool s) = (p, Ok b) -> on_pool c s = (set_pool p s, Ok b).
Proof. intros H. unfold on_pool. by rewrite H. Qed.

Definition step_done G (sl : string -> list (Z * Z)) (s s' : node) (rid : string) (rest : list (Z * Z)) : Prop :=
  inv G (upd sl rid rest) s' /\ (forall k, work (upd sl rid rest) s' k <= work sl s k) /\
  s_result_queue s' = s_result_queue s.

Lemma process_extend_ok G sl s rid r n ro :
  inv G sl s -> live s rid -> s_reqs s !! rid = Some r ->
  num_computed_tokens r < prompt_len r -> sl rid = [(n, num_computed_tokens r)] ->
  exists s', process_extend rid r (num_computed_tokens r) n ro s = (s', Ok tt) /\
    step_done G sl s s' rid [].
Proof.
  intros HI Hl Hr Hlt Hsl. destruct (inv_live _ _ _ HI rid Hl) as (r1&Hr1&Hlive&Hslots).
  rewrite Hr in Hr1. simplify_eq. rename r1 into r.
  assert (Hso := Hslots). unfold slots_ok in Hso. rewrite (proj2 (Z.leb_gt _ _) Hlt) in Hso.
  destruct Hso as [Hinf [?|(n'&Hn'&Hpos&Hle)]]; [congruence|]. rewrite Hsl in Hn'. simplify_eq.
  unfold process_extend. set (c := Z.min _ _). assert (c = num_computed_tokens r + n') as Hc by lia.
  destruct Hlive as (Hid&Hfin&Hc0&Hpos'&Hgoal&Hrem&Hmml).
  unfold mbind, M_bind, modify at 1.
  destruct (Pool.commit_reliable rid c (s_pool s) (inv_pool _ _ _ HI) ltac:(lia)) as (p'&E&Hidle).
  set (s1 := set_reqs _ s).
  rewrite (on_pool_ok _ s1 p' tt E). eexists. split; [reflexivity|].
  set (s2 := if _ && _ then _ else _).
  assert (Ho : only rid (set_num_computed c r) s s2) 
    by (unfold s2; case_match; split; try done; apply (inv_runner _ _ _ HI)).
  assert (Hrm : rem s2 rid = rem s rid) by (unfold s2; by case_match).
  assert (Hif : infl s2 rid = infl s rid) by (unfold s2; by case_match).
  assert (Hout : output_token_ids r = []) by (destruct Hpos' as [Hp|[_ ?]]; [unfold num_output_tokens in Hp; lia|done]).
  split_and!.
  - eapply (inv_update G sl s s2 rid r); [done..| | | | | |done].
    + unfold s2. by case_match.
    + done.
    + done.
    + unfold live_ok. rewrite Hrm. simpl. split_and!; try done; try lia. unfold num_output_tokens, prompt_len in *. simpl.
      rewrite Hout. simpl. destruct (decide (c = zlen (prompt_token_ids r))); [left; lia|right; split; [lia|done]].
    + unfold slots_ok. rewrite Hrm, Hif, Hinf. unfold prompt_len. simpl. case_match; [|by split; [|left]].
      split_and!; [done|lia|constructor].
  - intros k. destruct (decide (k = rid)) as [->|Hne]; [|by rewrite (only_work _ _ _ _ _ _ _ Ho Hne)].
    unfold work. rewrite (only_reqs _ _ _ _ Ho), lookup_insert_eq, Hr, upd_eq, Hrm, Hsl.
    unfold work_of, prompt_len in *. simpl. rewrite Hfin. rewrite (proj2 (Z.leb_gt _ _) Hlt).
    unfold zsum. simpl. case_match; zbool; lia.
  - apply (only_queue _ _ _ _ Ho).
Qed.

(** The state right after the mock token was taken and committed. *)
Definition after_token (rid : string) (r : Req) (tok : Z) (m : list Z) (k : Z)
    (p : PoolIface A) (s : node) : node :=
  set_pool p (set_future_map (FutureMap.stash rid tok (s_future_map s))
    (set_mock_remaining (<[rid := m]> (s_mock_remaining s))
      (set_reqs (<[rid := append_token tok r]> (s_reqs s))
        (set_inflight_decode (<[rid := k]> (s_inflight_decode s)) s)))).

Lemma after_token_only rid r tok m k p s :
  Pool.idle (budget := budget) p -> exec_inv (s_runner s) ->
  only rid (append_token tok r) s (after_token rid r tok m k p s) /\
  rem (after_token rid r tok m k p s) rid = m /\ infl (after_token rid r tok m k p s) rid = k.
Proof.
  intros Hp Hrn. unfold after_token, rem. split_and!; [split; simpl; try done| |]; simpl.
  - intros x Hx. unfold rem. simpl. by rewrite lookup_insert_ne.
  - intros x Hx. by rewrite get0_insert, decide_False.
  - by rewrite lookup_insert_eq.
  - by rewrite get0_insert, decide_True.
Qed.

Lemma generate_continues G sl s rid r tok m rest p :
  inv G sl s -> live s rid -> s_reqs s !! rid = Some r -> live_ok s rid r ->
  prompt_len r <= num_computed_tokens r -> rem s rid = tok :: m -> m <> [] ->
  zlen rest <= zlen m -> Forall (fun nc => nc.1 = 1 /\ prompt_len r <= nc.2) rest ->
  zlen (sl rid) = zlen rest + 1 -> Pool.idle (budget := budget) p ->
  step_done G sl s (after_token rid r tok m (zlen rest) p s) rid rest.
Proof.
  intros HI Hl Hr (Hid&Hfin&Hc0&Hpos&Hgoal&_&Hmml) Hge Hrem Hm Hle Hall Hlen Hp.
  destruct (after_token_only rid r tok m (zlen rest) p s Hp (inv_runner _ _ _ HI)) as (Ho&Hrm&Hif).
  set (s' := after_token _ _ _ _ _ _ _) in *.
  assert (Hc : num_computed_tokens r = prompt_len r + num_output_tokens r) by lia.
  split_and!.
  - eapply (inv_update G sl s s' rid r); [done..| | |].
    + unfold live_ok. rewrite Hrm. unfold num_output_tokens, prompt_len in *. simpl in *.
      split_and!; try done; try lia.
      * left. rewrite length_app. simpl. lia.
      * rewrite <- app_assoc. simpl. by rewrite <- Hrem.
    + unfold slots_ok. rewrite Hrm, Hif. unfold prompt_len in *. simpl.
      rewrite (proj2 (Z.leb_le _ _)) by lia. done.
    + intros _ Hn. rewrite Hn in Hlen. simpl in Hlen. lia.
  - intros k. destruct (decide (k = rid)) as [->|Hne]; [|by rewrite (only_work _ _ _ _ _ _ _ Ho Hne)].
    unfold work. rewrite (only_reqs _ _ _ _ Ho), lookup_insert_eq, Hr, upd_eq, Hrm, Hrem.
    unfold work_of, prompt_len in *. simpl. rewrite Hfin.
    rewrite !(proj2 (Z.leb_le _ _)) by lia. simpl. lia.
  - apply (only_queue _ _ _ _ Ho).
Qed.

(** The last token: the request leaves the running list and the pool is told. *)
Lemma generate_finishes G sl s rid r tok p :
  inv G sl s -> rid ∈ s_running s -> s_reqs s !! rid = Some r -> live_ok s rid r ->
  prompt_len r <= num_computed_tokens r -> rem s rid = [tok] -> zlen (sl rid) = 1 ->
  Pool.idle (budget := budget) p ->
  let r' := append_token tok r in
  let s1 := after_token rid r tok [] 0 p s in
  exists s', finish_req None rid
      (set_reqs (<[rid := set_finished "length" r']> (s_reqs s1)) s1) = (s', Ok tt) /\
    step_done G sl s s' rid [].
Proof.
  intros HI Hl Hr (Hid&Hfin&Hc0&Hpos&Hgoal&_&Hmml) Hge Hrem Hlen Hp r' s1.
  destruct (after_token_only rid r tok [] 0 p s Hp (inv_runner _ _ _ HI)) as (Ho&Hrm&_). fold s1 r' in Ho, Hrm.
  unfold finish_req. simpl. rewrite lookup_insert_eq.
  destruct (Pool.finish_reliable (set_finished "length" r') p Hp) as (p'&E&Hp').
  unfold mbind, M_bind. erewrite on_pool_ok by exact E. eexists. split; [reflexivity|].
  set (s' := set_pool p' _).
  assert (Ho' : only rid (set_finished "length" r') s s').
  { destruct Ho as [O1 O2 O3 O4 O5 O6 O7 O8]. split; try done.
    - simpl. by rewrite insert_insert_eq.
    - intros k Hk. simpl. rewrite get0_delete, decide_False by done. by apply O6.
    - simpl. by apply exec_clear. }
  split_and!.
  - eapply (inv_finish G sl s s' rid r); [done..|].
    unfold completed, goal, max_new. simpl. split_and!; [done..|]. rewrite Hrem in Hgoal. exact Hgoal.
  - intros k. destruct (decide (k = rid)) as [->|Hne]; [|by rewrite (only_work _ _ _ _ _ _ _ Ho' Hne)].
    unfold work. rewrite (only_reqs _ _ _ _ Ho'), lookup_insert_eq, Hr.
    unfold work_of. simpl. rewrite Hfin, (proj2 (Z.leb_le _ _)) by lia. rewrite Hrem, Hlen. simpl. lia.
  - apply (only_queue _ _ _ _ Ho').
Qed.

Lemma process_generate_ok G sl s rid r n c rest ro :
  inv G sl s -> rid ∈ s_running s -> s_reqs s !! rid = Some r ->
  prompt_len r <= num_computed_tokens r -> sl rid = (n, c) :: rest ->
  exists s', process_generate None rid r n None ro s = (s', Ok tt) /\ step_done G sl s s' rid rest.
Proof.
  intros HI Hrun Hr Hge Hsl.
  destruct (inv_live _ _ _ HI rid ltac:(unfold live; set_solver)) as (r1&Hr1&Hlive&Hslots).
  rewrite Hr in Hr1. simplify_eq. rename r1 into r.
  unfold slots_ok in Hslots. rewrite (proj2 (Z.leb_le _ _) Hge), Hsl in Hslots.
  destruct Hslots as (Hinf&Hle&[[Hn _] Hall]%Forall_cons_1). simpl in Hn. subst n.
  assert (Hlive' := Hlive). destruct Hlive' as (Hid&Hfin&Hc0&Hpos&Hgoal&Hrem&Hmml).
  destruct (rem s rid) as [|tok m] eqn:Erem; [done|].
  assert (Hk : Z.max 0 (infl s rid - 1) = zlen rest) by (simpl in Hinf; lia).
  unfold process_generate. simpl. rewrite use_mock by apply HI.
  unfold take_mock_token. simpl. unfold rem in Erem. rewrite Erem. fold (rem s rid) in Erem.
  set (e := zlen (all_token_ids (append_token tok r))).
  destruct (Pool.commit_reliable rid e (s_pool s) (inv_pool _ _ _ HI) ltac:(lia)) as (p'&E&Hidle).
  unfold mbind, M_bind. erewrite on_pool_ok by exact E. unfold modify at 1. simpl.
  change (set_pool p' _) with (after_token rid r tok m (Z.max 0 (infl s rid - 1)) p' s). rewrite Hk.
  assert (Hmax : zlen (output_token_ids r) + 1 + zlen m = max_new r).
  { rewrite <- (length_goal r).
    - rewrite <- Hgoal, length_app. simpl. lia.
    - destruct (decide (0 <= max_new r)); [done|]. unfold goal, mock_decode_tokens, py_range in Hgoal.
      rewrite Z2Nat.nonpos in Hgoal by lia. by destruct (output_token_ids r). }
  unfold num_output_tokens. simpl. rewrite length_app. simpl.
  change (max_new (append_token tok r)) with (max_new r).
  simpl in Hle. case_match eqn:Efin; zbool.
  - destruct m as [|y m]; [|simpl in *; lia]. destruct rest as [|y rest]; [|simpl in *; lia].
    unfold modify. apply generate_finishes; try done. by rewrite Hsl.
  - eexists. split; [reflexivity|]. eapply generate_continues; try done.
    + unfold live. set_solver.
    + intros ->. simpl in *. lia.
    + lia.
    + rewrite Hsl. simpl. lia.
Qed.

Lemma process_one_ok G sl s out ro es e rest :
  inv G sl s -> out_repr (so_step_id out) es out -> NoDup (e_rid <$> es) -> e ∈ es ->
  sl (e_rid e) = (e_n e, e_c e) :: rest ->
  exists s', process_one None out ro (e_rid e, e_n e) s = (s', Ok tt) /\
    step_done G sl s s' (e_rid e) rest.
Proof.
  intros HI Hout Hnd He Hsl.
  assert (Hrun : e_rid e ∈ s_running s) by (apply (inv_slots _ _ _ HI); by rewrite Hsl).
  assert (Hl : live s (e_rid e)) by (unfold live; set_solver).
  destruct (inv_live _ _ _ HI _ Hl) as (r&Hr&_&Hslots).
  destruct Hout as (_&_&_&_&_&_&_&_&Hca&_&_&Hsp).
  unfold process_one. rewrite Hr, Hca, Hsp, (dget_col e_c es e Hnd He). simpl.
  unfold slots_ok in Hslots. rewrite Hsl in Hslots.
  destruct (prompt_len r <=? num_computed_tokens r) eqn:Ec; zbool.
  - destruct Hslots as (_&_&[[_ Hc] _]%Forall_cons_1). simpl in Hc.
    rewrite (proj2 (Z.ltb_ge _ _)) by lia. by eapply process_generate_ok.
  - destruct Hslots as (_&[?|(n&Hn&_)]); [done|]. simplify_eq.
    replace (e_c e) with (num_computed_tokens r) in * by congruence.
    rewrite (proj2 (Z.ltb_lt _ _)) by lia. by eapply process_extend_ok.
Qed.

(** The steps a batch holds for a request. *)
Definition front (es : list entry) (rid : string) : list (Z * Z) :=
  (fun e => (e_n e, e_c e)) <$> filter (fun e => e_rid e = rid) es.

Lemma front_nil es rid : rid ∉ e_rid <$> es -> front es rid = [].
Proof.
  intros H. unfold front. rewrite filter_nil_in; [done|]. intros e He <-. apply H.
  by apply list_elem_of_fmap_2.
Qed.

Lemma front_cons e es rid :
  front (e :: es) rid = if decide (e_rid e = rid) then (e_n e, e_c e) :: front es rid else front es rid.
Proof. unfold front. rewrite filter_cons. by case_decide. Qed.

Lemma slots_cons b q es rid :
  out_repr (so_step_id (br_output b)) es (br_output b) -> NoDup (e_rid <$> es) ->
  slots (b :: q) rid = front es rid ++ slots q rid.
Proof.
  intros (_&_&_&Hn&_&_&_&_&Hc&_) Hnd. unfold slots. simpl. unfold slot_of at 1. rewrite Hn, Hc.
  clear Hn Hc. induction es as [|e es IH]; [done|].
  rewrite front_cons. simpl in Hnd. apply NoDup_cons in Hnd as [He Hnd].
  simpl. repeat case_decide; subst; try done.
  - by rewrite front_nil.
  - by apply IH.
Qed.

Lemma work_ext sl sl' s k : sl k = sl' k -> work sl s k = work sl' s k.
Proof. intros H. unfold work. by rewrite H. Qed.

Lemma process_rows_ok G s out ro es es2 (sl : string -> list (Z * Z)) :
  inv G (fun k => front es2 k ++ sl k) s -> out_repr (so_step_id out) es out ->
  NoDup (e_rid <$> es) -> es2 ⊆ es ->
  exists s', for_each (col e_n es2) (process_one None out ro) s = (s', Ok tt) /\
    inv G sl s' /\ (forall k, work sl s' k <= work (fun k => front es2 k ++ sl k) s k) /\
    s_result_queue s' = s_result_queue s.
Proof.
  intros HI Hout Hnd. revert s HI. induction es2 as [|e es2 IH]; intros s HI Hsub.
  { exists s. split_and!; [done|exact HI|intros k; exact (Z.le_refl (work sl s k))|done]. }
  destruct (process_one_ok G _ s out ro es e (front es2 (e_rid e) ++ sl (e_rid e)) HI Hout Hnd)
    as (s1&E1&HI1&Hw1&Hq1).
  { apply Hsub. left. }
  { rewrite front_cons, decide_True by done. done. }
  assert (Hext : forall k, upd (fun k => front (e :: es2) k ++ sl k) (e_rid e)
    (front es2 (e_rid e) ++ sl (e_rid e)) k = front es2 k ++ sl k).
  { intros k. unfold upd. case_decide as Hk; [by rewrite Hk|].
    rewrite front_cons, decide_False by congruence. done. }
  destruct (IH s1) as (s2&E2&HI2&Hw2&Hq2).
  - eapply inv_ext; [|exact HI1]. exact Hext.
  - set_solver.
  - exists s2. simpl. rewrite (bind_ok _ _ _ _ _ E1). split_and!; [exact E2|done| |congruence].
    intros k. specialize (Hw1 k). specialize (Hw2 k).
    rewrite (work_ext _ (fun k => front es2 k ++ sl k) s1 k (Hext k)) in Hw1. lia.
Qed.

Lemma inv_queue G sl s q : inv G sl s -> inv G sl (set_result_queue q s).
Proof. intros []. by split. Qed.

(** [_apply_ready_stats] writes the block counters only. *)
Lemma inv_stat G sl s kv :
  inv G sl s -> inv G sl (apply_stat s kv) /\ (forall k, work sl (apply_stat s kv) k = work sl s k) /\
  s_result_queue (apply_stat s kv) = s_result_queue s.
Proof.
  intros HI. destruct kv as [rid st]. unfold apply_stat. destruct (s_reqs s !! rid) as [r|] eqn:Hr; [|done].
  destruct (st_prefill_blocks st =? 0); [done|].
  set (r' := set_blocks _ _ r). set (s' := set_reqs _ s). split_and!; [|intros k|done].
  - destruct HI as [H1 H2 H3 H4 H5 H6 Hdom H7 Hrnr Hpr]. split; try done.
    + intros k Hk. destruct (H5 k Hk) as (rk&Hrk&Hlv&Hso). simpl. destruct (decide (k = rid)) as [->|Hne].
      * exists r'. rewrite lookup_insert_eq. rewrite Hr in Hrk. simplify_eq. split_and!; [done|exact Hlv|exact Hso].
      * exists rk. by rewrite lookup_insert_ne.
    + intros k r0 HG. destruct (H7 k r0 HG) as (rk&Hrk&Hp&Hs&Hc). simpl.
      destruct (decide (k = rid)) as [->|Hne].
      * exists r'. rewrite lookup_insert_eq. rewrite Hr in Hrk. simplify_eq. split_and!; [done|exact Hp|exact Hs|exact Hc].
      * exists rk. rewrite lookup_insert_ne by done. done.
  - unfold work. simpl. destruct (decide (k = rid)) as [->|Hne].
    + by rewrite lookup_insert_eq, Hr.
    + by rewrite lookup_insert_ne.
Qed.

Lemma inv_stats G sl sts : forall s,
  inv G sl s -> inv G sl (foldl apply_stat s sts) /\
  (forall k, work sl (foldl apply_stat s sts) k = work sl s k) /\
  s_result_queue (foldl apply_stat s sts) = s_result_queue s.
Proof.
  induction sts as [|kv sts IH]; intros s HI; [done|]. simpl.
  destruct (inv_stat G sl s kv HI) as (H1&H2&H3). destruct (IH _ H1) as (H4&H5&H6).
  split_and!; [done| |congruence]. intros k. by rewrite H5.
Qed.

(** Work summed over the admitted requests. *)
Definition total_work (G : gmap string Req) (s : node) : Z :=
  zsum (work (slots (s_result_queue s)) s <$> (map_to_list G).*1).

Lemma pop_ok G s b q :
  full_inv G s -> s_result_queue s = b :: q ->
  exists s', pop_and_process None s = (s', Ok tt) /\ full_inv G s' /\
    s_result_queue s' = q /\ total_work G s' <= total_work G s.
Proof.
  intros [HI Hb] Hq. rewrite Hq in HI, Hb. apply Forall_cons_1 in Hb as [(es&Hout&Hnd) Hb].
  unfold pop_and_process. rewrite Hq. unfold mbind, M_bind, modify at 1 2.
  set (s1 := log_event _ _ _).
  assert (HI1 : inv G (slots (b :: q)) s1) by (unfold s1; destruct HI; by split).
  destruct (inv_stats G _ (stats_by_req (br_ready b)) s1 HI1) as (HI2&Hw2&Hq2).
  fold (apply_ready_stats (br_ready b) s1) in *. set (s2 := apply_ready_stats _ s1) in *.
  assert (Hext : forall k, slots (b :: q) k = front es k ++ slots q k) by (intros; by apply slots_cons).
  destruct (process_rows_ok G s2 (br_output b) (br_runner_out b) es es (slots q))
    as (s3&E3&HI3&Hw3&Hq3); [|done|done|done|].
  { eapply inv_ext; [|exact HI2]. exact Hext. }
  unfold process_batch_result. destruct Hout as (_&_&_&Hnum&_). rewrite Hnum, E3.
  eexists. split; [reflexivity|]. assert (Hqe : s_result_queue s3 = q) by by rewrite Hq3, Hq2.
  split_and!.
  - split; simpl; rewrite Hqe; [|done]. destruct HI3. by split.
  - done.
  - unfold total_work. simpl. rewrite Hqe, Hq. apply zsum_le. intros k.
    change (work (slots q) s3 k <= work (slots (b :: q)) s k).
    specialize (Hw3 k). rewrite <- (work_ext _ (fun k => front es k ++ slots q k) s2 k (Hext k)), Hw2 in Hw3. exact Hw3.
Qed.

Lemma drain_ok G s :
  full_inv G s -> exists s', drain_results None s = (s', Ok tt) /\ full_inv G s' /\
    s_result_queue s' = [] /\ total_work G s' <= total_work G s.
Proof.
  unfold drain_results. remember (s_result_queue s) as q eqn:Hq. revert s Hq.
  induction q as [|b q IH]; intros s Hq HI.
  { exists s. split_and!; [done..|lia]. }
  destruct (pop_ok G s b q HI ltac:(done)) as (s1&E1&HI1&Hq1&Hw1).
  destruct (IH s1 ltac:(done) HI1) as (s2&E2&HI2&Hq2&Hw2).
  exists s2. simpl. rewrite (bind_ok _ _ _ _ _ E1). split_and!; [done..|lia].
Qed.

(** ** Scheduling and running one batch *)

Lemma inv_filled G sl s : inv G sl s -> inv G sl (filled s).
Proof.
  intros HI. destruct (filled_spec s) as (Happ&Hcap&_).
  destruct (filled_frame s) as (Hrq&Hrl&Hpl&_&_&Hin&Hmk&Hrn&_).
  assert (Hlv : forall k, live (filled s) k <-> live s k) by (intros k; unfold live; by rewrite Happ).
  destruct HI as [H1 H2 H3 H4 H5 H6 Hdom H7 Hrnr Hpr]. rewrite H1 in Hcap. split.
  - congruence.
  - by rewrite Hpl.
  - by rewrite Happ.
  - lia.
  - intros k Hk. rewrite Hrq. destruct (H5 k) as (r&?&Hl&Hs); [by apply Hlv|]. exists r.
    unfold live_ok, slots_ok, rem in *. by rewrite Hmk, Hin.
  - intros k Hk. specialize (H6 k Hk). unfold filled. destruct (fill_running _ _ _) as [w r] eqn:E.
    destruct (fill_running_spec _ _ _ _ _ E) as (_&[z ->]&_). simpl. set_solver.
  - intros k Hk. by apply Hdom, Hlv.
  - intros k r0 HG. rewrite Hrq. destruct (H7 k r0 HG) as (r&?&?&?&?). exists r. by rewrite Hlv.
  - by rewrite Hrn.
  - exact Hpr.
Qed.

(** New inflight counters and new scheduled steps, nothing else. *)
Lemma inv_inflight G sl sl' s m :
  inv G sl s ->
  (forall k r, live s k -> s_reqs s !! k = Some r -> slots_ok s k r (sl k) -> live_ok s k r ->
    slots_ok (set_inflight_decode m s) k r (sl' k)) ->
  (forall k, sl' k <> [] -> k ∈ s_running s) ->
  inv G sl' (set_inflight_decode m s).
Proof.
  intros [H1 H2 H3 H4 H5 H6 Hdom H7 Hrnr Hpr] Hs Hr. split; try done.
  intros k Hk. destruct (H5 k Hk) as (r&?&?&?). exists r. split_and!; eauto.
Qed.

Lemma front_in es e : NoDup (e_rid <$> es) -> e ∈ es -> front es (e_rid e) = [(e_n e, e_c e)].
Proof. intros. unfold front. by rewrite filter_rid. Qed.

Lemma gen_count_in es e : NoDup (e_rid <$> es) -> e ∈ es ->
  gen_count (e_rid e) es = if decide (e_mode e = DECODE) then 1 else 0.
Proof.
  intros Hnd He. unfold gen_count.
  replace (filter (fun x => e_rid x = e_rid e /\ e_mode x = DECODE) es)
    with (filter (fun x => e_mode x = DECODE) (filter (fun x => e_rid x = e_rid e) es)).
  - rewrite filter_rid by done. rewrite filter_cons. by case_decide.
  - rewrite list_filter_filter. apply list_filter_iff. tauto.
Qed.

Lemma unprocessed_slots s rid n c plen :
  (n, c) ∈ slots (s_result_queue s) rid -> c < plen -> has_unprocessed_prompt rid plen s = true.
Proof.
  intros H Hc. unfold slots in H. apply list_elem_of_omap in H as (b&Hb&Hs).
  unfold has_unprocessed_prompt. apply existsb_exists. exists b. split; [by apply list_elem_of_In|].
  unfold slot_of in Hs. repeat case_match; simplify_eq. simpl. by apply Z.ltb_lt.
Qed.

Lemma schedule_slots_ok G s es s' out m k r :
  full_inv G s -> schedule_post s es s' out -> s' = set_inflight_decode m (filled s) ->
  (forall rid, get0 rid m = infl s rid + gen_count rid es) ->
  live s k -> s_reqs s !! k = Some r ->
  live_ok s k r -> slots_ok s k r (slots (s_result_queue s) k) ->
  slots_ok s' k r (slots (s_result_queue s) k ++ front es k).
Proof.
  intros [HI _] HP -> Hm Hl Hr Hlive Hso.
  destruct (filled_frame s) as (Hrq&Hrl&_&Hq&_&Hin&Hmk&_).
  assert (Hrm : rem (set_inflight_decode m (filled s)) k = rem s k) by (unfold rem; simpl; by rewrite Hmk).
  unfold slots_ok in Hso |- *. rewrite Hrm. simpl. rewrite Hm.
  destruct (decide (k ∈ e_rid <$> es)) as [He|He].
  2: { rewrite front_nil, gen_count_fresh, app_nil_r, Z.add_0_r by done. exact Hso. }
  apply list_elem_of_fmap in He as (e&->&He).
  rewrite front_in, gen_count_in by (done || apply HP).
  pose proof (sp_valid _ _ _ _ HP) as Hv. rewrite Forall_forall in Hv.
  destruct (Hv e He) as [Hreq Hcan Hmode Hn _ _|Hreq Hcan Hmode _ _ [bd Hn] Hpos];
    rewrite Hrq, Hr in Hreq; injection Hreq as Hreq; rewrite Hmode; simpl.
  - destruct Hcan as (_&Hge&Hgl&_). rewrite <- Hreq in Hge, Hgl.
    rewrite (proj2 (Z.leb_le _ _) Hge) in *. destruct Hso as (Hif&Hle&Hall).
    rewrite length_app. simpl. rewrite Hn. split_and!; [lia| |].
    + revert Hgl. unfold gen_left. rewrite use_mock by (rewrite Hrl; apply HI). rewrite Hmk, Hin.
      fold (rem s (e_rid e)). case_match; [done|]. zbool. lia.
    + apply Forall_app. split; [done|]. apply Forall_singleton. simpl. unfold e_c. rewrite <- Hreq. lia.
  - destruct Hcan as (_&Hlt&Hup&_). rewrite <- Hreq in Hlt, Hup, Hn.
    rewrite (proj2 (Z.leb_gt _ _) Hlt) in *. destruct Hso as [Hif Hsl]. split; [lia|]. right.
    assert (Hc : e_c e = num_computed_tokens r) by (unfold e_c; by rewrite Hreq).
    destruct Hsl as [->|(n&Hsl&_)].
    + exists (e_n e). rewrite Hc. split_and!; [done|done|].
      pose proof (chunk_size_le (s_role (filled s)) (prompt_len r) (e_c e) bd). lia.
    + exfalso. unfold has_unprocessed_prompt in Hup. rewrite Hq in Hup.
      fold (has_unprocessed_prompt (e_rid e) (prompt_len r) s) in Hup.
      rewrite (unprocessed_slots s (e_rid e) n (num_computed_tokens r)) in Hup; [done| |done].
      rewrite Hsl. left.
Qed.

Lemma schedule_inv G s es s' out :
  full_inv G s -> schedule_post s es s' out ->
  inv G (fun k => slots (s_result_queue s) k ++ front es k) s' /\
  s_result_queue s' = s_result_queue s /\ s_reqs s' = s_reqs s /\
  s_running s' = s_running (filled s) /\ s_waiting s' = s_waiting (filled s) /\
  (forall k, rem s' k = rem s k).
Proof.
  intros HF HP. destruct (sp_state _ _ _ _ HP) as (m&Hs'&Hm).
  destruct (filled_frame s) as (Hrq&_&_&Hq&_&_&Hmk&_).
  split_and!; try (rewrite Hs'; done).
  - rewrite Hs'. eapply inv_inflight; [apply inv_filled, HF| |].
    + intros k r Hk Hr _ _. rewrite <- Hs'.
      assert (Hl : live s k) by (destruct (filled_spec s) as (Happ&_); unfold live in *; by rewrite <- Happ).
      destruct (inv_live _ _ _ (proj1 HF) k Hl) as (r1&Hr1&Hlv&Hso).
      rewrite Hrq, Hr1 in Hr. simplify_eq. by eapply schedule_slots_ok.
    + intros k Hk. destruct (decide (k ∈ e_rid <$> es)) as [He|He].
      * by apply (sp_running _ _ _ _ HP).
      * rewrite front_nil, app_nil_r in Hk by done.
        apply (inv_slots _ _ _ (inv_filled _ _ _ (proj1 HF))), Hk.
  - rewrite Hs'. simpl. intros k. unfold rem. simpl. by rewrite Hmk.
Qed.

Lemma row_valid G s es s' out e :
  full_inv G s -> schedule_post s es s' out -> e ∈ es -> row_ok (s_reqs s) e.
Proof.
  intros [HI _] HP He. destruct (filled_frame s) as (Hrq&_).
  pose proof (sp_valid _ _ _ _ HP) as Hv. rewrite Forall_forall in Hv.
  assert (Hl : live s (e_rid e)).
  { destruct (filled_spec s) as (Happ&_). unfold live. rewrite <- Happ, elem_of_app. left.
    apply (sp_running _ _ _ _ HP). by apply list_elem_of_fmap_2. }
  destruct (inv_live _ _ _ HI _ Hl) as (r&Hr&(_&_&Hc0&_)&_).
  destruct (Hv e He) as [Hreq Hcan Hmode Hn _ Hqs|Hreq Hcan Hmode _ Hqs [bd Hn] Hpos];
    rewrite Hrq in Hreq; unfold row_ok; rewrite Hreq; rewrite Hr in Hreq; injection Hreq as Hreq.
  - split_and!; [done|lia|lia|]. right. destruct Hcan as (_&?&_). done.
  - split_and!; [done|lia| |].
    + rewrite Hqs. unfold e_c. by rewrite <- Hreq.
    + left. split_and!; [done|done|].
      pose proof (chunk_size_le (s_role (filled s)) (prompt_len (e_req e)) (e_c e) bd). lia.
Qed.

Lemma rows_reqs_ok G s es s1 out :
  full_inv G s -> schedule_post s es s1 out -> Pool.reqs_ok out (s_reqs s1).
Proof.
  intros HF HP rid Hrid. destruct (schedule_inv G s es s1 out HF HP) as (HI1&_&_&Hrn&_).
  destruct (sp_out _ _ _ _ HP) as (_&_&_&Hn&_). rewrite Hn, dkeys_col in Hrid.
  assert (Hl : live s1 rid).
  { unfold live. rewrite elem_of_app, Hrn. left. by apply (sp_running _ _ _ _ HP). }
  destruct (inv_dom _ _ _ HI1 _ Hl) as [r0 HG].
  destruct (inv_admitted _ _ _ HI1 _ _ HG) as (r&Hr&Hp&[_ Hm]&_). exists r. split; [done|].
  rewrite Hp, Hm. by eapply inv_prompts.
Qed.

Lemma rows_plan_ok reqs step es out :
  out_repr step es out -> Forall (row_ok reqs) es -> Pool.plan_ok out.
Proof.
  intros (_&_&_&Hn&_&Hr&Hw&_) Hrow. rewrite Forall_forall in Hrow.
  unfold Pool.plan_ok. rewrite Hn, Hr, Hw, dkeys_col. split.
  - apply Forall_app. split; apply Forall_forall; intros io Hio; unfold Pool.io_ok.
    + apply list_elem_of_omap in Hio as (e&He&Hio). destruct (Hrow e He) as (_&?&?&_).
      revert Hio. unfold e_read. case_match; intros; simplify_eq/=. split; [lia|by apply list_elem_of_fmap_2].
    + apply list_elem_of_fmap in Hio as (e&->&He). destruct (Hrow e He) as (_&?&?&_). simpl.
      split; [lia|by apply list_elem_of_fmap_2].
  - rewrite <- list_fmap_compose. done.
Qed.

(** The agent shrank nothing, so the output is executed as it is. *)
Lemma respect_all step es out h s :
  out_repr step es out ->
  effective_read_set h = Some (read_set out) -> effective_write_set h = Some (write_set out) ->
  respect_effective_sets out h s = (s, out).
Proof.
  intros Hout Hr Hw. unfold respect_effective_sets. rewrite Hr, Hw. simpl.
  assert (Hd : planned_dropped out ((io_req_id <$> read_set out) ++ (io_req_id <$> write_set out)) = []).
  { destruct Hout as (_&_&_&Hn&_&_&Hws&_). unfold planned_dropped. rewrite Hn, Hws, dkeys_col.
    apply filter_nil_in. intros x Hx Hn'. apply Hn'. apply elem_of_app. right.
    rewrite <- list_fmap_compose. exact Hx. }
  by rewrite Hd.
Qed.

Lemma run_batch_ok G s es s1 out :
  full_inv G s -> schedule_post s es s1 out ->
  exists s2 b, run_batch out s1 = (s2, Ok tt) /\ br_output b = out /\
    s_result_queue s2 = s_result_queue s ++ [b] /\ s_reqs s2 = s_reqs s /\
    (forall k, rem s2 k = rem s k) /\
    inv G (fun k => slots (s_result_queue s) k ++ front es k) s2.
Proof.
  intros HF HP. destruct (schedule_inv G s es s1 out HF HP) as (HI1&Hq1&Hrq1&Hrn1&_&Hrm1).
  assert (Hout := sp_out _ _ _ _ HP).
  assert (Hrow : Forall (row_ok (s_reqs s1)) es).
  { apply Forall_forall. intros e He. rewrite Hrq1. by eapply row_valid. }
  destruct (Pool.prepare_reliable out (s_reqs s1) (s_pool s1) (inv_pool _ _ _ HI1) (rows_plan_ok _ _ _ _ Hout Hrow)
      (rows_reqs_ok _ _ _ _ _ HF HP))
    as (p1&h&E1&Hbusy&Hst&Hr&Hw&_&_&Hfit).
  assert (Hso : so_step_id out = s_step_id s + 1) by apply Hout.
  destruct (exec_ok (rl := rl) out h (s_reqs s1) (s_runner s1)) as (x'&ro&E2&Hx'); [apply (inv_runner _ _ _ HI1)| |].
  { split_and!; [done|done|]. exists es. rewrite Hso. split_and!; [done|apply HP|done| |].
    - pose proof (sp_budget _ _ _ _ HP) as Hb. rewrite (inv_role _ _ _ (proj1 HF)) in Hb.
      destruct (role_post_init_ok _ _ role_ok) as (_&?&_). lia.
    - pose proof (inv_cap _ _ _ HI1) as Hcap. rewrite Hrn1 in Hcap.
      assert (Hsub : e_rid <$> es ⊆+ s_running (filled s))
        by (apply NoDup_submseteq; [apply HP|apply (sp_running _ _ _ _ HP)]).
      apply submseteq_length in Hsub. rewrite length_fmap in Hsub. lia. }
  destruct (Pool.done_reliable (so_step_id out) p1 Hbusy) as (p2&E3&Hidle&_).
  unfold run_batch, mbind, M_bind, gets. rewrite (on_pool_ok _ s1 p1 h E1).
  unfold try_finally. rewrite (respect_all _ _ _ _ _ Hout Hr Hw). unfold on_runner. simpl.
  rewrite E2. unfold on_pool. simpl. rewrite E3. unfold modify.
  eexists _, (mkBatch out ro h). split; [reflexivity|].
  split_and!; simpl; [done|by rewrite Hq1|done|intros k; apply Hrm1|].
  destruct HI1. by split.
Qed.

Lemma slots_snoc q b es rid :
  out_repr (so_step_id (br_output b)) es (br_output b) -> NoDup (e_rid <$> es) ->
  slots (q ++ [b]) rid = slots q rid ++ front es rid.
Proof.
  intros H1 H2. unfold slots. rewrite omap_app. f_equal.
  change (slots [b] rid = front es rid). rewrite (slots_cons b [] es) by done.
  unfold slots. simpl. by rewrite app_nil_r.
Qed.

(** Scheduling a row takes its tokens off the unscheduled work. *)
Lemma work_row G s es s1 out s2 k :
  full_inv G s -> schedule_post s es s1 out -> s_reqs s2 = s_reqs s -> (forall k, rem s2 k = rem s k) ->
  let sl' := fun k => slots (s_result_queue s) k ++ front es k in
  work sl' s2 k <= work (slots (s_result_queue s)) s k /\
  (k ∈ e_rid <$> es -> work sl' s2 k < work (slots (s_result_queue s)) s k).
Proof.
  intros HF HP Hrq Hrm sl'. unfold work, sl'. rewrite Hrq, Hrm.
  destruct (decide (k ∈ e_rid <$> es)) as [He|He].
  2: { rewrite front_nil, app_nil_r by done. split; [lia|done]. }
  apply list_elem_of_fmap in He as (e&->&He). rewrite front_in by (done || apply HP).
  destruct (row_valid _ _ _ _ _ _ HF HP He) as (Hreq&Hpos&_&Hmode). rewrite Hreq.
  assert (Hfin : finished (e_req e) = false).
  { pose proof (sp_valid _ _ _ _ HP) as Hv. rewrite Forall_forall in Hv.
    by destruct (Hv e He) as [_ (?&_) ?|_ (?&_) ?]. }
  unfold work_of. rewrite Hfin. case_match; zbool.
  - rewrite length_app. simpl. lia.
  - rewrite fmap_app, zsum_app. unfold zsum. simpl. lia.
Qed.

Lemma elem_of_G (G : gmap string Req) rid : is_Some (G !! rid) -> rid ∈ (map_to_list G).*1.
Proof. intros [r Hr]. apply list_elem_of_fmap. exists (rid, r). split; [done|]. by apply elem_of_map_to_list. Qed.

Lemma batch_step G s es s1 out :
  full_inv G s -> schedule_post s es s1 out -> es <> [] ->
  exists s2, run_batch out s1 = (s2, Ok tt) /\ full_inv G s2 /\ s_result_queue s2 <> [] /\
    zlen (s_result_queue s2) = zlen (s_result_queue s) + 1 /\ total_work G s2 < total_work G s.
Proof.
  intros HF HP Hne. destruct (run_batch_ok G s es s1 out HF HP) as (s2&b&E&Hb&Hq&Hrq&Hrm&HI).
  assert (Hout : out_repr (so_step_id (br_output b)) es (br_output b)).
  { rewrite Hb. destruct (sp_out _ _ _ _ HP) as (Hs&Hx). rewrite Hs. by split. }
  assert (Hnd := sp_nodup _ _ _ _ HP).
  assert (Hext : forall k, slots (s_result_queue s) k ++ front es k = slots (s_result_queue s2) k)
    by (intros k; rewrite Hq; by rewrite (slots_snoc _ b es)).
  exists s2. split_and!; [done| | | |].
  - split; [exact (inv_ext _ _ _ _ Hext HI)|]. rewrite Hq. apply Forall_app. split; [apply HF|].
    apply Forall_singleton. by exists es.
  - rewrite Hq. by destruct (s_result_queue s).
  - rewrite Hq, length_app. simpl. lia.
  - destruct es as [|e es']; [done|]. set (es := e :: es') in *. unfold total_work.
    set (sl' := fun k => slots (s_result_queue s) k ++ front es k) in *.
    apply zsum_lt with (x := e_rid e).
    + intros k. rewrite <- (work_ext sl' _ s2 k (Hext k)). by apply (work_row G s es s1 out).
    + apply elem_of_G. apply (inv_dom _ _ _ (proj1 HF)). unfold live.
      destruct (filled_spec s) as (Happ&_). rewrite <- Happ, elem_of_app. left.
      apply (sp_running _ _ _ _ HP). left.
    + rewrite <- (work_ext sl' _ s2 _ (Hext _)). apply (work_row G s es s1 out); [done..|]. left.
Qed.

Lemma queues_of_inv G s : full_inv G s -> queues_ok s.
Proof.
  intros [HI _]. split; [apply HI|]. intros rid Hl.
  destruct (inv_live _ _ _ HI rid Hl) as (r&?&_). eauto.
Qed.

(** With nothing queued, a schedule that selects nothing has nothing to select. *)
Lemma idle_step G s es s1 out :
  full_inv G s -> schedule_post s es s1 out -> es = [] ->
  full_inv G s1 /\ s_result_queue s1 = s_result_queue s /\ total_work G s1 = total_work G s /\
  (s_result_queue s = [] -> s_running s1 = [] /\ s_waiting s1 = []).
Proof.
  intros HF HP ->. destruct (schedule_inv G s [] s1 out HF HP) as (HI1&Hq1&Hrq1&Hrn1&Hw1&Hrm1).
  assert (Hext : forall k, slots (s_result_queue s) k ++ front [] k = slots (s_result_queue s1) k)
    by (intros k; rewrite Hq1; apply app_nil_r).
  assert (HF1 : full_inv G s1) by (split; [exact (inv_ext _ _ _ _ Hext HI1)|rewrite Hq1; apply HF]).
  split_and!; [done|done| |].
  - unfold total_work. f_equal. apply list_fmap_ext. intros i k _. unfold work. by rewrite Hrq1, Hrm1, Hq1.
  - intros Hnil. destruct (role_post_init_ok _ _ role_ok) as (_&Hbud&Hcap).
    assert (Hrl : s_role s = rl) by apply HF.
    assert (Hrun : s_running (filled s) = []).
    { destruct (s_running (filled s)) as [|rid l] eqn:El; [done|exfalso].
      destruct (sp_progress _ _ _ _ HP eq_refl ltac:(by rewrite Hrl)) with (rid := rid)
        (r := default (mkReq rid rid [] (mkSamplingParams 0 (QArith_base.inject_Z 0) None) rid 0 [] 0 0 true None COLOCATED)
                (s_reqs s !! rid)) as [Hd He].
      { rewrite El. left. }
      { destruct (queues_of_inv _ _ HF) as [_ Hin]. destruct (filled_spec s) as (Happ&_).
        destruct (Hin rid) as [r Hr]; [rewrite <- Happ, El; left|]. by rewrite Hr. }
      destruct (inv_live _ _ _ (inv_filled _ _ _ (proj1 HF)) rid) as (r&Hr&Hlv&Hso);
        [unfold live; rewrite El; left|].
      destruct (filled_frame s) as (Hrq&Hrl'&_&Hq&_&_&Hmk&_). rewrite Hrq in Hr. rewrite Hr in Hd, He. simpl in Hd, He.
      rewrite Hnil in Hso. unfold slots_ok in Hso. simpl in Hso.
      destruct Hlv as (_&Hfin&Hc0&Hpos&Hgoal&Hrem&Hmml).
      assert (Hlen : zlen (output_token_ids r) + zlen (rem (filled s) rid) = Z.max 0 (max_new r)).
      { apply (f_equal length) in Hgoal. rewrite length_app in Hgoal.
        unfold goal, mock_decode_tokens, py_range in Hgoal. rewrite length_fmap, length_zseq in Hgoal. lia. }
      assert (Hr0 : 0 < zlen (rem (filled s) rid)) by (destruct (rem (filled s) rid); [done|simpl; lia]).
      rewrite Hrl in Hrl'. unfold num_output_tokens in Hpos.
      destruct (prompt_len r <=? num_computed_tokens r) eqn:Ec; zbool.
      - apply Hd. split_and!; [done|done| |].
        + unfold gen_left. rewrite use_mock by done. fold (rem (filled s) rid).
          rewrite (proj2 (Z.leb_gt _ _)); [done|lia].
        + rewrite Hrl'. intros Hm. specialize (Hmml Hm). lia.
      - apply He. split_and!; [done|done| |].
        + unfold has_unprocessed_prompt. by rewrite Hq, Hnil.
        + rewrite Hrl'. intros Hm. specialize (Hmml Hm). lia. }
    rewrite Hrn1, Hw1. split; [done|]. destruct (filled_spec s) as (_&_&[?|Hc]); [done|].
    rewrite Hrun, Hrl in Hc. simpl in Hc. lia.
Qed.

(** ** The loops *)

Abbreviation no_hook := (mret tt : M (sched A R X) lexn unit).
Abbreviation never := (fun _ : sched A R X => false).

Definition drained (s : node) : Prop :=
  s_running s = [] /\ s_waiting s = [] /\ s_result_queue s = [].

Definition flag (s : node) : Z := if nonempty (s_result_queue s) then 1 else 0.

Lemma total_zero es step out reqs : out_repr step es out -> Forall (row_ok reqs) es ->
  (total_num_scheduled_tokens out =? 0) = negb (nonempty es).
Proof.
  intros (_&_&_&_&Ht&_) Hrow. rewrite Ht. destruct es as [|e es]; [done|].
  rewrite fmap_cons, zsum_cons. cbn [nonempty negb]. apply Z.eqb_neq. apply Forall_cons_1 in Hrow as [(_&He&_) Hrow].
  assert (0 <= zsum (e_n <$> es)).
  { apply zsum_nonneg, Forall_fmap. eapply Forall_impl; [exact Hrow|]. intros x (_&?&_). simpl. lia. }
  lia.
Qed.

Lemma total_work_nonneg G s : full_inv G s -> 0 <= total_work G s.
Proof.
  intros [HI _]. unfold total_work. apply zsum_nonneg, Forall_fmap, Forall_forall. intros rid Hrid.
  apply list_elem_of_fmap in Hrid as ([k r0]&->&Hk). apply elem_of_map_to_list in Hk. simpl.
  destruct (inv_admitted _ _ _ HI k r0 Hk) as (r&Hr&_&_&[Hl|(Hf&_)]).
  - by eapply work_nonneg.
  - unfold work, work_of. by rewrite Hr, Hf.
Qed.

Lemma overlap_body_ok G s :
  full_inv G s -> exists s' b, overlap_body None no_hook never s = (s', Ok b) /\ full_inv G s' /\
    (if b : bool then drained s' else 2 * total_work G s' + flag s' < 2 * total_work G s + flag s).
Proof.
  intros HF. unfold overlap_body, mbind, M_bind, gets. simpl.
  set (disable := should_disable_overlap s).
  assert (exists s0, (if disable then drain_results None else mret tt) s = (s0, Ok tt) /\ full_inv G s0 /\
    total_work G s0 <= total_work G s /\ (s0 = s \/ s_result_queue s0 = [] /\ flag s = 1))
    as (s0&E0&HF0&Hw0&Hq0).
  { unfold disable. destruct (should_disable_overlap s) eqn:Ed.
    - destruct (drain_ok G s HF) as (s0&?&?&?&?). exists s0. split_and!; [done..|]. right. split; [done|].
      unfold should_disable_overlap in Ed. apply andb_true_iff in Ed as [Ed _]. unfold flag. by rewrite Ed.
    - exists s. split_and!; [done|done|lia|by left]. }
  rewrite E0. destruct (schedule_spec s0 (queues_of_inv _ _ HF0)) as (es&s1&out&HP).
  rewrite (sp_run _ _ _ _ HP).
  assert (Hrow : Forall (row_ok (s_reqs s0)) es) by (apply Forall_forall; intros; by eapply row_valid).
  rewrite (total_zero _ _ _ _ (sp_out _ _ _ _ HP) Hrow).
  destruct (nonempty es) eqn:Ene; simpl.
  - destruct (batch_step G s0 es s1 out HF0 HP) as (s2&E2&HF2&Hqn&_&Hw2); [by intros ->|].
    rewrite E2.
    assert (exists s3, (if negb disable && (1 <? zlen (s_result_queue s2)) then pop_and_process None else mret tt) s2
      = (s3, Ok tt) /\ full_inv G s3 /\ total_work G s3 <= total_work G s2) as (s3&E3&HF3&Hw3).
    { destruct (negb disable && _); [|exists s2; split_and!; [done|done|lia]]. destruct (s_result_queue s2) as [|b q] eqn:Eq; [done|].
      destruct (pop_ok G s2 b q HF2 Eq) as (s3&?&?&_&?). eauto. }
    change (id s2) with s2. rewrite E3. exists s3, false. split_and!; [done|done|].
    unfold flag. repeat case_match; lia.
  - destruct es as [|e es]; [|done].
    destruct (idle_step G s0 [] s1 out HF0 HP eq_refl) as (HF1&Hq1&Hw1&Hnil).
    destruct (drain_ok G s1 HF1) as (s2&E2&HF2&Hq2&Hw2). rewrite E2.
    unfold id. exists s2. eexists. split; [reflexivity|]. split; [done|].
    rewrite orb_false_r. unfold has_work. rewrite Hq2. simpl. rewrite orb_false_r.
    destruct (s_result_queue s1) as [|b q] eqn:Eq1.
    + unfold drain_results in E2. rewrite Eq1 in E2. simpl in E2. injection E2 as <-.
      destruct (Hnil ltac:(by rewrite <- Hq1)) as [Hr Hw]. rewrite Hr, Hw. simpl. by split_and!.
    + destruct (nonempty (s_waiting s2) || nonempty (s_running s2)) eqn:Ew; simpl.
      * assert (flag s = 1).
        { destruct Hq0 as [->|[Hq0 ?]]; [|done]. unfold flag. by rewrite <- Hq1. }
        unfold flag at 1. rewrite Hq2. simpl. lia.
      * apply orb_false_iff in Ew as [Ew Er]. split_and!; [by destruct (s_running s2)|by destruct (s_waiting s2)|done].
Qed.

Lemma overlap_ok G s n :
  full_inv G s -> 2 * total_work G s + flag s < Z.of_nat n ->
  exists s', event_loop_overlap None no_hook never n s = (s', Ok true) /\ full_inv G s' /\ drained s'.
Proof.
  intros HF Hn.
  assert (exists s', overlap_loop None no_hook never n s = (s', Ok true) /\ full_inv G s' /\ drained s')
    as (s'&E&HF'&Hd).
  { revert s HF Hn. induction n as [|n IH]; intros s HF Hn.
    - pose proof (total_work_nonneg G s HF). unfold flag in Hn. case_match; lia.
    - destruct (overlap_body_ok G s HF) as (s1&b&E&HF1&Hb). simpl. rewrite (bind_ok _ _ _ _ _ E).
      destruct b; [eauto|]. apply IH; [done|lia]. }
  exists s'. unfold event_loop_overlap. rewrite (bind_ok _ _ _ _ _ E). destruct Hd as (?&?&Hq).
  unfold mbind, M_bind, drain_results. rewrite Hq. simpl. by split_and!.
Qed.

Lemma normal_ok G s n :
  full_inv G s -> s_result_queue s = [] -> total_work G s < Z.of_nat n ->
  exists s', event_loop_normal None no_hook never n s = (s', Ok true) /\ full_inv G s' /\ drained s'.
Proof.
  revert s. induction n as [|n IH]; intros s HF Hq Hn.
  { pose proof (total_work_nonneg G s HF). lia. }
  simpl. unfold has_work. rewrite Hq. simpl. rewrite orb_false_r.
  destruct (nonempty (s_waiting s) || nonempty (s_running s)) eqn:Ew.
  2: { exists s. apply orb_false_iff in Ew as [Ew Er]. split_and!; [done|done|].
       split_and!; [by destruct (s_running s)|by destruct (s_waiting s)|done]. }
  unfold mbind at 1, M_bind at 1, normal_body, mbind, M_bind. simpl.
  destruct (schedule_spec s (queues_of_inv _ _ HF)) as (es&s1&out&HP).
  rewrite (sp_run _ _ _ _ HP).
  assert (Hrow : Forall (row_ok (s_reqs s)) es) by (apply Forall_forall; intros; by eapply row_valid).
  rewrite (total_zero _ _ _ _ (sp_out _ _ _ _ HP) Hrow). destruct (nonempty es) eqn:Ene; simpl.
  - destruct (batch_step G s es s1 out HF HP) as (s2&E2&HF2&Hqn&Hlen&Hw2); [by intros ->|].
    rewrite E2. destruct (s_result_queue s2) as [|b q] eqn:Eq; [done|].
    destruct (pop_ok G s2 b q HF2 Eq) as (s3&E3&HF3&Hq3&Hw3). rewrite E3.
    apply IH; [done| |lia]. rewrite Hq in Hlen. destruct q; [done|]. simpl in Hlen. lia.
  - destruct es as [|e es]; [|done].
    destruct (idle_step G s [] s1 out HF HP eq_refl) as (HF1&Hq1&Hw1&Hnil).
    destruct (Hnil Hq) as [Hr1 Hwt1].
    unfold drain_results. rewrite Hq1, Hq. simpl. unfold id. rewrite Hr1, Hwt1. simpl.
    exists s1. split_and!; [done|done|]. split_and!; congruence.
Qed.

(** ** Admission *)

Definition add_all (l : list (Req * option PrefixHint)) : M node lexn unit :=
  for_each l (fun rh => add_request rh.1 rh.2).

(** A request as [build_req_from_generate] makes it, that wants tokens and fits
    the model. *)
Definition admissible (rh : Req * option PrefixHint) : Prop :=
  let '(r, h) := rh in
  output_token_ids r = [] /\ num_computed_tokens r = 0 /\ finished r = false /\ 0 < max_new r /\
  (0 < max_model_length rl -> prompt_len r + max_new r <= max_model_length rl) /\
  (forall p, h = Some p -> 0 <= hint_computed_tokens p).

Definition load (l : list (Req * option PrefixHint)) : Z :=
  zsum ((fun rh => prompt_len rh.1 + max_new rh.1) <$> l).

Lemma admit_req_fields h r :
  req_id (admit_req h r) = req_id r /\ prompt_token_ids (admit_req h r) = prompt_token_ids r /\
  sampling_params (admit_req h r) = sampling_params r /\
  output_token_ids (admit_req h r) = output_token_ids r /\ finished (admit_req h r) = finished r.
Proof. unfold admit_req. repeat case_match; done. Qed.

Lemma admit_req_computed r h : admissible (r, h) ->
  0 <= num_computed_tokens (admit_req h r) <= prompt_len r.
Proof.
  intros (_&Hc&_&_&_&Hh). unfold admit_req. destruct h as [p|]; [|unfold prompt_len; lia].
  specialize (Hh p eq_refl). case_match; simpl; unfold prompt_len in *; lia.
Qed.

(** Before the loop runs: nothing scheduled, nothing in flight. *)
Definition fresh_inv (G : gmap string Req) (s : node) : Prop :=
  full_inv G s /\ s_result_queue s = [] /\ s_inflight_decode s = ∅ /\ s_running s = [] /\
  forall rid, is_Some (s_reqs s !! rid) -> is_Some (G !! rid).

(** The state after an accepted [add_request]. *)
Definition added (r : Req) (h : option PrefixHint) (s : node) : node :=
  set_mock_remaining (<[req_id r := goal r]> (s_mock_remaining s))
    (set_waiting (s_waiting s ++ [req_id r])
       (set_reqs (<[req_id r := admit_req h r]> (s_reqs s)) s)).

Lemma add_request_ok s r h :
  s_role s = rl -> s_reqs s !! req_id r = None -> admissible (r, h) ->
  add_request r h s = (added r h s, Ok tt).
Proof.
  intros Hrl Hnone (_&_&_&_&Hmml&_). unfold add_request. rewrite Hnone, Hrl.
  destruct (0 <? max_model_length rl) eqn:E; simpl.
  - zbool. rewrite (proj2 (Z.ltb_ge _ _)) by lia. by rewrite bool_decide_eq_true_2.
  - by rewrite bool_decide_eq_true_2.
Qed.

Lemma fresh_none G s rid : fresh_inv G s -> G !! rid = None -> s_reqs s !! rid = None.
Proof.
  intros (_&_&_&_&Hreqs) HG. destruct (s_reqs s !! rid) eqn:E; [|done].
  destruct (Hreqs rid) as [? ?]; [eauto|congruence].
Qed.

Lemma added_live r h s k : live (added r h s) k <-> live s k \/ k = req_id r.
Proof. unfold live. simpl. set_solver. Qed.

Lemma added_rem r h s k : rem (added r h s) k = if decide (k = req_id r) then goal r else rem s k.
Proof. unfold rem. simpl. rewrite lookup_insert. repeat case_decide; simplify_eq; done. Qed.

(** The admitted request itself starts in order. *)
Lemma added_new r h s :
  s_inflight_decode s = ∅ -> admissible (r, h) ->
  live_ok (added r h s) (req_id r) (admit_req h r) /\ slots_ok (added r h s) (req_id r) (admit_req h r) [].
Proof.
  intros Hinf Hadm. assert (Hcomp := admit_req_computed r h Hadm).
  destruct Hadm as (Hout&Hc&Hfin&Hmax&Hmml&_). destruct (admit_req_fields h r) as (Fid&Fp&Fs&Fo&Ff).
  assert (Hgl : 0 < zlen (goal r)) by (rewrite length_goal; lia).
  unfold live_ok, slots_ok. rewrite added_rem, decide_True by done.
  unfold num_output_tokens, prompt_len, goal, max_new, get0 in *. simpl.
  rewrite Fp, Fs, Fo, Ff, Hout, Hinf, lookup_empty. simpl. split.
  - split_and!; [done|done|lia| |done| |done].
    + destruct (decide (num_computed_tokens (admit_req h r) = zlen (prompt_token_ids r)));
        [left; lia|right; split; [lia|done]].
    + intros Hn. rewrite Hn in Hgl. simpl in Hgl. lia.
  - case_match; [|by split; [|left]]. split_and!; [done|lia|constructor].
Qed.

(** The agent takes the request's model and prompt. *)
Definition acceptable (rh : Req * option PrefixHint) : Prop := ag_prompt_ok (served_model_name rh.1) (prompt_token_ids rh.1).

Lemma added_inv G s r h :
  fresh_inv G s -> admissible (r, h) -> acceptable (r, h) -> G !! req_id r = None ->
  fresh_inv (<[req_id r := r]> G) (added r h s).
Proof.
  intros HF Hadm Hacc HG. assert (Hnone := fresh_none G s (req_id r) HF HG).
  destruct HF as ((HI&_)&Hq&Hinf&Hrun&Hreqs). rewrite Hq in HI.
  assert (Hnl : forall k, live s k -> k <> req_id r).
  { intros k Hk ->. destruct (inv_live _ _ _ HI _ Hk) as (?&?&_). congruence. }
  destruct HI as [H1 H2 H3 H4 H5 H6 Hdom H7 Hrnr Hpr]. split; [split; simpl; rewrite Hq; [split; try done|done]|].
  - simpl. rewrite app_assoc. apply NoDup_app. split_and!; [done| |apply NoDup_singleton].
    intros k Hk Hk'%list_elem_of_singleton. by apply (Hnl k).
  - intros k [Hk| ->]%added_live; simpl.
    + rewrite lookup_insert_ne by (apply not_eq_sym; auto). destruct (H5 k Hk) as (rk&?&Hl&Hs). exists rk.
      unfold live_ok, slots_ok in *. by rewrite added_rem, decide_False by auto.
    + exists (admit_req h r). rewrite lookup_insert_eq. split; [done|]. by apply added_new.
  - intros k [Hk| ->]%added_live; [rewrite lookup_insert_ne by (apply not_eq_sym; auto); auto|].
    rewrite lookup_insert_eq. eauto.
  - intros k r0. rewrite lookup_insert. case_decide as Hk; subst.
    + intros [= <-]. exists (admit_req h r). simpl. rewrite lookup_insert_eq.
      destruct (admit_req_fields h r) as (_&?&?&_).
      assert (same_terms (admit_req h r) r) by (split; [done|unfold admit_req; by repeat case_match]).
      split_and?; try done. left. apply added_live. by right.
    + intros HGk. destruct (H7 k r0 HGk) as (rk&?&?&?&Hc'). exists rk. simpl. rewrite lookup_insert_ne by done.
      split_and?; try done. rewrite added_live. tauto.
  - intros k r0. rewrite lookup_insert. case_decide; [by intros [= <-]|apply Hpr].
  - split_and!; try done. intros k. simpl. rewrite !lookup_insert. case_decide; [eauto|auto].
Qed.

Lemma added_work G s r h :
  fresh_inv G s -> admissible (r, h) -> G !! req_id r = None ->
  total_work (<[req_id r := r]> G) (added r h s) <= prompt_len r + max_new r + total_work G s.
Proof.
  intros HF Hadm HG. assert (Hcomp := admit_req_computed r h Hadm).
  destruct HF as (_&Hq&_). destruct Hadm as (Hout&_&Hfin&Hmax&_).
  unfold total_work. rewrite (map_to_list_insert G (req_id r) r HG).
  rewrite !fmap_cons, zsum_cons. simpl. rewrite Hq.
  apply Z.add_le_mono.
  - unfold work. simpl. rewrite lookup_insert_eq, added_rem, decide_True by done.
    destruct (admit_req_fields h r) as (_&Fp&_&_&Ff). unfold work_of, prompt_len in *. rewrite Fp, Ff, Hfin.
    rewrite length_goal by lia. unfold zsum. simpl. case_match; zbool; lia.
  - apply Z.eq_le_incl. f_equal. apply list_fmap_ext. intros i k Hk. apply list_elem_of_lookup_2 in Hk.
    apply list_elem_of_fmap in Hk as ([k' r0]&->&Hk). apply elem_of_map_to_list in Hk. simpl.
    assert (k' <> req_id r) by congruence. unfold work. simpl.
    by rewrite lookup_insert_ne, added_rem, decide_False.
Qed.

Definition admitted_map (l : list (Req * option PrefixHint)) (G : gmap string Req) : gmap string Req :=
  foldl (fun G rh => <[req_id rh.1 := rh.1]> G) G l.

Lemma admitted_map_keep l G k : k ∉ (fun rh => req_id rh.1) <$> l -> admitted_map l G !! k = G !! k.
Proof.
  unfold admitted_map. revert G. induction l as [|x l IH]; intros G; [done|].
  simpl. rewrite not_elem_of_cons. intros [? ?]. rewrite IH by done. by rewrite lookup_insert_ne.
Qed.

Lemma add_all_ok l : forall G s,
  fresh_inv G s -> Forall admissible l -> Forall acceptable l -> NoDup ((fun rh => req_id rh.1) <$> l) ->
  (forall rh, rh ∈ l -> G !! req_id rh.1 = None) ->
  exists s', add_all l s = (s', Ok tt) /\ fresh_inv (admitted_map l G) s' /\
    total_work (admitted_map l G) s' <= load l + total_work G s.
Proof.
  induction l as [|[r h] l IH]; intros G s HF Hadm Hacc Hnd HG.
  { exists s. split_and!; [done|done|]. unfold load. simpl. unfold admitted_map. simpl. lia. }
  apply Forall_cons_1 in Hadm as [Hr Hadm], Hacc as [Hp Hacc]. rewrite fmap_cons, NoDup_cons in Hnd. destruct Hnd as [Hx Hnd].
  assert (HGr : G !! req_id r = None) by (apply (HG (r, h)); left).
  assert (E := add_request_ok s r h (inv_role _ _ _ (proj1 (proj1 HF))) (fresh_none _ _ _ HF HGr) Hr).
  destruct (IH (<[req_id r := r]> G) (added r h s)) as (s'&E'&HF'&Hw').
  - by apply added_inv.
  - done.
  - done.
  - done.
  - intros rh Hrh. rewrite lookup_insert_ne; [apply HG; by right|]. intros He. apply Hx. simpl. rewrite He.
    apply list_elem_of_fmap. eauto.
  - exists s'. unfold add_all in *. simpl. rewrite (bind_ok _ _ _ _ _ E). split_and!; [done|exact HF'|].
    pose proof (added_work G s r h HF Hr HGr). unfold load in *. rewrite fmap_cons, zsum_cons. simpl. 
    unfold admitted_map in *. simpl. lia.
Qed.

Lemma fresh_init pool runner (x : X) :
  Pool.idle (budget := budget) pool -> exec_inv runner -> fresh_inv ∅ (init pool runner rl x).
Proof.
  intros Hp Hrn. split; [split; [split; simpl; try done|constructor]|].
  - apply NoDup_nil_2.
  - destruct (role_post_init_ok _ _ role_ok) as (_&_&?). simpl. lia.
  - intros rid Hl. unfold live in Hl. simpl in Hl. set_solver.
  - intros rid Hl. unfold live in Hl. simpl in Hl. set_solver.
  - split_and!; done.
Qed.

(** Admission followed by the main loop. *)
Definition serve (fuel : nat) (l : list (Req * option PrefixHint)) : M node lexn bool :=
  _ ← add_all l; run_until_idle None no_hook never fuel.

Lemma serve_ok l pool runner (x : X) fuel :
  Pool.idle (budget := budget) pool -> exec_inv runner -> Forall admissible l -> Forall acceptable l ->
  NoDup ((fun rh => req_id rh.1) <$> l) -> 2 * load l < Z.of_nat fuel ->
  exists s', serve fuel l (init pool runner rl x) = (s', Ok true) /\ drained s' /\
    Pool.idle (budget := budget) (s_pool s') /\
    forall r h, (r, h) ∈ l -> exists r', s_reqs s' !! req_id r = Some r' /\
      finished r' = true /\ finish_reason r' = Some "length" /\
      output_token_ids r' = mock_decode_tokens (prompt_token_ids r) (max_new r).
Proof.
  intros Hp Hrn Hadm Hacc Hnd Hfuel.
  destruct (add_all_ok l ∅ _ (fresh_init pool runner x Hp Hrn) Hadm Hacc Hnd) as (s1&E1&(HF&Hq&_)&Hw);
    [intros; apply lookup_empty|].
  assert (Hw0 : total_work ∅ (init pool runner rl x : node) = 0).
  { unfold total_work. by rewrite map_to_list_empty. }
  assert (Hw1 := total_work_nonneg _ _ HF).
  assert (exists s', run_until_idle None no_hook never fuel s1 = (s', Ok true) /\
    full_inv (admitted_map l ∅) s' /\ drained s') as (s'&E2&HF'&Hd).
  { unfold run_until_idle. case_match.
    - apply overlap_ok; [done|]. unfold flag. rewrite Hq. simpl. lia.
    - apply normal_ok; [done|done|lia]. }
  exists s'. unfold serve. rewrite (bind_ok _ _ _ _ _ E1). split_and!; [done|done|apply HF'|].
  intros r h Hin.
  assert (HG : admitted_map l ∅ !! req_id r = Some r).
  { clear -Hin Hnd. revert Hin. generalize (∅ : gmap string Req). induction l as [|x l IH]; intros G Hin; [set_solver|].
    rewrite fmap_cons, NoDup_cons in Hnd. destruct Hnd as [Hx Hnd]. apply elem_of_cons in Hin as [<-|Hin].
    - change (admitted_map l (<[req_id r := r]> G) !! req_id r = Some r).
      rewrite admitted_map_keep by done. apply lookup_insert_eq.
    - change (admitted_map l (<[req_id x.1 := x.1]> G) !! req_id r = Some r). by apply IH. }
  destruct (inv_admitted _ _ _ (proj1 HF') (req_id r) r HG) as (r'&Hr'&Hpr&[Hsp _]&Hcase).
  exists r'. destruct Hd as (Hr&Hwt&_). destruct Hcase as [Hl|(?&?&Ho)].
  - unfold live in Hl. rewrite Hr, Hwt in Hl. by apply elem_of_nil in Hl.
  - split_and!; try done. rewrite Ho. unfold goal, max_new. by rewrite Hpr, Hsp.
Qed.

End run.
