(* ===== verification/Sampling.v ===== *)
(** * Sampling

    [python/lake/engine/sample]: greedy choice, grammar bit masks, and the chain
    rejection sampler of speculative decoding.  A logit is a rational or
    minus infinity (no NaN), with the order Python's [>] gives it. *)

From Stdlib Require Import QArith.
From S2P Require Import Prelude LakeTypes.
Open Scope Z_scope.

Inductive logit : Type := NegInf | Fin (q : Q).

(** [a > b] *)
Definition gtb (a b : logit) : bool :=
  match a, b with
  | NegInf, _ => false
  | Fin _, NegInf => true
  | Fin p, Fin q => negb (Qle_bool p q)
  end.

(** greedy.py: the loop, with the index of the next element. *)
Fixpoint greedy_loop (ls : list logit) (i best_i : Z) (best_v : logit) : Z :=
  match ls with
  | [] => best_i
  | v :: ls' =>
      if gtb v best_v then greedy_loop ls' (i + 1) i v else greedy_loop ls' (i + 1) best_i best_v
  end.

Definition greedy_sample (ls : list logit) : result lexn Z :=
  match ls with
  | [] => Raise EIndexError
  | v :: _ => Ok (greedy_loop ls 0 0 v)
  end.

(** grammar.py *)
Definition apply_token_bitmask (ls : list logit) (mask : list bool) : result lexn (list logit) :=
  if negb (zlen ls =? zlen mask) then Raise EValueError
  else if negb (existsb id mask) then Raise EValueError
  else Ok (zip_with (fun v (allowed : bool) => if allowed then v else NegInf) ls mask).

(** reject.py *)
Fixpoint reject_loop (ctx draft : list Z) (target_greedy : list Z -> Z) (accepted : list Z) : list Z :=
  match draft with
  | [] => accepted ++ [target_greedy ctx]
  | d :: draft' =>
      let t := target_greedy ctx in
      if t =? d then reject_loop (ctx ++ [d]) draft' target_greedy (accepted ++ [d])
      else accepted ++ [t]
  end.

Definition chain_reject_sample (context draft : list Z) (target_greedy : list Z -> Z) : list Z :=
  reject_loop context draft target_greedy [].

(** ** Greedy choice *)

Definition geq (a b : logit) : Prop := gtb b a = false.

Lemma geq_refl a : geq a a.
Proof. destruct a; [done|]. unfold geq. simpl. apply negb_false_iff. apply Qle_bool_iff. apply Qle_refl. Qed.

Lemma geq_trans a b c : geq a b -> geq b c -> geq a c.
Proof.
  unfold geq. destruct a, b, c; simpl; try done.
  rewrite !negb_false_iff, !Qle_bool_iff. intros. by eapply Qle_trans.
Qed.

Lemma gtb_geq a b : gtb a b = true -> geq a b.
Proof.
  unfold geq. destruct a, b; simpl; try done. rewrite negb_true_iff, negb_false_iff. intros H.
  apply Qle_bool_iff. apply not_true_iff_false in H. rewrite Qle_bool_iff in H.
  apply Qnot_le_lt in H. by apply Qlt_le_weak.
Qed.

(** Invariant of the loop: the best so far is maximal and the first such. *)
Lemma greedy_loop_spec done_ ls bi bv :
  done_ !! bi = Some bv -> (forall v, v ∈ done_ -> geq bv v) ->
  (forall j v, (j < bi)%nat -> done_ !! j = Some v -> gtb bv v = true) ->
  exists (k : nat) w, greedy_loop ls (zlen done_) (Z.of_nat bi) bv = Z.of_nat k /\
    (done_ ++ ls) !! k = Some w /\ (forall v, v ∈ done_ ++ ls -> geq w v) /\
    (forall j v, (j < k)%nat -> (done_ ++ ls) !! j = Some v -> gtb w v = true).
Proof.
  revert done_ bi bv. induction ls as [|x ls IH]; intros dn bi bv Hb Hmax Hfst; simpl.
  { exists bi, bv. rewrite app_nil_r. auto. }
  replace (zlen dn + 1) with (zlen (dn ++ [x])) by (rewrite length_app; simpl; lia).
  replace (dn ++ x :: ls) with ((dn ++ [x]) ++ ls) by by rewrite <- app_assoc.
  assert (Hbi : (bi < length dn)%nat) by by eapply lookup_lt_Some.
  destruct (gtb x bv) eqn:E.
  - apply IH.
    + by rewrite lookup_app_r, Nat.sub_diag by lia.
    + intros v [Hv|Hv%list_elem_of_singleton]%elem_of_app; [|subst; apply geq_refl].
      eapply geq_trans; [by apply gtb_geq|auto].
    + intros j v Hj. rewrite lookup_app_l by lia. intros Hv. apply list_elem_of_lookup_2, Hmax in Hv.
      unfold geq in Hv. revert E Hv. clear. destruct x, bv, v; simpl; try done.
      rewrite !negb_true_iff, negb_false_iff, Qle_bool_iff. intros E Hv.
      apply not_true_iff_false. rewrite Qle_bool_iff. intros Hx. apply not_true_iff_false in E.
      apply E, Qle_bool_iff. by eapply Qle_trans.
  - apply IH.
    + by rewrite lookup_app_l by lia.
    + intros v [Hv|Hv%list_elem_of_singleton]%elem_of_app; [auto|]. by subst.
    + intros j v Hj. rewrite lookup_app_l by lia. apply Hfst. lia.
Qed.

Lemma greedy_argmax ls : ls <> [] ->
  exists (k : nat) w, greedy_sample ls = Ok (Z.of_nat k) /\ ls !! k = Some w /\
    (forall v, v ∈ ls -> geq w v) /\
    (forall j v, (j < k)%nat -> ls !! j = Some v -> gtb w v = true).
Proof.
  destruct ls as [|x ls]; [done|]. intros _.
  destruct (greedy_loop_spec [x] ls 0 x) as (k&w&Hk&Hw&Hm&Hf); [done| | |].
  - intros v ->%list_elem_of_singleton. apply geq_refl.
  - lia.
  - exists k, w. split_and!; try done. simpl. by rewrite (geq_refl x), <- Hk.
Qed.

(** ** Rejection sampling *)

(** The greedy rollout the target model would produce on its own. *)
Fixpoint rollout (target_greedy : list Z -> Z) (ctx : list Z) (n : nat) : list Z :=
  match n with
  | O => []
  | S n' => let t := target_greedy ctx in t :: rollout target_greedy (ctx ++ [t]) n'
  end.

(** The number of leading draft tokens the target agrees with. *)
Fixpoint agreed (target_greedy : list Z -> Z) (ctx draft : list Z) : nat :=
  match draft with
  | [] => 0
  | d :: draft' => if target_greedy ctx =? d then S (agreed target_greedy (ctx ++ [d]) draft') else 0
  end.

Lemma reject_loop_rollout tg draft : forall ctx acc,
  reject_loop ctx draft tg acc = acc ++ rollout tg ctx (S (agreed tg ctx draft)).
Proof.
  induction draft as [|d draft IH]; intros ctx acc; [done|].
  cbn [reject_loop agreed]. destruct (tg ctx =? d) eqn:E; [|done]. zbool. subst d.
  rewrite IH, <- app_assoc. done.
Qed.

Lemma agreed_le tg draft : forall ctx, (agreed tg ctx draft <= length draft)%nat.
Proof. induction draft as [|d draft IH]; intros ctx; simpl; [lia|]. case_match; [|lia]. specialize (IH (ctx ++ [d])). lia. Qed.

Lemma length_rollout tg n : forall ctx, length (rollout tg ctx n) = n.
Proof. induction n as [|n IH]; intros ctx; simpl; [done|]. by rewrite IH. Qed.

Lemma agreed_draft tg draft : forall ctx,
  take (agreed tg ctx draft) draft = rollout tg ctx (agreed tg ctx draft).
Proof.
  induction draft as [|d draft IH]; intros ctx; [done|]. simpl.
  case_match eqn:E; [|done]. zbool. subst d. simpl. by rewrite IH.
Qed.

(** ** Properties *)

(** The grammar mask is binding: when [apply_token_bitmask] accepts a mask, the
    token [greedy_sample] then picks is allowed by the mask, and no allowed
    token has a larger logit. *)
Theorem masked_greedy_allowed (qs : list Q) mask masked :
  apply_token_bitmask (Fin <$> qs) mask = Ok masked ->
  exists (k : nat) (q : Q), greedy_sample masked = Ok (Z.of_nat k) /\ mask !! k = Some true /\ qs !! k = Some q /\
    forall (j : nat) q', mask !! j = Some true -> qs !! j = Some q' -> (q' <= q)%Q.
Proof.
  unfold apply_token_bitmask. rewrite length_fmap. intros H. repeat case_match; simplify_eq. zbool.
  apply existsb_exists in H1 as ([]&Hin&Ht); [|done]. apply list_elem_of_In, list_elem_of_lookup in Hin as [i Hi].
  assert (Hlen : length qs = length mask) by lia.
  assert (Hat : forall (j : nat) (b : bool) q, mask !! j = Some b -> qs !! j = Some q ->
    zip_with (fun v (allowed : bool) => if allowed then v else NegInf) (Fin <$> qs) mask !! j
      = Some (if b then Fin q else NegInf)).
  { intros j b q Hb Hq. rewrite lookup_zip_with, list_lookup_fmap, Hq. simpl. by rewrite Hb. }
  destruct (lookup_lt_is_Some_2 qs i) as [qi Hqi]; [apply lookup_lt_Some in Hi; lia|].
  destruct (greedy_argmax (zip_with (fun v (allowed : bool) => if allowed then v else NegInf) (Fin <$> qs) mask))
    as (k&w&Hk&Hw&Hmax&_).
  { intros Hn. specialize (Hat i true qi Hi Hqi). by rewrite Hn in Hat. }
  assert (Hkl : (k < length mask)%nat).
  { apply lookup_lt_Some in Hw. rewrite length_zip_with, length_fmap in Hw. lia. }
  destruct (lookup_lt_is_Some_2 mask k) as [b Hb]; [done|].
  destruct (lookup_lt_is_Some_2 qs k) as [q Hq]; [lia|].
  rewrite (Hat k b q Hb Hq) in Hw. injection Hw as <-.
  assert (Hge : forall (j : nat) q', mask !! j = Some true -> qs !! j = Some q' ->
    geq (if b then Fin q else NegInf) (Fin q')).
  { intros j q' Hm Hq'. apply Hmax. eapply list_elem_of_lookup_2. exact (Hat j true q' Hm Hq'). }
  destruct b.
  - exists k, q. split_and!; try done. intros j q' Hm Hq'. specialize (Hge j q' Hm Hq').
    unfold geq in Hge. simpl in Hge. by apply negb_false_iff, Qle_bool_iff in Hge.
  - by specialize (Hge i qi Hi Hqi).
Qed.

Lemma masked_greedy_allowed_witness :
  exists (k : nat) (q : Q), greedy_sample [NegInf; Fin 2%Q; Fin 1%Q] = Ok (Z.of_nat k) /\
    [false; true; true] !! k = Some true /\ [5%Q; 2%Q; 1%Q] !! k = Some q /\
    forall (j : nat) q', [false; true; true] !! j = Some true -> [5%Q; 2%Q; 1%Q] !! j = Some q' -> (q' <= q)%Q.
Proof. exact (masked_greedy_allowed [5%Q; 2%Q; 1%Q] [false; true; true] _ eq_refl). Defined.

(** C12. Speculative verification is lossless: [chain_reject_sample] returns exactly
    a prefix of what the target model would generate greedily by itself, between
    one and [len(draft) + 1] tokens, namely the accepted draft tokens and one
    token of the target's own. *)
Theorem chain_reject_lossless tg ctx draft :
  exists k : nat, (k <= length draft)%nat /\
    chain_reject_sample ctx draft tg = rollout tg ctx (S k) /\
    zlen (chain_reject_sample ctx draft tg) = Z.of_nat k + 1 /\
    exists t, chain_reject_sample ctx draft tg = take k draft ++ [t] /\ draft !! k <> Some t.
Proof.
  exists (agreed tg ctx draft). unfold chain_reject_sample. rewrite reject_loop_rollout. cbn [app].
  split_and!; [apply agreed_le|done|rewrite length_rollout; lia|].
  revert ctx. induction draft as [|d draft IH]; intros ctx; [by eexists|].
  cbn [agreed]. destruct (tg ctx =? d) eqn:E; zbool.
  - subst d. destruct (IH (ctx ++ [tg ctx])) as (t&Ht&Hne). exists t. simpl in *. by rewrite Ht.
  - exists (tg ctx). simpl. split; [done|]. congruence.
Qed.
