(* ===== verification/InputBatch.v ===== *)
(** * Step buffers

    [python/lake/engine/input_batch.py] (the batch of one step and its flat
    static buffers) and [build_attn_metadata] of
    [model_executor/layers/attentions/attention_metadata.py].  A buffer is a
    Python list of fixed length; a write out of range raises [IndexError]. *)

From S2P Require Import Prelude PyDict LakeTypes.

Record InputBatch : Type := mkInputBatch {
  ib_req_ids : list string;
  ib_num_scheduled : dict string Z;
  ib_num_computed : dict string Z;
  ib_token_ids : dict string (list Z);
  ib_query_start : dict string Z;
  ib_query_end : dict string Z;
  ib_is_prompt : dict string bool
}.

Definition empty_batch : InputBatch := mkInputBatch [] [] [] [] [] [] [].

Record InputBuffers : Type := mkBuffers {
  max_num_reqs : Z;
  max_num_tokens : Z;
  input_ids : list Z;
  positions : list Z;
  query_start_loc : list Z;
  seq_lens : list Z;
  is_padding : list bool;
  slot_mapping : list Z;
  buf_req_ids : list string;
  num_reqs : Z;
  num_tokens : Z
}.

Definition fill {A} (n : Z) (a : A) : list A := replicate (Z.to_nat n) a.

(** [__post_init__] *)
Definition new_buffers (mr mt : Z) : result lexn InputBuffers :=
  if mr <=? 0 then Raise EValueError
  else if mt <=? 0 then Raise EValueError
  else Ok (mkBuffers mr mt (fill mt 0) (fill mt 0) (fill (mr + 1) 0) (fill mr 0)
             (fill mt true) (fill mt (-1)) [] 0 0).

(** [clear]: every cell is reset in place, the lengths stay. *)
Definition reset {A B} (a : B) (l : list A) : list B := (fun _ => a) <$> l.
Definition clear (b : InputBuffers) : InputBuffers :=
  mkBuffers (max_num_reqs b) (max_num_tokens b) (reset 0 (input_ids b)) (reset 0 (positions b))
    (reset 0 (query_start_loc b)) (reset 0 (seq_lens b)) (reset true (is_padding b))
    (reset (-1) (slot_mapping b)) [] 0 0.

(** [l[i] = v] *)
Definition set_at {A} (i : Z) (v : A) (l : list A) : result lexn (list A) :=
  let j := if i <? 0 then i + zlen l else i in
  if (j <? 0) || (zlen l <=? j) then Raise EIndexError else Ok (<[Z.to_nat j := v]> l).

(** [l[i]] *)
Definition get_at {A} (i : Z) (l : list A) : result lexn A :=
  let j := if i <? 0 then i + zlen l else i in
  if j <? 0 then Raise EIndexError
  else match l !! Z.to_nat j with Some a => Ok a | None => Raise EIndexError end.

(** [d[k]] *)
Definition get_key {V} (k : string) (d : dict string V) : result lexn V :=
  match dget k d with Some v => Ok v | None => Raise EKeyError end.

Definition set_token (idx tok pos slot : Z) (b : InputBuffers) : result lexn InputBuffers :=
  ii ← set_at idx tok (input_ids b);
  pp ← set_at idx pos (positions b);
  pd ← set_at idx false (is_padding b);
  sm ← set_at idx slot (slot_mapping b);
  mret (mkBuffers (max_num_reqs b) (max_num_tokens b) ii pp (query_start_loc b) (seq_lens b)
          pd sm (buf_req_ids b) (num_reqs b) (num_tokens b)).

(** The loop over the tokens of one row; [j] is the offset in the row. *)
Fixpoint write_tokens (toks : list Z) (j cursor qs : Z) (slots : option (list Z))
    (b : InputBuffers) : result lexn InputBuffers :=
  match toks with
  | [] => Ok b
  | tok :: toks' =>
      slot ← (match slots with Some sl => get_at j sl | None => Ok (qs + j) end);
      b' ← set_token (cursor + j) tok (qs + j) slot b;
      write_tokens toks' (j + 1) cursor qs slots b'
  end.

Definition set_row (row cursor qe : Z) (b : InputBuffers) : result lexn InputBuffers :=
  ql ← set_at row cursor (query_start_loc b);
  sl ← set_at row qe (seq_lens b);
  mret (mkBuffers (max_num_reqs b) (max_num_tokens b) (input_ids b) (positions b) ql sl
          (is_padding b) (slot_mapping b) (buf_req_ids b) (num_reqs b) (num_tokens b)).

(** The loop over the rows; the result carries the final cursor. *)
Fixpoint write_rows (batch : InputBatch) (slots : dict string (list Z)) (rids : list string)
    (row cursor : Z) (b : InputBuffers) : result lexn (Z * InputBuffers) :=
  match rids with
  | [] => Ok (cursor, b)
  | rid :: rids' =>
      qs ← get_key rid (ib_query_start batch);
      qe ← get_key rid (ib_query_end batch);
      let q_len := Z.max 0 (qe - qs) in
      if max_num_tokens b <? cursor + q_len then Raise EValueError
      else
        b1 ← set_row row cursor qe b;
        all ← get_key rid (ib_token_ids batch);
        let toks := py_slice qs qe all in
        let req_slots := dget rid slots in
        if match req_slots with Some sl => negb (zlen sl =? q_len) | None => false end
        then Raise EValueError
        else
          b2 ← write_tokens toks 0 cursor qs req_slots b1;
          write_rows batch slots rids' (row + 1) (cursor + q_len) b2
  end.

(** The tail of [query_start_loc]. *)
Fixpoint pad_qsl (n : nat) (row cursor : Z) (l : list Z) : result lexn (list Z) :=
  match n with
  | O => Ok l
  | S n' => l' ← set_at row cursor l; pad_qsl n' (row + 1) cursor l'
  end.

Definition materialize (batch : InputBatch) (slots : dict string (list Z)) (b0 : InputBuffers)
    : result lexn InputBuffers :=
  if max_num_reqs b0 <? zlen (ib_req_ids batch) then Raise EValueError
  else
    let b1 := clear b0 in
    let n := zlen (ib_req_ids batch) in
    let b2 := mkBuffers (max_num_reqs b1) (max_num_tokens b1) (input_ids b1) (positions b1)
                (query_start_loc b1) (seq_lens b1) (is_padding b1) (slot_mapping b1)
                (ib_req_ids batch) n (num_tokens b1) in
    cb ← write_rows batch slots (ib_req_ids batch) 0 0 b2;
    let '(cursor, b3) := cb in
    ql1 ← set_at n cursor (query_start_loc b3);
    ql2 ← pad_qsl (Z.to_nat (max_num_reqs b0 - n)) (n + 1) cursor ql1;
    mret (mkBuffers (max_num_reqs b3) (max_num_tokens b3) (input_ids b3) (positions b3) ql2
            (seq_lens b3) (is_padding b3) (slot_mapping b3) (buf_req_ids b3) n cursor).

(** ** attention_metadata.py *)

Record AttentionMetadata : Type := mkAttn {
  am_seq_lens : dict string Z;
  am_query_start : dict string Z;
  am_query_end : dict string Z;
  am_block_tables : dict string (list Z);
  am_block_table_tensor : list (list Z);
  am_slot_mapping : list Z;
  am_positions : list Z;
  am_query_start_loc : list Z;
  am_max_seq_len : Z;
  am_max_query_len : Z;
  am_num_reqs : Z;
  am_num_actual_tokens : Z
}.

Definition q_len (qs qe : dict string Z) (rid : string) : Z :=
  let s := default 0 (dget rid qs) in Z.max 0 (default s (dget rid qe) - s).

(** [build_attn_metadata] as the runner calls it, with [buffers]. *)
Definition build_attn_metadata (seqs qs qe : dict string Z) (tables : dict string (list Z))
    (buf : InputBuffers) (req_order : list string) : AttentionMetadata :=
  let order := match req_order with [] => dkeys seqs | _ => req_order end in
  let qsl := py_take (num_reqs buf + 1) (query_start_loc buf) in
  mkAttn seqs qs qe tables
    ((fun rid => default [] (dget rid tables)) <$> order)
    (py_take (num_tokens buf) (slot_mapping buf)) (py_take (num_tokens buf) (positions buf)) qsl
    (foldl (fun m rid => Z.max m (default 0 (dget rid seqs))) 0 order)
    (foldl (fun m rid => Z.max m (q_len qs qe rid)) 0 order)
    (zlen order) (default 0 (last qsl)).

(** ** Layout

    A buffer after [k] cells were written in order. *)

Definition laid {A} (d : A) (cells : list A) (n : Z) (l : list A) : Prop :=
  l = cells ++ fill (n - zlen cells) d /\ zlen cells <= n.

Lemma fill_S {A} n (a : A) : 0 < n -> fill n a = a :: fill (n - 1) a.
Proof. intros H. unfold fill. replace (Z.to_nat n) with (S (Z.to_nat (n - 1))) by lia. done. Qed.

Lemma length_fill {A} n (a : A) : 0 <= n -> zlen (fill n a) = n.
Proof. intros. unfold fill. rewrite length_replicate. lia. Qed.

Lemma laid_snoc {A} (d : A) cells n l v :
  laid d cells n l -> zlen cells < n ->
  exists l', set_at (zlen cells) v l = Ok l' /\ laid d (cells ++ [v]) n l'.
Proof.
  intros [-> Hle] Hlt. unfold set_at. cbv zeta.
  rewrite !(proj2 (Z.ltb_ge (zlen cells) 0)) by lia.
  rewrite length_app, Nat2Z.inj_add, length_fill by lia.
  rewrite (proj2 (Z.leb_gt _ (zlen cells))) by lia. simpl.
  eexists. split; [reflexivity|]. split; [|rewrite length_app; simpl; lia].
  rewrite Nat2Z.id. rewrite insert_app_r_alt, Nat.sub_diag by lia. rewrite fill_S by lia. simpl.
  rewrite <- app_assoc. simpl. do 3 f_equal. rewrite length_app. simpl. lia.
Qed.

Lemma reset_fill {A B} (a : B) (l : list A) : reset a l = fill (zlen l) a.
Proof. unfold reset, fill. rewrite Nat2Z.id. by apply const_fmap. Qed.

Lemma laid_reset {A B} (a : B) (l : list A) n : zlen l = n -> laid a [] n (reset a l).
Proof. intros <-. split; [|simpl; lia]. rewrite reset_fill. simpl. f_equal. lia. Qed.

(** The buffers while rows are written: [ids], [poss], [slts] are the cells of the
    token buffers, [qsl] and [sls] those of the row buffers. *)
Record buf_inv (mr mt : Z) (ids poss slts qsl sls : list Z) (b : InputBuffers) : Prop := {
  bi_mr : max_num_reqs b = mr;
  bi_mt : max_num_tokens b = mt;
  bi_ids : laid 0 ids mt (input_ids b);
  bi_pos : laid 0 poss mt (positions b);
  bi_slots : laid (-1) slts mt (slot_mapping b);
  bi_pad : laid true (reset false ids) mt (is_padding b);
  bi_qsl : laid 0 qsl (mr + 1) (query_start_loc b);
  bi_sls : laid 0 sls mr (seq_lens b);
  bi_len : length poss = length ids /\ length slts = length ids
}.

Lemma length_reset {A B} (a : B) (l : list A) : length (reset a l) = length l.
Proof. unfold reset. by rewrite length_fmap. Qed.

Lemma write_one_token mr mt ids poss slts qsl sls b tok pos slot :
  buf_inv mr mt ids poss slts qsl sls b -> zlen ids < mt ->
  exists b', set_token (zlen ids) tok pos slot b = Ok b' /\
    buf_inv mr mt (ids ++ [tok]) (poss ++ [pos]) (slts ++ [slot]) qsl sls b' /\
    buf_req_ids b' = buf_req_ids b.
Proof.
  intros [H1 H2 H3 H4 H5 H6 H7 H8 [H9 H10]] Hlt.
  destruct (laid_snoc 0 ids mt _ tok H3 Hlt) as (l1&E1&L1).
  destruct (laid_snoc 0 poss mt _ pos H4 ltac:(lia)) as (l2&E2&L2).
  destruct (laid_snoc true (reset false ids) mt _ false H6 ltac:(rewrite length_reset; lia)) as (l3&E3&L3).
  destruct (laid_snoc (-1) slts mt _ slot H5 ltac:(lia)) as (l4&E4&L4).
  rewrite length_reset in E3. rewrite H9 in E2. rewrite H10 in E4.
  unfold set_token. rewrite E1. simpl. rewrite E2. simpl. rewrite E3. simpl. rewrite E4. simpl.
  eexists. split; [reflexivity|]. split; [|done]. split; simpl; try done.
  - unfold reset in *. rewrite fmap_app. exact L3.
  - rewrite !length_app. simpl. lia.
Qed.

(** The slots of a row: the agent's, or the absolute positions. *)
Definition row_slots (slots : option (list Z)) (qs : Z) (n : nat) : list Z :=
  match slots with Some sl => take n sl | None => zseq qs n end.

Lemma zseq_snoc a n : zseq a (S n) = zseq a n ++ [a + Z.of_nat n].
Proof. unfold zseq. rewrite seq_S, fmap_app. done. Qed.

Lemma write_tokens_ok mr mt qsl sls cursor qs slots toks : forall dn ids poss slts b,
  buf_inv mr mt (ids ++ dn) (poss ++ zseq qs (length dn)) (slts ++ row_slots slots qs (length dn)) qsl sls b ->
  zlen ids = cursor -> length poss = length ids -> length slts = length ids ->
  cursor + zlen dn + zlen toks <= mt ->
  (forall sl, slots = Some sl -> (length dn + length toks <= length sl)%nat) ->
  exists b', write_tokens toks (zlen dn) cursor qs slots b = Ok b' /\
    buf_inv mr mt (ids ++ dn ++ toks) (poss ++ zseq qs (length (dn ++ toks)))
      (slts ++ row_slots slots qs (length (dn ++ toks))) qsl sls b' /\ buf_req_ids b' = buf_req_ids b.
Proof.
  induction toks as [|tok toks IH]; intros dn ids poss slts b HI Hc Hp Hs Hmt Hsl.
  { exists b. rewrite app_nil_r. done. }
  cbn [write_tokens]. cbn [length] in *.
  assert (exists slot, (match slots with Some sl => get_at (zlen dn) sl | None => Ok (qs + zlen dn) end) = Ok slot /\
    row_slots slots qs (length (dn ++ [tok])) = row_slots slots qs (length dn) ++ [slot]) as (slot&Eslot&Hslot).
  { rewrite length_app. simpl. rewrite Nat.add_1_r. destruct slots as [sl|]; simpl.
    - specialize (Hsl sl eq_refl). destruct (lookup_lt_is_Some_2 sl (length dn)) as [x Hx]; [lia|].
      exists x. unfold get_at. cbv zeta. rewrite !(proj2 (Z.ltb_ge (zlen dn) 0)) by lia. rewrite Nat2Z.id, Hx.
      split; [done|]. by apply take_S_r.
    - eexists. split; [done|]. apply zseq_snoc. }
  rewrite Eslot. cbn [mbind result_bind].
  destruct (write_one_token mr mt _ _ _ qsl sls b tok (qs + zlen dn) slot HI) as (b1&E1&HI1&Hr1).
  { rewrite length_app. lia. }
  replace (cursor + zlen dn) with (zlen (ids ++ dn)) by (rewrite length_app; lia).
  unfold mbind at 1, result_bind at 1. rewrite E1.
  destruct (IH (dn ++ [tok]) ids poss slts b1) as (b2&E2&HI2&Hr2); try done.
  - rewrite Hslot, length_app. simpl. rewrite Nat.add_1_r, zseq_snoc, !app_assoc. rewrite <- !app_assoc in *. done.
  - rewrite length_app. simpl. lia.
  - intros sl E. specialize (Hsl sl E). rewrite length_app. simpl. lia.
  - exists b2. replace (zlen dn + 1) with (zlen (dn ++ [tok])) by (rewrite length_app; simpl; lia).
    rewrite E2. rewrite <- !app_assoc in HI2. simpl in HI2. split_and!; [done|exact HI2|congruence].
Qed.

(** ** Rows *)

Definition rqs (batch : InputBatch) (rid : string) : Z := default 0 (dget rid (ib_query_start batch)).
Definition rqe (batch : InputBatch) (rid : string) : Z := default 0 (dget rid (ib_query_end batch)).
Definition rlen (batch : InputBatch) (rid : string) : Z := rqe batch rid - rqs batch rid.
Definition rtoks (batch : InputBatch) (rid : string) : list Z :=
  py_slice (rqs batch rid) (rqe batch rid) (default [] (dget rid (ib_token_ids batch))).
Definition rposs (batch : InputBatch) (rid : string) : list Z :=
  py_range2 (rqs batch rid) (rqe batch rid).
Definition rslots (batch : InputBatch) (slots : dict string (list Z)) (rid : string) : list Z :=
  default (rposs batch rid) (dget rid slots).

(** A row the runner prepared: its query range is inside its tokens and the
    agent's slots, if any, are as many. *)
Definition row_wf (batch : InputBatch) (slots : dict string (list Z)) (rid : string) : Prop :=
  exists qs qe all, dget rid (ib_query_start batch) = Some qs /\
    dget rid (ib_query_end batch) = Some qe /\ dget rid (ib_token_ids batch) = Some all /\
    0 <= qs <= qe /\ qe <= zlen all /\
    forall sl, dget rid slots = Some sl -> zlen sl = qe - qs.

Lemma row_wf_lens batch slots rid : row_wf batch slots rid ->
  0 <= rlen batch rid /\ zlen (rtoks batch rid) = rlen batch rid.
Proof.
  intros (qs&qe&all&Hqs&Hqe&Hall&?&?&_). unfold rlen, rtoks, rqs, rqe. rewrite Hqs, Hqe, Hall. simpl.
  split; [lia|]. apply length_py_slice; lia.
Qed.

Definition total (batch : InputBatch) (rids : list string) : Z := zsum (rlen batch <$> rids).

(** Where each row starts in the flat buffers. *)
Fixpoint starts (batch : InputBatch) (c : Z) (rids : list string) : list Z :=
  match rids with
  | [] => []
  | rid :: rids' => c :: starts batch (c + rlen batch rid) rids'
  end.

Lemma starts_app batch rids1 rids2 : forall c,
  starts batch c (rids1 ++ rids2) = starts batch c rids1 ++ starts batch (c + total batch rids1) rids2.
Proof.
  induction rids1 as [|rid rids1 IH]; intros c; simpl.
  - unfold total. simpl. do 2 f_equal. unfold zsum. simpl. lia.
  - rewrite IH. unfold total. rewrite fmap_cons, zsum_cons. do 3 f_equal. lia.
Qed.

Lemma length_starts batch rids : forall c, length (starts batch c rids) = length rids.
Proof. induction rids as [|r rids IH]; intros c; simpl; [done|]. by rewrite IH. Qed.

Lemma total_app batch l k : total batch (l ++ k) = total batch l + total batch k.
Proof. unfold total. by rewrite fmap_app, zsum_app. Qed.

Lemma total_one batch rid : total batch [rid] = rlen batch rid.
Proof. unfold total, zsum. simpl. lia. Qed.

Lemma length_cells batch slots rids : Forall (row_wf batch slots) rids ->
  zlen (concat (rtoks batch <$> rids)) = total batch rids.
Proof.
  induction 1 as [|rid rids Hr _ IH]; [done|]. destruct (row_wf_lens _ _ _ Hr) as [_ Hl].
  rewrite fmap_cons. cbn [concat]. rewrite length_app. unfold total in *. rewrite fmap_cons, zsum_cons. lia.
Qed.

Lemma total_nonneg batch slots rids : Forall (row_wf batch slots) rids -> 0 <= total batch rids.
Proof. intros H. rewrite <- (length_cells batch slots) by done. lia. Qed.

Definition rows_inv mr mt batch slots (dn : list string) (b : InputBuffers) : Prop :=
  buf_inv mr mt (concat (rtoks batch <$> dn)) (concat (rposs batch <$> dn))
    (concat (rslots batch slots <$> dn)) (starts batch 0 dn) (rqe batch <$> dn) b.

Lemma concat_snoc {A} (l : list (list A)) x : concat (l ++ [x]) = concat l ++ x.
Proof. rewrite concat_app. simpl. by rewrite app_nil_r. Qed.

Lemma write_row_ok mr mt batch slots dn rid b :
  rows_inv mr mt batch slots dn b -> Forall (row_wf batch slots) dn -> row_wf batch slots rid ->
  zlen dn < mr -> total batch dn + rlen batch rid <= mt ->
  exists b1 b2, set_row (zlen dn) (total batch dn) (rqe batch rid) b = Ok b1 /\
    max_num_tokens b1 = mt /\
    write_tokens (rtoks batch rid) 0 (total batch dn) (rqs batch rid) (dget rid slots) b1 = Ok b2 /\
    rows_inv mr mt batch slots (dn ++ [rid]) b2 /\ buf_req_ids b2 = buf_req_ids b.
Proof.
  intros HI Hdn Hwf Hn Hmt. destruct (row_wf_lens _ _ _ Hwf) as [Hl0 Hl].
  assert (HI' := HI). destruct HI' as [H1 H2 H3 H4 H5 H6 H7 H8 [H9 H10]].
  destruct (laid_snoc 0 _ _ _ (total batch dn) H7) as (l1&E1&L1); [rewrite length_starts; lia|].
  destruct (laid_snoc 0 _ _ _ (rqe batch rid) H8) as (l2&E2&L2); [rewrite length_fmap; lia|].
  rewrite length_starts in E1. rewrite length_fmap in E2.
  set (b1 := mkBuffers (max_num_reqs b) (max_num_tokens b) (input_ids b) (positions b) l1 l2
    (is_padding b) (slot_mapping b) (buf_req_ids b) (num_reqs b) (num_tokens b)).
  assert (Hb1 : set_row (zlen dn) (total batch dn) (rqe batch rid) b = Ok b1).
  { unfold set_row. rewrite E1. simpl. rewrite E2. done. }
  destruct (write_tokens_ok mr mt (starts batch 0 dn ++ [total batch dn]) ((rqe batch <$> dn) ++ [rqe batch rid])
    (total batch dn) (rqs batch rid) (dget rid slots) (rtoks batch rid) []
    (concat (rtoks batch <$> dn)) (concat (rposs batch <$> dn)) (concat (rslots batch slots <$> dn)) b1)
    as (b2&E3&HI2&Hr2).
  - rewrite app_nil_r. simpl. unfold row_slots. rewrite app_nil_r.
    replace (match dget rid slots with Some sl => take 0 sl | None => zseq (rqs batch rid) 0 end) with (@nil Z)
      by (by destruct (dget rid slots)). rewrite app_nil_r. by split.
  - by apply (length_cells _ slots).
  - done.
  - done.
  - simpl. lia.
  - intros sl Hsl. destruct Hwf as (qs&qe&all&Hqs&Hqe&Hall&?&?&Hs). specialize (Hs sl Hsl).
    unfold rlen, rqs, rqe in Hl. rewrite Hqs, Hqe in Hl. simpl in *. lia.
  - exists b1, b2. split_and!; [done|done|exact E3| |exact Hr2].
    unfold rows_inv. rewrite !fmap_app, starts_app, Z.add_0_l. simpl fmap. rewrite !concat_snoc.
    replace (rposs batch rid) with (zseq (rqs batch rid) (length (rtoks batch rid)))
      by (unfold rposs, py_range2, rlen in *; f_equal; lia).
    replace (rslots batch slots rid) with (row_slots (dget rid slots) (rqs batch rid) (length (rtoks batch rid)));
      [exact HI2|].
    unfold rslots, row_slots. destruct (dget rid slots) as [sl|] eqn:Es; simpl.
    + destruct Hwf as (qs&qe&all&Hqs&Hqe&Hall&?&?&Hs). specialize (Hs sl Es).
      unfold rlen, rqs, rqe in Hl. rewrite Hqs, Hqe in Hl. simpl in Hl. rewrite take_ge by lia. done.
    + unfold rposs, py_range2, rlen in *. f_equal. lia.
Qed.

Lemma write_rows_ok mr mt batch slots rids : forall dn b,
  rows_inv mr mt batch slots dn b -> Forall (row_wf batch slots) (dn ++ rids) ->
  zlen (dn ++ rids) <= mr -> total batch (dn ++ rids) <= mt ->
  exists b', write_rows batch slots rids (zlen dn) (total batch dn) b = Ok (total batch (dn ++ rids), b') /\
    rows_inv mr mt batch slots (dn ++ rids) b' /\ buf_req_ids b' = buf_req_ids b.
Proof.
  induction rids as [|rid rids IH]; intros dn b HI Hwf Hn Hmt.
  { exists b. rewrite app_nil_r. done. }
  rewrite length_app in Hn. rewrite total_app in Hmt. unfold total at 2 in Hmt.
  rewrite fmap_cons, zsum_cons in Hmt. simpl in Hn.
  apply Forall_app in Hwf as [Hdn Hwf]. apply Forall_cons_1 in Hwf as [Hr Hwf].
  destruct (row_wf_lens _ _ _ Hr) as [Hl0 Hl]. assert (Hrest := total_nonneg _ _ _ Hwf). unfold total in Hrest.
  destruct (write_row_ok mr mt batch slots dn rid b HI Hdn Hr ltac:(lia) ltac:(lia)) as (b1&b2&E1&Hmt1&E2&HI2&Hr2).
  destruct (IH (dn ++ [rid]) b2 HI2) as (b3&E3&HI3&Hr3).
  - rewrite <- app_assoc. simpl. by apply Forall_app; split; [|constructor].
  - rewrite !length_app. simpl. lia.
  - rewrite !total_app, total_one. unfold total in *. lia.
  - exists b3. rewrite <- app_assoc in E3, HI3. simpl in E3, HI3. split_and!; [|done|congruence].
    cbn [write_rows]. destruct Hr as (qs&qe&all&Hqs&Hqe&Hall&Hle&Hal&Hs).
    assert (Erqs : rqs batch rid = qs) by (unfold rqs; by rewrite Hqs).
    assert (Erqe : rqe batch rid = qe) by (unfold rqe; by rewrite Hqe).
    unfold get_key. rewrite Hqs, Hqe, Hall. unfold rlen, rtoks in *. rewrite Erqs, Erqe, Hall in *. simpl in E2.
    unfold mbind, result_bind. rewrite Z.max_r by lia.
    rewrite (bi_mt _ _ _ _ _ _ _ _ HI), (proj2 (Z.ltb_ge _ _)) by lia. rewrite E1.
    destruct (dget rid slots) as [sl|] eqn:Es; cbv beta iota.
    + rewrite (Hs sl eq_refl), Z.eqb_refl. simpl negb. cbv iota. rewrite E2.
      replace (zlen dn + 1) with (zlen (dn ++ [rid])) by (rewrite length_app; simpl; lia).
      replace (total batch dn + (qe - qs)) with (total batch (dn ++ [rid])); [done|].
      rewrite total_app, total_one. unfold rlen. by rewrite Erqs, Erqe.
    + rewrite E2. replace (zlen dn + 1) with (zlen (dn ++ [rid])) by (rewrite length_app; simpl; lia).
      replace (total batch dn + (qe - qs)) with (total batch (dn ++ [rid])); [done|].
      rewrite total_app, total_one. unfold rlen. by rewrite Erqs, Erqe.
Qed.

Lemma pad_qsl_ok n v : forall cells l k,
  laid 0 cells k l -> k = zlen cells + Z.of_nat n ->
  exists l', pad_qsl n (zlen cells) v l = Ok l' /\ l' = cells ++ replicate n v.
Proof.
  induction n as [|n IH]; intros cells l k Hl Hk; simpl.
  - exists l. split; [done|]. destruct Hl as [-> _]. unfold fill.
    replace (Z.to_nat (k - zlen cells)) with 0%nat by lia. done.
  - destruct (laid_snoc 0 cells k l v Hl ltac:(lia)) as (l1&E1&L1). rewrite E1. simpl.
    destruct (IH (cells ++ [v]) l1 k L1) as (l2&E2&->); [rewrite length_app; simpl; lia|].
    replace (zlen cells + 1) with (zlen (cells ++ [v])) by (rewrite length_app; simpl; lia).
    rewrite E2. eexists. split; [done|]. rewrite <- app_assoc. done.
Qed.

(** Buffers as [__post_init__] makes them and as every call leaves them. *)
Record buffers_wf (b : InputBuffers) : Prop := {
  wf_mr : 0 < max_num_reqs b;
  wf_mt : 0 < max_num_tokens b;
  wf_ids : zlen (input_ids b) = max_num_tokens b;
  wf_pos : zlen (positions b) = max_num_tokens b;
  wf_qsl : zlen (query_start_loc b) = max_num_reqs b + 1;
  wf_sls : zlen (seq_lens b) = max_num_reqs b;
  wf_pad : zlen (is_padding b) = max_num_tokens b;
  wf_slots : zlen (slot_mapping b) = max_num_tokens b
}.

Lemma new_buffers_wf mr mt b : new_buffers mr mt = Ok b -> buffers_wf b.
Proof.
  unfold new_buffers. intros H. repeat case_match; simplify_eq. zbool.
  split; simpl; rewrite ?length_fill by lia; lia.
Qed.

Record laid_out (batch : InputBatch) (slots : dict string (list Z)) (b0 b : InputBuffers) : Prop := {
  lo_ids : input_ids b = concat (rtoks batch <$> ib_req_ids batch)
             ++ fill (max_num_tokens b0 - num_tokens b) 0;
  lo_pos : positions b = concat (rposs batch <$> ib_req_ids batch)
             ++ fill (max_num_tokens b0 - num_tokens b) 0;
  lo_slots : slot_mapping b = concat (rslots batch slots <$> ib_req_ids batch)
             ++ fill (max_num_tokens b0 - num_tokens b) (-1);
  lo_pad : is_padding b = fill (num_tokens b) false ++ fill (max_num_tokens b0 - num_tokens b) true;
  lo_qsl : query_start_loc b = starts batch 0 (ib_req_ids batch)
             ++ fill (max_num_reqs b0 + 1 - num_reqs b) (num_tokens b);
  lo_sls : seq_lens b = (rqe batch <$> ib_req_ids batch) ++ fill (max_num_reqs b0 - num_reqs b) 0;
  lo_total : num_tokens b = total batch (ib_req_ids batch);
  lo_reqs : num_reqs b = zlen (ib_req_ids batch) /\ buf_req_ids b = ib_req_ids batch;
  lo_max : max_num_reqs b = max_num_reqs b0 /\ max_num_tokens b = max_num_tokens b0
}.

Lemma laid_length {A} (d : A) cells n l : laid d cells n l -> zlen l = n.
Proof. intros [-> H]. rewrite length_app, Nat2Z.inj_add, length_fill by lia. lia. Qed.

Lemma materialize_ok batch slots b0 :
  buffers_wf b0 -> Forall (row_wf batch slots) (ib_req_ids batch) ->
  zlen (ib_req_ids batch) <= max_num_reqs b0 -> total batch (ib_req_ids batch) <= max_num_tokens b0 ->
  exists b, materialize batch slots b0 = Ok b /\ laid_out batch slots b0 b /\ buffers_wf b.
Proof.
  intros [W1 W2 W3 W4 W5 W6 W7 W8] Hwf Hn Hmt. unfold materialize.
  rewrite (proj2 (Z.ltb_ge _ _)) by lia. cbv zeta.
  set (b2 := mkBuffers _ _ _ _ _ _ _ _ _ _ _).
  assert (H0 : rows_inv (max_num_reqs b0) (max_num_tokens b0) batch slots [] b2).
  { split; simpl; try done; try (by apply laid_reset). }
  destruct (write_rows_ok _ _ batch slots (ib_req_ids batch) [] b2 H0 Hwf Hn Hmt) as (b3&E3&HI&Hr3).
  change (total batch []) with 0 in E3. change (zlen (@nil string)) with 0 in E3. simpl app in E3. rewrite E3. simpl.
  destruct HI as [I1 I2 I3 I4 I5 I6 I7 I8 [I9 I10]]. simpl in *.
  set (n := zlen (ib_req_ids batch)) in *. set (c := total batch (ib_req_ids batch)) in *.
  assert (Hlen : zlen (concat (rtoks batch <$> ib_req_ids batch)) = c) by by apply (length_cells _ slots).
  destruct (laid_snoc 0 _ _ _ c I7) as (l1&E1&L1); [rewrite length_starts; fold n; lia|].
  rewrite length_starts in E1. fold n in E1. rewrite E1. simpl.
  destruct (pad_qsl_ok (Z.to_nat (max_num_reqs b0 - n)) c _ _ _ L1) as (l2&E2&Hl2).
  { rewrite length_app, length_starts. simpl. fold n. lia. }
  rewrite length_app, length_starts in E2. simpl in E2.
  replace (Z.of_nat (length (ib_req_ids batch) + 1)) with (n + 1) in E2 by (unfold n; lia). rewrite E2. simpl.
  eexists. split; [reflexivity|].
  assert (Hqsl : l2 = starts batch 0 (ib_req_ids batch) ++ fill (max_num_reqs b0 + 1 - n) c).
  { rewrite Hl2, <- app_assoc. f_equal. rewrite fill_S by lia. simpl. f_equal. unfold fill. f_equal. lia. }
  split.
  - split; simpl; try done.
    + rewrite <- Hlen. apply I3.
    + destruct I4 as [-> _]. by rewrite I9, Hlen.
    + destruct I5 as [-> _]. by rewrite I10, Hlen.
    + destruct I6 as [-> _]. by rewrite length_reset, Hlen, reset_fill, Hlen.
    + destruct I8 as [-> _]. by rewrite length_fmap.
  - split; simpl; rewrite ?I1, ?I2; try done; try (by eapply laid_length).
    rewrite Hqsl, length_app, length_starts, Nat2Z.inj_add, length_fill by lia. fold n. lia.
Qed.

(** ** Reading a row back *)

Lemma starts_lookup batch rids : forall c i, (i < length rids)%nat ->
  starts batch c rids !! i = Some (c + total batch (take i rids)).
Proof.
  induction rids as [|rid rids IH]; intros c i Hi; simpl in *; [lia|].
  destruct i as [|i]; simpl; [f_equal; unfold total, zsum; simpl; lia|].
  rewrite IH by lia. unfold total. rewrite fmap_cons, zsum_cons. f_equal. lia.
Qed.

Lemma qsl_lookup batch slots b0 b i : laid_out batch slots b0 b ->
  zlen (ib_req_ids batch) <= max_num_reqs b0 -> (i <= length (ib_req_ids batch))%nat ->
  query_start_loc b !! i = Some (total batch (take i (ib_req_ids batch))).
Proof.
  intros Hlo Hn Hi. rewrite (lo_qsl _ _ _ _ Hlo). destruct (lo_reqs _ _ _ _ Hlo) as [Hr _].
  destruct (decide (i = length (ib_req_ids batch))) as [->|Hne].
  - rewrite lookup_app_r by (rewrite length_starts; lia). rewrite length_starts, Nat.sub_diag, firstn_all.
    rewrite fill_S by lia. simpl. by rewrite (lo_total _ _ _ _ Hlo).
  - rewrite lookup_app_l by (rewrite length_starts; lia). by rewrite starts_lookup by lia.
Qed.

Lemma rslots_length batch slots rid : row_wf batch slots rid -> zlen (rslots batch slots rid) = rlen batch rid.
Proof.
  intros (qs&qe&all&Hqs&Hqe&Hall&?&?&Hs). unfold rslots, rposs, rlen, rqs, rqe, py_range2.
  rewrite Hqs, Hqe. simpl. destruct (dget rid slots) as [sl|] eqn:E; simpl; [auto|].
  rewrite length_zseq. lia.
Qed.

Lemma length_poss batch slots rids : Forall (row_wf batch slots) rids ->
  zlen (concat (rposs batch <$> rids)) = total batch rids.
Proof.
  induction 1 as [|rid rids Hr _ IH]; [done|]. destruct (row_wf_lens _ _ _ Hr) as [Hl _].
  rewrite fmap_cons. cbn [concat]. rewrite length_app. unfold total in *. rewrite fmap_cons, zsum_cons.
  unfold rposs at 1, py_range2. rewrite length_zseq. unfold rlen in *. lia.
Qed.

Lemma length_slots batch slots rids : Forall (row_wf batch slots) rids ->
  zlen (concat (rslots batch slots <$> rids)) = total batch rids.
Proof.
  induction 1 as [|rid rids Hr _ IH]; [done|]. apply rslots_length in Hr.
  rewrite fmap_cons. cbn [concat]. rewrite length_app. unfold total in *. rewrite fmap_cons, zsum_cons. lia.
Qed.

Lemma slice_middle {A} (pre mid post : list A) a e :
  a = zlen pre -> e = a + zlen mid -> py_slice a e (pre ++ mid ++ post) = mid.
Proof.
  intros -> ->. unfold py_slice, py_clip. rewrite !length_app.
  rewrite !(proj2 (Z.ltb_ge _ 0)) by lia. rewrite !Z.min_l by lia.
  rewrite Nat2Z.id, drop_app_length.
  replace (Z.to_nat (zlen pre + zlen mid) - length pre)%nat with (length mid) by lia.
  apply take_app_length.
Qed.

(** C11. The flat buffers hold each request exactly: for a batch the runner prepared
    that fits the buffers, [materialize] succeeds, and the tokens, positions and
    slots between two consecutive entries of [query_start_loc] are those of the
    row's request, in order; everything behind the last row is padding. *)
Theorem materialize_roundtrip batch slots b0 :
  buffers_wf b0 -> Forall (row_wf batch slots) (ib_req_ids batch) ->
  zlen (ib_req_ids batch) <= max_num_reqs b0 -> total batch (ib_req_ids batch) <= max_num_tokens b0 ->
  exists b, materialize batch slots b0 = Ok b /\ buffers_wf b /\
    num_tokens b = total batch (ib_req_ids batch) /\
    is_padding b = fill (num_tokens b) false ++ fill (max_num_tokens b0 - num_tokens b) true /\
    forall (i : nat) rid, ib_req_ids batch !! i = Some rid -> exists a e,
      query_start_loc b !! i = Some a /\ query_start_loc b !! S i = Some e /\
      seq_lens b !! i = Some (rqe batch rid) /\
      py_slice a e (input_ids b) = rtoks batch rid /\
      py_slice a e (positions b) = rposs batch rid /\
      py_slice a e (slot_mapping b) = rslots batch slots rid.
Proof.
  intros Hb Hwf Hn Hmt. destruct (materialize_ok batch slots b0 Hb Hwf Hn Hmt) as (b&E&Hlo&Hbw).
  exists b. split_and!; [done|done|apply Hlo|apply Hlo|]. intros i rid Hi.
  assert (Hlt : (i < length (ib_req_ids batch))%nat) by by eapply lookup_lt_Some.
  exists (total batch (take i (ib_req_ids batch))), (total batch (take (S i) (ib_req_ids batch))).
  rewrite !(qsl_lookup _ _ _ _ _ Hlo Hn) by lia. split_and!; [done|done| |..].
  { rewrite (lo_sls _ _ _ _ Hlo), lookup_app_l by (rewrite length_fmap; lia).
    by rewrite list_lookup_fmap, Hi. }
  all: assert (Hsplit := take_drop_middle _ _ _ Hi); set (pre := take i (ib_req_ids batch)) in *;
    set (post := drop (S i) (ib_req_ids batch)) in *;
    rewrite (take_S_r _ _ _ Hi); fold pre; rewrite total_app, total_one;
    rewrite <- Hsplit in Hwf; apply Forall_app in Hwf as [Hpre Hrest]; apply Forall_cons_1 in Hrest as [Hrow _];
    destruct (row_wf_lens _ _ _ Hrow) as [Hl0 Hl].
  - rewrite (lo_ids _ _ _ _ Hlo), <- Hsplit, fmap_app, fmap_cons, concat_app. cbn [concat].
    rewrite <- !app_assoc. apply slice_middle; [by rewrite (length_cells _ slots)|by rewrite Hl].
  - rewrite (lo_pos _ _ _ _ Hlo), <- Hsplit, fmap_app, fmap_cons, concat_app. cbn [concat].
    rewrite <- !app_assoc. apply slice_middle.
    + symmetry. by apply (length_poss _ slots).
    + unfold rposs, py_range2, rlen in *. rewrite length_zseq. lia.
  - rewrite (lo_slots _ _ _ _ Hlo), <- Hsplit, fmap_app, fmap_cons, concat_app. cbn [concat].
    rewrite <- !app_assoc. apply slice_middle.
    + symmetry. by apply length_slots.
    + f_equal. symmetry. by apply rslots_length.
Qed.

Definition one_row : InputBatch :=
  mkInputBatch ["a"] [("a", 2)] [("a", 1)] [("a", [4; 5; 6])] [("a", 1)] [("a", 3)] [("a", true)].
Definition small_buffers : InputBuffers :=
  mkBuffers 2 4 [9; 9; 9; 9] [9; 9; 9; 9] [9; 9; 9] [9; 9] [false; false; false; false] [9; 9; 9; 9] ["z"] 1 4.

Lemma materialize_roundtrip_witness :
  exists b, materialize one_row [("a", [10; 11])] small_buffers = Ok b /\ num_tokens b = 2.
Proof.
  destruct (materialize_roundtrip one_row [("a", [10; 11])] small_buffers) as (b&E&_&Hn&_).
  - by split.
  - repeat constructor. exists 1, 3, [4; 5; 6]. simpl. split_and!; try done. by intros sl [= <-].
  - simpl. lia.
  - vm_compute. congruence.
  - exists b. split; [exact E|]. rewrite Hn. reflexivity.
Defined.
