(* ===== verification/ModelRunner.v ===== *)
(** * The model runner

    [python/lake/engine/model_runner.py]: loading and warm-up, the preparation
    of a step's inputs, the forward stub and sampling, and the executor entry.
    The model loader ([load_registered_model], built on [transformers]) is a
    parameter; a loaded model is its configuration, which is all the forward
    stub reads. *)

From stdpp Require Import pretty.
From S2P Require Import Prelude PyDict LakeTypes Agent PoolIface NodeScheduler SchedulerRun Sampling InputBatch.

Record ModelConfig : Type := mkModelConfig {
  vocab_size : Z;
  bos_token_id : Z;
  num_hidden_layers : Z
}.

(** What [load_registered_model] returns, as far as the runner uses it. *)
Record LoadedModel : Type := mkLoadedModel {
  lm_path : string;
  lm_revision : string;
  lm_backend : string;
  lm_format : string;
  lm_dummy : bool;
  lm_model : ModelConfig
}.

Record ModelLoadInfo : Type := mkLoadInfo {
  li_path : string;
  li_served : string;
  li_revision : string;
  li_backend : string;
  li_format : string;
  li_dummy : bool;
  li_pinned : bool
}.

Record ModelRunner : Type := mkRunner {
  mr_backend : string;
  mr_batch : InputBatch;
  mr_buffers : InputBuffers;
  mr_attn : option AttentionMetadata;
  mr_model : option ModelConfig;
  mr_path : string;
  mr_served : string;
  mr_revision : string;
  mr_loaded : bool;
  mr_warmed : bool
}.

Module Runner.
Section ops.

(** [__init__]: buffers of 64 requests and 8192 tokens. *)
Definition init (backend : string) : result lexn ModelRunner :=
  b ← new_buffers 64 8192;
  mret (mkRunner backend empty_batch b None None EmptyString "model" EmptyString false false).

Definition set_step (batch : InputBatch) (r : ModelRunner) : ModelRunner :=
  mkRunner (mr_backend r) batch (mr_buffers r) (mr_attn r) (mr_model r) (mr_path r) (mr_served r)
    (mr_revision r) (mr_loaded r) (mr_warmed r).
Definition set_buffers (b : InputBuffers) (r : ModelRunner) : ModelRunner :=
  mkRunner (mr_backend r) (mr_batch r) b (mr_attn r) (mr_model r) (mr_path r) (mr_served r)
    (mr_revision r) (mr_loaded r) (mr_warmed r).
Definition set_attn (a : AttentionMetadata) (r : ModelRunner) : ModelRunner :=
  mkRunner (mr_backend r) (mr_batch r) (mr_buffers r) (Some a) (mr_model r) (mr_path r) (mr_served r)
    (mr_revision r) (mr_loaded r) (mr_warmed r).
Definition set_warmed (w : bool) (r : ModelRunner) : ModelRunner :=
  mkRunner (mr_backend r) (mr_batch r) (mr_buffers r) (mr_attn r) (mr_model r) (mr_path r) (mr_served r)
    (mr_revision r) (mr_loaded r) w.
Definition set_model (m : option ModelConfig) (path served revision : string) (r : ModelRunner) : ModelRunner :=
  mkRunner (mr_backend r) (mr_batch r) (mr_buffers r) (mr_attn r) m path served revision true false.

Definition or_model (s : string) : string := if bool_decide (s = EmptyString) then "model" else s.

Context (load_registered_model : string -> string -> string -> string -> result lexn LoadedModel).
Context (weight_pin_callback : option (ModelLoadInfo -> result lexn unit)).

Definition load_model (path served revision fmt : string) (dummy pin : bool)
    : M ModelRunner lexn ModelLoadInfo := fun r =>
  if bool_decide (mr_backend r = "mock") then
    (set_model None path (or_model served) revision r,
     Ok (mkLoadInfo path (or_model served) revision (mr_backend r) fmt dummy pin))
  else
    match load_registered_model (mr_backend r) path revision fmt with
    | Raise e => (r, Raise e)
    | Ok l =>
        let r' := set_model (Some (lm_model l)) (lm_path l) (or_model served) (lm_revision l) r in
        let info := mkLoadInfo (lm_path l) (or_model served) (lm_revision l) (mr_backend r)
                      (lm_format l) (dummy || lm_dummy l) pin in
        match pin, weight_pin_callback with
        | true, Some cb => match cb info with Ok _ => (r', Ok info) | Raise e => (r', Raise e) end
        | _, _ => (r', Ok info)
        end
    end.

(** ** The inputs of one step *)

(** Generation context, padded to the end of the query range. *)
Definition gen_tokens (ctx draft : list Z) (qe : Z) : list Z :=
  let tokens := ctx ++ draft in
  let padded := if zlen tokens <? qe
                then tokens ++ fill (qe - zlen tokens) (default 0 (last tokens)) else tokens in
  py_take qe padded.

Definition prepare_one (output : SchedulerOutput) (host : gmap string Req) (batch : InputBatch)
    (kv : string * Z) : InputBatch :=
  let '(rid, n) := kv in
  if n <=? 0 then batch
  else match host !! rid with
  | None => batch
  | Some req =>
      let computed := default (num_computed_tokens req) (dget rid (req_num_computed_at_schedule output)) in
      let query_start := dget rid (req_query_start output) in
      let query_end := dget rid (req_query_end output) in
      let add (toks : list Z) (qs qe : Z) (prompt : bool) : InputBatch :=
        mkInputBatch (ib_req_ids batch ++ [rid]) (dset rid n (ib_num_scheduled batch))
          (dset rid computed (ib_num_computed batch)) (dset rid toks (ib_token_ids batch))
          (dset rid qs (ib_query_start batch)) (dset rid qe (ib_query_end batch))
          (dset rid prompt (ib_is_prompt batch)) in
      if computed <? prompt_len req then
        let start := default computed query_start in
        let e := Z.min (prompt_len req) (default (computed + n) query_end) in
        add (py_take e (prompt_token_ids req)) start e true
      else
        let ctx := all_token_ids req in
        let draft := py_take (Z.max 0 (n - 1))
                       (default [] (dget rid (default [] (scheduled_spec_decode_tokens output)))) in
        let qs := default (Z.max 0 (zlen ctx - 1)) query_start in
        let qe := default (Z.max qs (qs + n)) query_end in
        add (gen_tokens ctx draft qe) qs qe false
  end.

Definition prepare_inputs (output : SchedulerOutput) (host : gmap string Req) (r : ModelRunner)
    : ModelRunner * InputBatch :=
  let batch := foldl (prepare_one output host) empty_batch (num_scheduled_tokens output) in
  (set_step batch r, batch).

(** [seq_lens[rid] = batch.query_end[rid]] for every row *)
Fixpoint seq_lens_of (batch : InputBatch) (rids : list string) (d : dict string Z)
    : result lexn (dict string Z) :=
  match rids with
  | [] => Ok d
  | rid :: rids' => qe ← get_key rid (ib_query_end batch); seq_lens_of batch rids' (dset rid qe d)
  end.

(** A failed [materialize] leaves its buffers half written; the next one clears
    them first, so that state is not kept. *)
Definition fill_buffers (seqs : dict string Z) (batch : InputBatch) (ready : ReadyHandle)
    : M ModelRunner lexn AttentionMetadata := fun r =>
  match materialize batch (slot_mapping_by_req ready) (mr_buffers r) with
  | Raise e => (r, Raise e)
  | Ok b =>
      let meta := build_attn_metadata seqs (ib_query_start batch) (ib_query_end batch)
                    (block_table_by_req ready) b (ib_req_ids batch) in
      (set_attn meta (set_buffers b r), Ok meta)
  end.

Definition prepare_attn (batch : InputBatch) (ready : ReadyHandle) : M ModelRunner lexn AttentionMetadata :=
  seqs ← lift (seq_lens_of batch (ib_req_ids batch) []);
  fill_buffers seqs batch ready.

(** ** Forward stub and sampling *)

Definition dummy_model_token (cfg : ModelConfig) (context : list Z) : Z :=
  (default (bos_token_id cfg) (last context) + zlen context + num_hidden_layers cfg) mod vocab_size cfg.

(** A vocabulary of size zero divides by zero. *)
Definition dummy_model_logits (m : option ModelConfig) (context : list Z) : result lexn (list logit) :=
  match m with
  | None => Raise EAssertion
  | Some cfg =>
      if vocab_size cfg =? 0 then Raise EGeneric
      else set_at (dummy_model_token cfg context) (Fin (QArith_base.inject_Z 1))
             (fill (vocab_size cfg) (Fin (QArith_base.inject_Z 0)))
  end.

Fixpoint sample_rows (output : SchedulerOutput) (host : gmap string Req)
    (last_logits : dict string (list logit)) (out : dict string (list Z)) : result lexn (dict string (list Z)) :=
  match last_logits with
  | [] => Ok out
  | (rid, logits) :: rest =>
      let deferred := match grammar_output output with Some g => deferred_req_ids g | None => [] end in
      let masks := match grammar_output output with Some g => token_bitmask_by_req g | None => [] end in
      if bool_decide (rid ∈ deferred) then sample_rows output host rest out
      else match host !! rid with
           | None => sample_rows output host rest out
           | Some _ =>
               masked ← (match dget rid masks with
                         | Some mask => apply_token_bitmask logits mask
                         | None => Ok logits
                         end);
               tok ← greedy_sample masked;
               sample_rows output host rest (dset rid [tok] out)
           end
  end.

Definition sample_tokens (output : SchedulerOutput) (host : gmap string Req)
    (last_logits : dict string (list logit)) : result lexn (dict string (list Z)) :=
  match scheduled_spec_decode_tokens output with
  | Some (_ :: _) => Raise ENotImplemented
  | _ => sample_rows output host last_logits []
  end.

Fixpoint forward_rows (m : option ModelConfig) (host : gmap string Req) (batch : InputBatch)
    (rids : list string) (acc : dict string (list logit)) : result lexn (dict string (list logit)) :=
  match rids with
  | [] => Ok acc
  | rid :: rids' =>
      if default false (dget rid (ib_is_prompt batch)) then forward_rows m host batch rids' acc
      else match host !! rid with
           | None => forward_rows m host batch rids' acc
           | Some req =>
               l ← dummy_model_logits m (all_token_ids req);
               forward_rows m host batch rids' (dset rid l acc)
           end
  end.

Definition forward_model (m : option ModelConfig) (output : SchedulerOutput) (host : gmap string Req)
    (batch : InputBatch) : result lexn (dict string (list Z)) :=
  match m with
  | None => Raise EAssertion
  | Some _ =>
      logits ← forward_rows m host batch (ib_req_ids batch) [];
      sample_tokens output host logits
  end.

(** The mock backend: a placeholder token for every generating request. *)
Definition mock_tokens (output : SchedulerOutput) (host : gmap string Req) (batch : InputBatch)
    : dict string (list Z) :=
  foldl (fun d '(rid, n) =>
    if n <=? 0 then d
    else match host !! rid with
         | None => d
         | Some _ => if default false (dget rid (ib_is_prompt batch)) then d else dset rid [0] d
         end) [] (num_scheduled_tokens output).

Definition execute_prepared (output : SchedulerOutput) (ready : ReadyHandle) (host : gmap string Req)
    : M ModelRunner lexn ModelRunnerOutput := fun r0 =>
  let '(r1, batch) := prepare_inputs output host r0 in
  (_ ← prepare_attn batch ready;
   toks ← (if bool_decide (mr_backend r1 = "qwen3")
           then lift (forward_model (mr_model r1) output host batch)
           else mret (mock_tokens output host batch));
   mret (mkModelRunnerOutput (so_step_id output) toks [] (mr_backend r1))) r1.

Definition run_execute_model (output : SchedulerOutput) (ready : ReadyHandle) (host : gmap string Req)
    : M ModelRunner lexn ModelRunnerOutput :=
  if negb (rh_step_id ready =? so_step_id output) then raise ERuntimeError
  else execute_prepared output ready host.

(** ** Warm-up *)

Definition dummy_name (i : Z) : string := ("dummy-" +:+ pretty i)%string.

Definition dummy_output (nr tpr step : Z) : SchedulerOutput :=
  let rids := dummy_name <$> py_range nr in
  let col {V} (v : V) : dict string V := (fun rid => (rid, v)) <$> rids in
  mkSchedulerOutput step DECODE [] empty_cached (col 1) (zsum (dvals (col 1))) [] [] None (Some true)
    None false None (col DECODE) (col tpr) (col (Z.max 0 (tpr - 1))) (col tpr).

Definition dummy_ready (nr tpr step : Z) : ReadyHandle :=
  let rids := dummy_name <$> py_range nr in
  mkReadyHandle step [] None None
    ((fun rid => (rid, py_range ((tpr + 7) / 8))) <$> rids)
    ((fun rid => (rid, [Z.max 0 (tpr - 1)])) <$> rids).

Definition dummy_req (served : string) (tpr : Z) (rid : string) : Req :=
  mkReq rid served (py_range tpr) (mkSamplingParams 1 (QArith_base.inject_Z 1) None) "worker-0"
    0 [] 0 0 false None COLOCATED.

Definition dummy_run (num_reqs tokens_per_req step : Z) : M ModelRunner lexn ModelRunnerOutput := fun r =>
  if negb (mr_loaded r) then (r, Raise EValueError)
  else
    let nr := Z.max 1 num_reqs in
    let tpr := Z.max 1 tokens_per_req in
    let host := list_to_map ((fun i => (dummy_name i, dummy_req (mr_served r) tpr (dummy_name i))) <$> py_range nr) in
    execute_prepared (dummy_output nr tpr step) (dummy_ready nr tpr step) host r.

Definition warmup (num_reqs tokens_per_req : Z) : M ModelRunner lexn ModelRunnerOutput := fun r =>
  (_ ← (if mr_loaded r then mret tt
        else _ ← load_model (mr_path r) (mr_served r) EmptyString "dummy" false true; mret tt);
   out ← dummy_run num_reqs tokens_per_req (-1);
   _ ← modify (set_warmed true);
   mret out) r.

End ops.

(** executor.py: [SingleProcessExecutor], with the runner's [clear_drafter]. *)
#[global] Instance executor : RuntimeExecutor ModelRunner := {|
  execute_model := run_execute_model;
  clear_drafter := fun _ r => r
|}.

(** ** The runner accepts what the scheduler makes *)

(** The tokens of a row: the prompt up to the end of the chunk, or the padded
    context. *)
Definition row_tokens (e : Sched.entry) : list Z :=
  let qe := Sched.e_qs e + Sched.e_n e in
  if bool_decide (Sched.e_mode e = EXTEND) then py_take qe (prompt_token_ids (Sched.e_req e))
  else gen_tokens (all_token_ids (Sched.e_req e)) [] qe.

Definition batch_of (es : list Sched.entry) : InputBatch :=
  mkInputBatch (Sched.e_rid <$> es) (Sched.col Sched.e_n es) (Sched.col Sched.e_c es)
    (Sched.col row_tokens es) (Sched.col Sched.e_qs es)
    (Sched.col (fun e => Sched.e_qs e + Sched.e_n e) es)
    (Sched.col (fun e => bool_decide (Sched.e_mode e = EXTEND)) es).

Lemma prepare_one_row host step es out dn e :
  Sched.out_repr step es out -> NoDup (Sched.e_rid <$> es) -> e ∈ es -> row_ok host e ->
  Sched.e_rid e ∉ Sched.e_rid <$> dn ->
  prepare_one out host (batch_of dn) (Sched.e_rid e, Sched.e_n e) = batch_of (dn ++ [e]).
Proof.
  intros (_&_&_&_&_&_&_&_&Hca&Hqs&Hqe&Hsp) Hnd He (Hreq&Hn&Hq0&Hmode) Hf.
  unfold prepare_one. rewrite (proj2 (Z.leb_gt _ _)) by lia. rewrite Hreq, Hca, Hqs, Hqe, Hsp.
  rewrite !(Sched.dget_col _ es e Hnd He).
  cbn [from_option]. unfold id, batch_of. cbn [ib_req_ids ib_num_scheduled ib_num_computed ib_token_ids ib_query_start ib_query_end ib_is_prompt].
  assert (Hplen : prompt_len (Sched.e_req e) = zlen (prompt_token_ids (Sched.e_req e))) by done.
  destruct Hmode as [(Hm&Hc&Hle)|(Hm&Hn1&Hge)].
  - rewrite (proj2 (Z.ltb_lt _ _)) by lia. rewrite Z.min_r by lia.
    rewrite fmap_app, <- !Sched.col_snoc by done. unfold row_tokens. rewrite Hm. done.
  - rewrite (proj2 (Z.ltb_ge _ _)) by lia.
    rewrite fmap_app, <- !Sched.col_snoc by done. unfold row_tokens. rewrite Hm. simpl.
    unfold id, py_take. destruct (Z.max 0 _ <? 0); by rewrite take_nil.
Qed.

Lemma prepare_inputs_rows host step es out :
  Sched.out_repr step es out -> NoDup (Sched.e_rid <$> es) -> Forall (row_ok host) es ->
  foldl (prepare_one out host) empty_batch (num_scheduled_tokens out) = batch_of es.
Proof.
  intros Hout Hnd Hrow. assert (Hnum : num_scheduled_tokens out = Sched.col Sched.e_n es) by apply Hout.
  rewrite Hnum. change empty_batch with (batch_of []).
  enough (Hgen : forall todo dn, es = dn ++ todo ->
    foldl (prepare_one out host) (batch_of dn) (Sched.col Sched.e_n todo) = batch_of (dn ++ todo))
    by by apply (Hgen es []).
  induction todo as [|e todo IH]; intros dn He; [by rewrite app_nil_r|].
  assert (Hin : e ∈ es) by (rewrite He; set_solver). rewrite Forall_forall in Hrow.
  change (Sched.col Sched.e_n (e :: todo)) with ((Sched.e_rid e, Sched.e_n e) :: Sched.col Sched.e_n todo).
  cbn [foldl]. rewrite (prepare_one_row host step es out dn e Hout Hnd Hin (Hrow e Hin)).
  - rewrite IH by by rewrite <- app_assoc. by rewrite <- app_assoc.
  - rewrite He, fmap_app in Hnd. apply NoDup_app in Hnd as (_&Hd&_). intros Hx. apply (Hd _ Hx). left.
Qed.

Lemma length_py_take {A} k (l : list A) : 0 <= k -> k <= zlen l -> zlen (py_take k l) = k.
Proof. intros. rewrite py_take_nonneg, length_take by lia. lia. Qed.

Lemma row_tokens_length host e : row_ok host e -> zlen (row_tokens e) = Sched.e_qs e + Sched.e_n e.
Proof.
  intros (_&Hn&Hq&Hmode). unfold row_tokens. destruct Hmode as [(->&Hc&Hle)|(->&_)]; simpl.
  - apply length_py_take; [lia|]. rewrite Hc. exact Hle.
  - unfold gen_tokens. rewrite app_nil_r. apply length_py_take; [lia|]. case_match; zbool; [|lia].
    rewrite length_app, Nat2Z.inj_add, length_fill by lia. lia.
Qed.

Lemma batch_row_wf host step es out h :
  Sched.out_repr step es out -> NoDup (Sched.e_rid <$> es) -> Forall (row_ok host) es ->
  slots_fit (write_set out) h ->
  Forall (row_wf (batch_of es) (slot_mapping_by_req h)) (Sched.e_rid <$> es).
Proof.
  intros (_&_&_&_&_&_&Hw&_) Hnd Hrow Hfit. apply Forall_fmap, Forall_forall. intros e He.
  rewrite Forall_forall in Hrow. specialize (Hrow e He). pose proof (row_tokens_length _ _ Hrow) as Hlen.
  destruct Hrow as (_&Hn&Hq&_).
  exists (Sched.e_qs e), (Sched.e_qs e + Sched.e_n e), (row_tokens e). simpl.
  rewrite !(Sched.dget_col _ es e Hnd He).
  split_and!; try done; try lia. intros sl Hsl.
  assert (Hio : Sched.e_write e ∈ write_set out) by (rewrite Hw; by apply list_elem_of_fmap_2).
  rewrite (Hfit ltac:(rewrite Hw, <- list_fmap_compose; exact Hnd) (Sched.e_write e) sl Hio); simpl; [lia|lia|done].
Qed.

Lemma batch_total host es : NoDup (Sched.e_rid <$> es) -> Forall (row_ok host) es ->
  total (batch_of es) (Sched.e_rid <$> es) = zsum (Sched.e_n <$> es).
Proof.
  intros Hnd Hrow. unfold total. f_equal. rewrite <- list_fmap_compose. apply list_fmap_ext.
  intros i e He. apply list_elem_of_lookup_2 in He. unfold compose, rlen, rqe, rqs. simpl.
  rewrite !(Sched.dget_col _ es e Hnd He).
  simpl. lia.
Qed.

Lemma seq_lens_total (es : list Sched.entry) rids : NoDup (Sched.e_rid <$> es) ->
  rids ⊆ Sched.e_rid <$> es -> forall d, exists d', seq_lens_of (batch_of es) rids d = Ok d'.
Proof.
  intros Hnd. induction rids as [|rid rids IH]; intros Hsub d; simpl; [eauto|].
  assert (Hin : rid ∈ Sched.e_rid <$> es) by set_solver. apply list_elem_of_fmap in Hin as (e&->&He).
  unfold get_key. simpl. rewrite (Sched.dget_col (fun e => Sched.e_qs e + Sched.e_n e) es e Hnd He). simpl.
  apply IH. set_solver.
Qed.

(** The mock runner with its fixed-size buffers. *)
Definition runner_inv (r : ModelRunner) : Prop :=
  mr_backend r = "mock" /\ buffers_wf (mr_buffers r) /\
  max_num_reqs (mr_buffers r) = 64 /\ max_num_tokens (mr_buffers r) = 8192.

Lemma execute_ok rl out h reqs r :
  max_running_reqs rl <= 64 -> max_num_scheduled_tokens rl <= 8192 ->
  runner_inv r -> step_pre rl out h reqs ->
  exists r' ro, run_execute_model out h reqs r = (r', Ok ro) /\ runner_inv r'.
Proof.
  intros Hreqs Htoks (Hb&Hwf&Hmr&Hmt) (Hst&Hfit&es&Hout&Hnd&Hrow&Hsum&Hlen).
  unfold run_execute_model. rewrite Hst, Z.eqb_refl. simpl.
  unfold execute_prepared, prepare_inputs. rewrite (prepare_inputs_rows _ _ _ _ Hout Hnd Hrow).
  destruct (seq_lens_total es (Sched.e_rid <$> es) Hnd ltac:(done) []) as [sl Hsl].
  destruct (materialize_ok (batch_of es) (slot_mapping_by_req h) (mr_buffers r) Hwf) as (b&E&Hlo&Hbwf).
  - simpl. by eapply batch_row_wf.
  - simpl. rewrite length_fmap. lia.
  - simpl. rewrite (batch_total reqs) by done. lia.
  - unfold mbind, M_bind, prepare_attn, mbind, M_bind, lift. simpl. rewrite Hsl.
    unfold fill_buffers. simpl. rewrite E. rewrite Hb. simpl.
    eexists _, _. split; [reflexivity|]. destruct (lo_max _ _ _ _ Hlo) as [Hm1 Hm2].
    unfold runner_inv. simpl. split_and!; congruence || done.
Qed.

#[export] Instance reliable (rl : RoleConfig)
    (Hreqs : max_running_reqs rl <= 64) (Htoks : max_num_scheduled_tokens rl <= 8192) :
  ReliableExecutor ModelRunner rl.
Proof.
  refine (Build_ReliableExecutor ModelRunner executor rl runner_inv _ _).
  - intros out h reqs x Hx Hp. by apply (execute_ok rl).
  - done.
Defined.

End Runner.
