(* ===== verification/Serving.v ===== *)
(** * End-to-end serving

    What the whole stack (scheduler, pool facade, in-memory agent, mock runner
    with its static buffers) guarantees for a set of requests, and concrete
    states at which the contract of [schedule] applies. *)

From S2P Require Import Prelude PyDict LakeTypes Agent GrpcAgent PoolIface NodeScheduler SchedulerRun InputBatch ModelRunner.
Import Sched.

(** ** A concrete node *)

Definition mock_role (overlap : bool) (budget chunk : Z) : RoleConfig :=
  mkRoleConfig HYBRID false 2 overlap 2 budget chunk 64 0 false "mock" EmptyString "model" EmptyString 1 1.

Definition mk_req (rid : string) (prompt : list Z) (n : Z) : Req :=
  mkReq rid "m" prompt (mkSamplingParams n (QArith_base.inject_Z 1) None) "n" 0 [] 0 0 false None COLOCATED.

Definition mem_pool : PoolIface InMemory.t := Pool.init InMemory.init 0 false.

(** The runner [ModelRunner.__init__] makes for the mock backend. *)
Definition mock_runner : ModelRunner :=
  match Runner.init "mock" with
  | Ok r => r
  | Raise _ => mkRunner EmptyString empty_batch (mkBuffers 0 0 [] [] [] [] [] [] [] 0 0) None None
                 EmptyString EmptyString EmptyString false false
  end.

Abbreviation mem_node := (sched InMemory.t ModelRunner unit).

Definition start (rl : RoleConfig) : mem_node := init mem_pool mock_runner rl tt.

Lemma mock_runner_inv : Runner.runner_inv mock_runner.
Proof.
  unfold mock_runner, Runner.init. destruct (new_buffers 64 8192) as [b|e] eqn:E; [|done].
  split_and!; try done; [by eapply new_buffers_wf|..]; revert E; unfold new_buffers; simpl;
    intros [= <-]; done.
Qed.

Lemma mem_pool_idle : Pool.idle (budget := 0) mem_pool.
Proof. by repeat split. Qed.

(** The in-memory agent takes every prompt. *)
Lemma mem_acceptable l : Forall (acceptable (A := InMemory.t)) l.
Proof. apply Forall_forall. by intros. Qed.

(** C1. End to end, with the in-memory agent and the mock runner: whatever the role's
    limits (within the runner's buffers), the chunking and the loop (overlapped
    or not), admission followed by the main loop terminates within twice the
    offered load, without an error, with empty queues and the agent idle, and
    every request has finished with exactly the tokens [mock_decode_tokens]
    defines for it. *)
Theorem serving_delivers rl l fuel :
  role_post_init rl = Ok rl -> model_backend rl = "mock" ->
  max_running_reqs rl <= 64 -> max_num_scheduled_tokens rl <= 8192 ->
  Forall (admissible (rl := rl)) l -> NoDup ((fun rh => req_id rh.1) <$> l) ->
  2 * load l < Z.of_nat fuel ->
  exists s', serve fuel l (start rl) = (s', Ok true) /\ drained s' /\
    Pool.idle (budget := 0) (s_pool s') /\
    forall r h, (r, h) ∈ l -> exists r', s_reqs s' !! req_id r = Some r' /\
      finished r' = true /\ finish_reason r' = Some "length" /\
      output_token_ids r' = mock_decode_tokens (prompt_token_ids r) (max_new r).
Proof.
  intros Hrole Hmock Hreqs Htoks Hadm Hnd Hfuel.
  apply (serve_ok (RX := Runner.reliable rl Hreqs Htoks) Hmock Hrole l mem_pool mock_runner tt fuel
    mem_pool_idle mock_runner_inv Hadm (mem_acceptable l) Hnd Hfuel).
Qed.

Definition two_reqs : list (Req * option PrefixHint) :=
  [(mk_req "a" [5; 6; 7; 8; 9] 3, None); (mk_req "b" [1] 2, Some (mkPrefixHint 1 0 true true))].

Lemma serving_delivers_witness :
  exists s', serve 23 two_reqs (start (mock_role true 3 2)) = (s', Ok true) /\
    exists r', s_reqs s' !! "a" = Some r' /\ output_token_ids r' = [1010; 1011; 1012].
Proof.
  destruct (serving_delivers (mock_role true 3 2) two_reqs 23) as (s'&E&_&_&Hall).
  - reflexivity.
  - reflexivity.
  - simpl. lia.
  - simpl. lia.
  - repeat constructor; simpl; try done; intros; simplify_eq/=; lia.
  - simpl. repeat constructor; set_solver.
  - reflexivity.
  - exists s'. split; [exact E|].
    destruct (Hall (mk_req "a" [5; 6; 7; 8; 9] 3) None ltac:(left)) as (r'&Hr&_&_&Ho). eauto.
Defined.

(** C7. The batching policy does not show in the results: two roles that differ in
    overlap, budget, running slots or chunking give every request the same
    tokens. *)
Theorem serving_policy_independent rl1 rl2 l fuel r h :
  role_post_init rl1 = Ok rl1 -> role_post_init rl2 = Ok rl2 ->
  model_backend rl1 = "mock" -> model_backend rl2 = "mock" ->
  max_running_reqs rl1 <= 64 -> max_running_reqs rl2 <= 64 ->
  max_num_scheduled_tokens rl1 <= 8192 -> max_num_scheduled_tokens rl2 <= 8192 ->
  Forall (admissible (rl := rl1)) l -> Forall (admissible (rl := rl2)) l ->
  NoDup ((fun rh => req_id rh.1) <$> l) -> 2 * load l < Z.of_nat fuel -> (r, h) ∈ l ->
  exists s1 s2 r1 r2, serve fuel l (start rl1) = (s1, Ok true) /\ serve fuel l (start rl2) = (s2, Ok true) /\
    s_reqs s1 !! req_id r = Some r1 /\ s_reqs s2 !! req_id r = Some r2 /\
    output_token_ids r1 = output_token_ids r2 /\ zlen (output_token_ids r1) = max_new r.
Proof.
  intros H1 H2 M1 M2 R1 R2 T1 T2 A1 A2 Hnd Hf Hin.
  destruct (serve_ok (RX := Runner.reliable rl1 R1 T1) M1 H1 l mem_pool mock_runner tt fuel
    mem_pool_idle mock_runner_inv A1 (mem_acceptable l) Hnd Hf) as (s1&E1&_&_&D1).
  destruct (serve_ok (RX := Runner.reliable rl2 R2 T2) M2 H2 l mem_pool mock_runner tt fuel
    mem_pool_idle mock_runner_inv A2 (mem_acceptable l) Hnd Hf) as (s2&E2&_&_&D2).
  destruct (D1 r h Hin) as (r1&Hr1&_&_&O1). destruct (D2 r h Hin) as (r2&Hr2&_&_&O2).
  exists s1, s2, r1, r2. split_and!; try done; [congruence|]. rewrite O1.
  unfold mock_decode_tokens, py_range. rewrite length_fmap, length_zseq.
  rewrite Forall_forall in A1. destruct (A1 _ Hin) as (_&_&_&?&_). lia.
Qed.

Lemma serving_policy_independent_witness :
  exists s1 s2 r1 r2, serve 23 two_reqs (start (mock_role true 3 2)) = (s1, Ok true) /\
    serve 23 two_reqs (start (mock_role false 8 0)) = (s2, Ok true) /\
    s_reqs s1 !! "b" = Some r1 /\ s_reqs s2 !! "b" = Some r2 /\
    output_token_ids r1 = output_token_ids r2 /\ zlen (output_token_ids r1) = 2.
Proof.
  apply (serving_policy_independent (mock_role true 3 2) (mock_role false 8 0) two_reqs 23
    (mk_req "b" [1] 2) (Some (mkPrefixHint 1 0 true true))); try reflexivity; try (simpl; lia).
  - repeat constructor; simpl; try done; intros; simplify_eq/=; lia.
  - repeat constructor; simpl; try done; intros; simplify_eq/=; lia.
  - simpl. repeat constructor; set_solver.
  - right. left.
Defined.

(** ** Serving over the gRPC agent *)

Section grpc.
Context {W : Type} (sv : Grpc.Stubs W) {C : Grpc.Contract sv} (sha256 : list Z -> list Z)
  (set_order : list string -> list string).

(** The node [WorkerServicer.__init__] builds: the pool facade over the gRPC agent with
    the role's budget, the runner and the scheduler of the engine. *)
Definition grpc_pool (rl : RoleConfig) (w : W) : PoolIface (Grpc.t W) :=
  Pool.init (Grpc.mk w None ∅ ∅ ∅) (pull_budget_ms rl) (allow_partial_hit rl).
Definition grpc_start (rl : RoleConfig) (w : W) : sched (Grpc.t W) ModelRunner unit :=
  init (grpc_pool rl w) mock_runner rl tt.

(** A named model, and a prompt of four-byte tokens no two blocks of which have the
    same hash. *)
Definition hashable (r : Req) : Prop :=
  served_model_name r <> EmptyString /\ Forall Grpc.token_ok (prompt_token_ids r) /\
  forall hs, Grpc.chain_block_hashes sha256 (prompt_token_ids r) = Some hs -> NoDup hs.

(** The scheduler's guarantee with the agent's promise discharged. *)
Lemma grpc_serves rl l fuel w :
  (forall ids x, x ∈ set_order ids -> x ∈ ids) -> Grpc.consistent (Grpc.view w) ->
  role_post_init rl = Ok rl -> model_backend rl = "mock" ->
  max_running_reqs rl <= 64 -> max_num_scheduled_tokens rl <= 8192 ->
  Forall (admissible (rl := rl)) l -> Forall (fun rh => hashable rh.1) l ->
  NoDup ((fun rh => req_id rh.1) <$> l) -> 2 * load l < Z.of_nat fuel ->
  exists s', serve (SA := Grpc.storage_agent sv sha256 set_order) fuel l (grpc_start rl w) = (s', Ok true) /\ drained s' /\
    Grpc.idle sv (pi_agent (s_pool s')) /\
    forall r h, (r, h) ∈ l -> exists r', s_reqs s' !! req_id r = Some r' /\
      finished r' = true /\ finish_reason r' = Some "length" /\
      output_token_ids r' = mock_decode_tokens (prompt_token_ids r) (max_new r).
Proof.
  intros Hord Hcon Hrole Hmock Hreqs Htoks Hadm Htok Hnd Hfuel.
  assert (Hidle : Pool.idle (RA := Grpc.reliable sv sha256 set_order Hord (pull_budget_ms rl)) (grpc_pool rl w)).
  { split; [|done]. split; [|done]. split; [exact Hcon|]. intros key Hm. by apply not_elem_of_empty in Hm. }
  destruct (serve_ok (RA := Grpc.reliable sv sha256 set_order Hord (pull_budget_ms rl)) (RX := Runner.reliable rl Hreqs Htoks) Hmock Hrole l
    (grpc_pool rl w) mock_runner tt fuel Hidle mock_runner_inv Hadm) as (s' & E & Hd & [Hi _] & Hall); [|done..|].
  - eapply Forall_impl; [exact Htok|]. intros rh (Hmn & Htk & Hrep).
    destruct (Grpc.chain_block_hashes_ok sha256 _ Htk) as [hs Hh]. split; [done|]. exists hs. auto.
  - by exists s'.
Qed.

(** C2. The same guarantee against the control plane and the data service: the node
    with the gRPC agent finishes every request with exactly its tokens, within twice
    the offered load, and leaves the agent idle and the cache consistent.  The
    services follow their [Contract], refusals included, and nobody else uses them
    meanwhile.  Every registered block has its bytes when the node starts, and no
    model of the default revision was registered with other immutable fields, which
    the control plane would refuse to change.  The requests name a model and have
    prompts of four-byte tokens whose blocks do not repeat a hash.  Python may
    iterate over a set in any order. *)
Theorem serving_grpc_delivers rl l fuel w :
  (forall ids x, x ∈ set_order ids -> x ∈ ids) -> Grpc.consistent (Grpc.view w) ->
  role_post_init rl = Ok rl -> model_backend rl = "mock" ->
  max_running_reqs rl <= 64 -> max_num_scheduled_tokens rl <= 8192 ->
  Forall (admissible (rl := rl)) l -> Forall (fun rh => hashable rh.1) l ->
  NoDup ((fun rh => req_id rh.1) <$> l) -> 2 * load l < Z.of_nat fuel ->
  exists s', serve (SA := Grpc.storage_agent sv sha256 set_order) fuel l (grpc_start rl w) = (s', Ok true) /\ drained s' /\
    Grpc.idle sv (pi_agent (s_pool s')) /\
    forall r h, (r, h) ∈ l -> exists r', s_reqs s' !! req_id r = Some r' /\
      finished r' = true /\ finish_reason r' = Some "length" /\
      output_token_ids r' = mock_decode_tokens (prompt_token_ids r) (max_new r).
Proof. apply grpc_serves. Qed.
End grpc.

Lemma serving_grpc_delivers_witness :
  exists s', serve (SA := Grpc.storage_agent Grpc.plain Grpc.demo_sha reverse) 23 two_reqs
      (grpc_start (mock_role true 3 2) (Grpc.mkView ∅ ∅ ∅ ∅)) = (s', Ok true) /\
    exists r', s_reqs s' !! "a" = Some r' /\ output_token_ids r' = [1010; 1011; 1012].
Proof.
  destruct (serving_grpc_delivers Grpc.plain (C := Grpc.plain_contract) Grpc.demo_sha reverse (mock_role true 3 2) two_reqs 23 (Grpc.mkView ∅ ∅ ∅ ∅))
    as (s'&E&_&_&Hall).
  - intros ids x. by rewrite elem_of_reverse.
  - split; intros ? ? H; exfalso; revert H; simpl; by rewrite lookup_empty.
  - reflexivity.
  - reflexivity.
  - simpl. lia.
  - simpl. lia.
  - repeat constructor; simpl; try done; intros; simplify_eq/=; lia.
  - repeat constructor; simpl; try lia; try discriminate; intros hs [= <-]; by apply (bool_decide_unpack _).
  - simpl. repeat constructor; set_solver.
  - reflexivity.
  - exists s'. split; [exact E|].
    destruct (Hall (mk_req "a" [5; 6; 7; 8; 9] 3) None ltac:(left)) as (r'&Hr&_&_&Ho). eauto.
Defined.

(** ** Witnesses for the scheduler's contract *)

(** An executor that only answers; the scheduler's contract does not depend on
    it. *)
#[local] Instance null_executor : RuntimeExecutor unit := {|
  execute_model := fun out _ _ x => (x, Ok (mkModelRunnerOutput (so_step_id out) [] [] "mock"));
  clear_drafter := fun _ x => x
|}.

(** Two admitted requests, before the first step and after it. *)
Definition two_waiting : sched InMemory.t unit unit :=
  (add_all two_reqs (init mem_pool tt (mock_role true 3 2) tt)).1.
Definition two_scheduled : sched InMemory.t unit unit := (schedule two_waiting).1.
Definition two_output : SchedulerOutput :=
  match (schedule two_waiting).2 with Ok out => out | Raise _ => idle_output 0 end.

Lemma two_waiting_ok : queues_ok two_waiting.
Proof.
  split.
  - vm_compute. repeat constructor; set_solver.
  - intros rid Hin. change (rid ∈ ["a"; "b"]) in Hin.
    rewrite !elem_of_cons, elem_of_nil in Hin. destruct Hin as [->|[->|[]]]; vm_compute; eauto.
Qed.

Lemma schedule_within_limits_witness :
  exists s' out, schedule two_waiting = (s', Ok out) /\ total_num_scheduled_tokens out <= 3.
Proof.
  destruct (schedule_within_limits two_waiting two_waiting_ok) as (s'&out&E&_&_&_&Ht&_).
  exists s', out. split; [exact E|exact Ht].
Defined.

Lemma schedule_geometry_witness :
  exists r qs, s_reqs two_waiting !! "a" = Some r /\ dget "a" (req_query_start two_output) = Some qs /\
    filter (fun io => io_req_id io = "a") (write_set two_output) = [mkReqIoSet "a" qs (qs + 2) TARGET].
Proof.
  destruct (schedule_geometry two_waiting two_scheduled two_output "a" 2 two_waiting_ok)
    as (r&qs&Hr&_&Hq&_&_&Hw&_).
  - vm_compute. reflexivity.
  - vm_compute. reflexivity.
  - eauto.
Defined.

(** A node whose only request already has its token in flight. *)
Definition in_flight : sched InMemory.t unit unit :=
  set_inflight_decode {["c" := 1]} (set_running ["c"] (set_mock_remaining {["c" := [7]]}
    (set_reqs {["c" := mk_req "c" [] 1]} (init mem_pool tt (mock_role true 3 2) tt)))).

Lemma schedule_work_conserving_witness :
  ~ can_decode (filled in_flight) "c" (mk_req "c" [] 1).
Proof.
  refine (proj1 (schedule_work_conserving in_flight (schedule in_flight).1 (idle_output 1) "c"
    (mk_req "c" [] 1) _ _ _ _ _ _)).
  - split; [vm_compute; repeat constructor; set_solver|].
    intros rid Hin. change (rid ∈ ["c"]) in Hin. apply list_elem_of_singleton in Hin as ->. vm_compute. eauto.
  - simpl. lia.
  - vm_compute. reflexivity.
  - reflexivity.
  - vm_compute. left.
  - vm_compute. reflexivity.
Defined.
