(* ===== verification/WorkerEngine.v ===== *)
(** * Worker lifecycle and engine

    [python/lake/runtime/lifecycle.py] and [worker_engine.py]: the lifecycle state
    machine, and the long-lived engine that feeds one [NodeScheduler] from a
    queue of submitted requests.

    A submitted request is an object ([_Inbound]) the queue, the in-flight table
    and the waiting caller share, so it lives in a store and is referred to by
    its id.  The engine's own fields are the owner state [X] of the scheduler.
    Threads meet at the queue, the lock and the stop event: an operation here is
    what one thread does between two of those points. *)

From S2P Require Import Prelude PyDict LakeTypes Agent PoolIface NodeScheduler SchedulerRun ModelRunner Serving.
Import Sched.

(** ** lifecycle.py *)

Module Lifecycle.

Inductive WorkerState : Type := L_IDLE | BOOT | WARM | READY | SERVING | DRAIN | TERMINATE.

#[global] Instance WorkerState_eq_dec : EqDecision WorkerState.
Proof. solve_decision. Defined.

(** [order.index] *)
Definition index (s : WorkerState) : Z :=
  match s with
  | L_IDLE => 0 | BOOT => 1 | WARM => 2 | READY => 3 | SERVING => 4 | DRAIN => 5 | TERMINATE => 6
  end.

Definition advance (to : WorkerState) : M WorkerState lexn unit := fun s =>
  if bool_decide (to = s) then (s, Ok tt)
  else if bool_decide (to = DRAIN) || bool_decide (to = TERMINATE) then (to, Ok tt)
  else if index to <? index s then (s, Raise EValueError)
  else (to, Ok tt).

Definition warm : M WorkerState lexn unit := fun s =>
  (_ ← (if bool_decide (s = L_IDLE) then advance BOOT else mret tt); advance WARM) s.
Definition ready : M WorkerState lexn unit := advance READY.
Definition serve : M WorkerState lexn unit := advance SERVING.
Definition drain : M WorkerState lexn unit := advance DRAIN.

Definition accepts_new_requests (s : WorkerState) : bool :=
  bool_decide (s = READY) || bool_decide (s = SERVING).

Inductive op : Type := OAdvance (to : WorkerState) | OWarm | OReady | OServe | ODrain.
Definition run_op (o : op) : M WorkerState lexn unit :=
  match o with
  | OAdvance to => advance to | OWarm => warm | OReady => ready | OServe => serve | ODrain => drain
  end.
Definition run_ops (os : list op) (s : WorkerState) : WorkerState :=
  foldl (fun s o => (run_op o s).1) s os.

Definition closing (s : WorkerState) : Prop := s = DRAIN \/ s = TERMINATE.

Lemma advance_closing to s : closing s -> closing (advance to s).1.
Proof. intros [-> | ->]; destruct to; vm_compute; auto. Qed.

Lemma advance_index to s : ~ closing s -> index s <= index (advance to s).1.
Proof.
  unfold closing. intros Hn. unfold advance. repeat case_match; zbool; simpl; try lia.
  apply orb_true_iff in H0 as [H0|H0]; zbool; subst to; destruct s; simpl; lia || (destruct Hn; auto).
Qed.

(** Lifecycle: whatever sequence of transitions is requested, accepted or
    refused, a worker that started to drain or terminated never accepts requests
    again, and before that its state only moves forward. *)
Theorem draining_is_final os s :
  (closing s -> accepts_new_requests (run_ops os s) = false) /\
  (~ closing (run_ops os s) -> index s <= index (run_ops os s)).
Proof.
  assert (Hop : forall o s, closing s -> closing (run_op o s).1).
  { intros o s' H. destruct o; simpl; try by apply advance_closing.
    unfold warm, mbind, M_bind. destruct H as [-> | ->]; vm_compute; auto. }
  assert (Hix : forall o s, ~ closing (run_op o s).1 -> index s <= index (run_op o s).1).
  { intros o s' Hn. assert (Hs : ~ closing s') by (intros H; apply Hn; by apply Hop).
    destruct o; try by apply advance_index. unfold closing in *. destruct s'; vm_compute; try congruence; tauto. }
  split.
  - intros Hc. assert (H : closing (run_ops os s)).
    { revert s Hc. induction os as [|o os IH]; intros s Hc; [done|]. apply IH. by apply Hop. }
    by destruct H as [-> | ->].
  - revert s. induction os as [|o os IH]; intros s Hn; [done|]. simpl in *.
    specialize (IH _ Hn). specialize (Hix o s). etransitivity; [apply Hix|exact IH].
    intros Hc. apply Hn. clear -Hop Hc. revert Hc. generalize (run_op o s).1. induction os as [|o' os IH]; intros s' Hc; [done|].
    apply IH. by apply Hop.
Qed.

Lemma draining_is_final_witness :
  accepts_new_requests (run_ops [OServe; OWarm; OAdvance TERMINATE; OReady] DRAIN) = false.
Proof. apply (draining_is_final [OServe; OWarm; OAdvance TERMINATE; OReady] DRAIN). left. reflexivity. Defined.

End Lifecycle.

(** ** worker_engine.py *)

(** [_Inbound]: [error] and [result] are lists of zero or one element. *)
Record Inbound : Type := mkInbound {
  in_req : Req;
  in_hint : option PrefixHint;
  in_done : bool;
  in_error : list lexn;
  in_result : list Req
}.

Record Engine : Type := mkEngine {
  en_life : Lifecycle.WorkerState;
  en_inbound : list (option nat);
  en_inflight : dict string nat;
  en_items : gmap nat Inbound;
  en_next : nat;
  en_stop : bool;
  en_started : bool
}.

Module Worker.
Section ops.
Context {A R : Type} {SA : StorageAgent A} {RE : RuntimeExecutor R}.
Abbreviation node := (sched A R Engine).

Definition new_engine : Engine := mkEngine Lifecycle.L_IDLE [] [] ∅ 0 false false.

Definition set_life (l : Lifecycle.WorkerState) (e : Engine) : Engine :=
  mkEngine l (en_inbound e) (en_inflight e) (en_items e) (en_next e) (en_stop e) (en_started e).
Definition set_inbound (q : list (option nat)) (e : Engine) : Engine :=
  mkEngine (en_life e) q (en_inflight e) (en_items e) (en_next e) (en_stop e) (en_started e).
Definition set_inflight (d : dict string nat) (e : Engine) : Engine :=
  mkEngine (en_life e) (en_inbound e) d (en_items e) (en_next e) (en_stop e) (en_started e).
Definition set_items (m : gmap nat Inbound) (e : Engine) : Engine :=
  mkEngine (en_life e) (en_inbound e) (en_inflight e) m (en_next e) (en_stop e) (en_started e).
Definition set_stop (b : bool) (e : Engine) : Engine :=
  mkEngine (en_life e) (en_inbound e) (en_inflight e) (en_items e) (en_next e) b (en_started e).
Definition set_started (b : bool) (e : Engine) : Engine :=
  mkEngine (en_life e) (en_inbound e) (en_inflight e) (en_items e) (en_next e) (en_stop e) b.
Definition on_ext (f : Engine -> Engine) (s : node) : node := set_ext (f (s_ext s)) s.

(** [item.error.append(e); item.done.set()] *)
Definition fail_item (id : nat) (x : lexn) (e : Engine) : Engine :=
  match en_items e !! id with
  | None => e
  | Some it => set_items (<[id := mkInbound (in_req it) (in_hint it) true (in_error it ++ [x])
                                    (in_result it)]> (en_items e)) e
  end.

(** [inn.result.append(r); inn.done.set()] *)
Definition complete_item (id : nat) (r : Req) (e : Engine) : Engine :=
  match en_items e !! id with
  | None => e
  | Some it => set_items (<[id := mkInbound (in_req it) (in_hint it) true (in_error it)
                                    (in_result it ++ [r])]> (en_items e)) e
  end.

(** The part of [submit] under the lock: the new item's id, or [RuntimeError].
    The caller then waits for [done] and reads the outcome with
    [submit_outcome]. *)
Definition submit (r : Req) (h : option PrefixHint) : M Engine lexn nat := fun e =>
  if en_stop e || negb (en_started e) then (e, Raise ERuntimeError)
  else if negb (Lifecycle.accepts_new_requests (en_life e)) then (e, Raise ERuntimeError)
  else
    let id := en_next e in
    (mkEngine (en_life e) (en_inbound e ++ [Some id]) (en_inflight e)
       (<[id := mkInbound r h false [] []]> (en_items e)) (S id) (en_stop e) (en_started e), Ok id).

Definition submit_outcome (it : Inbound) : result lexn Req :=
  match in_error it, in_result it with
  | x :: _, _ => Raise x
  | [], r :: _ => Ok r
  | [], [] => Raise ERuntimeError
  end.

(** The body of [stop] under the lock; what follows joins the loop thread. *)
Definition request_stop : M Engine lexn unit := fun e =>
  if bool_decide (en_life e = Lifecycle.TERMINATE) then (e, Ok tt)
  else if negb (en_started e) then (set_life (Lifecycle.advance Lifecycle.TERMINATE (en_life e)).1 e, Ok tt)
  else if en_stop e then (e, Ok tt)
  else
    let e1 := set_life (Lifecycle.drain (en_life e)).1 e in
    let e2 := set_stop true e1 in
    (set_inbound (en_inbound e2 ++ [None]) e2, Ok tt).

(** [start] under the lock; [load] stands for loading and warming the model. *)
Definition start (load : M node lexn unit) : M node lexn unit := fun s =>
  if en_started (s_ext s) then (s, Ok tt)
  else
    let life (c : M Lifecycle.WorkerState lexn unit) : M node lexn unit := fun s =>
      let '(l, r) := c (en_life (s_ext s)) in (on_ext (set_life l) s, r) in
    (_ ← life (Lifecycle.advance Lifecycle.BOOT);
     _ ← life Lifecycle.warm;
     _ ← load;
     _ ← life Lifecycle.ready;
     _ ← life Lifecycle.serve;
     modify (on_ext (set_started true))) s.

(** One item taken by [_drain_inbound]. *)
Definition take_item (id : nat) : M node lexn unit := fun s =>
  match en_items (s_ext s) !! id with
  | None => (s, Ok tt)
  | Some it =>
      let rid := req_id (in_req it) in
      if din rid (en_inflight (s_ext s)) || has_req rid s then
        (on_ext (fail_item id EValueError) s, Ok tt)
      else
        let s1 := on_ext (fun e => set_inflight (dset rid id (en_inflight e)) e) s in
        match add_request (in_req it) (in_hint it) s1 with
        | (s2, Ok _) => (s2, Ok tt)
        | (s2, Raise x) =>
            (on_ext (fun e => fail_item id x (set_inflight (ddel rid (en_inflight e)) e)) s2, Ok tt)
        end
  end.

(** [get_nowait] until the queue is empty or a sentinel says stop. *)
Fixpoint drain_q (q : list (option nat)) : M node lexn unit := fun s =>
  match q with
  | [] => (s, Ok tt)
  | x :: q' =>
      let s1 := on_ext (set_inbound q') s in
      match x with
      | None => if en_stop (s_ext s1) then (s1, Ok tt) else drain_q q' s1
      | Some id => (_ ← take_item id; drain_q q') s1
      end
  end.
Definition drain_inbound : M node lexn unit := fun s => drain_q (en_inbound (s_ext s)) s.

(** [_on_req_finished] *)
Definition on_req_finished (r : Req) (s : node) : node :=
  match dget (req_id r) (en_inflight (s_ext s)) with
  | None => s
  | Some id =>
      let s1 := on_ext (fun e => set_inflight (ddel (req_id r) (en_inflight e)) e) s in
      let '(s2, fin) := release_req (req_id r) s1 in
      on_ext (complete_item id (default r fin)) s2
  end.

(** One item of [_fail_inflight]: the agent is told, errors are logged. *)
Definition fail_one (x : lexn) (s : node) (kv : string * nat) : node :=
  let id := kv.2 in
  match en_items (s_ext s) !! id with
  | None => s
  | Some it =>
      let '(s1, r) := abandon_req (req_id (in_req it)) s in
      let '(s2, _) := on_pool (Pool.on_request_finished (default (in_req it) r)) s1 in
      match en_items (s_ext s2) !! id with
      | Some it' => if in_done it' then s2 else on_ext (fail_item id x) s2
      | None => s2
      end
  end.
Definition fail_inflight (x : lexn) (s : node) : node :=
  foldl (fail_one x) (on_ext (set_inflight []) s) (en_inflight (s_ext s)).

Definition reject_one (x : lexn) (e : Engine) (m : option nat) : Engine :=
  match m with
  | None => e
  | Some id =>
      match en_items e !! id with
      | Some it => if in_done it then e else fail_item id x e
      | None => e
      end
  end.
Definition reject_inbound (x : lexn) (e : Engine) : Engine :=
  foldl (reject_one x) (set_inbound [] e) (en_inbound e).

(** ** The loop thread *)

(** What callers do meanwhile: [submit] up to its wait, and [stop] up to its join. *)
Inductive call : Type :=
| CSubmit (r : Req) (h : option PrefixHint)
| CStop.
Definition run_call (s : node) (c : call) : node :=
  match c with
  | CSubmit r h => on_ext (fun e => (submit r h e).1) s
  | CStop => on_ext (fun e => (request_stop e).1) s
  end.

(** [_drain_inbound] after the calls that came in since the last one. *)
Definition drain_after (cs : list call) : M node lexn unit := fun s => drain_inbound (foldl run_call s cs).

(** The coalescing window: the queue is drained again and again while it lasts. *)
Fixpoint coalesce (window : list (list call)) : M node lexn unit :=
  match window with
  | [] => mret tt
  | cs :: window' => _ ← drain_after cs; coalesce window'
  end.

(** The step loop, fed by [_drain_inbound] before every schedule; [arrive n] are
    the calls that come in while step [n] runs. *)
Definition step_loop (arrive : Z -> list call) (fuel : nat) : M node lexn bool :=
  run_until_idle (Some on_req_finished) (fun s => drain_after (arrive (s_step_id s)) s)
    (fun s => en_stop (s_ext s)) fuel.

(** The end of [_loop]. *)
Definition wind_down (s : node) : node :=
  let s1 := on_ext (reject_inbound ERuntimeError) s in
  match en_inflight (s_ext s1) with
  | [] => s1
  | _ => fail_inflight ERuntimeError s1
  end.

(** The blocking [get] of an idle engine: empty queue, sentinel, or a request
    that is put back. *)
Definition idle_wait : M node lexn bool := fun s =>
  match en_inbound (s_ext s) with
  | [] => (s, Ok false)
  | None :: q =>
      (_ ← drain_inbound;
       s' ← gets id;
       mret (en_stop (s_ext s') && negb (has_work s'))) (on_ext (set_inbound q) s)
  | Some id :: q => (on_ext (set_inbound (q ++ [Some id])) s, Ok false)
  end.

(** A call holds the lock from its test of the stop event to its [put], but a failing
    loop sets the event without the lock.  [passes c e]: the test of [c] succeeds in
    [e]; [put_call c e]: the rest of the call, in the state [e] the engine is in by
    then. *)
Definition passes (c : call) (e : Engine) : bool :=
  negb (en_stop e) && en_started e &&
  match c with
  | CSubmit _ _ => Lifecycle.accepts_new_requests (en_life e)
  | CStop => negb (bool_decide (en_life e = Lifecycle.TERMINATE))
  end.
Definition put_call (c : call) (e : Engine) : Engine :=
  match c with
  | CSubmit r h =>
      mkEngine (en_life e) (en_inbound e ++ [Some (en_next e)]) (en_inflight e)
        (<[en_next e := mkInbound r h false [] []]> (en_items e)) (S (en_next e)) (en_stop e) (en_started e)
  | CStop =>
      mkEngine (Lifecycle.drain (en_life e)).1 (en_inbound e ++ [None]) (en_inflight e) (en_items e) (en_next e) true
        (en_started e)
  end.

(** What happens around one turn of the loop: the calls that arrive before it, in its
    coalescing window, and while step [n] runs.  Should the turn fail: the calls that
    arrive between the loop's emptying of the queue and its setting of the stop
    event, and the call, if any, that is between its test and its [put] from then on
    until the loop thread has ended (the lock admits one such call). *)
Record turn : Type := mkTurn {
  t_before : list call;
  t_window : list (list call);
  t_arrive : Z -> list call;
  t_late : list call;
  t_straggler : option call
}.

(** How a turn ended: the loop goes on; it is left; a step failed, with the call that
    was under way. *)
Inductive turn_end : Type := GoOn | Leave | Failed (straggler : option call).

(** One turn of the [while] of [_loop].  A step loop that used up its fuel is a turn
    that goes on. *)
Definition loop_turn (t : turn) (fuel : nat) : M node lexn turn_end := fun s0 =>
  match drain_inbound s0 with
  | (s1, Raise x) => (s1, Raise x)
  | (s1, Ok _) =>
      if negb (has_work s1) then (b ← idle_wait; mret (if (b : bool) then Leave else GoOn)) s1
      else
        match (_ ← coalesce (t_window t); step_loop (t_arrive t) fuel) s1 with
        | (s2, Ok _) => (s2, Ok GoOn)
        | (s2, Raise x) =>
            let s3 := fail_inflight x s2 in
            let s4 := foldl run_call (on_ext (reject_inbound x) s3) (t_late t) in
            let straggler := c ← t_straggler t; if passes c (s_ext s4) then Some c else None in
            (on_ext (set_stop true) s4, Ok (Failed straggler))
        end
  end.

(** [_loop] over the turns [sched]. *)
Inductive loop_end : Type := Looping | Left | LeftFailed (straggler : option call).
Fixpoint worker_loop (sched : list turn) (fuel : nat) (s : node) : node * loop_end :=
  match sched with
  | [] => (s, Looping)
  | t :: sched' =>
      let s0 := foldl run_call s (t_before t) in
      if en_stop (s_ext s0) then (wind_down s0, Left)
      else match loop_turn t fuel s0 with
           | (s', Ok Leave) => (wind_down s', Left)
           | (s', Ok (Failed c)) => (on_ext (from_option put_call id c) (wind_down s'), LeftFailed c)
           | (s', _) => worker_loop sched' fuel s'
           end
  end.

End ops.

Definition role_value (r : WorkerRole) : string :=
  match r with PREFILL => "prefill" | DECODE_ROLE => "decode" | HYBRID => "hybrid" end.

Record CapacitySignal : Type := mkCapacity {
  cs_waiting : Z;
  cs_running : Z;
  cs_inflight_reqs : Z;
  cs_max_running_reqs : Z;
  cs_state : Lifecycle.WorkerState;
  cs_role : string;
  cs_model_backend : string;
  cs_served_model_name : string;
  cs_model_loaded : bool;
  cs_model_warmed : bool
}.

Definition capacity_signal {A} (s : sched A ModelRunner Engine) : CapacitySignal :=
  mkCapacity (num_waiting s) (num_running s) (zlen (en_inflight (s_ext s)))
    (max_running_reqs (s_role s)) (en_life (s_ext s)) (role_value (role (s_role s)))
    (model_backend (s_role s)) (mr_served (s_runner s)) (mr_loaded (s_runner s)) (mr_warmed (s_runner s)).
Definition remaining_slots (c : CapacitySignal) : Z := Z.max 0 (cs_max_running_reqs c - cs_running c).

(** ** What the scheduler does to its owner's state

    Only the callbacks touch it: a property of the owner's state that the
    callbacks keep is kept by the main loops, whatever their outcome. *)

Section frame.
Context {A R X : Type} {SA : StorageAgent A} {RE : RuntimeExecutor R}.
Abbreviation node := (sched A R X).
Context (P : X -> Prop).

Definition ext_keeps {B} (c : M node lexn B) : Prop :=
  forall s s' r, P (s_ext s) -> c s = (s', r) -> P (s_ext s').

Lemma ext_keeps_ret {B} (b : B) : ext_keeps (mret b).
Proof. intros s s' r H [= <- <-]. done. Qed.
Lemma ext_keeps_gets {B} (f : node -> B) : ext_keeps (gets f).
Proof. intros s s' r H [= <- <-]. done. Qed.
Lemma ext_keeps_lift {B} (x : result lexn B) : ext_keeps (lift x).
Proof. intros s s' r H [= <- <-]. done. Qed.
Lemma ext_keeps_modify f : (forall s, P (s_ext s) -> P (s_ext (f s))) -> ext_keeps (modify f).
Proof. intros Hf s s' r H [= <- <-]. auto. Qed.
Lemma ext_keeps_bind {B C} (c : M node lexn B) (k : B -> M node lexn C) :
  ext_keeps c -> (forall b, ext_keeps (k b)) -> ext_keeps (c ≫= k).
Proof.
  intros Hc Hk s s' r H. unfold mbind, M_bind. destruct (c s) as [s1 [b|e]] eqn:E; intros E'.
  - eapply Hk; [|exact E']. by eapply Hc.
  - simplify_eq. by eapply Hc.
Qed.
Lemma ext_keeps_same {B} (c : M node lexn B) :
  (forall s, s_ext (c s).1 = s_ext s) -> ext_keeps c.
Proof. intros Hc s s' r H E. specialize (Hc s). rewrite E in Hc. simpl in Hc. by rewrite Hc. Qed.
Lemma ext_keeps_on_pool {B} (c : M (PoolIface A) lexn B) : ext_keeps (on_pool c).
Proof. apply ext_keeps_same. intros s. unfold on_pool. by destruct (c _). Qed.
Lemma ext_keeps_on_runner {B} (c : M R lexn B) : ext_keeps (on_runner c).
Proof. apply ext_keeps_same. intros s. unfold on_runner. by destruct (c _). Qed.
Lemma ext_keeps_for_each {B} (l : list B) (body : B -> M node lexn unit) :
  (forall x, ext_keeps (body x)) -> ext_keeps (for_each l body).
Proof. intros H. induction l; simpl; [apply ext_keeps_ret|]. apply ext_keeps_bind; auto. Qed.

Lemma pass_a_ext rids : forall (ac : acc) (s : node), s_ext (pass_a rids ac s).1 = s_ext s.
Proof.
  induction rids as [|rid rids IH]; intros ac s; simpl; [done|]. case_match; [done|].
  unfold mbind, M_bind. destruct (pass_a_one rid ac s) as [s1 r1] eqn:E.
  assert (H1 : s_ext s1 = s_ext s).
  { revert E. unfold pass_a_one, emit_gen. repeat case_match; intros; by simplify_eq. }
  destruct r1; [rewrite IH|]; exact H1.
Qed.

Lemma pass_b_ext rids : forall (ac : acc) (s : node), s_ext (pass_b rids ac s).1 = s_ext s.
Proof.
  induction rids as [|rid rids IH]; intros ac s; simpl; [done|]. case_match; [done|].
  unfold mbind, M_bind. destruct (pass_b_one rid ac s) as [s1 r1] eqn:E.
  assert (H1 : s_ext s1 = s_ext s).
  { revert E. unfold pass_b_one. repeat case_match; intros; by simplify_eq. }
  destruct r1; [rewrite IH|]; exact H1.
Qed.

Lemma ext_keeps_schedule : ext_keeps schedule.
Proof.
  intros s s' r H. rewrite schedule_filled.
  assert (Hf : s_ext (filled s) = s_ext s) by (unfold filled; by destruct (fill_running _ _ _)).
  case_match; [intros [= <- <-]; by rewrite Hf|].
  assert (Hk : forall step, ext_keeps (ac1 ← pass_a (s_running (filled s)) (acc0 (Z.max 0 (max_num_scheduled_tokens (s_role s))));
         ac2 ← pass_b (s_running (filled s)) ac1; finish_schedule step ac2)).
  { intros step. apply ext_keeps_bind; [apply ext_keeps_same, pass_a_ext|]. intros ac1.
    apply ext_keeps_bind; [apply ext_keeps_same, pass_b_ext|]. intros ac2. apply ext_keeps_same. intros s2.
    unfold finish_schedule. case_match; [done|]. unfold mbind, M_bind, lift. by repeat case_match. }
  intros E. eapply Hk; [|exact E]. by rewrite Hf.
Qed.

Lemma ext_keeps_run_batch out : ext_keeps (run_batch out).
Proof.
  unfold run_batch. apply ext_keeps_bind; [apply ext_keeps_gets|]. intros reqs.
  apply ext_keeps_bind; [apply ext_keeps_on_pool|]. intros ready. apply ext_keeps_bind.
  - intros s s' r H. unfold try_finally.
    destruct (respect_effective_sets out ready s) as [s1 o] eqn:E1.
    assert (H1 : s_ext s1 = s_ext s).
    { revert E1. unfold respect_effective_sets. repeat case_match; intros; by simplify_eq. }
    destruct (on_runner (execute_model o ready (s_reqs (log_event TL_execute (so_step_id o) s1)))
      (log_event TL_execute (so_step_id o) s1)) as [s2 r2] eqn:E2.
    assert (H2 : P (s_ext s2)) by (eapply ext_keeps_on_runner; [|exact E2]; simpl; by rewrite H1).
    destruct r2; destruct (on_pool _ s2) as [s3 [[]|e3]] eqn:E3; intros; simplify_eq;
      (eapply ext_keeps_on_pool; [exact H2|exact E3]).
  - intros b. by apply ext_keeps_modify.
Qed.

Context (cb : option (Req -> node -> node)).
Context (cb_keeps : forall f, cb = Some f -> forall r s, P (s_ext s) -> P (s_ext (f r s))).

Lemma ext_keeps_finish rid : ext_keeps (finish_req cb rid).
Proof.
  intros s s' r H. unfold finish_req. destruct (s_reqs s !! rid) as [q|]; [|by intros [= <- <-]].
  assert (Hk : ext_keeps (_ ← on_pool (Pool.on_request_finished q);
     match cb with Some f => modify (f q) | None => mret tt end)).
  { apply ext_keeps_bind; [apply ext_keeps_on_pool|]. intros []. destruct cb as [f|] eqn:E; [|apply ext_keeps_ret].
    apply ext_keeps_modify. intros s0. by apply cb_keeps. }
  intros E. eapply Hk; [|exact E]. done.
Qed.

Lemma ext_keeps_process_one out ro kv : ext_keeps (process_one cb out ro kv).
Proof.
  intros s s' r H. destruct kv as [rid n]. unfold process_one.
  destruct (s_reqs s !! rid) as [q|]; [|by intros [= <- <-]]. case_match.
  - assert (Hk : forall b, ext_keeps (process_extend rid q b n ro)).
    { intros b. unfold process_extend. apply ext_keeps_bind; [by apply ext_keeps_modify|]. intros [].
      apply ext_keeps_bind; [apply ext_keeps_on_pool|]. intros []. apply ext_keeps_modify. intros s0 Hs0. by case_match. }
    intros E. eapply Hk; [|exact E]. done.
  - unfold process_generate.
    match goal with |- context [let '(_, _) := ?x in _] => destruct x as [s3 r'] eqn:E3 end.
    assert (H3 : P (s_ext s3)).
    { revert E3. unfold take_runner_tokens, take_mock_token. repeat case_match; intros; simplify_eq; exact H. }
    match goal with |- ?c s3 = _ -> _ => assert (Hk : ext_keeps c) end.
    { apply ext_keeps_bind; [apply ext_keeps_on_pool|]. intros [].
      apply ext_keeps_bind; [apply ext_keeps_modify; intros s0 Hs0; destruct (_ && _); done|]. intros [].
      destruct (max_new r' <=? num_output_tokens r'); [|apply ext_keeps_ret]. apply ext_keeps_bind; [by apply ext_keeps_modify|]. intros []. apply ext_keeps_finish. }
    intros E. eapply Hk; [|exact E]. done.
Qed.

Lemma ext_keeps_pop : ext_keeps (pop_and_process cb).
Proof.
  intros s s' r H. unfold pop_and_process. destruct (s_result_queue s) as [|b q]; [by intros [= <- <-]|].
  match goal with |- ?c _ = _ -> _ => assert (Hk : ext_keeps c) end.
  { apply ext_keeps_bind; [by apply ext_keeps_modify|]. intros [].
    apply ext_keeps_bind.
    { apply ext_keeps_modify. intros s0. unfold apply_ready_stats. generalize (stats_by_req (br_ready b)).
      intros l. revert s0. induction l as [|kv l IH]; intros s0 H0; simpl; [done|]. apply IH.
      destruct kv as [rid st]. unfold apply_stat. by repeat case_match. }
    intros []. apply ext_keeps_bind; [apply ext_keeps_for_each; intros; apply ext_keeps_process_one|]. intros [].
    by apply ext_keeps_modify. }
  intros E. eapply Hk; [|exact E]. done.
Qed.

Lemma ext_keeps_drain : ext_keeps (drain_results cb).
Proof.
  intros s s' r H. unfold drain_results. generalize (length (s_result_queue s)). intros n.
  assert (Hk : ext_keeps (drain_n cb n)).
  { induction n; simpl; [apply ext_keeps_ret|]. apply ext_keeps_bind; [apply ext_keeps_pop|]. by intros []. }
  intros E. eapply Hk; [|exact E]. done.
Qed.

Context (hook : M node lexn unit) (stop : node -> bool) (hook_keeps : ext_keeps hook).

Lemma ext_keeps_normal fuel : ext_keeps (event_loop_normal cb hook stop fuel).
Proof.
  induction fuel as [|fuel IH]; [apply ext_keeps_ret|]. intros s s' r H. simpl.
  destruct (has_work s); [|by intros [= <- <-]].
  assert (Hk : ext_keeps (b ← normal_body cb hook stop; if b : bool then mret true else event_loop_normal cb hook stop fuel)).
  { apply ext_keeps_bind; [|intros []; [apply ext_keeps_ret|done]]. intros s0 s0' r0 H0. unfold normal_body.
    destruct (stop s0); [by intros [= <- <-]|].
    match goal with |- ?c s0 = _ -> _ => assert (Hk : ext_keeps c) end.
    { apply ext_keeps_bind; [done|]. intros []. apply ext_keeps_bind; [apply ext_keeps_schedule|]. intros out.
      case_match.
      - apply ext_keeps_bind; [apply ext_keeps_drain|]. intros []. apply ext_keeps_bind; [apply ext_keeps_gets|]. intros ?. apply ext_keeps_ret.
      - apply ext_keeps_bind; [apply ext_keeps_run_batch|]. intros []. apply ext_keeps_bind; [apply ext_keeps_pop|]. intros []. apply ext_keeps_ret. }
    intros E. eapply Hk; [|exact E]. done. }
  intros E. eapply Hk; [|exact E]. done.
Qed.

Lemma ext_keeps_overlap fuel : ext_keeps (event_loop_overlap cb hook stop fuel).
Proof.
  assert (Hl : ext_keeps (overlap_loop cb hook stop fuel)).
  { induction fuel as [|fuel IH]; [apply ext_keeps_ret|]. simpl.
    apply ext_keeps_bind; [|intros []; [apply ext_keeps_ret|done]]. intros s0 s0' r0 H0. unfold overlap_body.
    destruct (stop s0); [by intros [= <- <-]|].
    match goal with |- ?c s0 = _ -> _ => assert (Hk : ext_keeps c) end.
    { apply ext_keeps_bind; [done|]. intros []. apply ext_keeps_bind; [apply ext_keeps_gets|]. intros d.
      apply ext_keeps_bind; [destruct d; [apply ext_keeps_drain|apply ext_keeps_ret]|]. intros [].
      apply ext_keeps_bind; [apply ext_keeps_schedule|]. intros out. case_match.
      - apply ext_keeps_bind; [apply ext_keeps_drain|]. intros []. apply ext_keeps_bind; [apply ext_keeps_gets|]. intros ?. apply ext_keeps_ret.
      - apply ext_keeps_bind; [apply ext_keeps_run_batch|]. intros []. apply ext_keeps_bind; [apply ext_keeps_gets|]. intros s1.
        apply ext_keeps_bind; [case_match; [apply ext_keeps_pop|apply ext_keeps_ret]|]. intros []. apply ext_keeps_ret. }
    intros E. eapply Hk; [|exact E]. done. }
  unfold event_loop_overlap. apply ext_keeps_bind; [done|]. intros []; [|apply ext_keeps_ret].
  apply ext_keeps_bind; [apply ext_keeps_drain|]. intros []. apply ext_keeps_ret.
Qed.

Lemma ext_keeps_run fuel : ext_keeps (run_until_idle cb hook stop fuel).
Proof.
  intros s s' r H. unfold run_until_idle. case_match; intros E; [by eapply ext_keeps_overlap|by eapply ext_keeps_normal].
Qed.

End frame.
(** ** Every submitted request is answered exactly once *)

Definition open_item (it : Inbound) : Prop :=
  in_done it = false /\ in_error it = [] /\ in_result it = [].
(** Completed once: an error or a result, never both, never two. *)
Definition closed_item (it : Inbound) : Prop :=
  in_done it = true /\ (length (in_error it) + length (in_result it) = 1)%nat.

(** [P] lists the items some component still has to answer. *)
Record items_ok (P : list nat) (m : gmap nat Inbound) (next : nat) : Prop := {
  io_nodup : NoDup P;
  io_known : forall id, id ∈ P -> is_Some (m !! id);
  io_items : forall id it, m !! id = Some it ->
    (open_item it /\ id ∈ P) \/ (closed_item it /\ id ∉ P);
  io_next : forall id, is_Some (m !! id) -> (id < next)%nat
}.

Definition queued (q : list (option nat)) : list nat := omap id q.
Definition to_answer (held : list nat) (e : Engine) : list nat :=
  held ++ queued (en_inbound e) ++ dvals (en_inflight e).
Definition eng_inv (held : list nat) (e : Engine) : Prop :=
  items_ok (to_answer held e) (en_items e) (en_next e) /\ dict_wf (en_inflight e).

#[global] Instance items_ok_proper : Proper ((≡ₚ) ==> (=) ==> (=) ==> iff) items_ok.
Proof.
  intros P Q HP m ? <- n ? <-. split; intros [H1 H2 H3 H4]; split; try done.
  - by rewrite <- HP.
  - intros id. rewrite <- HP. auto.
  - intros id it Hm. rewrite <- HP. auto.
  - by rewrite HP.
  - intros id. rewrite HP. auto.
  - intros id it Hm. rewrite HP. auto.
Qed.

Lemma items_open P m n id it : items_ok (id :: P) m n -> m !! id = Some it -> open_item it.
Proof. intros H Hm. destruct (io_items _ _ _ H id it Hm) as [[? _]|[_ Hn]]; [done|]. destruct Hn. left. Qed.

Lemma items_close P m n id it' :
  items_ok (id :: P) m n -> closed_item it' -> items_ok P (<[id := it']> m) n.
Proof.
  intros [H1 H2 H3 H4] Hc. apply NoDup_cons in H1 as [Hid H1]. split; [done|..].
  - intros k Hk. destruct (decide (k = id)) as [->|]; [done|]. rewrite lookup_insert_ne by done. apply H2. by right.
  - intros k it. rewrite lookup_insert. case_decide as Hk; subst.
    + intros [= <-]. by right.
    + intros Hm. destruct (H3 k it Hm) as [[? Hin]|[? Hn]]; [left|right]; (split; [done|]); set_solver.
  - intros k. rewrite lookup_insert. case_decide as Hk; subst; [|auto]. intros _. apply H4, H2. left.
Qed.

Lemma fail_item_ok P e id x :
  items_ok (id :: P) (en_items e) (en_next e) -> items_ok P (en_items (fail_item id x e)) (en_next e).
Proof.
  intros H. destruct (io_known _ _ _ H id ltac:(left)) as [it Hm]. unfold fail_item. rewrite Hm. simpl.
  destruct (items_open _ _ _ _ _ H Hm) as (Hd&He&Hr). eapply items_close; [exact H|].
  split; simpl; [done|]. by rewrite He, Hr.
Qed.

Lemma fail_item_frame id x e : en_inbound (fail_item id x e) = en_inbound e /\
  en_inflight (fail_item id x e) = en_inflight e /\ en_next (fail_item id x e) = en_next e.
Proof. unfold fail_item. by case_match. Qed.

Lemma eng_fail held e id x : eng_inv (id :: held) e -> eng_inv held (fail_item id x e).
Proof.
  intros [H Hw]. destruct (fail_item_frame id x e) as (Hq&Hf&Hn). unfold eng_inv, to_answer.
  rewrite Hq, Hf, Hn. split; [|done]. by apply (fail_item_ok (to_answer held e)).
Qed.

Lemma eng_complete held e id r : eng_inv (id :: held) e -> eng_inv held (complete_item id r e).
Proof.
  intros [H Hw]. destruct (io_known _ _ _ H id ltac:(left)) as [it Hm].
  destruct (items_open _ _ _ _ _ H Hm) as (Hd&He&Hr). unfold complete_item. rewrite Hm.
  split; [|done]. eapply items_close; [exact H|]. split; simpl; [done|]. by rewrite He, Hr.
Qed.

(** Moving an item between its holders. *)
Lemma eng_perm held held' e e' :
  en_items e' = en_items e -> en_next e' = en_next e -> dict_wf (en_inflight e') ->
  to_answer held' e' ≡ₚ to_answer held e -> eng_inv held e -> eng_inv held' e'.
Proof. intros Hi Hn Hw Hp [H _]. split; [|done]. by rewrite Hi, Hn, Hp. Qed.

Lemma dvals_ddel rid id (d : dict string nat) : dget rid d = Some id -> dvals d ≡ₚ id :: dvals (ddel rid d).
Proof. intros H. unfold dvals. rewrite (ddel_perm rid id d H) at 1. done. Qed.

Section engine.
Context {A R : Type} {SA : StorageAgent A} {RE : RuntimeExecutor R}.
Abbreviation node := (sched A R Engine).

Lemma submit_inv r h e e' o : submit r h e = (e', o) -> eng_inv [] e -> eng_inv [] e'.
Proof.
  unfold submit. repeat case_match; intros; simplify_eq; try done. destruct H2 as [[H2 H3 H4 H5] Hw].
  assert (Hfresh : en_items e !! en_next e = None).
  { destruct (en_items e !! en_next e) eqn:E; [|done]. specialize (H5 (en_next e)). rewrite E in H5.
    specialize (H5 ltac:(eauto)). lia. }
  split; [|done]. unfold to_answer in *. simpl in *. unfold queued. rewrite omap_app. simpl.
  assert (Hp : (omap id (en_inbound e) ++ [en_next e]) ++ dvals (en_inflight e) ≡ₚ
    en_next e :: queued (en_inbound e) ++ dvals (en_inflight e)).
  { rewrite <- app_assoc. simpl. by rewrite Permutation_middle. }
  rewrite Hp. split.
  - apply NoDup_cons. split; [|done]. intros Hin. apply H3 in Hin as [? ?]. congruence.
  - intros k [->|Hk]%elem_of_cons; [rewrite lookup_insert_eq; eauto|]. destruct (H3 k Hk) as [it Hit].
    rewrite lookup_insert_ne by congruence. eauto.
  - intros k it. rewrite lookup_insert. case_decide as Hk; subst.
    + intros [= <-]. left. split; [done|left].
    + intros Hm. destruct (H4 k it Hm) as [[? ?]|[? ?]]; [left|right]; (split; [done|]); set_solver.
  - intros k. rewrite lookup_insert. case_decide as Hk; subst; [lia|]. intros Hs. specialize (H5 k Hs). lia.
Qed.

(** A call that passes its test does what [submit] and [stop] do in one go. *)
Lemma put_call_ok (s : node) c : passes c (s_ext s) = true -> run_call s c = on_ext (put_call c) s.
Proof.
  unfold passes. intros H. destruct (en_stop (s_ext s)) eqn:Es; [done|]. destruct (en_started (s_ext s)) eqn:Et; [|done].
  destruct c as [r h|]; simpl in *; unfold submit, request_stop, on_ext, put_call; f_equal; rewrite Es, Et; simpl.
  - by rewrite H.
  - destruct (bool_decide _); [done|]. unfold set_inbound, set_stop, set_life. simpl. by rewrite Et.
Qed.

Lemma put_submit_inv r h e : eng_inv [] e -> eng_inv [] (put_call (CSubmit r h) e).
Proof.
  intros He. set (e1 := mkEngine Lifecycle.SERVING (en_inbound e) (en_inflight e) (en_items e) (en_next e) false true).
  assert (H1 : eng_inv [] (submit r h e1).1) by (eapply submit_inv; [apply surjective_pairing|exact He]).
  exact H1.
Qed.

Lemma finished_inv r (s : node) held : eng_inv held (s_ext s) -> eng_inv held (s_ext (on_req_finished r s)).
Proof.
  intros H. unfold on_req_finished. destruct (dget _ _) as [id|] eqn:E; [|done]. simpl.
  apply eng_complete. eapply (eng_perm held); [..|exact H]; try done.
  - simpl. apply dict_wf_ddel, H.
  - unfold to_answer. simpl. rewrite (dvals_ddel _ _ _ E).
    rewrite (Permutation_app_comm held), (Permutation_app_comm held), <- !app_assoc. simpl.
    by rewrite <- Permutation_middle.
Qed.

Lemma add_request_ext (s : node) r h : s_ext (add_request r h s).1 = s_ext s.
Proof. unfold add_request. by repeat case_match. Qed.

Lemma take_item_inv id (s s' : node) o :
  take_item id s = (s', o) -> eng_inv [id] (s_ext s) -> eng_inv [] (s_ext s') /\ o = Ok tt.
Proof.
  intros E H. destruct (io_known _ _ _ (proj1 H) id ltac:(left)) as [it Hm].
  unfold take_item in E. rewrite Hm in E. set (rid := req_id (in_req it)) in *.
  destruct (din rid (en_inflight (s_ext s)) || has_req rid s) eqn:Ed.
  { simplify_eq. split; [|done]. by apply eng_fail. }
  apply orb_false_iff in Ed as [Ed _].
  assert (Hnk : rid ∉ dkeys (en_inflight (s_ext s))).
  { apply dget_None. unfold din in Ed. by destruct (dget rid (en_inflight (s_ext s))). }
  set (s1 := on_ext _ s) in E.
  assert (H1 : eng_inv [] (s_ext s1)).
  { eapply (eng_perm [id]); [..|exact H]; try done.
    - simpl. apply dict_wf_dset, H.
    - unfold to_answer. simpl. rewrite dset_fresh by done. unfold dvals. rewrite fmap_app. simpl.
      rewrite app_assoc. by rewrite <- Permutation_cons_append. }
  pose proof (add_request_ext s1 (in_req it) (in_hint it)) as Hx.
  destruct (add_request (in_req it) (in_hint it) s1) as [s2 [[]|x]]; simplify_eq; simpl in Hx.
  - split; [|done]. by rewrite Hx.
  - split; [|done]. simpl. apply eng_fail. rewrite Hx. eapply (eng_perm [id]); [..|exact H]; try done.
    + simpl. apply dict_wf_ddel, dict_wf_dset, H.
    + unfold to_answer. simpl. rewrite dset_fresh by done. 
      assert (Hd : ddel rid (en_inflight (s_ext s) ++ [(rid, id)]) = en_inflight (s_ext s)).
      { clear -Hnk. induction (en_inflight (s_ext s)) as [|[k v] d IH]; simpl; [by rewrite decide_True|].
        unfold dkeys in Hnk. simpl in Hnk. apply not_elem_of_cons in Hnk as [Hk Hn].
        rewrite decide_False by done. f_equal. by apply IH. }
      by rewrite Hd.
Qed.

Lemma drain_q_inv q : forall (s s' : node) o,
  drain_q q s = (s', o) -> en_inbound (s_ext s) = q -> eng_inv [] (s_ext s) ->
  eng_inv [] (s_ext s') /\ o = Ok tt.
Proof.
  induction q as [|x q IH]; intros s s' o E Hq H; simpl in E; [by simplify_eq|].
  assert (Hset : forall held, to_answer held (set_inbound q (s_ext s)) = held ++ queued q ++ dvals (en_inflight (s_ext s)))
    by done.
  destruct x as [id|].
  - unfold mbind, M_bind in E. destruct (take_item id (on_ext (set_inbound q) s)) as [s1 o1] eqn:E1.
    destruct (take_item_inv _ _ _ _ E1) as [H1 ->].
    { eapply (eng_perm []); [..|exact H]; try done; [apply H|]. unfold to_answer. rewrite Hq. done. }
    eapply IH; [exact E| |exact H1].
    revert E1. unfold take_item. simpl. repeat case_match; intros; simplify_eq; simpl;
      rewrite ?(proj1 (fail_item_frame _ _ _)); try done;
      match goal with E : add_request ?r ?h ?s = _ |- _ => pose proof (add_request_ext s r h) as Hx; rewrite E in Hx; simpl in Hx; rewrite Hx; done end.
  - assert (H1 : eng_inv [] (s_ext (on_ext (set_inbound q) s))).
    { eapply (eng_perm []); [..|exact H]; try done; [apply H|]. unfold to_answer. rewrite Hq. done. }
    simpl in E. destruct (en_stop (s_ext s)); [by simplify_eq|]. by eapply IH.
Qed.

Lemma drain_inbound_inv (s s' : node) o :
  drain_inbound s = (s', o) -> eng_inv [] (s_ext s) -> eng_inv [] (s_ext s') /\ o = Ok tt.
Proof. intros E. by eapply drain_q_inv. Qed.

Lemma open_not_done held e id it : eng_inv (id :: held) e -> en_items e !! id = Some it -> in_done it = false.
Proof. intros [H _] Hm. by destruct (items_open _ _ _ _ _ H Hm) as (?&_). Qed.

Lemma fail_one_inv x (s : node) kv held :
  eng_inv (kv.2 :: held) (s_ext s) -> eng_inv held (s_ext (fail_one x s kv)) /\
  en_inflight (s_ext (fail_one x s kv)) = en_inflight (s_ext s) /\
  en_inbound (s_ext (fail_one x s kv)) = en_inbound (s_ext s).
Proof.
  intros H. destruct kv as [rid id]. simpl in *.
  destruct (io_known _ _ _ (proj1 H) id ltac:(left)) as [it Hm]. unfold fail_one. simpl. rewrite Hm.
  unfold on_pool. destruct (Pool.on_request_finished _ _) as [p o]. simpl. rewrite Hm.
  rewrite (open_not_done _ _ _ _ H Hm). simpl. destruct (fail_item_frame id x (s_ext s)) as (?&?&_).
  split_and!; [by apply eng_fail|done..].
Qed.

Lemma fail_inflight_inv x (s : node) : eng_inv [] (s_ext s) ->
  eng_inv [] (s_ext (fail_inflight x s)) /\ en_inflight (s_ext (fail_inflight x s)) = [] /\
  en_inbound (s_ext (fail_inflight x s)) = en_inbound (s_ext s).
Proof.
  intros H. unfold fail_inflight.
  assert (H0 : eng_inv (dvals (en_inflight (s_ext s))) (s_ext (on_ext (set_inflight []) s))).
  { eapply (eng_perm []); [..|exact H]; try done; [apply NoDup_nil_2|]. unfold to_answer. simpl.
    rewrite app_nil_r. apply Permutation_app_comm. }
  assert (Hgen : forall d (s1 : node), eng_inv (dvals d) (s_ext s1) ->
    eng_inv [] (s_ext (foldl (fail_one x) s1 d)) /\
    en_inflight (s_ext (foldl (fail_one x) s1 d)) = en_inflight (s_ext s1) /\
    en_inbound (s_ext (foldl (fail_one x) s1 d)) = en_inbound (s_ext s1)).
  { induction d as [|kv d IH]; intros s1 H1; [done|]. simpl.
    destruct (fail_one_inv x s1 kv (dvals d) H1) as (H2&<-&<-). by apply IH. }
  destruct (Hgen _ _ H0) as (?&?&?). done.
Qed.

Lemma reject_inbound_inv x e : eng_inv [] e ->
  eng_inv [] (reject_inbound x e) /\ en_inbound (reject_inbound x e) = [] /\
  en_inflight (reject_inbound x e) = en_inflight e.
Proof.
  intros H. unfold reject_inbound.
  assert (H0 : eng_inv (queued (en_inbound e)) (set_inbound [] e)).
  { eapply (eng_perm []); [..|exact H]; try done. apply H. }
  assert (Hgen : forall q e1, eng_inv (queued q) e1 -> eng_inv [] (foldl (reject_one x) e1 q) /\
    en_inbound (foldl (reject_one x) e1 q) = en_inbound e1 /\
    en_inflight (foldl (reject_one x) e1 q) = en_inflight e1).
  { induction q as [|[id|] q IH]; intros e1 H1; [done| |by apply IH]. simpl.
    destruct (io_known _ _ _ (proj1 H1) id ltac:(left)) as [it Hm]. rewrite Hm, (open_not_done _ _ _ _ H1 Hm).
    destruct (fail_item_frame id x e1) as (<-&<-&_). apply IH. by apply eng_fail. }
  destruct (Hgen _ _ H0) as (?&?&?). done.
Qed.

Lemma wind_down_inv (s : node) : eng_inv [] (s_ext s) ->
  eng_inv [] (s_ext (wind_down s)) /\ en_inbound (s_ext (wind_down s)) = [] /\
  en_inflight (s_ext (wind_down s)) = [].
Proof.
  intros H. unfold wind_down. destruct (reject_inbound_inv ERuntimeError (s_ext s) H) as (H1&Hq&Hf).
  case_match eqn:E; [done|].
  destruct (fail_inflight_inv ERuntimeError (on_ext (reject_inbound ERuntimeError) s) H1) as (H2&Hf2&Hq2).
  rewrite Hq2. simpl in *. done.
Qed.

Lemma run_call_inv (s : node) c : eng_inv [] (s_ext s) -> eng_inv [] (s_ext (run_call s c)).
Proof.
  intros H. destruct c as [r h|]; simpl.
  - destruct (submit r h (s_ext s)) as [e o] eqn:E. by eapply submit_inv.
  - unfold request_stop. repeat case_match; simpl; try done.
    eapply (eng_perm []); [..|exact H]; try done; [apply H|]. unfold to_answer, queued. simpl.
    rewrite omap_app. simpl. by rewrite app_nil_r.
Qed.

Lemma run_calls_inv cs : forall (s : node), eng_inv [] (s_ext s) -> eng_inv [] (s_ext (foldl run_call s cs)).
Proof. induction cs as [|c cs IH]; intros s H; [done|]. apply IH. by apply run_call_inv. Qed.

Lemma drain_after_inv cs (s s' : node) o :
  drain_after cs s = (s', o) -> eng_inv [] (s_ext s) -> eng_inv [] (s_ext s') /\ o = Ok tt.
Proof. intros E H. eapply drain_inbound_inv; [exact E|]. by apply run_calls_inv. Qed.

Lemma coalesce_inv window : forall (s s' : node) o,
  coalesce window s = (s', o) -> eng_inv [] (s_ext s) -> eng_inv [] (s_ext s') /\ o = Ok tt.
Proof.
  induction window as [|cs window IH]; intros s s' o E H; [by injection E as <- <-|].
  simpl in E. unfold mbind, M_bind in E. destruct (drain_after cs s) as [s1 o1] eqn:E1.
  destruct (drain_after_inv _ _ _ _ E1 H) as [H1 ->]. by eapply IH.
Qed.

Lemma step_loop_inv arrive fuel (s s' : node) o :
  step_loop arrive fuel s = (s', o) -> eng_inv [] (s_ext s) -> eng_inv [] (s_ext s').
Proof.
  intros E H. eapply (ext_keeps_run (eng_inv [])); [| |exact H|exact E].
  - intros f [= <-] r s1 H1. by apply finished_inv.
  - intros s1 s2 r H1 E1. by destruct (drain_after_inv _ _ _ _ E1 H1).
Qed.

Lemma idle_wait_inv (s s' : node) o : idle_wait s = (s', o) -> eng_inv [] (s_ext s) -> eng_inv [] (s_ext s').
Proof.
  unfold idle_wait. intros E H. destruct (en_inbound (s_ext s)) as [|[id|] q] eqn:Eq; simplify_eq; [done|..].
  - eapply (eng_perm []); [..|exact H]; try done; [apply H|]. unfold to_answer. simpl. rewrite Eq.
    unfold queued. rewrite omap_app. simpl. by rewrite <- Permutation_cons_append.
  - unfold mbind, M_bind in E. destruct (drain_inbound (on_ext (set_inbound q) s)) as [s2 o2] eqn:E2.
    destruct (drain_inbound_inv _ _ _ E2) as [H2 ->]; [|simpl in E; by injection E as <- _].
    eapply (eng_perm []); [..|exact H]; try done; [apply H|]. unfold to_answer. simpl. by rewrite Eq.
Qed.

Lemma loop_turn_inv t fuel (s s' : node) o :
  loop_turn t fuel s = (s', o) -> eng_inv [] (s_ext s) -> eng_inv [] (s_ext s').
Proof.
  intros E H. unfold loop_turn in E. destruct (drain_inbound s) as [s1 o1] eqn:E1.
  destruct (drain_inbound_inv _ _ _ E1 H) as [H1 ->]. destruct (has_work s1); simpl in E.
  2: { unfold mbind, M_bind in E. destruct (idle_wait s1) as [s2 o2] eqn:E2. pose proof (idle_wait_inv _ _ _ E2 H1) as H2.
       destruct o2; by injection E as <- _. }
  unfold mbind at 1, M_bind at 1 in E. destruct (coalesce (t_window t) s1) as [s2 o2] eqn:E2.
  destruct (coalesce_inv _ _ _ _ E2 H1) as [H2 ->].
  destruct (step_loop (t_arrive t) fuel s2) as [s3 [b|x]] eqn:E3; assert (H3 := step_loop_inv _ _ _ _ _ E3 H2);
    injection E as <- _; [done|].
  destruct (fail_inflight_inv x s3 H3) as (H4&_). destruct (reject_inbound_inv x _ H4) as (H5&_).
  exact (run_calls_inv (t_late t) (on_ext (reject_inbound x) (fail_inflight x s3)) H5).
Qed.

(** What is left to answer when the loop is left: nothing, unless a step failed while a
    submit was between its test and its [put]. *)
Definition left_over (o : loop_end) (e : Engine) : Prop :=
  match o with
  | LeftFailed (Some (CSubmit r h)) =>
      exists id, en_inbound e = [Some id] /\ en_items e !! id = Some (mkInbound r h false [] [])
  | _ => queued (en_inbound e) = []
  end.

Lemma worker_loop_inv turns fuel : forall (s : node), eng_inv [] (s_ext s) ->
  eng_inv [] (s_ext (worker_loop turns fuel s).1) /\
  ((worker_loop turns fuel s).2 <> Looping ->
     left_over (worker_loop turns fuel s).2 (s_ext (worker_loop turns fuel s).1) /\
     en_inflight (s_ext (worker_loop turns fuel s).1) = []).
Proof.
  induction turns as [|t turns IH]; intros s H; [done|]. simpl.
  pose proof (run_calls_inv (t_before t) s H) as H0. destruct (en_stop _).
  { destruct (wind_down_inv _ H0) as (?&Hq&?). split_and!; [done|]. intros _. simpl. by rewrite Hq. }
  destruct (loop_turn t fuel (foldl run_call s (t_before t))) as [s1 o] eqn:E.
  assert (H1 := loop_turn_inv _ _ _ _ _ E H0). destruct (wind_down_inv _ H1) as (H2&Hq&Hf).
  destruct o as [[| |c]|x]; [by apply IH| | |by apply IH]; (split; [|intros _; split]); try done; simpl.
  - by rewrite Hq.
  - destruct c as [[r h|]|]; [by apply put_submit_inv| |done]. eapply (eng_perm []); [..|exact H2]; try done; [apply H2|].
    unfold to_answer, queued. simpl. rewrite omap_app. simpl. by rewrite app_nil_r.
  - destruct c as [[r h|]|]; simpl; rewrite ?Hq; try done. eexists. split; [done|]. by rewrite lookup_insert_eq.
  - by destruct c as [[r h|]|].
Qed.

Lemma new_engine_inv : eng_inv [] new_engine.
Proof. split; [split; simpl|]; try (by apply NoDup_nil_2); try set_solver; intros id; rewrite lookup_empty; by try intros []. Qed.

(** An item that is still open when the loop has ended. *)
Lemma open_left_over o e id it : (o <> Looping -> left_over o e /\ en_inflight e = []) ->
  id ∈ to_answer [] e -> en_items e !! id = Some it ->
  match o with
  | Looping => id ∈ to_answer [] e
  | LeftFailed (Some (CSubmit r h)) => en_inbound e = [Some id] /\ in_req it = r /\ in_hint it = h
  | _ => False
  end.
Proof.
  intros H Hin Hm. destruct o as [| |[[r h|]|]]; [done|..]; destruct (H ltac:(done)) as [Hl Hf]; unfold to_answer in Hin;
    rewrite Hf in Hin; simpl in *; rewrite ?app_nil_r in Hin; try (rewrite Hl in Hin; by apply elem_of_nil in Hin).
  destruct Hl as (id'&Hq&Hi). rewrite Hq in Hin. simpl in Hin. apply list_elem_of_singleton in Hin as ->.
  rewrite Hm in Hi. injection Hi as ->. done.
Qed.

(** C14. No submitted request is answered twice, and at most one is lost.  Whatever
    submits and stop requests come in before a turn of the loop, in its
    coalescing window, between its steps or while it is failing (with any agent
    and executor, failing ones included), a request is unanswered and held by
    the queue or the in-flight table, or has exactly one error or result.  Once the
    loop is left because it was told to stop, every accepted request has been
    answered.  Once it is left because a step failed, every accepted request has
    been answered but one: a submit that tested the stop event before the
    failing loop set it and enqueued after the loop had emptied the queue for the
    last time stays in the queue without an answer. *)
Theorem submitted_answered_once turns fuel (s : node) :
  s_ext s = new_engine \/ s_ext s = set_started true (set_life Lifecycle.SERVING new_engine) ->
  let '(s', o) := worker_loop turns fuel s in
  forall id it, en_items (s_ext s') !! id = Some it ->
    closed_item it \/
    (open_item it /\
     match o with
     | Looping => id ∈ to_answer [] (s_ext s')
     | LeftFailed (Some (CSubmit r h)) => en_inbound (s_ext s') = [Some id] /\ in_req it = r /\ in_hint it = h
     | _ => False
     end).
Proof.
  intros Hs. assert (H : eng_inv [] (s_ext s)).
  { destruct Hs as [-> | ->]; [apply new_engine_inv|]. eapply (eng_perm []); [..|apply new_engine_inv]; try done.
    apply NoDup_nil_2. }
  destruct (worker_loop_inv turns fuel s H) as [H1 H2]. destruct (worker_loop turns fuel s) as [s' o]. simpl in *.
  intros id it Hm. destruct (io_items _ _ _ (proj1 H1) id it Hm) as [[Ho Hin]|[? _]]; [|by left]. right. split; [done|].
  by apply (open_left_over o (s_ext s') id it).
Qed.

End engine.

(** A serving worker over the in-memory agent: two requests under one id, a third
    during the steps, and a stop. *)
Definition serving_worker : sched InMemory.t ModelRunner Engine :=
  init mem_pool mock_runner (mock_role true 3 2) (set_started true (set_life Lifecycle.SERVING new_engine)).
Definition busy_turns : list turn :=
  [mkTurn [CSubmit (mk_req "a" [5; 6; 7] 2) None; CSubmit (mk_req "a" [5] 1) None] [[]]
    (fun n => if n =? 1 then [CSubmit (mk_req "b" [1] 1) None] else []) [] None;
   mkTurn [CStop] [] (fun _ => []) [] None].

Lemma submitted_answered_once_witness :
  let s' := (worker_loop busy_turns 30 serving_worker).1 in
  submit_outcome <$> en_items (s_ext s') !! 1%nat = Some (Raise EValueError) /\
  (forall it, en_items (s_ext s') !! 2%nat = Some it -> closed_item it).
Proof.
  split; [vm_compute; reflexivity|]. intros it Hit.
  pose proof (submitted_answered_once busy_turns 30 serving_worker (or_intror eq_refl)) as H.
  assert (E : (worker_loop busy_turns 30 serving_worker).2 = Left) by (vm_compute; reflexivity).
  destruct (worker_loop busy_turns 30 serving_worker) as [s' b]. simpl in *. subst b.
  destruct (H 2%nat it Hit) as [?|[_ []]]; done.
Defined.

(** ** The failing loop and a late submit

    [_loop] sets the stop event without the lock when a step fails, and [submit]
    tests it and enqueues under the lock, in two actions.  The interleavings of
    these actions, for an engine with nothing in flight: *)

Inductive loop_pc : Type := LFailed | LFlagged | LExited.

Record race : Type := mkRace {
  rc_engine : Engine;
  rc_loop : loop_pc;
  rc_submit : option (Req * option PrefixHint)
}.

Inductive race_step : race -> race -> Prop :=
| rs_check e l r h :
    en_stop e = false -> en_started e = true -> Lifecycle.accepts_new_requests (en_life e) = true ->
    race_step (mkRace e l None) (mkRace e l (Some (r, h)))
| rs_put e l r h e' id :
    e' = mkEngine (en_life e) (en_inbound e ++ [Some id]) (en_inflight e)
           (<[id := mkInbound r h false [] []]> (en_items e)) (S id) (en_stop e) (en_started e) ->
    id = en_next e ->
    race_step (mkRace e l (Some (r, h))) (mkRace e' l None)
| rs_flag e sub : race_step (mkRace e LFailed sub) (mkRace (set_stop true e) LFlagged sub)
| rs_exit e sub : en_inflight e = [] ->
    race_step (mkRace e LFlagged sub) (mkRace (reject_inbound ERuntimeError e) LExited sub).

(** Defect: from the moment a failing loop has emptied its queue, a submit that
    has passed its check can enqueue after the loop thread has rejected the
    queue for the last time.  The request stays unanswered in every later state,
    and its caller waits forever. *)
Theorem failed_loop_strands_submit r (h : option PrefixHint) :
  exists c1, rtc race_step (mkRace (set_started true (set_life Lifecycle.SERVING new_engine)) LFailed None) c1 /\
    rc_loop c1 = LExited /\
    forall c2, rtc race_step c1 c2 ->
      exists it, en_items (rc_engine c2) !! 0%nat = Some it /\ in_req it = r /\ open_item it.
Proof.
  eexists. split_and!.
  - eapply rtc_l; [by apply (rs_check _ _ r h)|]. eapply rtc_l; [apply rs_flag|].
    eapply rtc_l; [by apply rs_exit|]. eapply rtc_l; [by eapply rs_put|]. apply rtc_refl.
  - done.
  - intros c2 Hr.
    assert (Hinv : rc_loop c2 = LExited /\ (0 < en_next (rc_engine c2))%nat /\
      exists it, en_items (rc_engine c2) !! 0%nat = Some it /\ in_req it = r /\ open_item it).
    2: { by destruct Hinv as (_&_&?). }
    revert Hr. apply (rtc_ind_r (fun c => rc_loop c = LExited /\ (0 < en_next (rc_engine c))%nat /\
      exists it, en_items (rc_engine c) !! 0%nat = Some it /\ in_req it = r /\ open_item it)).
    + split_and!; [done|simpl; lia|]. eexists. simpl. rewrite lookup_insert_eq. done.
    + intros c c' _ Hstep (Hl&Hn&it&Hit&Hreq). destruct Hstep; simpl in *; try done.
      * eauto.
      * subst. simpl. split_and!; [done|lia|]. exists it. rewrite lookup_insert_ne by lia. done.
Qed.

End Worker.

(** ** worker.py

    [WorkerServicer.Generate] up to its call of [submit], and what it answers once
    the item is done.  An error aborts the call with a gRPC status. *)

Module Servicer.

Record GenerateRequest : Type := mkGenerateRequest {
  gr_request_id : string;
  gr_model_id : string;
  gr_prompt_tokens : list Z;
  gr_max_new_tokens : Z;
  gr_requester_node_id : string;
  gr_exec_mode : string;
  gr_computed_tokens : Z;
  gr_reused_blocks : Z;
  gr_local_hit : bool
}.

Record GenerateResponse : Type := mkGenerateResponse {
  gs_request_id : string;
  gs_output_tokens : list Z;
  gs_reused_blocks : Z;
  gs_prefill_blocks : Z;
  gs_mode : string
}.

Inductive StatusCode : Type := UNAVAILABLE | RESOURCE_EXHAUSTED | INVALID_ARGUMENT | INTERNAL.
#[global] Instance StatusCode_eq_dec : EqDecision StatusCode.
Proof. solve_decision. Defined.

Definition NODE_ID : string := "worker-0".

(** [ExecMode(value)] and [.value] *)
Definition exec_mode_of (v : string) : result lexn ExecMode :=
  if bool_decide (v = "COLOCATED") then Ok COLOCATED
  else if bool_decide (v = "PD_DISAGG") then Ok PD_DISAGG
  else if bool_decide (v = "D_DIRECT") then Ok D_DIRECT
  else Raise EValueError.
Definition exec_mode_value (m : ExecMode) : string :=
  match m with COLOCATED => "COLOCATED" | PD_DISAGG => "PD_DISAGG" | D_DIRECT => "D_DIRECT" end.

Definition set_exec_mode (m : ExecMode) (r : Req) : Req :=
  mkReq (req_id r) (served_model_name r) (prompt_token_ids r) (sampling_params r) (node_id r)
    (num_computed_tokens r) (output_token_ids r) (reused_blocks r) (prefill_blocks r) (finished r)
    (finish_reason r) m.

(** [a or b] on strings and integers *)
Definition str_or (a b : string) : string := if bool_decide (a = EmptyString) then b else a.
Definition int_or (a b : Z) : Z := if a =? 0 then b else a.

(** The request and the hint handed to the engine. *)
Definition generate_request (rl : RoleConfig) (g : GenerateRequest) : result lexn (Req * PrefixHint) :=
  match build_req_from_generate (gr_request_id g) (str_or (gr_model_id g) (role_served_model_name rl))
          (gr_prompt_tokens g) (int_or (gr_max_new_tokens g) 4) (str_or (gr_requester_node_id g) NODE_ID) with
  | Raise x => Raise x
  | Ok r =>
      if bool_decide (gr_exec_mode g = EmptyString) then Ok (r, empty_hint)
      else match exec_mode_of (gr_exec_mode g) with
           | Raise x => Raise x
           | Ok m => Ok (set_exec_mode m r,
                         mkPrefixHint (gr_computed_tokens g) (gr_reused_blocks g) (gr_local_hit g) false)
           end
  end.

Definition pool_error_status (c : PoolErrorCode) : StatusCode :=
  match c with
  | TIMEOUT => UNAVAILABLE
  | CAPACITY => RESOURCE_EXHAUSTED
  | DOWNSTREAM => UNAVAILABLE
  | PROTOCOL_ERROR => UNAVAILABLE
  | INVALID_ARG => INVALID_ARGUMENT
  | PC_OK => INTERNAL
  end.

(** The [except] clauses, in their order. *)
Definition abort_status (x : lexn) : StatusCode :=
  match x with
  | EPool c => pool_error_status c
  | EValueError => INVALID_ARGUMENT
  | _ => INTERNAL
  end.

(** The call up to the wait: the item that was queued, or the status. *)
Definition generate_submit (rl : RoleConfig) (g : GenerateRequest) (e : Engine) : Engine * result StatusCode nat :=
  match generate_request rl g with
  | Raise x => (e, Raise (abort_status x))
  | Ok (r, h) =>
      match Worker.submit r (Some h) e with
      | (e', Ok id) => (e', Ok id)
      | (e', Raise x) => (e', Raise (abort_status x))
      end
  end.

(** The answer once the item is done. *)
Definition generate_reply (g : GenerateRequest) (it : Inbound) : result StatusCode GenerateResponse :=
  match Worker.submit_outcome it with
  | Raise x => Raise (abort_status x)
  | Ok d => Ok (mkGenerateResponse (gr_request_id g) (output_token_ids d) (reused_blocks d)
                  (prefill_blocks d) (exec_mode_value (exec_mode d)))
  end.

Lemma exec_mode_roundtrip m : exec_mode_of (exec_mode_value m) = Ok m.
Proof. by destruct m. Qed.

Lemma exec_mode_of_ok v m : exec_mode_of v = Ok m -> v = exec_mode_value m.
Proof. unfold exec_mode_of. repeat case_bool_decide; intros; by simplify_eq. Qed.

(** [Generate] either aborts without touching the engine or queues exactly one
    open item for this call; the item carries the caller's id and prompt, at
    least one new token, and the Router's mode and prefix hint if a mode was
    sent, else no reuse at all (whatever hint is on the wire).  Conversely a
    serving engine takes every call that names a known mode, or none, when a
    model name is known. *)
Theorem generate_submits_routed rl g e :
  role_served_model_name rl <> EmptyString -> 0 <= gr_max_new_tokens g -> en_items e !! en_next e = None ->
  match generate_submit rl g e with
  | (e', Raise st) => e' = e /\
      (en_stop e = true \/ en_started e = false \/ Lifecycle.accepts_new_requests (en_life e) = false \/
       (gr_exec_mode g <> EmptyString /\ forall m, gr_exec_mode g <> exec_mode_value m))
  | (e', Ok id) =>
      en_inbound e' = en_inbound e ++ [Some id] /\ en_items e !! id = None /\
      exists r h, en_items e' = <[id := mkInbound r (Some h) false [] []]> (en_items e) /\
      req_id r = gr_request_id g /\ prompt_token_ids r = gr_prompt_tokens g /\ 1 <= max_new r /\
      (gr_exec_mode g = EmptyString -> exec_mode r = COLOCATED /\ h = empty_hint) /\
      (gr_exec_mode g <> EmptyString -> gr_exec_mode g = exec_mode_value (exec_mode r) /\
      hint_computed_tokens h = gr_computed_tokens g /\ prebuilt h = false)
  end.
Proof.
  intros Hm Hn Hfresh.
  assert (Hmodel : str_or (gr_model_id g) (role_served_model_name rl) <> EmptyString)
    by (unfold str_or; by case_bool_decide).
  unfold generate_submit, generate_request, build_req_from_generate.
  rewrite (bool_decide_eq_false_2 _ Hmodel).
  assert (Hmax : 1 <= (if int_or (gr_max_new_tokens g) 4 =? 0 then 4 else int_or (gr_max_new_tokens g) 4)).
  { unfold int_or. repeat case_match; zbool; lia. }
  destruct (bool_decide (gr_exec_mode g = EmptyString)) eqn:Eb; [apply bool_decide_eq_true in Eb|apply bool_decide_eq_false in Eb].
  2: destruct (exec_mode_of (gr_exec_mode g)) as [m|x] eqn:Em.
  3: { split; [done|]. right. right. right. split; [done|]. intros m Hm'. rewrite Hm', exec_mode_roundtrip in Em. done. }
  all: unfold Worker.submit; destruct (en_stop e || negb (en_started e)) eqn:Es;
    [apply orb_true_iff in Es as [Es|Es]; [|apply negb_true_iff in Es]; by auto|].
  all: destruct (Lifecycle.accepts_new_requests (en_life e)) eqn:Ea; simpl; [|by auto].
  all: split_and!; [done|done|]; eexists _, _; split_and!; [done..|]; try done.
  intros _. split; [|done]. simpl. by apply exec_mode_of_ok.
Qed.

Definition routed_call : GenerateRequest :=
  mkGenerateRequest "r1" EmptyString [3; 4] 0 EmptyString "D_DIRECT" 2 1 true.
Definition open_engine : Engine := Worker.set_started true (Worker.set_life Lifecycle.SERVING Worker.new_engine).

Lemma generate_submits_routed_witness :
  exists r h, en_items (generate_submit default_role routed_call open_engine).1 !! 0%nat =
      Some (mkInbound r (Some h) false [] []) /\ exec_mode r = D_DIRECT /\ hint_computed_tokens h = 2.
Proof.
  pose proof (generate_submits_routed default_role routed_call open_engine ltac:(done) ltac:(done) eq_refl) as H.
  vm_compute in H. destruct H as (_&_&r&h&Hi&_&_&_&_&Hx). destruct (Hx ltac:(done)) as (Hmode&Hc&_).
  exists r, h. split; [vm_compute; injection Hi as -> ->; reflexivity|]. split; [|exact Hc].
  destruct r as [? ? ? ? ? ? ? ? ? ? ? []]; done.
Defined.

End Servicer.
