(* ===== verification/ColdStart.v ===== *)
(** * Cold start

    [python/lake/runtime/coldstart.py]: the sequential and the layer-async start
    of a worker, and the waterfall of the latter.

    The clock counts ticks from [t0].  What the source measures is given by the
    durations of the calls it makes: [load i] for [load_layer(i)], [fetch] for
    [prefetch(hot_blocks)], [spawn] between the start of the prefetch thread and
    its first statement.  The thread runs beside the loading loop, so its
    readings are offsets from where it was started. *)

From S2P Require Import Prelude LakeTypes.

Record ColdStartMetrics : Type := mkMetrics {
  strategy : string;
  time_to_serve_gate : Z;
  time_to_weights_done : Z;
  time_to_kv_warm : Z;
  time_to_fully_ready : Z;
  layers_loaded_at_gate : Z
}.

(** The names: ["provision"], [f"weight_layer_{i}"] and ["kv_prefetch"]. *)
Inductive segment_name : Type := Provision | WeightLayer (i : Z) | KvPrefetch.
#[export] Instance segment_name_eq_dec : EqDecision segment_name.
Proof. solve_decision. Defined.

Record WaterfallSegment : Type := mkSegment {
  seg_name : segment_name;
  start_s : Z;
  end_s : Z;
  critical : bool
}.
Definition dur_ms (s : WaterfallSegment) : Z := (end_s s - start_s s) * 1000.

Section start.
(** [LayerSource], and [KVPrefetcher] ([None]: no prefetcher or no hot block). *)
Context (num_layers : Z) (load : Z -> Z) (fetch : option Z) (spawn : Z).

(** The clock after loading the layers [lys] from time [t]. *)
Definition load_layers (lys : list Z) (t : Z) : Z := foldl (fun t i => t + load i) t lys.

Definition run_sequential : ColdStartMetrics :=
  let weights_done := load_layers (py_range num_layers) 0 in
  let kv_warm := match fetch with Some d => weights_done + d | None => 0 end in
  mkMetrics "sequential" weights_done weights_done kv_warm (Z.max weights_done kv_warm) num_layers.

Definition bad_gate (serve_after_layers : Z) : bool :=
  (serve_after_layers <=? 0) || (num_layers <? serve_after_layers).

(** One turn of the loading loop of [run_layer_async]: the clock and [gate_at]. *)
Definition load_one (serve_after_layers : Z) (st : Z * Z) (i : Z) : Z * Z :=
  let t := st.1 + load i in
  (t, if i + 1 =? serve_after_layers then t else st.2).

(** [_prefetch] in its thread, started at [t]. *)
Definition prefetch_done (t : Z) : Z := t + spawn + default 0 fetch.

Definition run_layer_async (serve_after_layers : Z) : result lexn ColdStartMetrics :=
  if bad_gate serve_after_layers then Raise EValueError
  else
    let kv_warm_at := prefetch_done 0 in
    let '(weights_done, gate_at) := foldl (load_one serve_after_layers) (0, 0) (py_range num_layers) in
    Ok (mkMetrics "layer_async+kv_prefetch" gate_at weights_done kv_warm_at
          (Z.max weights_done kv_warm_at) serve_after_layers).

(** The loop of [waterfall_layer_async]: the clock, [gate_at] and [segs]. *)
Definition waterfall_one (serve_after_layers : Z) (st : Z * Z * list WaterfallSegment) (i : Z) :
    Z * Z * list WaterfallSegment :=
  let '(layer_start, gate_at, segs) := st in
  let now := layer_start + load i in
  (now, if i + 1 =? serve_after_layers then now else gate_at,
   segs ++ [mkSegment (WeightLayer i) layer_start now (i + 1 <=? serve_after_layers)]).

Definition waterfall_layer_async (serve_after_layers provision_s : Z) :
    result lexn (ColdStartMetrics * list WaterfallSegment) :=
  if bad_gate serve_after_layers then Raise EValueError
  else
    let '(t1, segs0) :=
      if 0 <? provision_s then (provision_s, [mkSegment Provision 0 provision_s true]) else (0, []) in
    let '(weights_done, gate_at, segs1) :=
      foldl (waterfall_one serve_after_layers) (t1, 0, segs0) (py_range num_layers) in
    let segs2 :=
      match fetch with
      | Some _ => segs1 ++ [mkSegment KvPrefetch (t1 + spawn) (prefetch_done t1) false]
      | None => segs1
      end in
    let kv_warm_at := match fetch with Some _ => prefetch_done t1 | None => 0 end in
    Ok (mkMetrics "layer_async+kv_prefetch" gate_at weights_done kv_warm_at
          (Z.max weights_done kv_warm_at) serve_after_layers, segs2).

(** ** Closed forms *)

Definition loads (a b : Z) : Z := zsum (load <$> py_range2 a b).

Lemma load_layers_sum lys t : load_layers lys t = t + zsum (load <$> lys).
Proof.
  unfold load_layers. revert t. induction lys as [|i lys IH]; intros t; [simpl; lia|].
  rewrite fmap_cons, zsum_cons. simpl. rewrite IH. lia.
Qed.

Lemma loads_app a b c : a <= b -> b <= c -> loads a c = loads a b + loads b c.
Proof.
  intros H1 H2. unfold loads, py_range2. rewrite <- zsum_app, <- fmap_app. f_equal. f_equal.
  replace (Z.to_nat (c - a)) with (Z.to_nat (b - a) + Z.to_nat (c - b))%nat by lia.
  rewrite zseq_app. do 2 f_equal. lia.
Qed.

Lemma loads_one a : loads a (a + 1) = load a.
Proof.
  unfold loads, py_range2. replace (Z.to_nat (a + 1 - a)) with 1%nat by lia.
  rewrite zseq_S. simpl. unfold zseq. simpl. lia.
Qed.

(** A loop over [range(b)], peeled at its end. *)
Lemma foldl_range_snoc {B} (f : B -> Z -> B) (b0 : B) n : 0 <= n ->
  foldl f b0 (py_range (n + 1)) = f (foldl f b0 (py_range n)) n.
Proof.
  intros H. unfold py_range. replace (Z.to_nat (n + 1)) with (Z.to_nat n + 1)%nat by lia.
  rewrite zseq_app, foldl_app. simpl. f_equal. lia.
Qed.

Lemma load_one_sum k n : 0 < k -> 0 <= n ->
  foldl (load_one k) (0, 0) (py_range n) = (loads 0 n, if n <? k then 0 else loads 0 k).
Proof.
  intros Hk. revert n. apply (natlike_ind (fun n => foldl (load_one k) (0, 0) (py_range n) = _)).
  { rewrite (proj2 (Z.ltb_lt _ _) Hk). done. }
  intros n Hn IH. rewrite <- Z.add_1_r, foldl_range_snoc, IH by done. unfold load_one. simpl.
  rewrite (loads_app 0 n (n + 1)), loads_one by lia. f_equal.
  repeat case_match; zbool; subst; try lia. rewrite (loads_app 0 n (n + 1)), loads_one by lia. done.
Qed.

(** Segments one after the other from [a] to [b]. *)
Fixpoint tiles (a b : Z) (segs : list WaterfallSegment) : Prop :=
  match segs with
  | [] => a = b
  | s :: segs' => start_s s = a /\ a <= end_s s /\ tiles (end_s s) b segs'
  end.

Lemma tiles_snoc a b segs s : tiles a b segs -> start_s s = b -> b <= end_s s -> tiles a (end_s s) (segs ++ [s]).
Proof.
  revert a. induction segs as [|x segs IH]; intros a; simpl; [by intros -> ? ?|]. intros (?&?&?) ? ?. auto.
Qed.

Definition crit (segs : list WaterfallSegment) : list WaterfallSegment := filter (fun s => critical s = true) segs.

Lemma waterfall_loop k t segs0 n :
  (forall i, 0 <= load i) -> 0 < k -> 0 <= n -> 0 <= t -> tiles 0 t segs0 -> crit segs0 = segs0 ->
  exists segs, foldl (waterfall_one k) (t, 0, segs0) (py_range n) =
      (t + loads 0 n, if n <? k then 0 else t + loads 0 k, segs) /\
    tiles 0 (t + loads 0 n) segs /\ tiles 0 (t + loads 0 (Z.min n k)) (crit segs).
Proof.
  intros Hload Hk Hn Ht H0 Hc. revert n Hn.
  apply (natlike_ind (fun n => exists segs, foldl _ _ (py_range n) = _ /\ _ /\ _)).
  { exists segs0. rewrite (proj2 (Z.ltb_lt _ _) Hk), Z.min_l, Hc by lia. unfold loads, py_range2. simpl.
    rewrite Z.add_0_r. done. }
  intros n Hn (segs&E&H1&H2). rewrite <- Z.add_1_r, foldl_range_snoc, E by done. unfold waterfall_one.
  assert (El : t + loads 0 n + load n = t + loads 0 (n + 1))
    by (rewrite (loads_app 0 n (n + 1)), loads_one; lia).
  rewrite El. specialize (Hload n). eexists. split; [|split].
  - f_equal. f_equal. repeat case_match; zbool; subst; lia || done.
  - apply (tiles_snoc _ _ _ (mkSegment _ (t + loads 0 n) (t + loads 0 (n + 1)) _) H1); simpl; [done|lia].
  - unfold crit in *. rewrite filter_app. destruct (n + 1 <=? k) eqn:Ek; zbool.
    + rewrite filter_cons, decide_True by done. rewrite Z.min_l in H2 by lia. rewrite Z.min_l by lia.
      apply (tiles_snoc _ _ _ (mkSegment _ (t + loads 0 n) (t + loads 0 (n + 1)) _) H2); simpl; [done|lia].
    + rewrite filter_cons, decide_False by done. simpl. rewrite app_nil_r.
      rewrite Z.min_r in H2 by lia. by rewrite Z.min_r by lia.
Qed.

(** Layer-async start is never later than the sequential one: for every gate
    within the model, the serve gate opens after exactly the first
    [serve_after_layers] layers, weights are done at the same time, and (with a
    prefetch thread that starts at once) the worker is fully ready no later; a
    gate outside the model is refused. *)
Theorem layer_async_not_slower k :
  (forall i, 0 <= load i) -> (forall d, fetch = Some d -> 0 <= d) -> 0 <= num_layers -> spawn = 0 ->
  match run_layer_async k with
  | Raise x => x = EValueError /\ ~ (0 < k <= num_layers)
  | Ok m => 0 < k <= num_layers /\
      time_to_serve_gate m = loads 0 k /\ layers_loaded_at_gate m = k /\
      time_to_weights_done m = time_to_weights_done run_sequential /\
      time_to_serve_gate m <= time_to_serve_gate run_sequential /\
      time_to_kv_warm m <= time_to_kv_warm run_sequential /\
      time_to_fully_ready m <= time_to_fully_ready run_sequential
  end.
Proof.
  intros Hload Hf Hn Hs. unfold run_layer_async, bad_gate.
  destruct (k <=? 0) eqn:E1; simpl; zbool; [split; [done|lia]|].
  destruct (num_layers <? k) eqn:E2; zbool; [split; [done|lia]|].
  rewrite load_one_sum by lia. destruct (num_layers <? k) eqn:E3; zbool; [lia|].
  unfold run_sequential. rewrite load_layers_sum. simpl.
  assert (El : zsum (load <$> py_range num_layers) = loads 0 num_layers).
  { unfold loads, py_range2, py_range. by rewrite Z.sub_0_r. }
  rewrite El, Z.add_0_l, (loads_app 0 k num_layers) by lia.
  assert (Hpos : forall a b, 0 <= loads a b).
  { intros a b. apply zsum_nonneg, Forall_fmap, Forall_true. intros i. apply Hload. }
  pose proof (Hpos k num_layers). pose proof (Hpos 0 k). unfold prefetch_done. rewrite Hs.
  destruct fetch as [d|]; simpl; [specialize (Hf d eq_refl)|]; lia.
Qed.

(** The waterfall is a decomposition of the start: the layer and provision
    segments tile the time up to the end of the weights without gap or overlap,
    the critical ones alone tile exactly the time up to the serve gate, and the
    prefetch is never critical. *)
Theorem waterfall_decomposes k provision :
  (forall i, 0 <= load i) -> 0 < k <= num_layers -> 0 <= provision ->
  exists m segs, waterfall_layer_async k provision = Ok (m, segs) /\
    time_to_serve_gate m = provision + loads 0 k /\
    tiles 0 (time_to_serve_gate m) (crit segs) /\
    tiles 0 (time_to_weights_done m) (filter (fun s => seg_name s <> KvPrefetch) segs) /\
    time_to_fully_ready m = Z.max (time_to_weights_done m) (time_to_kv_warm m).
Proof.
  intros Hload Hk Hp. unfold waterfall_layer_async, bad_gate.
  rewrite (proj2 (Z.leb_gt k 0)), (proj2 (Z.ltb_ge num_layers k)) by lia. simpl.
  set (segs0 := if 0 <? provision then [mkSegment Provision 0 provision true] else []).
  assert (Epair : (if 0 <? provision then (provision, [mkSegment Provision 0 provision true]) else (0, []))
                  = (provision, segs0)).
  { unfold segs0. destruct (0 <? provision) eqn:E; [done|]. zbool. by replace provision with 0 by lia. }
  rewrite Epair.
  assert (H0 : tiles 0 provision segs0 /\ crit segs0 = segs0 /\
    Forall (fun s => seg_name s <> KvPrefetch) segs0).
  { unfold segs0. destruct (0 <? provision) eqn:E; zbool; simpl; split_and!; try done; try lia.
    by repeat constructor. }
  destruct H0 as (Ht&Hc&Hnm).
  destruct (waterfall_loop k provision segs0 num_layers Hload ltac:(lia) ltac:(lia) Hp Ht Hc) as (segs&E&Hall&Hcrit).
  rewrite E, (proj2 (Z.ltb_ge num_layers k)) by lia. rewrite Z.min_r in Hcrit by lia.
  assert (Hname : Forall (fun s => seg_name s <> KvPrefetch) segs).
  { assert (Hgen : forall l t g sg, Forall (fun s => seg_name s <> KvPrefetch) sg ->
      Forall (fun s => seg_name s <> KvPrefetch) (foldl (waterfall_one k) (t, g, sg) l).2).
    { induction l as [|i l IH]; intros t g sg Hsg; [done|]. simpl. apply IH. apply Forall_app. split; [done|].
      by repeat constructor. }
    pose proof (Hgen (py_range num_layers) provision 0 segs0 Hnm) as H. by rewrite E in H. }
  eexists _, _. split; [reflexivity|]. simpl. split; [done|].
  assert (Hid : filter (fun s => seg_name s <> KvPrefetch) segs = segs).
  { clear -Hname. induction Hname as [|s l Hs _ IH]; [done|]. rewrite filter_cons, decide_True by done. by rewrite IH. }
  destruct fetch as [d|]; [|by rewrite Hid]. unfold crit in *. rewrite !filter_app, Hid.
  rewrite (filter_cons_False (fun s => critical s = true)) by done.
  rewrite (filter_cons_False (fun s => seg_name s <> KvPrefetch)) by (simpl; tauto).
  by rewrite !app_nil_r.
Qed.

End start.

Lemma layer_async_not_slower_witness :
  exists m, run_layer_async 4 (fun _ => 3) (Some 6) 0 2 = Ok m /\ time_to_serve_gate m = 6 /\
    time_to_fully_ready m <= time_to_fully_ready (run_sequential 4 (fun _ => 3) (Some 6)).
Proof.
  pose proof (layer_async_not_slower 4 (fun _ => 3) (Some 6) 0 2 ltac:(intros; lia)
    ltac:(intros d [= <-]; lia) ltac:(lia) eq_refl) as H.
  destruct (run_layer_async 4 (fun _ => 3) (Some 6) 0 2) as [m|x] eqn:E.
  - exists m. destruct H as (_&Hg&_&_&_&_&Hr). split; [reflexivity|]. split; [exact Hg|exact Hr].
  - destruct H as [_ []]. lia.
Defined.

Lemma waterfall_decomposes_witness :
  exists m segs, waterfall_layer_async 3 (fun _ => 4) (Some 9) 1 2 7 = Ok (m, segs) /\
    time_to_serve_gate m = 15 /\ tiles 0 15 (crit segs).
Proof.
  destruct (waterfall_decomposes 3 (fun _ => 4) (Some 9) 1 2 7) as (m&segs&E&Hg&Hc&_);
    [intros; lia|lia|lia|].
  exists m, segs. rewrite Hg in Hc. split; [exact E|]. split; [exact Hg|exact Hc].
Defined.
