(* ===== verification/Attention.v ===== *)
(** * Reference attention

    [python/lake/kernels/attn_ref.py] and [attn_triton.py], and the list backends of
    [engine/model_executor/layers/attentions/attention.py].

    Floating point numbers are a parameter: a type with the operations the code uses
    ([FloatOps]).  [sum] is one of them, because its rounding depends on the version
    of Python.  [FloatLaws] names what the masked positions rely on; the binary64
    numbers of the standard library's [SpecFloat] satisfy it. *)

From S2P Require Import Prelude PyDict LakeTypes.
From Stdlib Require Import QArith Qcanon SpecFloat.
Local Open Scope Z_scope.

Class FloatOps (F : Type) : Type := {
  f0 : F;
  f1 : F;
  f_ninf : F;                       (* float("-inf") *)
  fadd : F -> F -> F;
  fsub : F -> F -> F;
  fmul : F -> F -> F;
  fdiv : F -> F -> F;
  fexp : F -> F;                    (* math.exp *)
  fsqrt : Z -> F;                   (* math.sqrt of an integer *)
  fsum : list F -> F;               (* sum *)
  fgt : F -> F -> bool;             (* > *)
  feqb : F -> F -> bool             (* == *)
}.

(** The same number, up to the sign of a zero. *)
Definition fsame {F} {O : FloatOps F} (x y : F) : Prop := x = y \/ (feqb x f0 = true /\ feqb y f0 = true).

(** What IEEE 754 says of the operations, with all NaNs taken for one: minus infinity
    equals itself, zeros at the end of a sum change at most the sign of a zero, NaN
    propagates, and a zero divided by a number other than zero and NaN, times a
    finite number, is a zero that changes at most the sign of a zero. *)
Class FloatLaws (F : Type) {O : FloatOps F} : Type := {
  ffinite : F -> Prop;
  fnan : F;
  fl_is_nan : forall x, {x = fnan} + {x <> fnan};
  fl_ninf : feqb f_ninf f_ninf = true;
  fl_one : feqb f1 f0 = false /\ f1 <> fnan;
  fl_empty : feqb (fsum []) f0 = true;
  fl_sum : forall l n, fsame (fsum (l ++ replicate n f0)) (fsum l);
  fl_div_nan : forall x, fdiv x fnan = fnan;
  fl_mul_nan : forall y, fmul fnan y = fnan;
  fl_add_nan : forall x, fadd x fnan = fnan;
  fl_zero : forall x y z, ffinite y -> feqb z f0 = false -> z <> fnan -> fsame (fadd x (fmul (fdiv f0 z) y)) x
}.

Section attn.
Context {F : Type} {O : FloatOps F}.
Abbreviation matrix := (list (list F)).
Abbreviation res := (result lexn).

(** [l[i]] *)
Definition idx {A} (l : list A) (i : nat) : res A :=
  match l !! i with Some x => Ok x | None => Raise EIndexError end.

Fixpoint traverse {A B} (f : A -> res B) (l : list A) : res (list B) :=
  match l with
  | [] => Ok []
  | x :: l => b ← f x; bs ← traverse f l; Ok (b :: bs)
  end.

(** [sum(qrow[u] * k[j][u] for u in range(d)) * scale] *)
Definition score (d : nat) (scale : F) (qrow : list F) (k : matrix) (j : nat) : res F :=
  terms ← traverse (fun u => a ← idx qrow u; krow ← idx k j; b ← idx krow u; Ok (fmul a b)) (seq 0 d);
  Ok (fmul (fsum terms) scale).

Definition scores (d : nat) (scale : F) (pos : Z) (qrow : list F) (k : matrix) : res (list F) :=
  traverse (fun j => if pos <? Z.of_nat j then Ok f_ninf else score d scale qrow k j) (seq 0 (length k)).

(** [max(finite) if finite else 0.0] *)
Definition peak (ss : list F) : F :=
  match filter (fun x => feqb x f_ninf = false) ss with
  | [] => f0
  | x :: r => foldl (fun m y => if fgt y m then y else m) x r
  end.

Definition exps (ss : list F) : list F :=
  (fun s => if feqb s f_ninf then f0 else fexp (fsub s (peak ss))) <$> ss.

(** [sum(exps) or 1.0] *)
Definition norm (es : list F) : F := let z := fsum es in if feqb z f0 then f1 else z.

Definition weights (ss : list F) : list F := (fun e => fdiv e (norm (exps ss))) <$> exps ss.

(** [row[u] += w * v[j][u]] for every [u] *)
Definition add_row (d : nat) (v : matrix) (row : list F) (jw : nat * F) : res (list F) :=
  traverse (fun u => r ← idx row u; vrow ← idx v jw.1; x ← idx vrow u; Ok (fadd r (fmul jw.2 x))) (seq 0 d).

Fixpoint fold_rows (d : nat) (v : matrix) (jws : list (nat * F)) (row : list F) : res (list F) :=
  match jws with
  | [] => Ok row
  | jw :: jws => row' ← add_row d v row jw; fold_rows d v jws row'
  end.

Definition attn_row (d : nat) (scale : F) (k v : matrix) (pos : Z) (qrow : list F) : res (list F) :=
  ss ← scores d scale pos qrow k;
  fold_rows d v (zip (seq 0 (length k)) (weights ss)) (replicate d f0).

Definition head_dim (q k : matrix) : nat :=
  match q with r :: _ => length r | [] => match k with r :: _ => length r | [] => 0%nat end end.
Definition attn_scale (d : nat) : F := if (d =? 0)%nat then f1 else fdiv f1 (fsqrt (Z.of_nat d)).

Fixpoint attn_rows (d : nat) (scale : F) (k v : matrix) (pos : Z) (q : matrix) : res matrix :=
  match q with
  | [] => Ok []
  | qrow :: q => row ← attn_row d scale k v pos qrow; out ← attn_rows d scale k v (pos + 1) q; Ok (row :: out)
  end.

Definition causal_attn_queries (q k v : matrix) (q_pos_start : Z) : res matrix :=
  let d := head_dim q k in attn_rows d (attn_scale d) k v q_pos_start q.

Definition causal_attn (q k v : matrix) : res matrix := causal_attn_queries q k v 0.
Definition causal_attn_triton (q k v : matrix) : res matrix := causal_attn q k v.

(** The backends over lists of floats; [torch] works on tensors. *)
Record AttentionBackend : Type := mkBackend {
  name : string;
  forward : matrix -> matrix -> matrix -> res matrix;
  forward_queries : matrix -> matrix -> matrix -> Z -> res matrix }.
Definition RefAttentionBackend : AttentionBackend := mkBackend "ref" causal_attn causal_attn_queries.
Definition TritonAttentionBackend : AttentionBackend := mkBackend "triton" causal_attn_triton causal_attn_queries.

(** [None]: the tensor backend. *)
Definition build_attn_backend (name : string) : option AttentionBackend :=
  if bool_decide (name = "ref") then Some RefAttentionBackend
  else if bool_decide (name = "torch") then None
  else Some TritonAttentionBackend.

(** ** Rows *)

Lemma traverse_app {A B} (f : A -> res B) l1 l2 :
  traverse f (l1 ++ l2) = (b1 ← traverse f l1; b2 ← traverse f l2; Ok (b1 ++ b2)).
Proof.
  induction l1 as [|x l1 IH]; simpl.
  - unfold mbind, result_bind. by destruct (traverse f l2).
  - rewrite IH. unfold mbind, result_bind. destruct (f x); [|done]. destruct (traverse f l1); [|done].
    by destruct (traverse f l2).
Qed.

Lemma traverse_ext {A B} (f g : A -> res B) l : (forall x, x ∈ l -> f x = g x) -> traverse f l = traverse g l.
Proof.
  induction l as [|x l IH]; intros H; [done|]. simpl. rewrite (H x) by left. rewrite IH; [done|].
  intros y Hy. apply H. by right.
Qed.

Lemma traverse_length {A B} (f : A -> res B) l bs : traverse f l = Ok bs -> length bs = length l.
Proof.
  revert bs. induction l as [|x l IH]; intros bs; simpl; [by intros [= <-]|]. unfold mbind, result_bind.
  destruct (f x); [|done]. destruct (traverse f l); [|done]. intros [= <-]. simpl. by rewrite (IH _ eq_refl).
Qed.

Lemma traverse_const {A B} (f : A -> res B) b l : (forall x, x ∈ l -> f x = Ok b) ->
  traverse f l = Ok (replicate (length l) b).
Proof.
  induction l as [|x l IH]; intros H; [done|]. simpl. rewrite (H x) by left.
  unfold mbind, result_bind. rewrite IH; [done|]. intros y Hy. apply H. by right.
Qed.

Lemma idx_take {A} (l : list A) m i : (i < m)%nat -> idx (take m l) i = idx l i.
Proof. intros H. unfold idx. by rewrite lookup_take_lt. Qed.

Lemma fold_rows_app d v l1 l2 : forall row,
  fold_rows d v (l1 ++ l2) row = (r ← fold_rows d v l1 row; fold_rows d v l2 r).
Proof.
  induction l1 as [|jw l1 IH]; intros row; [done|]. simpl. unfold mbind, result_bind in *.
  destruct (add_row d v row jw); [apply IH|done].
Qed.

Lemma fold_rows_length d v l : forall row row', length row = d -> fold_rows d v l row = Ok row' -> length row' = d.
Proof.
  induction l as [|jw l IH]; intros row row' Hl; simpl; [by intros [= <-]|]. unfold mbind, result_bind.
  destruct (add_row d v row jw) as [r|] eqn:E; [|done]. apply IH. apply traverse_length in E. by rewrite E, length_seq.
Qed.
End attn.

(** ** Later positions do not matter *)

Section causal.
Context {F : Type} {O : FloatOps F} {L : FloatLaws F}.
Abbreviation matrix := (list (list F)).

(** Every entry of the values is finite. *)
Definition finite_rows (v : matrix) : Prop := Forall (Forall ffinite) v.

Lemma scores_split d scale pos qrow (k : matrix) m : pos < Z.of_nat m ->
  scores d scale pos qrow k =
  (ss ← scores d scale pos qrow (take m k); Ok (ss ++ replicate (length k - m) f_ninf)).
Proof.
  intros Hm. unfold scores. rewrite length_take.
  assert (Hs : seq 0 (length k) = seq 0 (m `min` length k) ++ seq (m `min` length k) (length k - m)).
  { rewrite <- seq_app. f_equal. lia. }
  rewrite Hs, traverse_app.
  rewrite (traverse_const _ f_ninf (seq (m `min` length k) (length k - m))).
  - rewrite length_seq. f_equal. apply traverse_ext. intros j [_ Hj]%elem_of_seq. case_match; [done|].
    unfold score. f_equal. apply traverse_ext. intros u _. rewrite idx_take by lia. done.
  - intros j [Hj1 Hj2]%elem_of_seq. rewrite (proj2 (Z.ltb_lt _ _)); [done|lia].
Qed.

Lemma peak_masked (ss : list F) n : peak (ss ++ replicate n f_ninf) = peak ss.
Proof.
  unfold peak. rewrite filter_app. replace (filter _ (replicate n f_ninf)) with (@nil F); [by rewrite app_nil_r|].
  induction n as [|n IH]; [done|]. simpl. rewrite filter_cons, decide_False by (by rewrite fl_ninf). done.
Qed.

Lemma exps_masked (ss : list F) n : exps (ss ++ replicate n f_ninf) = exps ss ++ replicate n f0.
Proof.
  unfold exps. rewrite peak_masked, fmap_app. f_equal. rewrite fmap_replicate. by rewrite fl_ninf.
Qed.

Lemma weights_masked (ss : list F) n :
  weights (ss ++ replicate n f_ninf) = weights ss ++ replicate n (fdiv f0 (norm (exps ss))).
Proof.
  unfold weights. rewrite exps_masked. assert (norm (exps ss ++ replicate n f0) = norm (exps ss)) as ->.
  { unfold norm. by destruct (fl_sum (exps ss) n) as [-> | [-> ->]]. }
  by rewrite fmap_app, fmap_replicate.
Qed.

Lemma fsame_trans (x y z : F) : fsame x y -> fsame y z -> fsame x z.
Proof. unfold fsame. intros [-> | [H1 H2]] [-> | [H3 H4]]; auto. Qed.

Lemma rows_same_trans (r1 r2 r3 : list F) : Forall2 fsame r1 r2 -> Forall2 fsame r2 r3 -> Forall2 fsame r1 r3.
Proof. intros H1 H2. assert (Transitive fsame) by (intros ???; apply fsame_trans). by transitivity r2. Qed.

Lemma rows_same_refl (r : list F) : Forall2 fsame r r.
Proof. apply Forall_Forall2_diag, Forall_true. by left. Qed.

(** The divisor of the weights is never zero, and NaN only if there is something to
    weigh. *)
Lemma norm_nonzero (es : list F) : feqb (norm es) f0 = false.
Proof. unfold norm. destruct (feqb (fsum es) f0) eqn:E; [apply fl_one|done]. Qed.

Lemma norm_nan (es : list F) : norm es = fnan -> es <> [].
Proof. intros H ->. unfold norm in H. rewrite fl_empty in H. by apply fl_one in H. Qed.

(** A row of zero weight adds nothing. *)
Lemma traverse_rel {A B} (P : A -> B -> Prop) (f : nat -> result lexn B) (l : list A) : forall i r,
  (forall u x y, l !! u = Some x -> f (i + u)%nat = Ok y -> P x y) ->
  traverse f (seq i (length l)) = Ok r -> Forall2 P l r.
Proof.
  induction l as [|x l IH]; intros i r H; simpl; [by intros [= <-]|]. unfold mbind, result_bind.
  destruct (f i) as [y|] eqn:E; [|done]. destruct (traverse f (seq (S i) (length l))) as [ys|] eqn:Et; [|done].
  intros [= <-]. constructor.
  - apply (H 0%nat); [done|]. by rewrite Nat.add_0_r.
  - eapply IH; [|exact Et]. intros u z w Hu Hf. apply (H (S u) z w); [done|]. by rewrite Nat.add_succ_r.
Qed.

Lemma add_row_zero d (v : matrix) row j z r : finite_rows v -> feqb z f0 = false -> z <> fnan -> length row = d ->
  add_row d v row (j, fdiv f0 z) = Ok r -> Forall2 fsame r row.
Proof.
  intros Hv Hz Hn <- H. apply Forall2_flip. revert H. apply traverse_rel. intros u x y Hu. rewrite Nat.add_0_l. simpl.
  unfold mbind, result_bind, idx. rewrite Hu.
  destruct (v !! j) as [vrow|] eqn:Hj; [|done]. destruct (vrow !! u) as [e|] eqn:He; [|done]. intros [= <-].
  apply fl_zero; [|done..]. eapply Forall_lookup_1 in Hj; [|exact Hv]. eapply Forall_lookup_1 in He; [|exact Hj]. done.
Qed.

Lemma fold_rows_zero d (v : matrix) z js : finite_rows v -> feqb z f0 = false -> z <> fnan -> forall row r, length row = d ->
  fold_rows d v (zip js (replicate (length js) (fdiv f0 z))) row = Ok r -> Forall2 fsame r row.
Proof.
  intros Hv Hz Hn. induction js as [|j js IH]; intros row r Hl; simpl; [intros [= <-]; apply rows_same_refl|].
  unfold mbind, result_bind. destruct (add_row d v row (j, fdiv f0 z)) as [r'|] eqn:E; [|done]. intros Hf.
  assert (Hl' : length r' = d) by (apply traverse_length in E; by rewrite E, length_seq).
  apply add_row_zero in E; [|done..]. eapply rows_same_trans; [by apply IH|exact E].
Qed.

(** Once a weight is NaN the row is NaN. *)
Lemma add_row_nan d (v : matrix) row j r : add_row d v row (j, fnan) = Ok r -> r = replicate d fnan.
Proof.
  intros H. apply list_eq_same_length with (n := d); [by rewrite length_replicate|by apply traverse_length in H; rewrite H, length_seq|].
  intros i x y Hi Hx Hy. apply lookup_replicate in Hy as [-> _].
  assert (Hall : Forall (fun x => x = fnan) r).
  { clear -H. unfold add_row in H. revert r H. generalize (seq 0 d). induction l as [|u l IH]; intros r; simpl; [by intros [= <-]|].
    unfold mbind at 1, result_bind at 1. destruct (_ ← idx row u; _) as [e|] eqn:E; [|done]. unfold mbind, result_bind.
    destruct (traverse _ l) as [es|] eqn:Et; [|done]. intros [= <-]. constructor; [|by apply IH].
    revert E. unfold mbind, result_bind. destruct (idx row u); [|done]. destruct (idx v j); [|done]. destruct (idx _ u); [|done].
    intros [= <-]. by rewrite fl_mul_nan, fl_add_nan. }
  exact (Forall_lookup_1 _ _ _ _ Hall Hx).
Qed.

Lemma fold_rows_nan d (v : matrix) js : js <> [] -> forall row r,
  fold_rows d v (zip js (replicate (length js) fnan)) row = Ok r -> r = replicate d fnan.
Proof.
  induction js as [|j js IH]; intros Hne row r; [done|]. simpl. unfold mbind, result_bind.
  destruct (add_row d v row (j, fnan)) as [r'|] eqn:E; [|done]. apply add_row_nan in E as ->.
  destruct js as [|j' js]; [by intros [= <-]|]. by apply IH.
Qed.

Lemma fold_rows_take d (v : matrix) m jws : (forall jw, jw ∈ jws -> (jw.1 < m)%nat) -> forall row,
  fold_rows d (take m v) jws row = fold_rows d v jws row.
Proof.
  induction jws as [|jw jws IH]; intros Hm row; [done|]. simpl.
  assert (add_row d (take m v) row jw = add_row d v row jw) as ->.
  { apply traverse_ext. intros u _. rewrite idx_take by (apply Hm; left). done. }
  unfold mbind, result_bind. destruct (add_row d v row jw); [|done]. apply IH. intros x Hx. apply Hm. by right.
Qed.

(** The masked weights, all of them a zero divided by the norm. *)
Lemma masked_rows d (v : matrix) ss js1 js2 row r : finite_rows v -> length js1 = length ss ->
  fold_rows d v (zip js1 (weights ss)) (replicate d f0) = Ok row ->
  fold_rows d v (zip js2 (replicate (length js2) (fdiv f0 (norm (exps ss))))) row = Ok r -> Forall2 fsame r row.
Proof.
  intros Hv Hl H1 H2. assert (Hrow : length row = d) by (eapply fold_rows_length; [|exact H1]; by rewrite length_replicate).
  destruct (fl_is_nan (norm (exps ss))) as [En|Hn]; [|by eapply fold_rows_zero; [done|apply norm_nonzero|done|done|exact H2]].
  assert (Hw : weights ss = replicate (length js1) fnan).
  { unfold weights. rewrite En, Hl. assert (Hle : length ss = length (exps ss)) by (unfold exps; by rewrite length_fmap).
    rewrite Hle. clear. induction (exps ss) as [|e es IH]; [done|]. rewrite fmap_cons, fl_div_nan, IH. done. }
  rewrite Hw in H1. apply fold_rows_nan in H1 as ->.
  2: { apply norm_nan in En. intros ->. apply En. unfold exps. by destruct ss. }
  rewrite En, fl_div_nan in H2. destruct js2 as [|j js2]; [simpl in H2; injection H2 as <-; apply rows_same_refl|].
  apply fold_rows_nan in H2 as ->; [apply rows_same_refl|done].
Qed.

(** The row at a position needs the keys and values up to that position only. *)
Lemma attn_row_causal d scale (k v : matrix) pos qrow m r : finite_rows v -> pos < Z.of_nat m ->
  attn_row d scale k v pos qrow = Ok r ->
  exists r', attn_row d scale (take m k) (take m v) pos qrow = Ok r' /\ Forall2 fsame r r'.
Proof.
  intros Hv Hm. unfold attn_row. rewrite (scores_split d scale pos qrow k m Hm).
  destruct (scores d scale pos qrow (take m k)) as [ss|] eqn:Es; [|done]. unfold mbind, result_bind.
  rewrite weights_masked. rewrite length_take.
  assert (Hss : length ss = (m `min` length k)%nat).
  { apply traverse_length in Es. by rewrite Es, length_seq, length_take. }
  assert (Hs : seq 0 (length k) = seq 0 (m `min` length k) ++ seq (m `min` length k) (length k - m)).
  { rewrite <- seq_app. f_equal. lia. }
  rewrite Hs, zip_with_app by (unfold weights, exps; by rewrite !length_fmap, length_seq, Hss). rewrite fold_rows_app.
  rewrite fold_rows_take.
  2: { intros [j w] Hj. apply elem_of_zip_l in Hj. apply elem_of_seq in Hj. simpl. lia. }
  unfold mbind, result_bind. destruct (fold_rows d v _ (replicate d f0)) as [row|] eqn:Ef; [|done].
  intros Hr. exists row. split; [done|].
  rewrite <- (length_seq (length k - m) (m `min` length k)) in Hr at 2.
  eapply masked_rows; [done| |exact Ef|exact Hr]. by rewrite length_seq.
Qed.

(** ** Chunks *)

Lemma attn_rows_length d scale (k v : matrix) q : forall pos out, attn_rows d scale k v pos q = Ok out -> length out = length q.
Proof.
  induction q as [|r q IH]; intros pos out; simpl; [by intros [= <-]|]. unfold mbind, result_bind.
  destruct (attn_row d scale k v pos r); [|done]. destruct (attn_rows d scale k v (pos + 1) q) eqn:E; [|done].
  intros [= <-]. simpl. by rewrite (IH _ _ E).
Qed.

Lemma attn_rows_drop d scale (k v : matrix) s : forall q pos out, attn_rows d scale k v pos q = Ok out ->
  attn_rows d scale k v (pos + Z.of_nat s) (drop s q) = Ok (drop s out).
Proof.
  induction s as [|s IH]; intros q pos out H; [by rewrite !drop_0, Z.add_0_r|].
  destruct q as [|r q]; simpl in *; [by injection H as <-|]. revert H. unfold mbind, result_bind.
  destruct (attn_row d scale k v pos r); [|done]. destruct (attn_rows d scale k v (pos + 1) q) eqn:E; [|done].
  intros [= <-]. simpl. rewrite <- (IH _ _ _ E). f_equal. lia.
Qed.

Lemma attn_rows_take d scale (k v : matrix) n : forall q pos out, attn_rows d scale k v pos q = Ok out ->
  attn_rows d scale k v pos (take n q) = Ok (take n out).
Proof.
  induction n as [|n IH]; intros q pos out H; [done|]. destruct q as [|r q]; simpl in *; [by injection H as <-|].
  revert H. unfold mbind, result_bind. destruct (attn_row d scale k v pos r); [|done].
  destruct (attn_rows d scale k v (pos + 1) q) eqn:E; [|done]. intros [= <-]. by rewrite (IH _ _ _ E).
Qed.

(** Two results are the same, entry by entry, up to the signs of zeros. *)
Definition same_rows : matrix -> matrix -> Prop := Forall2 (Forall2 fsame).

Lemma attn_rows_causal d scale (k v : matrix) m q : forall pos out, finite_rows v -> pos + zlen q <= Z.of_nat m ->
  attn_rows d scale k v pos q = Ok out ->
  exists out', attn_rows d scale (take m k) (take m v) pos q = Ok out' /\ same_rows out out'.
Proof.
  induction q as [|r q IH]; intros pos out Hv Hm H; simpl in H; [injection H as <-; exists []; split; [done|constructor]|].
  rewrite length_cons in Hm. revert H. simpl. unfold mbind, result_bind.
  destruct (attn_row d scale k v pos r) as [row|] eqn:E; [|done].
  destruct (attn_row_causal d scale k v pos r m row Hv ltac:(lia) E) as (row'&->&Hrow).
  destruct (attn_rows d scale k v (pos + 1) q) as [rows|] eqn:E2; [|done]. intros [= <-].
  destruct (IH (pos + 1) rows Hv ltac:(lia) E2) as (rows'&->&Hrows). eexists. split; [done|]. by constructor.
Qed.

End causal.

(** ** Exact arithmetic

    Rationals with minus infinity keep the laws; a positive function stands for
    [exp], the integer itself for its root. *)

Section exact.
Local Open Scope Qc_scope.
Abbreviation X := (option Qc).
Definition lift2 (f : Qc -> Qc -> Qc) (x y : X) : X := match x, y with Some a, Some b => Some (f a b) | _, _ => None end.

#[local] Instance exact_ops : FloatOps X := {
  f0 := Some 0; f1 := Some 1; f_ninf := None;
  fadd := lift2 Qcplus; fsub := lift2 Qcminus; fmul := lift2 Qcmult;
  fdiv := fun x y => match x, y with Some a, Some b => Some (a / b) | Some _, None => Some 0 | None, _ => None end;
  fexp := fun x => match x with Some a => Some (/ (1 + a * a)) | None => Some 0 end;
  fsqrt := fun z => Some (Q2Qc (inject_Z z));
  fsum := foldl (lift2 Qcplus) (Some 0);
  fgt := fun x y => match x, y with Some a, Some b => negb (Qle_bool a b) | Some _, None => true | None, _ => false end;
  feqb := fun x y => match x, y with Some a, Some b => Qeq_bool a b | None, None => true | _, _ => false end
}.

End exact.

(** ** Binary64

    The numbers of Python's [float] with all NaNs taken for one, summed from left to
    right from zero.  [exp] is a parameter of the instance: the laws say nothing of it. *)

Section binary64.
Context (exp64 : spec_float -> spec_float).
Definition prec64 : Z := 53.
Definition emax64 : Z := 1024.

#[local] Instance binary64_ops : FloatOps spec_float := {
  f0 := S754_zero false; f1 := S754_finite false 4503599627370496 (-52); f_ninf := S754_infinity true;
  fadd := SFadd prec64 emax64; fsub := SFsub prec64 emax64; fmul := SFmul prec64 emax64; fdiv := SFdiv prec64 emax64;
  fexp := exp64;
  fsqrt := fun z => SFsqrt prec64 emax64 (binary_normalize prec64 emax64 z 0 false);
  fsum := foldl (SFadd prec64 emax64) (S754_zero false);
  fgt := fun x y => SFltb y x;
  feqb := SFeqb
}.

Lemma binary64_add_zero x b : fsame (SFadd prec64 emax64 x (S754_zero b)) x.
Proof. destruct x as [[]|[]| |[] ? ?], b; unfold fsame; simpl; auto. Qed.

Lemma binary64_zero_weight z y : SFeqb z (S754_zero false) = false -> z <> S754_nan ->
  match y with S754_zero _ | S754_finite _ _ _ => True | _ => False end ->
  exists b, SFmul prec64 emax64 (SFdiv prec64 emax64 (S754_zero false) z) y = S754_zero b.
Proof. destruct z as [[]|[]| |[] ? ?], y as [[]|[]| |[] ? ?]; simpl; intros; try done; by eexists. Qed.

#[local] Instance binary64_laws : FloatLaws spec_float.
Proof.
  refine {| ffinite := fun x => match x with S754_zero _ | S754_finite _ _ _ => True | _ => False end; fnan := S754_nan |}.
  - intros []; by (left + right).
  - done.
  - done.
  - done.
  - intros l n. simpl. rewrite foldl_app. generalize (foldl (SFadd prec64 emax64) (S754_zero false) l).
    induction n as [|n IH]; intros x; [by left|]. simpl. eapply fsame_trans; [apply IH|]. apply binary64_add_zero.
  - by intros [].
  - by intros [].
  - by intros [].
  - intros x y z Hy Hz Hn. destruct (binary64_zero_weight z y Hz Hn Hy) as [b E]. simpl in *. rewrite E. apply binary64_add_zero.
Defined.
End binary64.

(** Three positions; the middle one as a chunk of its own.  The second value has a
    negative zero. *)
Definition num64 (z : Z) : spec_float := binary_normalize prec64 emax64 z 0 false.
Definition demo_exp (x : spec_float) : spec_float :=
  SFdiv prec64 emax64 (num64 1) (SFadd prec64 emax64 (num64 1) (SFmul prec64 emax64 x x)).
Definition demo_q : list (list spec_float) := [[num64 1; num64 2]; [num64 0; num64 1]; [num64 3; num64 1]].
Definition demo_k : list (list spec_float) := [[num64 1; num64 0]; [num64 2; num64 1]; [num64 0; num64 2]].
Definition demo_v : list (list spec_float) := [[num64 5; num64 1]; [S754_zero true; num64 4]; [num64 7; num64 3]].

