(* ===== verification/TorchAttention.v ===== *)
(** * Attention over tensors

    [TorchAttentionBackend.forward_tensors] of
    [python/lake/engine/model_executor/layers/attentions/attention.py]: the checks of
    the shapes, the repetition of key and value heads, and the call of the tensor
    library with a fallback for versions without the argument [scale].

    Tensors and the library's functions are parameters ([TensorOps]); [TensorLaws]
    names what their documentation says, one head at a time. *)

From S2P Require Import Prelude LakeTypes Attention.
From Stdlib Require Import QArith Qcanon.
Local Open Scope Z_scope.

Inductive texn : Type := TValueError | TTypeError | TZeroDivision.
Abbreviation tres := (result texn).

(** [T]: tensors, [S]: the scalars of a scale. *)
Class TensorOps (T S : Type) : Type := {
  t_shape : T -> list Z;
  repeat_interleave : T -> Z -> T;                     (* along dimension 1 *)
  t_scale : T -> S -> T;                               (* tensor * scalar *)
  s_mul : S -> S -> S;
  s_root : Z -> S;                                     (* n ** 0.5 *)
  (* scaled_dot_product_attention with the keyword [scale], and without it *)
  sdpa_scale : T -> T -> T -> option T -> S -> bool -> option S -> tres T;
  sdpa : T -> T -> T -> option T -> S -> bool -> tres T
}.

Section torch.
Context {T S : Type} {O : TensorOps T S}.

Definition ndim (t : T) : nat := length (t_shape t).
(** [t.shape[i]] of a tensor with four dimensions *)
Definition dim (t : T) (i : nat) : Z := default 0 (t_shape t !! i).

(** [k] and [v] with as many heads as [q]. *)
Definition repeat_heads (q k v : T) : tres (T * T) :=
  if dim q 1 =? dim k 1 then Ok (k, v)
  else if dim k 1 =? 0 then Raise TZeroDivision
  else if negb (dim q 1 mod dim k 1 =? 0) then Raise TValueError
  else let repeat := dim q 1 / dim k 1 in Ok (repeat_interleave k repeat, repeat_interleave v repeat).

Definition forward_tensors (q k v : T) (is_causal : bool) (attn_mask : option T) (dropout_p : S) (scale : option S) : tres T :=
  if negb (ndim q =? 4)%nat || negb (ndim k =? 4)%nat || negb (ndim v =? 4)%nat then Raise TValueError
  else if negb (dim k 1 =? dim v 1) then Raise TValueError
  else
    '(k, v) ← repeat_heads q k v;
    let causal := is_causal && match attn_mask with None => true | Some _ => false end in
    match sdpa_scale q k v attn_mask dropout_p causal scale with
    | Raise TTypeError =>
        let q := match scale with
                 | Some s => t_scale q (s_mul s (s_root (dim q 3)))
                 | None => q
                 end in
        sdpa q k v attn_mask dropout_p causal
    | r => r
    end.
End torch.

(** What the library documents, for calls without a mask and without dropout: a head of
    the result is the attention of the same heads of the arguments under a scale;
    without the keyword the scale is [s_default], the inverse of the root of the width.
    [M]: one head, a matrix; [attend causal scale q k v] is what the library computes
    for one head, whatever its rounding. *)
Class TensorLaws (T S M : Type) {O : TensorOps T S} : Type := {
  t_head : T -> Z -> Z -> M;
  m_scale : M -> S -> M;
  attend : bool -> S -> M -> M -> M -> M;
  s_zero : S;                                          (* no dropout *)
  s_default : Z -> S;
  supports_scale : bool;
  tl_repeat_shape : forall t n b h l d, t_shape t = [b; h; l; d] -> 0 < n -> t_shape (repeat_interleave t n) = [b; h * n; l; d];
  tl_repeat_head : forall t n b h, 0 < n -> 0 <= h -> t_head (repeat_interleave t n) b h = t_head t b (h / n);
  tl_scale_shape : forall t s, t_shape (t_scale t s) = t_shape t;
  tl_scale_head : forall t s b h, t_head (t_scale t s) b h = m_scale (t_head t b h) s;
  tl_sdpa : forall q k v c b h l m d, t_shape q = [b; h; l; d] -> t_shape k = [b; h; m; d] -> t_shape v = [b; h; m; d] ->
    exists o, sdpa q k v None s_zero c = Ok o /\ t_shape o = [b; h; l; d] /\
      forall i j, 0 <= i < b -> 0 <= j < h ->
        t_head o i j = attend c (s_default d) (t_head q i j) (t_head k i j) (t_head v i j);
  tl_sdpa_scale : forall q k v c s b h l m d, t_shape q = [b; h; l; d] -> t_shape k = [b; h; m; d] -> t_shape v = [b; h; m; d] ->
    if supports_scale then
      exists o, sdpa_scale q k v None s_zero c s = Ok o /\ t_shape o = [b; h; l; d] /\
        forall i j, 0 <= i < b -> 0 <= j < h ->
          t_head o i j = attend c (default (s_default d) s) (t_head q i j) (t_head k i j) (t_head v i j)
    else sdpa_scale q k v None s_zero c s = Raise TTypeError
}.

Section gqa.
Context {T S M : Type} {O : TensorOps T S} {L : TensorLaws T S M}.

(** The heads of keys and values a query head works with. *)
Lemma repeat_heads_spec q k v b h l d hk m : t_shape q = [b; h; l; d] -> t_shape k = [b; hk; m; d] -> t_shape v = [b; hk; m; d] ->
  0 < hk -> 0 < h -> h mod hk = 0 ->
  exists k' v', repeat_heads q k v = Ok (k', v') /\ t_shape k' = [b; h; m; d] /\ t_shape v' = [b; h; m; d] /\
    forall i j, 0 <= j < h -> t_head k' i j = t_head k i (j / (h / hk)) /\ t_head v' i j = t_head v i (j / (h / hk)).
Proof.
  intros Hq Hk Hv Hpos Hh Hm. unfold repeat_heads, dim. rewrite Hq, Hk. simpl.
  assert (Hd : h = hk * (h / hk)) by (apply Z_div_exact_full_2; lia).
  destruct (Z.eqb_spec h hk) as [->|Hne].
  { exists k, v. split_and!; try done. intros i j Hj. rewrite Z.div_same by lia. by rewrite Z.div_1_r. }
  destruct (Z.eqb_spec hk 0); [lia|]. rewrite Hm. simpl.
  assert (Hr : 0 < h / hk) by nia.
  eexists _, _. split; [done|]. rewrite (tl_repeat_shape k _ b hk m d), (tl_repeat_shape v _ b hk m d) by done.
  split_and!; [by rewrite <- Hd..|]. intros i j Hj. by rewrite !tl_repeat_head by lia.
Qed.

(** The scale and the queries of one head that reach the library: a version that knows
    the keyword [scale] gets both as they are; an older one uses its default scale on
    queries multiplied by the scale and the root of the width.  (In exact arithmetic the
    root cancels the default scale; the laws do not say so of rounded numbers.) *)
Definition scale_and_queries (d : Z) (scale : option S) (m : M) : S * M :=
  if supports_scale then (default (s_default d) scale, m)
  else (s_default d, match scale with Some s => m_scale m (s_mul s (s_root d)) | None => m end).

(** C38. Grouped heads: when the query heads are a multiple of the key heads, the call
    answers, in either version of the library, and query head [j] attends to the key and
    value head of its group, under the scale and with the queries of
    [scale_and_queries]. *)
Theorem grouped_heads q k v causal scale b h l d hk m :
  t_shape q = [b; h; l; d] -> t_shape k = [b; hk; m; d] -> t_shape v = [b; hk; m; d] ->
  0 < hk -> 0 < h -> h mod hk = 0 ->
  exists o, forward_tensors q k v causal None s_zero scale = Ok o /\ t_shape o = [b; h; l; d] /\
    forall i j, 0 <= i < b -> 0 <= j < h ->
      let '(s, m) := scale_and_queries d scale (t_head q i j) in
      t_head o i j = attend causal s m (t_head k i (j / (h / hk))) (t_head v i (j / (h / hk))).
Proof.
  intros Hq Hk Hv Hhk Hh Hm. unfold scale_and_queries. destruct (repeat_heads_spec q k v b h l d hk m) as (k' & v' & Hr & Hk' & Hv' & Hheads); try done.
  unfold forward_tensors, ndim, dim. rewrite Hq, Hk, Hv. simpl. rewrite Z.eqb_refl. simpl. rewrite Hr. simpl.
  rewrite andb_true_r.
  pose proof (tl_sdpa_scale q k' v' causal scale b h l m d Hq Hk' Hv') as Hs. destruct supports_scale.
  - destruct Hs as (o & -> & Ho & Hat). exists o. split_and!; [done..|]. intros i j Hi Hj. rewrite Hat by done.
    by destruct (Hheads i j Hj) as [-> ->].
  - rewrite Hs. set (q' := match scale with Some s => _ | None => _ end).
    assert (Hq' : t_shape q' = [b; h; l; d]).
    { subst q'. destruct scale; [|done]. by rewrite tl_scale_shape. }
    destruct (tl_sdpa q' k' v' causal b h l m d Hq' Hk' Hv') as (o & Ho1 & Ho2 & Hat). exists o.
    split_and!; [done..|]. intros i j Hi Hj. rewrite Hat by done. destruct (Hheads i j Hj) as [-> ->].
    subst q'. destruct scale as [s|]; [|done]. by rewrite tl_scale_head.
Qed.

(** What is refused: other shapes, different heads of keys and values, query heads that
    are no multiple of the key heads, and a division by no heads at all. *)
Lemma forward_tensors_refuses q k v causal mask p scale :
  (~ (ndim q = 4 /\ ndim k = 4 /\ ndim v = 4)%nat \/ dim k 1 <> dim v 1 \/
   (0 < dim k 1 /\ dim q 1 mod dim k 1 <> 0)) ->
  forward_tensors q k v causal mask p scale = Raise TValueError.
Proof.
  intros H. unfold forward_tensors.
  destruct (Nat.eqb_spec (ndim q) 4); [|done]. destruct (Nat.eqb_spec (ndim k) 4); [|done].
  destruct (Nat.eqb_spec (ndim v) 4); [|done]. simpl. destruct (Z.eqb_spec (dim k 1) (dim v 1)); [|done]. simpl.
  destruct H as [H|[H|[Hp H]]]; [by exfalso; apply H|done|]. unfold repeat_heads.
  destruct (Z.eqb_spec (dim q 1) (dim k 1)) as [E|_]; [rewrite E, Z.mod_same in H by lia; done|].
  destruct (Z.eqb_spec (dim k 1) 0); [lia|]. destruct (Z.eqb_spec (dim q 1 mod dim k 1) 0); done.
Qed.
End gqa.

(** ** A plain library

    Tensors as a shape with a matrix of rationals per head; a head is computed by the
    reference kernel.  [new]: whether the keyword [scale] is known. *)

Record plain_tensor : Type := mkPlain { p_shape : list Z; p_head : Z -> Z -> list (list Qc) }.

Definition rows_scale (m : list (list Qc)) (s : Qc) : list (list Qc) := (fun row : list Qc => (fun x => Qcmult x s) <$> row) <$> m.
Definition width_inv (d : Z) : Qc := Qcdiv (Q2Qc 1) (Q2Qc (inject_Z d)).

(** The reference kernel of [Attention] on one head, with the scale on its queries. *)
Definition plain_attend (causal : bool) (s : Qc) (q k v : list (list Qc)) : list (list Qc) :=
  let q := rows_scale q s in
  let up (m : list (list Qc)) := (fun row : list Qc => Some <$> row) <$> m in
  match @attn_rows _ exact_ops (head_dim (up q) (up k)) (@f1 _ exact_ops) (up k) (up v) (if causal then 0 else zlen k) (up q) with
  | Ok rows => (fun row : list (option Qc) => default (Q2Qc 0) <$> row) <$> rows
  | Raise _ => []
  end.

Definition plain_sdpa (q k v : plain_tensor) (c : bool) (s : option Qc) : plain_tensor :=
  mkPlain (p_shape q) (fun i j =>
    plain_attend c (default (width_inv (default 0 (p_shape q !! 3%nat))) s) (p_head q i j) (p_head k i j) (p_head v i j)).

Definition plain_ops (new : bool) : TensorOps plain_tensor Qc := {|
  t_shape := p_shape;
  repeat_interleave := fun t n =>
    mkPlain (match p_shape t with [b; h; l; d] => [b; h * n; l; d] | s => s end) (fun i j => p_head t i (j / n));
  t_scale := fun t s => mkPlain (p_shape t) (fun i j => rows_scale (p_head t i j) s);
  s_mul := Qcmult;
  s_root := fun d => Q2Qc (inject_Z d);
  sdpa_scale := fun q k v _ _ c s => if new then Ok (plain_sdpa q k v c s) else Raise TTypeError;
  sdpa := fun q k v _ _ c => Ok (plain_sdpa q k v c None)
|}.

Definition plain_laws (new : bool) : @TensorLaws plain_tensor Qc (list (list Qc)) (plain_ops new).
Proof.
  refine (@Build_TensorLaws _ _ _ (plain_ops new) p_head rows_scale plain_attend (Q2Qc 0) width_inv new _ _ _ _ _ _).
  - intros t n b h l d Hs _. simpl in *. by rewrite Hs.
  - done.
  - done.
  - done.
  - intros q k v c b h l m d Hq _ _. simpl in *. eexists. split; [done|]. split; [done|]. intros i j _ _. simpl. by rewrite Hq.
  - intros q k v c s b h l m d Hq _ _. simpl in *. destruct new; [|done]. eexists. split; [done|]. split; [done|].
    intros i j _ _. simpl. by rewrite Hq.
Defined.

Definition demo_tensor (heads : Z) (c : Z) : plain_tensor :=
  mkPlain [1; heads; 2; 2] (fun _ j => [[Q2Qc (inject_Z (c + j)); Q2Qc 1]; [Q2Qc (inject_Z j); Q2Qc (inject_Z c)]]).

(** Four query heads over two key heads, on a library without [scale]: query head 3
    works with key head 1. *)
Lemma grouped_heads_witness : exists o,
  @forward_tensors _ _ (plain_ops false) (demo_tensor 4 1) (demo_tensor 2 3) (demo_tensor 2 5) true None (Q2Qc 0) (Some (Q2Qc 2)) = Ok o /\
  p_head o 0 3 = plain_attend true (width_inv 2) (rows_scale (p_head (demo_tensor 4 1) 0 3) (Qcmult (Q2Qc 2) (Q2Qc 2)))
                   (p_head (demo_tensor 2 3) 0 1) (p_head (demo_tensor 2 5) 0 1).
Proof.
  destruct (@grouped_heads _ _ _ (plain_ops false) (plain_laws false) (demo_tensor 4 1) (demo_tensor 2 3) (demo_tensor 2 5) true (Some (Q2Qc 2))
    1 4 2 2 2 2) as (o & Ho & _ & H); try reflexivity.
  exists o. split; [exact Ho|]. apply (H 0 3); lia.
Defined.
