(* ===== verification/CostModel.v ===== *)
(** * The cost model

    [bench/cost_model.py]: transferring or loading a cached prefix against computing
    it again, and the execution mode this selects.  Times are exact rationals; the
    program computes them in floating point. *)

From S2P Require Import Prelude PyDict.
From Stdlib Require Import QArith Qround Lqa.
Local Open Scope Q_scope.

Inductive cexn : Type := CZeroDivision | CKeyError.
Abbreviation res := (result cexn).

Definition QWEN3_06B_KV_BYTES_PER_TOKEN : Z := (28 * 2 * 8 * 128 * 2)%Z.
Definition SLO_PREFILL_TOK_PER_S : Q := 5000.
Definition SLO_DECODE_TOK_PER_S : Q := 2000.
Definition TRANSFER_BASE_S : Q := 2 # 1000.
Definition PREFILL_BASE_S : Q := 1 # 1000.
Definition GB : Q := 1000000000.

(** A tier's bandwidth and the fixed cost of one access. *)
Definition TIER_LOAD_PROFILES : list (string * (Q * Q)) :=
  [("L1", (50 * GB, 5 # 10000)); ("L2", (5 * GB, 2 # 1000)); ("L3", (1 * GB, 20 # 1000))].
Definition profile (tier : string) : res (Q * Q) :=
  match dget tier TIER_LOAD_PROFILES with Some x => Ok x | None => Raise CKeyError end.

Record ModelParams : Type := mkParams {
  kv_bytes_per_token : Z;
  block_tokens : Z;
  bw_bytes_per_s : Q;
  transfer_base_s : Q;
  prefill_base_s : Q;
  prefill_per_token_s : Q;
  decode_per_step_s : Q
}.
Definition with_bw (bw : Q) : ModelParams :=
  mkParams QWEN3_06B_KV_BYTES_PER_TOKEN 128 bw TRANSFER_BASE_S PREFILL_BASE_S (1 / SLO_PREFILL_TOK_PER_S) (1 / SLO_DECODE_TOK_PER_S).
Definition default_params : ModelParams := with_bw (10 * GB).

(** [x / y] *)
Definition py_div (x y : Q) : res Q := if Qeq_bool y 0 then Raise CZeroDivision else Ok (x / y).

Definition t_transfer_s (hit_tokens : Q) (p : ModelParams) : res Q :=
  t ← py_div (hit_tokens * inject_Z (kv_bytes_per_token p)) (bw_bytes_per_s p);
  Ok (transfer_base_s p + t).

Definition t_prefill_s (tokens : Q) (p : ModelParams) : Q := prefill_base_s p + tokens * prefill_per_token_s p.

Definition breakeven_hit_tokens (p : ModelParams) : res (option Q) :=
  per_token ← py_div (inject_Z (kv_bytes_per_token p)) (bw_bytes_per_s p);
  let denom := prefill_per_token_s p - per_token in
  if Qle_bool denom 0 then Ok None
  else r ← py_div (transfer_base_s p - prefill_base_s p) denom; Ok (Some r).

(** [int(tokens // block_tokens) * block_tokens] *)
Definition quantize_to_blocks (tokens : Q) (block : Z) : res Z :=
  if (block =? 0)%Z then Raise CZeroDivision else Ok (Qfloor (tokens / inject_Z block) * block)%Z.

Definition t_load_s (tier : string) (hit_tokens : Q) (p : ModelParams) : res Q :=
  '(bw, base) ← profile tier;
  t ← py_div (hit_tokens * inject_Z (kv_bytes_per_token p)) bw;
  Ok (base + t).

Definition load_breakeven_tokens (tier : string) (p : ModelParams) : res (option Q) :=
  '(bw, base) ← profile tier;
  per_token ← py_div (inject_Z (kv_bytes_per_token p)) bw;
  let denom := prefill_per_token_s p - per_token in
  if Qle_bool denom 0 then Ok None
  else r ← py_div (base - prefill_base_s p) denom; Ok (Some r).

Inductive decision : Type := Load | Recompute.
Definition load_or_recompute (tier : string) (hit_tokens : Q) (p : ModelParams) : res decision :=
  t_star ← load_breakeven_tokens tier p;
  match t_star with
  | None => Ok Recompute
  | Some t => Ok (if Qle_bool (if Qle_bool 0 t then t else 0) hit_tokens then Load else Recompute)
  end.

Inductive mode : Type := D_DIRECT | PD_DISAGG | COLOCATED.
Definition mode_for (hit_tokens : Q) (prompt_tokens : Z) (p : ModelParams) (local_hit : bool) : res mode :=
  direct ← (if local_hit then n ← quantize_to_blocks hit_tokens (block_tokens p); Ok (0 <? n)%Z else Ok false);
  if (direct : bool) then Ok D_DIRECT
  else
    h_star ← breakeven_hit_tokens p;
    match h_star with
    | None => Ok COLOCATED
    | Some t =>
        let block := inject_Z (block_tokens p) in
        Ok (if Qle_bool (if Qle_bool block t then t else block) hit_tokens then PD_DISAGG else COLOCATED)
    end.

(** ** The sweeps *)

(** [int(x)] and [round(x, n)], half to even *)
Definition py_trunc (x : Q) : Z := if Qle_bool 0 x then Qfloor x else Qceiling x.
Definition round_int (x : Q) : Z :=
  let f := Qfloor x in
  let r := x - inject_Z f in
  if Qeq_bool r (1 # 2) then (if Z.even f then f else f + 1)%Z
  else if Qle_bool r (1 # 2) then f else (f + 1)%Z.
Definition py_round (x : Q) (n : Z) : Q := inject_Z (round_int (x * inject_Z (10 ^ n))) / inject_Z (10 ^ n).
Definition qmax0 (x : Q) : Q := if Qle_bool 0 x then x else 0.

Fixpoint rows {A B} (f : A -> res B) (l : list A) : res (list B) :=
  match l with [] => Ok [] | x :: l => b ← f x; bs ← rows f l; Ok (b :: bs) end.

Record BandwidthRow : Type := mkBandwidthRow {
  b_bw_gb_s : Q; b_per_token_us : Q; b_breakeven : option Q; b_transfer_wins : bool }.
Definition bandwidth_row (gb : Q) : res BandwidthRow :=
  let p := with_bw (gb * GB) in
  h_star ← breakeven_hit_tokens p;
  per ← py_div (inject_Z (kv_bytes_per_token p)) (bw_bytes_per_s p);
  Ok (mkBandwidthRow gb (per * 1000000) ((fun h => py_round (qmax0 h) 1) <$> h_star)
        (match h_star with Some _ => true | None => false end)).
Definition sweep_bandwidth : res (list BandwidthRow) := rows bandwidth_row [1 # 10; 5 # 10; 1; 5; 10; 25; 100].

Record PromptRow : Type := mkPromptRow {
  m_prompt : Z; m_ratio : Q; m_hit : Z; m_pool : mode; m_local : mode; m_transfer_ms : Q; m_prefill_ms : Q }.
Definition prompt_row (pr : Z * Q) : res PromptRow :=
  let p := with_bw (10 * GB) in
  hit ← quantize_to_blocks (inject_Z pr.1 * pr.2) (block_tokens p);
  pool ← mode_for (inject_Z hit) pr.1 p false;
  local ← mode_for (inject_Z hit) pr.1 p true;
  t ← t_transfer_s (inject_Z hit) p;
  Ok (mkPromptRow pr.1 pr.2 hit pool local (py_round (t * 1000) 2) (py_round (t_prefill_s (inject_Z hit) p * 1000) 2)).
Definition sweep_prompt_matrix : res (list PromptRow) :=
  rows prompt_row (prompt ← [512; 2048; 8192]%Z; ratio ← [0; 1 # 4; 1 # 2; 3 # 4; 1]; [(prompt, ratio)]).

Record BlockRow : Type := mkBlockRow { g_block : Z; g_quantized : Z; g_loss : Z; g_min_ms : Q }.
Definition block_row (blk : Z) : res BlockRow :=
  let p := with_bw (10 * GB) in
  n ← quantize_to_blocks 300 blk;
  t ← t_transfer_s (inject_Z blk) p;
  Ok (mkBlockRow blk n (300 - n) (py_round (t * 1000) 3)).
Definition sweep_block_granularity : res (list BlockRow) := rows block_row [64; 128; 256]%Z.

(** [-(-int(threshold) // block_tokens)] *)
Definition threshold_blocks (t : Q) (block : Z) : res Z :=
  if (block =? 0)%Z then Raise CZeroDivision else Ok (- (- py_trunc (qmax0 t) / block))%Z.

Record TierRow : Type := mkTierRow {
  l_tier : string; l_bw_gb_s : Q; l_base_ms : Q; l_per_token_us : Q; l_breakeven : option Q; l_blocks : option Z;
  l_128 : decision; l_256 : decision; l_1024 : decision }.
Definition tier_row (tier : string) : res TierRow :=
  let p := default_params in
  '(bw, base) ← profile tier;
  t_star ← load_breakeven_tokens tier p;
  blocks ← (match t_star with Some t => n ← threshold_blocks t (block_tokens p); Ok (Some n) | None => Ok None end);
  per ← py_div (inject_Z (kv_bytes_per_token p)) bw;
  d1 ← load_or_recompute tier 128 p;
  d2 ← load_or_recompute tier 256 p;
  d3 ← load_or_recompute tier 1024 p;
  Ok (mkTierRow tier (bw / GB) (base * 1000) (per * 1000000) ((fun t => py_round t 1) <$> t_star) blocks d1 d2 d3).
Definition sweep_tier_load : res (list TierRow) := rows tier_row ["L1"; "L2"; "L3"].

(** What the sweeps say with the constants of the program: the tiers load from 0, 1
    and 2 blocks on. *)
Example tier_thresholds :
  match sweep_tier_load with
  | Ok rs => (fun r => (l_tier r, l_blocks r, l_128 r, l_256 r)) <$> rs
  | Raise _ => []
  end = [("L1", Some 0%Z, Load, Load); ("L2", Some 1%Z, Load, Load); ("L3", Some 2%Z, Recompute, Load)].
Proof. vm_compute. reflexivity. Qed.

Example bandwidth_wins :
  match sweep_bandwidth with Ok rs => b_transfer_wins <$> rs | Raise _ => [] end = [false; false; true; true; true; true; true].
Proof. vm_compute. reflexivity. Qed.

(** ** The decisions are the cheaper ones *)

Lemma Qle_bool_spec x y : reflect (x <= y) (Qle_bool x y).
Proof.
  destruct (Qle_bool x y) eqn:E; constructor; [by apply Qle_bool_iff|]. intros H%Qle_bool_iff. congruence.
Qed.

Lemma py_div_ok x y : ~ y == 0 -> py_div x y = Ok (x / y).
Proof. intros H. unfold py_div. destruct (Qeq_bool y 0) eqn:E; [|done]. by apply Qeq_bool_eq in E. Qed.

Lemma div_le_iff n d h : 0 < d -> n / d <= h <-> n <= h * d.
Proof.
  intros Hd. split; intros H.
  - apply (Qmult_le_compat_r _ _ d) in H; [|lra]. assert (Hn : n / d * d == n) by (field; lra). by rewrite Hn in H.
  - by apply Qle_shift_div_r.
Qed.

(** Two linear costs: a fixed part and a part per token. *)
Lemma linear_breakeven b1 c1 b2 c2 h : 0 < c2 - c1 ->
  (b1 - b2) / (c2 - c1) <= h <-> b1 + h * c1 <= b2 + h * c2.
Proof. intros Hd. rewrite div_le_iff by done. split; intros H; nra. Qed.

(** The cost per token of a transfer over a bandwidth. *)
Lemma per_token_cost b bw h : ~ bw == 0 -> h * b / bw == h * (b / bw).
Proof. intros H. field. done. Qed.

(** What the tier's profile gives for a hit. *)
Definition load_time (base bw h : Q) (p : ModelParams) : Q := base + h * inject_Z (kv_bytes_per_token p) / bw.

Lemma load_or_recompute_spec tier h p bw base : profile tier = Ok (bw, base) -> 0 < bw -> 0 <= h ->
  t_load_s tier h p = Ok (load_time base bw h p) /\
  exists d, load_or_recompute tier h p = Ok d /\
    (0 < prefill_per_token_s p - inject_Z (kv_bytes_per_token p) / bw ->
       d = Load <-> load_time base bw h p <= t_prefill_s h p) /\
    (prefill_per_token_s p - inject_Z (kv_bytes_per_token p) / bw <= 0 -> d = Recompute).
Proof.
  intros Hp Hbw Hh. assert (Hne : ~ bw == 0) by lra. split.
  { unfold t_load_s. rewrite Hp. simpl. by rewrite py_div_ok. }
  unfold load_or_recompute, load_breakeven_tokens. rewrite Hp. simpl. rewrite py_div_ok by done. simpl.
  set (c := inject_Z (kv_bytes_per_token p) / bw).
  destruct (Qle_bool_spec (prefill_per_token_s p - c) 0) as [Hd|Hd].
  { exists Recompute. split; [done|]. split; [lra|done]. }
  rewrite py_div_ok by lra. simpl. eexists. split; [done|]. split; [|lra]. intros Hpos.
  unfold load_time, t_prefill_s. rewrite per_token_cost by done. fold c. rewrite <- linear_breakeven by done.
  set (t := (base - prefill_base_s p) / (prefill_per_token_s p - c)).
  destruct (Qle_bool_spec 0 t) as [Ht|Ht];
    (match goal with |- context [Qle_bool ?a h] => destruct (Qle_bool_spec a h) as [H|H] end);
    split; intros; try done; lra.
Qed.

(** Loading or computing again: whenever loading a token costs less than computing
    it, or the fixed cost of the tier is not below that of a prefill, the decision for
    a hit of any length is the one whose time is no longer than the other's. *)
Theorem load_decision_optimal tier h p bw base :
  profile tier = Ok (bw, base) -> 0 < bw -> 0 <= h ->
  0 < prefill_per_token_s p - inject_Z (kv_bytes_per_token p) / bw \/ prefill_base_s p <= base ->
  exists d tl, load_or_recompute tier h p = Ok d /\ t_load_s tier h p = Ok tl /\
    match d with Load => tl <= t_prefill_s h p | Recompute => t_prefill_s h p <= tl end.
Proof.
  intros Hp Hbw Hh Hor. destruct (load_or_recompute_spec tier h p bw base Hp Hbw Hh) as (El & d & Ed & Hpos & Hneg).
  exists d, (load_time base bw h p). split; [done|]. split; [done|].
  destruct (Qlt_le_dec 0 (prefill_per_token_s p - inject_Z (kv_bytes_per_token p) / bw)) as [Hc|Hc].
  - destruct d; [by apply Hpos|]. apply Qlt_le_weak, Qnot_le_lt. intros H. by apply Hpos in H.
  - rewrite (Hneg Hc). destruct Hor as [H|H]; [lra|]. unfold load_time, t_prefill_s. rewrite per_token_cost by lra.
    set (c := inject_Z (kv_bytes_per_token p) / bw) in *. nra.
Qed.

Lemma load_decision_optimal_witness :
  exists d tl, load_or_recompute "L3" 128 default_params = Ok d /\ t_load_s "L3" 128 default_params = Ok tl /\
    match d with Load => tl <= t_prefill_s 128 default_params | Recompute => t_prefill_s 128 default_params <= tl end.
Proof.
  apply (load_decision_optimal "L3" 128 default_params (1 * GB) (20 # 1000)).
  - reflexivity.
  - reflexivity.
  - discriminate.
  - left. reflexivity.
Defined.

(** Outside that case the decision can be the dearer one: a tier with a small fixed
    cost and a processor that computes tokens in no time. *)
Definition fast_prefill : ModelParams := mkParams QWEN3_06B_KV_BYTES_PER_TOKEN 128 (10 * GB) TRANSFER_BASE_S PREFILL_BASE_S 0 0.
Example short_load_refused :
  load_or_recompute "L1" 128 fast_prefill = Ok Recompute /\
  exists tl, t_load_s "L1" 128 fast_prefill = Ok tl /\ tl < t_prefill_s 128 fast_prefill.
Proof. split; [vm_compute; reflexivity|]. eexists. split; [vm_compute; reflexivity|reflexivity]. Qed.

(** The number of blocks truncates the threshold before it rounds it up: a threshold
    of 128 and a half tokens becomes one block, whose 128 tokens are below it. *)
Example threshold_truncated : threshold_blocks (257 # 2) 128 = Ok 1%Z /\ threshold_blocks 129 128 = Ok 2%Z.
Proof. split; reflexivity. Qed.

(** ** The mode *)

Lemma quantize_spec tokens block n : (0 < block)%Z -> quantize_to_blocks tokens block = Ok n ->
  inject_Z n <= tokens /\ tokens < inject_Z (n + block) /\ (n mod block = 0)%Z.
Proof.
  intros Hb. unfold quantize_to_blocks. rewrite (proj2 (Z.eqb_neq _ _)) by lia.
  set (f := Qfloor (tokens / inject_Z block)). intros Hn. assert (Hf : n = (f * block)%Z) by congruence. subst n. clear Hn. assert (Hq : 0 < inject_Z block) by (rewrite <- (Zlt_Qlt 0); lia).
  pose proof (Qfloor_le (tokens / inject_Z block)) as H1. pose proof (Qlt_floor (tokens / inject_Z block)) as H2. fold f in H1, H2.
  assert (Ht : tokens / inject_Z block * inject_Z block == tokens) by (field; lra).
  split; [|split].
  - apply (Qmult_le_compat_r _ _ (inject_Z block)) in H1; [|lra]. rewrite Ht in H1. by rewrite inject_Z_mult.
  - replace (f * block + block)%Z with ((f + 1) * block)%Z by lia. apply (Qmult_lt_compat_r _ _ (inject_Z block)) in H2; [|done].
    rewrite Ht in H2. by rewrite inject_Z_mult.
  - apply Z.mod_mul. lia.
Qed.

(** Disaggregation is chosen exactly for hits of a block or more whose transfer is
    not slower than their prefill. *)
Theorem mode_for_spec h n p : 0 < bw_bytes_per_s p -> 0 <= h -> (0 < block_tokens p)%Z ->
  0 < prefill_per_token_s p - inject_Z (kv_bytes_per_token p) / bw_bytes_per_s p ->
  exists m t, mode_for h n p false = Ok m /\ t_transfer_s h p = Ok t /\
    (m = PD_DISAGG <-> inject_Z (block_tokens p) <= h /\ t <= t_prefill_s h p) /\ m <> D_DIRECT.
Proof.
  intros Hbw Hh Hb Hd. assert (Hne : ~ bw_bytes_per_s p == 0) by lra.
  unfold mode_for, breakeven_hit_tokens, t_transfer_s. simpl. rewrite !py_div_ok by done. simpl.
  set (c := inject_Z (kv_bytes_per_token p) / bw_bytes_per_s p) in *.
  destruct (Qle_bool_spec (prefill_per_token_s p - c) 0); [lra|]. rewrite py_div_ok by lra. simpl.
  eexists _, _. split; [done|]. split; [done|]. unfold t_prefill_s. rewrite per_token_cost by done. fold c.
  rewrite <- (linear_breakeven (transfer_base_s p) c (prefill_base_s p) (prefill_per_token_s p)) by done.
  set (t := _ / _). set (b := inject_Z (block_tokens p)) in *.
  destruct (Qle_bool_spec b t) as [Ht|Ht];
    (match goal with |- context [Qle_bool ?a h] => destruct (Qle_bool_spec a h) as [H|H] end);
    (split; [|done]); split; intros Hx; try done; try (exfalso; apply H; lra); (split; lra).
Qed.
