(* ===== verification/PyStr.v ===== *)
(** * Python strings: decimal numbers, splitting, JSON lists of integers

    What the kvcm sources use of [str], [re] and [json] on ASCII text: [str(n)],
    [int(text)], [",".join], and [json.dumps]/[json.loads] of a list of
    integers. *)

From S2P Require Import Prelude.
From Stdlib Require Import Ascii.
From stdpp Require Import pretty.
Local Open Scope string_scope.
Local Open Scope Z_scope.
#[local] Arguments String.append !_ _ /.

(** ** Decimal digits *)

Definition digit_val (c : ascii) : option N :=
  let n := Ascii.N_of_ascii c in
  if (48 <=? n)%N && (n <=? 57)%N then Some (n - 48)%N else None.

Definition is_digit (c : ascii) : bool := match digit_val c with Some _ => true | None => false end.

(** Greedy [\d*], accumulating the value; the rest of the text. *)
Fixpoint scan_digits (acc : N) (s : string) : N * string :=
  match s with
  | EmptyString => (acc, EmptyString)
  | String c s' =>
      match digit_val c with
      | Some d => scan_digits (10 * acc + d) s'
      | None => (acc, s)
      end
  end.

Definition starts_with_digit (s : string) : bool :=
  match s with String c _ => is_digit c | EmptyString => false end.

(** [\d+] *)
Definition scan_nat (s : string) : option (N * string) :=
  if starts_with_digit s then Some (scan_digits 0 s) else None.

(** [str(n)] *)
Definition py_str (n : Z) : string := pretty n.

Lemma digit_val_char d : (d < 10)%N -> digit_val (pretty_N_char d) = Some d.
Proof.
  intros H. assert (Hd : d ∈ [0; 1; 2; 3; 4; 5; 6; 7; 8; 9]%N) by (rewrite !elem_of_cons, elem_of_nil; lia).
  rewrite !elem_of_cons, elem_of_nil in Hd. repeat destruct Hd as [->|Hd]; done.
Qed.

Lemma scan_pretty_go x s : scan_digits 0 (pretty_N_go x s) = scan_digits x s.
Proof.
  revert s. induction (N.lt_wf_0 x) as [x _ IH]; intros s.
  destruct (decide (0 < x)%N) as [Hx|Hx]; [|by replace x with 0%N by lia].
  rewrite pretty_N_go_step by done. rewrite IH by (apply N.div_lt; lia).
  simpl. rewrite digit_val_char by (apply N.mod_lt; lia). f_equal.
  pose proof (N.div_mod x 10 ltac:(done)). lia.
Qed.

Lemma starts_pretty_go x s : (0 < x)%N -> starts_with_digit (pretty_N_go x s) = true.
Proof.
  revert s. induction (N.lt_wf_0 x) as [x _ IH]; intros s Hx. rewrite pretty_N_go_step by done.
  destruct (decide (0 < x `div` 10)%N) as [H|H]; [apply IH; [apply N.div_lt; lia|done]|].
  assert ((x `div` 10)%N = 0%N) as -> by (destruct (x `div` 10)%N; [done|by destruct H]). rewrite pretty_N_go_0. simpl. unfold is_digit.
  by rewrite digit_val_char by (apply N.mod_lt; lia).
Qed.

Lemma pretty_go_app x s t : pretty_N_go x s +:+ t = pretty_N_go x (s +:+ t).
Proof.
  revert s. induction (N.lt_wf_0 x) as [x _ IH]; intros s.
  destruct (decide (0 < x)%N) as [Hx|Hx]; [|by replace x with 0%N by lia].
  rewrite !(pretty_N_go_step x) by done. by rewrite IH by (apply N.div_lt; lia).
Qed.

(** Text that does not go on with a digit. *)
Definition no_digit (s : string) : Prop := starts_with_digit s = false.

Lemma scan_stop acc s : no_digit s -> scan_digits acc s = (acc, s).
Proof. destruct s as [|c s]; [done|]. unfold no_digit. simpl. unfold is_digit. by destruct (digit_val c). Qed.

Lemma scan_pretty_N (x : N) t : no_digit t -> scan_nat (pretty x +:+ t) = Some (x, t).
Proof.
  intros Ht. unfold scan_nat, pretty, pretty_N. case_decide as Hx; [subst|].
  - simpl. unfold is_digit. simpl. by rewrite scan_stop.
  - rewrite pretty_go_app, starts_pretty_go, scan_pretty_go, scan_stop by (done || lia). done.
Qed.

Lemma string_app_nil s : s +:+ EmptyString = s.
Proof. induction s as [|c s IH]; [done|]. simpl. by rewrite IH. Qed.

Lemma pretty_N_head (x : N) : exists c s, pretty x = String c s /\ is_digit c = true.
Proof.
  pose proof (scan_pretty_N x EmptyString eq_refl) as H. unfold scan_nat in H.
  rewrite string_app_nil in H. destruct (pretty x) as [|c s]; [done|]. exists c, s. split; [done|].
  simpl in H. by destruct (is_digit c).
Qed.

(** ** Integers: an optional minus sign *)

Definition scan_int (s : string) : option (Z * string) :=
  match s with
  | String c s' =>
      if bool_decide (c = "-"%char)
      then match scan_nat s' with Some (n, r) => Some (- Z.of_N n, r) | None => None end
      else match scan_nat s with Some (n, r) => Some (Z.of_N n, r) | None => None end
  | EmptyString => None
  end.

Lemma pretty_Z_nonneg (z : Z) : 0 <= z -> py_str z = pretty (Z.to_N z).
Proof. unfold py_str. by destruct z. Qed.

Lemma scan_py_str z t : no_digit t -> scan_int (py_str z +:+ t) = Some (z, t).
Proof.
  intros Ht.
  assert (Hpos : forall x : N, scan_int (pretty x +:+ t) = Some (Z.of_N x, t)).
  { intros x. destruct (pretty_N_head x) as (c&s&E&Hc). pose proof (scan_pretty_N x t Ht) as H.
    rewrite E in *. simpl in *. rewrite bool_decide_eq_false_2 by (intros ->; done). by rewrite H. }
  destruct z as [|p|p].
  - apply (Hpos 0%N).
  - apply (Hpos (N.pos p)).
  - change (py_str (Z.neg p)) with (String "-" (pretty (N.pos p))).
    pose proof (scan_pretty_N (N.pos p) t Ht) as H. cbn [String.append scan_int].
    rewrite bool_decide_eq_true_2 by done. by rewrite H.
Qed.

Lemma string_app_assoc a b c : (a +:+ b) +:+ c = a +:+ (b +:+ c).
Proof. induction a as [|x a IH]; [done|]. simpl. by rewrite IH. Qed.

(** ** [json.dumps] and [json.loads] of a list of integers

    [dumps] separates with a comma and a space; [loads] skips white space around
    the tokens. *)

Fixpoint json_items (l : list Z) : string :=
  match l with
  | [] => EmptyString
  | [x] => py_str x
  | x :: l' => py_str x +:+ ", " +:+ json_items l'
  end.

Definition json_dumps (l : list Z) : string := "[" +:+ json_items l +:+ "]".

Fixpoint skip_ws (s : string) : string :=
  match s with
  | String c s' =>
      if bool_decide (c = " "%char) || bool_decide (c = "009"%char)
         || bool_decide (c = "010"%char) || bool_decide (c = "013"%char)
      then skip_ws s' else s
  | EmptyString => EmptyString
  end.

(** The elements from the first one on, up to the closing bracket. *)
Fixpoint json_elems (fuel : nat) (s : string) : option (list Z * string) :=
  match fuel with
  | O => None
  | S fuel' =>
      match scan_int (skip_ws s) with
      | None => None
      | Some (x, r) =>
          match skip_ws r with
          | String c r' =>
              if bool_decide (c = ","%char) then
                match json_elems fuel' r' with Some (l, r'') => Some (x :: l, r'') | None => None end
              else if bool_decide (c = "]"%char) then Some ([x], r')
              else None
          | EmptyString => None
          end
      end
  end.

Definition json_end {A} (x : A) (s : string) : option A :=
  if bool_decide (skip_ws s = EmptyString) then Some x else None.

Definition json_loads (s : string) : option (list Z) :=
  match skip_ws s with
  | String c r =>
      if bool_decide (c = "["%char) then
        match skip_ws r with
        | String d r' =>
            if bool_decide (d = "]"%char) then json_end [] r'
            else match json_elems (String.length s) (String d r') with
                 | Some (l, r'') => json_end l r''
                 | None => None
                 end
        | EmptyString => None
        end
      else None
  | EmptyString => None
  end.

(** The first character of a number is no white space, no bracket. *)
Lemma py_str_head z : exists c s, py_str z = String c s /\ (c = "-"%char \/ is_digit c = true).
Proof.
  destruct z as [|p|p].
  - eexists _, _. split; [reflexivity|]. by right.
  - destruct (pretty_N_head (N.pos p)) as (c&s&E&Hc). exists c, s. split; [exact E|by right].
  - unfold py_str, pretty, pretty_Z. simpl. eexists _, _. split; [reflexivity|]. by left.
Qed.

Lemma skip_ws_number z t : skip_ws (py_str z +:+ t) = py_str z +:+ t.
Proof.
  destruct (py_str_head z) as (c&s&E&Hc). rewrite E. simpl.
  destruct Hc as [->|Hc]; [done|]. by repeat (case_bool_decide; [by subst|]).
Qed.

Lemma json_elems_items x l t fuel : (length l < fuel)%nat ->
  json_elems fuel (json_items (x :: l) +:+ "]" +:+ t) = Some (x :: l, t).
Proof.
  revert x fuel. induction l as [|y l IH]; intros x [|fuel] Hf; simpl in Hf; try lia.
  - change (json_items [x]) with (py_str x). cbn [json_elems]. rewrite skip_ws_number.
    rewrite scan_py_str by done. done.
  - change (json_items (x :: y :: l)) with (py_str x +:+ ", " +:+ json_items (y :: l)).
    rewrite !string_app_assoc. cbn [json_elems]. rewrite skip_ws_number, scan_py_str by done.
    assert (E : skip_ws (", " +:+ (json_items (y :: l) +:+ "]" +:+ t)) =
                String "," (String " " (json_items (y :: l) +:+ "]" +:+ t))) by done.
    rewrite E. rewrite bool_decide_eq_true_2 by done.
    assert (E2 : forall u, json_elems fuel (String " " u) = json_elems fuel u) by (by destruct fuel).
    rewrite E2, IH by lia. done.
Qed.

Lemma strlen_app (a b : string) : String.length (a +:+ b) = (String.length a + String.length b)%nat.
Proof. induction a as [|c a IH]; simpl; [done|]. by rewrite IH. Qed.

Lemma length_json_items l : (length l <= String.length (json_items l))%nat.
Proof.
  assert (Hnum : forall z, (1 <= String.length (py_str z))%nat).
  { intros z. destruct (py_str_head z) as (c&s&E&_). rewrite E. simpl. lia. }
  induction l as [|x [|y l] IH]; [simpl; lia|apply Hnum|].
  change (json_items (x :: y :: l)) with (py_str x +:+ ", " +:+ json_items (y :: l)).
  rewrite !strlen_app. specialize (Hnum x). simpl in *. lia.
Qed.

Lemma json_roundtrip l : json_loads (json_dumps l) = Some l.
Proof.
  destruct l as [|x l]; [done|]. unfold json_dumps.
  assert (E : exists c t, json_items (x :: l) +:+ "]" = String c t /\ skip_ws (String c t) = String c t /\
    c <> "]"%char).
  { assert (E : exists t, json_items (x :: l) +:+ "]" = py_str x +:+ t).
    { destruct l as [|y l]; [eexists; reflexivity|].
      exists (", " +:+ json_items (y :: l) +:+ "]").
      change (json_items (x :: y :: l)) with (py_str x +:+ ", " +:+ json_items (y :: l)).
      by rewrite !string_app_assoc. }
    destruct E as [t ->]. pose proof (skip_ws_number x t) as Hw.
    destruct (py_str_head x) as (c&s&E&Hc). rewrite E in *. exists c, (s +:+ t).
    split_and!; [done|exact Hw|]. intros ->. by destruct Hc. }
  destruct E as (c&t&E&Hw&Hne).
  assert (He : forall n, (length l < n)%nat -> json_elems n (String c t) = Some (x :: l, EmptyString)).
  { intros n Hn. rewrite <- E. by apply (json_elems_items x l EmptyString). }
  assert (Hlen : (length l < String.length (String c t))%nat).
  { rewrite <- E. pose proof (length_json_items (x :: l)) as Hl. simpl in Hl.
    assert (Happ : forall a, (String.length a <= String.length (a +:+ "]"))%nat) by (induction a; simpl; lia).
    specialize (Happ (json_items (x :: l))). simpl in *. lia. }
  unfold json_loads. rewrite E. change (skip_ws ("[" +:+ String c t)) with (String "[" (String c t)).
  cbv beta iota. rewrite bool_decide_eq_true_2 by done. rewrite Hw. cbv beta iota.
  rewrite bool_decide_eq_false_2 by done. rewrite He; [done|]. simpl in *. lia.
Qed.

(** ** Texts without a given character *)

Fixpoint lacks (c : ascii) (s : string) : bool :=
  match s with
  | EmptyString => true
  | String d s' => negb (bool_decide (d = c)) && lacks c s'
  end.

Lemma lacks_app c a b : lacks c (a +:+ b) = lacks c a && lacks c b.
Proof. induction a as [|d a IH]; [done|]. simpl. by rewrite IH, andb_assoc. Qed.

Lemma lacks_pretty_go c x s : is_digit c = false -> lacks c (pretty_N_go x s) = lacks c s.
Proof.
  intros Hc. revert s. induction (N.lt_wf_0 x) as [x _ IH]; intros s.
  destruct (decide (0 < x)%N) as [Hx|Hx]; [|by replace x with 0%N by lia].
  rewrite pretty_N_go_step by done. rewrite IH by (apply N.div_lt; lia). simpl.
  rewrite bool_decide_eq_false_2; [done|]. intros <-. unfold is_digit in Hc.
  by rewrite digit_val_char in Hc by (apply N.mod_lt; lia).
Qed.

(** A number is made of digits and perhaps a minus sign. *)
Lemma lacks_py_str c z : is_digit c = false -> c <> "-"%char -> lacks c (py_str z) = true.
Proof.
  intros Hc Hm.
  assert (HN : forall x : N, lacks c (pretty x) = true).
  { intros x. unfold pretty, pretty_N. case_decide; [|by rewrite lacks_pretty_go]. simpl.
    rewrite bool_decide_eq_false_2; [done|]. by intros <-. }
  destruct z as [|p|p]; [apply (HN 0%N)|apply (HN (N.pos p))|].
  change (py_str (Z.neg p)) with (String "-" (pretty (N.pos p))). simpl. rewrite HN, bool_decide_eq_false_2; [done|].
  by intros <-.
Qed.

(** ** [int] *)

(** [int(s, base)]: white space around, a sign, digits with single underscores
    between them; base 16 may have its prefix. *)
Definition c_space (c : ascii) : bool :=
  let n := Ascii.N_of_ascii c in ((9 <=? n)%N && (n <=? 13)%N) || (n =? 32)%N.
Definition digit_in (base : Z) (c : ascii) : option Z :=
  let n := Z.of_N (Ascii.N_of_ascii c) in
  let v := if (48 <=? n) && (n <=? 57) then n - 48
           else if (65 <=? n) && (n <=? 90) then n - 55
           else if (97 <=? n) && (n <=? 122) then n - 87 else 99 in
  if v <? base then Some v else None.
Fixpoint c_lstrip (s : string) : string :=
  match s with String c r => if c_space c then c_lstrip r else s | EmptyString => EmptyString end.
Fixpoint only_space (s : string) : bool :=
  match s with String c r => c_space c && only_space r | EmptyString => true end.
(** [under]: the previous character was an underscore. *)
Fixpoint digits_in (base acc : Z) (under : bool) (s : string) : option Z :=
  match s with
  | EmptyString => if under then None else Some acc
  | String c r =>
      match digit_in base c with
      | Some d => digits_in base (acc * base + d) false r
      | None =>
          if bool_decide (c = "_"%char) then if under then None else digits_in base acc true r
          else if under then None else if only_space s then Some acc else None
      end
  end.
Definition number_in (base : Z) (s : string) : option Z :=
  match s with
  | String c r => match digit_in base c with Some d => digits_in base d false r | None => None end
  | EmptyString => None
  end.
Definition drop_prefix16 (base : Z) (s : string) : string :=
  match s with
  | String z (String x r) =>
      if (base =? 16) && bool_decide (z = "0"%char) && (bool_decide (x = "x"%char) || bool_decide (x = "X"%char))
      then match r with
           | String u r' => if bool_decide (u = "_"%char) then r' else r
           | EmptyString => r
           end
      else s
  | _ => s
  end.
Definition py_int (base : Z) (s : string) : option Z :=
  match c_lstrip s with
  | String c r =>
      if bool_decide (c = "-"%char) then Z.opp <$> number_in base (drop_prefix16 base r)
      else if bool_decide (c = "+"%char) then number_in base (drop_prefix16 base r)
      else number_in base (drop_prefix16 base (String c r))
  | EmptyString => None
  end.

Lemma digit_in_10 c d : digit_val c = Some d -> digit_in 10 c = Some (Z.of_N d).
Proof.
  unfold digit_val, digit_in. destruct ((48 <=? _)%N && _) eqn:E; [|done]. intros [= <-].
  apply andb_prop in E as [E1 E2]. apply N.leb_le in E1, E2.
  rewrite (proj2 (Z.leb_le 48 _)), (proj2 (Z.leb_le _ 57)) by lia. simpl.
  rewrite (proj2 (Z.ltb_lt _ 10)) by lia. f_equal. lia.
Qed.

Lemma digits_in_scan s : forall acc n, scan_digits acc s = (n, EmptyString) ->
  digits_in 10 (Z.of_N acc) false s = Some (Z.of_N n).
Proof.
  induction s as [|c s IH]; intros acc n; simpl; [by intros [= <-]|].
  destruct (digit_val c) as [d|] eqn:Hd; [|done]. rewrite (digit_in_10 _ _ Hd). intros H.
  rewrite <- (IH _ _ H). f_equal. lia.
Qed.

Lemma number_in_pretty (x : N) : number_in 10 (pretty x) = Some (Z.of_N x).
Proof.
  pose proof (scan_pretty_N x EmptyString eq_refl) as H. rewrite string_app_nil in H.
  destruct (pretty_N_head x) as (c & s & E & Hc). rewrite E in *. unfold scan_nat in H. simpl in H. rewrite Hc in H.
  unfold is_digit in Hc. simpl. destruct (digit_val c) as [d|] eqn:Hd; [|done].
  rewrite (digit_in_10 _ _ Hd). injection H as H. by apply (digits_in_scan s (10 * 0 + d)%N).
Qed.

Lemma py_int_str z : py_int 10 (py_str z) = Some z.
Proof.
  assert (forall x : N, py_int 10 (pretty x) = Some (Z.of_N x)) as Hn.
  { intros x. pose proof (number_in_pretty x) as H. destruct (pretty_N_head x) as (c & s & E & Hc). rewrite E in *.
    assert (c_lstrip (String c s) = String c s) as Hs.
    { simpl. destruct (c_space c) eqn:Hsp; [|done]. unfold c_space, is_digit, digit_val in *.
      destruct ((48 <=? _)%N && _) eqn:E'; [|done]. apply andb_prop in E' as [E1%N.leb_le _]. apply orb_prop in Hsp as [[_ H1%N.leb_le]%andb_prop|H1%N.eqb_eq]; lia. }
    unfold py_int. rewrite Hs. rewrite !bool_decide_eq_false_2 by (intros ->; done). simpl.
    destruct s; [done|exact H]. }
  destruct z as [|p|p]; [apply (Hn 0%N)|apply (Hn (N.pos p))|].
  pose proof (number_in_pretty (N.pos p)) as H.
  change (py_str (Z.neg p)) with (String "-" (pretty (N.pos p))). unfold py_int. simpl c_lstrip. cbv iota.
  rewrite bool_decide_eq_true_2 by done.
  assert (drop_prefix16 10 (pretty (N.pos p)) = pretty (N.pos p)) as -> by (destruct (pretty (N.pos p)) as [|? [|? ?]]; done).
  rewrite H. done.
Qed.
