(* ===== verification/Bench.v ===== *)
(** * The probes of the runtime

    [python/lake/runtime/bench.py]: the probes of both cold starts and of a mock
    engine, with the records they write; and [format_waterfall] of
    [python/lake/runtime/coldstart.py].

    Time is counted in ticks of a tenth of a millisecond, the finest unit the probes
    use; a sleep takes its time and whatever the host adds ([late]).  The text is that
    of exact arithmetic; how a duration is printed is a parameter. *)

From S2P Require Import Prelude PyDict LakeTypes ColdStart PyStr.
From Stdlib Require Import Sorting.Sorted.
Local Open Scope Z_scope.

(** ** Percentiles *)

Fixpoint insert_sorted (x : Z) (l : list Z) : list Z :=
  match l with
  | [] => [x]
  | y :: l => if x <=? y then x :: y :: l else y :: insert_sorted x l
  end.
Definition sorted (l : list Z) : list Z := foldr insert_sorted [] l.

(** [q] in hundredths *)
Definition percentile (samples : list Z) (q : Z) : Z :=
  match samples with
  | [] => 0
  | _ => let s := sorted samples in default 0 (s !! Z.to_nat (q * (zlen s - 1) / 100))
  end.

Lemma insert_sorted_perm x l : insert_sorted x l ≡ₚ x :: l.
Proof.
  induction l as [|y l IH]; [done|]. simpl. destruct (x <=? y); [done|]. rewrite IH. apply Permutation_swap.
Qed.
Lemma sorted_perm l : sorted l ≡ₚ l.
Proof. induction l as [|x l IH]; [done|]. simpl. by rewrite insert_sorted_perm, IH. Qed.

Lemma insert_sorted_sorted x l : Sorted Z.le l -> Sorted Z.le (insert_sorted x l).
Proof.
  induction 1 as [|y l Hs IH Hy]; simpl; [by repeat constructor|]. destruct (Z.leb_spec x y).
  - by repeat constructor.
  - constructor; [done|]. destruct l as [|z l]; simpl; [by constructor; lia|]. apply HdRel_inv in Hy.
    destruct (x <=? z); constructor; lia.
Qed.
Lemma sorted_sorted l : StronglySorted Z.le (sorted l).
Proof.
  apply Sorted_StronglySorted; [intros a b c; lia|]. induction l as [|x l IH]; [constructor|]. by apply insert_sorted_sorted.
Qed.

Lemma filter_every (P : Z -> Prop) `{forall x, Decision (P x)} l : Forall P l -> filter P l = l.
Proof. induction 1 as [|x l Hx _ IH]; [done|]. rewrite filter_cons, decide_True by done. by rewrite IH. Qed.

(** The samples on either side of the [i]-th in order. *)
Lemma sorted_split l i v : StronglySorted Z.le l -> l !! i = Some v ->
  Forall (fun x => x <= v) (take (S i) l) /\ Forall (fun x => v <= x) (drop i l).
Proof.
  intros Hs. revert i. induction Hs as [|x l Hs IH Hx]; intros i Hi; [done|]. destruct i as [|i]; simpl in *.
  - injection Hi as ->. split; [constructor; [lia|constructor]|]. constructor; [lia|]. done.
  - destruct (IH i Hi) as [H1 H2]. split; [|done]. constructor; [|done].
    rewrite Forall_forall in Hx. apply Hx. by apply list_elem_of_lookup_2 with i.
Qed.

(** A percentile is one of the samples; at least its share of them is not above it, and
    at least the rest is not below it. *)
Theorem percentile_rank samples q : samples <> [] -> 0 <= q <= 100 ->
  let k := Z.to_nat (q * (zlen samples - 1) / 100) in
  percentile samples q ∈ samples /\
  (S k <= length (filter (fun x => (x <= percentile samples q)%Z) samples))%nat /\
  (length samples - k <= length (filter (fun x => (percentile samples q <= x)%Z) samples))%nat.
Proof.
  intros Hne Hq k. pose proof (sorted_perm samples) as Hp. pose proof (sorted_sorted samples) as Hs.
  assert (Hlen : length (sorted samples) = length samples) by by rewrite Hp.
  assert (Hpos : (0 < length samples)%nat) by (destruct samples; [done|simpl; lia]).
  assert (Hk : (k < length samples)%nat).
  { unfold k. assert (0 <= q * (zlen samples - 1) / 100 <= zlen samples - 1); [|lia]. split; [apply Z.div_pos; nia|].
    apply Z.div_le_upper_bound; nia. }
  destruct (lookup_lt_is_Some_2 (sorted samples) k) as [v Hv]; [lia|].
  assert (Hval : percentile samples q = v).
  { unfold percentile. destruct samples as [|x0 l0]; [done|]. rewrite Hlen. fold k. by rewrite Hv. }
  rewrite Hval. destruct (sorted_split _ _ _ Hs Hv) as [H1 H2]. split_and!.
  - rewrite <- Hp. by apply list_elem_of_lookup_2 with k.
  - assert (length (filter (fun x => x <= v) samples) = length (filter (fun x => x <= v) (sorted samples))) as -> by by rewrite Hp.
    rewrite <- (take_drop (S k) (sorted samples)), filter_app, length_app, (filter_every _ (take _ _)) by done.
    rewrite length_take. lia.
  - assert (length (filter (fun x => v <= x) samples) = length (filter (fun x => v <= x) (sorted samples))) as -> by by rewrite Hp.
    rewrite <- (take_drop k (sorted samples)), filter_app, length_app, (filter_every _ (drop _ _)) by done.
    rewrite length_drop. lia.
Qed.

(** ** The waterfall as text *)

Section waterfall.
Context (fmt_ms : Z -> string).

Definition name_text (n : segment_name) : string :=
  match n with Provision => "provision" | WeightLayer i => "weight_layer_" +:+ py_str i | KvPrefetch => "kv_prefetch" end.

Definition repeated (c : string) (n : Z) : string := foldr String.append EmptyString (replicate (Z.to_nat n) c).
(** [f"{s:<{n}}"] for [n] not negative *)
Definition pad_right (s : string) (n : Z) : string := s +:+ repeated " " (n - Z.of_nat (String.length s)).

(** [int(t * width / max(total_s, 1e-9))]: a tick is [1e-4] seconds. *)
Definition column (width total t : Z) : Z := if 0 <? total then (t * width) ÷ total else t * width * 100000.

Definition bar_line (width total : Z) (s : WaterfallSegment) : result lexn string :=
  let a := column width total (start_s s) in
  let b := Z.max (a + 1) (column width total (end_s s)) in
  let bar := repeated (if critical s then "#" else ".") (b - a) in
  if width - a <? 0 then Raise EValueError     (* a negative width in a format *)
  else Ok (pad_right (name_text (seg_name s)) 18 +:+ " |" +:+ repeated " " a +:+ pad_right bar (width - a) +:+ "| " +:+ fmt_ms (dur_ms s) +:+ "ms").

Fixpoint bar_lines (width total : Z) (segs : list WaterfallSegment) : result lexn (list string) :=
  match segs with
  | [] => Ok []
  | s :: segs => l ← bar_line width total s; ls ← bar_lines width total segs; Ok (l :: ls)
  end.
Definition newline : string := String.String (Ascii.ascii_of_nat 10) EmptyString.
Definition format_waterfall (segs : list WaterfallSegment) (total width : Z) : result lexn string :=
  ls ← bar_lines width total segs; Ok (String.concat newline ls).

Definition within (t : Z) (s : WaterfallSegment) : Prop := 0 <= start_s s <= end_s s /\ end_s s <= t.

Lemma within_mono t t' s : t <= t' -> within t s -> within t' s.
Proof. unfold within. lia. Qed.

Lemma within_renders width total segs : 0 <= width -> Forall (within total) segs ->
  exists ls, bar_lines width total segs = Ok ls /\ length ls = length segs.
Proof.
  intros Hw. induction 1 as [|s segs Hs _ IH]; [by exists []|]. destruct IH as (ls & E & Hlen). cbn [bar_lines].
  assert (Hc : column width total (start_s s) <= width).
  { unfold column. destruct Hs as [Hs1 Hs2]. destruct (Z.ltb_spec 0 total).
    - rewrite Z.quot_div_nonneg by nia. apply Z.div_le_upper_bound; nia.
    - assert (start_s s = 0) as -> by lia. lia. }
  unfold bar_line. destruct (Z.ltb_spec (width - column width total (start_s s)) 0); [lia|]. simpl. rewrite E. simpl.
  eexists. split; [done|]. simpl. by rewrite Hlen.
Qed.

Lemma waterfall_within load k : (forall i, 0 <= load i) -> forall l t g segs, 0 <= t -> Forall (within t) segs ->
  let r := foldl (waterfall_one load k) (t, g, segs) l in t <= r.1.1 /\ Forall (within r.1.1) r.2.
Proof.
  intros Hl l. induction l as [|i l IH]; intros t g segs Ht Hs; [done|]. simpl. specialize (Hl i).
  destruct (IH (t + load i) (if i + 1 =? k then t + load i else g)
    (segs ++ [mkSegment (WeightLayer i) t (t + load i) (i + 1 <=? k)])) as [H1 H2]; [lia| |].
  - apply Forall_app. split; [|constructor; [|done]].
    + eapply Forall_impl; [exact Hs|]. intros s. apply within_mono. lia.
    + unfold within. simpl. lia.
  - split; [lia|done].
Qed.

(** Every start can be drawn: the waterfall of a layer-async start, over its own total
    time and in any width, is rendered with one line per segment. *)
Theorem waterfall_drawn num_layers load fetch spawn k provision width m segs :
  (forall i, 0 <= load i) -> (forall d, fetch = Some d -> 0 <= d) -> 0 <= spawn -> 0 <= width ->
  waterfall_layer_async num_layers load fetch spawn k provision = Ok (m, segs) ->
  exists ls, format_waterfall segs (time_to_fully_ready m) width = Ok (String.concat newline ls) /\ length ls = length segs.
Proof.
  intros Hl Hf Hsp Hw. unfold waterfall_layer_async. destruct (bad_gate _ _); [done|].
  set (p := if 0 <? provision then _ else _). assert (Hp : 0 <= p.1 /\ Forall (within p.1) p.2).
  { unfold p. destruct (Z.ltb_spec 0 provision); simpl; split; try lia; [|constructor]. constructor; [|constructor]. unfold within. simpl. lia. }
  destruct p as [t1 segs0]. destruct Hp as [Ht1 Hsegs]. simpl in *.
  destruct (waterfall_within load k Hl (py_range num_layers) t1 0 segs0 Ht1 Hsegs) as [H1 H2].
  destruct (foldl _ _ _) as [[done_ gate] segs1]. simpl in *. intros [= <- <-]. simpl.
  set (kv := match fetch with Some _ => prefetch_done fetch spawn t1 | None => 0 end).
  match goal with |- context [format_waterfall ?l] => destruct (within_renders width (Z.max done_ kv) l Hw) as (ls & E & Hlen) end.
  2: { unfold format_waterfall. rewrite E. by exists ls. }
  assert (Hall : Forall (within (Z.max done_ kv)) segs1) by (eapply Forall_impl; [exact H2|]; intros s; apply within_mono; lia).
  unfold kv in *. destruct fetch as [d|]; [|done]. specialize (Hf d eq_refl). apply Forall_app. split; [done|].
  constructor; [|constructor]. unfold within, prefetch_done. simpl. lia.
Qed.
End waterfall.

(** ** The probes *)

Record Probe : Type := mkProbe { p_name : string; p_latency : dict string Z; p_counters : dict string Z }.

Section probes.
(** [out]: LAKE_BENCH_OUT; [late]: what the host adds to each sleep. *)
Context (out : option string) (late : Z -> N) (fetch_late spawn : N).

(** [_emit] *)
Definition emit (p : Probe) (written : list Probe) : list Probe :=
  match out with None | Some EmptyString => written | Some _ => written ++ [p] end.

(** [_MockLayerSource.load_layer] and [_MockPrefetcher.prefetch] *)
Definition mock_load (per_layer : Z) (i : Z) : Z := per_layer + Z.of_N (late i).
Definition mock_prefetch (per_block blocks : Z) : Z := per_block * blocks + Z.of_N fetch_late.

Definition bench_coldstart (written : list Probe) : result lexn (list Probe) :=
  let layers := 28 in
  let hot_blocks := 32 in
  let fetch := Some (mock_prefetch 10 hot_blocks) in
  let seq := run_sequential layers (mock_load 50) fetch in
  let written := emit (mkProbe "coldstart_sequential" [("serve_gate", time_to_serve_gate seq); ("fully_ready", time_to_fully_ready seq)]
                         [("layers", layers); ("hot_blocks", hot_blocks)]) written in
  m ← run_layer_async layers (mock_load 50) fetch (Z.of_N spawn) 4;
  Ok (emit (mkProbe "coldstart_layer_async" [("serve_gate", time_to_serve_gate m); ("fully_ready", time_to_fully_ready m)]
              [("layers", layers); ("hot_blocks", hot_blocks); ("layers_at_gate", layers_loaded_at_gate m)]) written).

Definition provision : Z := 500.
Definition sweep_grid : list (Z * Z * Z) :=
  lp ← [(28, 500); (28, 2000); (80, 500); (80, 2000)]; g ← [2; 4; 8]; [(lp, g)].

Definition sweep_one (p : Z * Z * Z) (written : list Probe) : result lexn (list Probe) :=
  let '(layers, per_layer, gate_layers) := p in
  '(m, _) ← waterfall_layer_async layers (mock_load per_layer) (Some (mock_prefetch 5 64)) (Z.of_N spawn) gate_layers provision;
  Ok (emit (mkProbe "coldstart_sweep"
              [("serve_gate", time_to_serve_gate m); ("fully_ready", time_to_fully_ready m); ("kv_warm", time_to_kv_warm m)]
              [("layers", layers); ("per_layer_ms_x10", per_layer); ("gate_layers", gate_layers); ("hot_blocks", 64);
               ("meets_10s_slo", if time_to_serve_gate m <? 100000 then 1 else 0)]) written).

Fixpoint sweep (grid : list (Z * Z * Z)) (written : list Probe) : result lexn (list Probe) :=
  match grid with
  | [] => Ok written
  | p :: grid => w ← sweep_one p written; sweep grid w
  end.
Definition bench_coldstart_sweep : list Probe -> result lexn (list Probe) := sweep sweep_grid.

(** [_FakePool] *)
Fixpoint fake_stats (o : SchedulerOutput) (reqs : dict string Req) (rids : list string) (stats : dict string StepStats) :
    result lexn (dict string StepStats) :=
  match rids with
  | [] => Ok stats
  | rid :: rids =>
      match dget rid reqs with
      | None => Raise EKeyError
      | Some r =>
          let phase := default (forward_mode o) (dget rid (req_forward_modes o)) in
          let blocks := if bool_decide (phase = EXTEND) then (zlen (prompt_token_ids r) + 7) / 8 else 0 in
          fake_stats o reqs rids (dset rid (mkStepStats 0 blocks 0) stats)
      end
  end.
Definition fake_prepare_step (o : SchedulerOutput) (reqs : dict string Req) : result lexn ReadyHandle :=
  stats ← fake_stats o reqs (dkeys (num_scheduled_tokens o)) [];
  Ok (mkReadyHandle (so_step_id o) stats None None [] []).

(** What is written about the requests of the engine probe. *)
Definition engine_probe (samples : list Z) (written : list Probe) : list Probe :=
  emit (mkProbe "engine_e2e_mock" [("p50", percentile samples 50); ("p99", percentile samples 99)] [("requests", zlen samples)]) written.

(** ** What the sweep shows *)

Lemma mock_load_pos per_layer : 0 <= per_layer -> forall i, 0 <= mock_load per_layer i.
Proof. intros H i. unfold mock_load. lia. Qed.

Lemma loads_bound per_layer d k : (forall i, Z.of_N (late i) <= d) -> 0 <= k ->
  k * per_layer <= loads (mock_load per_layer) 0 k <= k * (per_layer + d).
Proof.
  intros Hd. revert k. apply (natlike_ind (fun k => _ <= loads _ 0 k <= _)); [unfold loads; simpl; lia|].
  intros k Hk IH. rewrite <- Z.add_1_r, (loads_app _ 0 k (k + 1)), loads_one by lia. specialize (Hd k).
  assert (mock_load per_layer k = per_layer + Z.of_N (late k)) as -> by done. lia.
Qed.

(** A record says what its parameters cost: [gate_layers] layers after the provision,
    whatever the prefetch and the other layers take. *)
Definition gate_cost (p : Probe) : Prop := exists layers per_layer gate serve,
  dget "layers" (p_counters p) = Some layers /\ dget "per_layer_ms_x10" (p_counters p) = Some per_layer /\
  dget "gate_layers" (p_counters p) = Some gate /\ dget "serve_gate" (p_latency p) = Some serve /\
  serve = provision + loads (mock_load per_layer) 0 gate /\
  dget "meets_10s_slo" (p_counters p) = Some (if serve <? 100000 then 1 else 0).

Lemma sweep_one_probe layers per_layer gate written : 0 < gate <= layers -> 0 <= per_layer ->
  (exists file, out = Some file /\ file <> EmptyString) ->
  exists p, sweep_one (layers, per_layer, gate) written = Ok (written ++ [p]) /\ gate_cost p /\
    dget "serve_gate" (p_latency p) = Some (provision + loads (mock_load per_layer) 0 gate).
Proof.
  intros Hg Hp (file & Ho & Hne). unfold sweep_one.
  destruct (waterfall_decomposes layers (mock_load per_layer) (Some (mock_prefetch 5 64)) (Z.of_N spawn) gate provision
    (mock_load_pos _ Hp) Hg ltac:(done)) as (m & segs & E & Hgate & _). rewrite E. cbn [mbind result_bind].
  unfold emit. rewrite Ho. destruct file as [|a file]; [done|]. eexists. split; [done|]. split; [|by rewrite <- Hgate].
  exists layers, per_layer, gate, (time_to_serve_gate m). by rewrite <- Hgate.
Qed.

(** The sweep of the cold start: twelve records, each with the cost of its gate, and
    all of them within the budget of ten seconds as long as the host delays no layer by
    more than a second. *)
Theorem sweep_within_budget written : (exists file, out = Some file /\ file <> EmptyString) ->
  exists ps, bench_coldstart_sweep written = Ok (written ++ ps) /\ length ps = 12%nat /\ Forall gate_cost ps /\
    ((forall i, Z.of_N (late i) <= 10000) -> Forall (fun p => dget "meets_10s_slo" (p_counters p) = Some 1) ps).
Proof.
  intros Ho. unfold bench_coldstart_sweep.
  assert (Hgen : forall grid written, Forall (fun p : Z * Z * Z => 0 < p.2 <= p.1.1 /\ p.2 <= 8 /\ 0 <= p.1.2 <= 2000) grid ->
    exists ps, sweep grid written = Ok (written ++ ps) /\ length ps = length grid /\ Forall gate_cost ps /\
      ((forall i, Z.of_N (late i) <= 10000) -> Forall (fun p => dget "meets_10s_slo" (p_counters p) = Some 1) ps)).
  { clear written. induction grid as [|[[layers per_layer] gate] grid IH]; intros written Hall.
    { exists []. by rewrite app_nil_r. }
    apply Forall_cons in Hall as [(Hg & H8 & Hp) Hall]. simpl in Hg, H8, Hp.
    destruct (sweep_one_probe layers per_layer gate written Hg ltac:(lia) Ho) as (p & E & Hc & Hs).
    destruct (IH (written ++ [p]) Hall) as (ps & Eps & Hlen & Hcs & Hslo). exists (p :: ps). cbn [sweep]. rewrite E. cbn [mbind result_bind].
    rewrite Eps, <- app_assoc. split_and!; [done|simpl; by rewrite Hlen|by constructor|]. intros Hlate. constructor; [|by apply Hslo].
    destruct Hc as (l & pl & g & serve & _ & _ & _ & Hsv & _ & ->). rewrite Hs in Hsv. injection Hsv as <-.
    pose proof (loads_bound per_layer 10000 gate Hlate ltac:(lia)) as Hb. unfold provision.
    destruct (Z.ltb_spec (500 + loads (mock_load per_layer) 0 gate) 100000); [done|nia]. }
  destruct (Hgen sweep_grid written) as (ps & Hps); [|by exists ps].
  apply Forall_forall. intros p Hp. apply list_elem_of_In in Hp. simpl in Hp.
  repeat destruct Hp as [<-|Hp]; simpl; try lia.
Qed.
End probes.

Lemma sweep_within_budget_witness : exists ps, bench_coldstart_sweep (Some "f") (fun _ => 7%N) 3 2 [] = Ok ([] ++ ps) /\ length ps = 12%nat /\
  Forall (fun p => dget "meets_10s_slo" (p_counters p) = Some 1) ps.
Proof.
  destruct (sweep_within_budget (Some "f") (fun _ => 7%N) 3 2 []) as (ps & E & Hlen & _ & Hslo); [by exists "f"|].
  exists ps. split; [exact E|]. split; [exact Hlen|]. apply Hslo. intros i. simpl. lia.
Defined.

Example demo_waterfall : format_waterfall (fun _ => "ms") [mkSegment Provision 0 5 true; mkSegment KvPrefetch 5 10 false] 10 4 =
  Ok ("provision          |##  | msms" +:+ newline +:+ "kv_prefetch        |  ..| msms").
Proof. vm_compute. reflexivity. Qed.
Example demo_percentile : percentile [5; 1; 4; 2; 3] 50 = 3 /\ percentile [] 99 = 0.
Proof. done. Qed.
