(* ===== verification/KvcmTypes.v ===== *)
(** * kvcm: shared types

    [kvcm/ops/types.py], [kvcm/ops/base.py]: prefixes, task handles and states,
    and the exceptions of the control plane, each a constructor with the data a
    handler reads. *)

From S2P Require Import Prelude.

Record Prefix : Type := mkPrefix {
  model_id : string;
  token_ids : list Z
}.
#[export] Instance Prefix_eq_dec : EqDecision Prefix.
Proof. solve_decision. Defined.

Inductive TaskStatus : Type := PENDING | RUNNING | TS_READY | FAILED.
#[export] Instance TaskStatus_eq_dec : EqDecision TaskStatus.
Proof. solve_decision. Defined.

Inductive OpKind : Type := COPY | MOVE | RETAIN.
#[export] Instance OpKind_eq_dec : EqDecision OpKind.
Proof. solve_decision. Defined.

Definition op_value (o : OpKind) : string :=
  match o with COPY => "copy" | MOVE => "move" | RETAIN => "retain" end.

(** A task id is opaque to the upper layers; the store's own are pairs of
    integers. *)
Inductive TaskId : Type :=
| TPair (hi lo : Z)
| TStr (s : string).
#[export] Instance TaskId_eq_dec : EqDecision TaskId.
Proof. solve_decision. Defined.

Record TaskHandle : Type := mkHandle {
  h_op : OpKind;
  task_ids : list TaskId
}.
#[export] Instance TaskHandle_eq_dec : EqDecision TaskHandle.
Proof. solve_decision. Defined.

(** [KShutdown] is the [RuntimeError] of an executor that was shut down. *)
Inductive kexn : Type :=
| KValueError
| KKeyError
| KRuntimeError
| KNotImplemented
| KUnsupported
| KIntentInput
| KVerify (missing : list string)
| KQuery
| KSubmit (handle : option TaskHandle)
| KAdmissionWait
| KAdmissionStop
| KCancelled
| KStoreClient
| KAdmin (status : option Z)
| KSegmentNotFound
| KAdminMain
| KPrefetch
| KSqlite
| KShutdown
| KOther.
#[export] Instance kexn_eq_dec : EqDecision kexn.
Proof. solve_decision. Defined.
