(* ===== verification/Ledger.v ===== *)
(** * kvcm: the ledger

    [kvcm/ledger.py].  The four sqlite tables are association lists in rowid
    order, keyed by their primary keys: [ON CONFLICT DO UPDATE] keeps a row's
    place, a new row goes to the end, and [INSERT OR REPLACE] deletes the old row
    before it appends.  Token lists are stored as JSON text, as in the source.
    The wall clock is an argument ([now]).  SHA-256 is a parameter: no theorem
    depends on which function it is. *)

From S2P Require Import Prelude PyDict PyStr KvcmTypes.

(** [hashlib.sha256(text.encode()).hexdigest()] *)
Class Digest := sha256_hex : string -> string.

Definition join_comma (l : list string) : string := String.concat "," l.

Definition prefix_key `{Digest} (p : Prefix) : string :=
  model_id p +:+ ":" +:+ String.substring 0 16 (sha256_hex (join_comma (py_str <$> token_ids p))).

Record TaskRow : Type := mkTaskRow {
  tr_handle_id : string;
  tr_op : string;
  tr_prefix_key : string;
  tr_target : string;
  tr_status : string;
  tr_model_id : string;
  tr_token_ids : string;
  tr_created_at : Z;
  tr_updated_at : Z
}.

Record TaskRecord : Type := mkTaskRecord {
  rec_task_id : string;
  rec_handle_id : string;
  rec_op : string;
  rec_prefix_key : string;
  rec_target : string;
  rec_status : string;
  rec_model_id : string;
  rec_token_ids : list Z;
  rec_created_at : Z;
  rec_updated_at : Z
}.

Record KeepRow : Type := mkKeepRow {
  kr_model_id : string;
  kr_token_ids : string;
  kr_registered_at : Z
}.

Record KeepaliveRecord : Type := mkKeepRecord {
  ka_prefix : Prefix;
  registered_at : Z
}.

Record SessionRow : Type := mkSessionRow {
  sr_instance : string;
  sr_model_id : string;
  sr_token_ids : string;
  sr_bound_at : Z
}.

Record Ledger : Type := mkLedger {
  lg_tasks : dict string TaskRow;
  lg_keepalive : dict string KeepRow;
  lg_replicas : dict (string * string) Z;
  lg_sessions : dict (string * string) SessionRow;
  lg_closed : bool
}.

Module Db.
Section ops.
Context `{Digest}.

Definition empty_ledger : Ledger := mkLedger [] [] [] [] false.

Definition set_tasks t (l : Ledger) : Ledger :=
  mkLedger t (lg_keepalive l) (lg_replicas l) (lg_sessions l) (lg_closed l).
Definition set_keepalive k (l : Ledger) : Ledger :=
  mkLedger (lg_tasks l) k (lg_replicas l) (lg_sessions l) (lg_closed l).
Definition set_replicas r (l : Ledger) : Ledger :=
  mkLedger (lg_tasks l) (lg_keepalive l) r (lg_sessions l) (lg_closed l).
Definition set_sessions s (l : Ledger) : Ledger :=
  mkLedger (lg_tasks l) (lg_keepalive l) (lg_replicas l) s (lg_closed l).

(** [_run]: the executor takes no work once it is shut down. *)
Definition run {A} (c : M Ledger kexn A) : M Ledger kexn A := fun l =>
  if lg_closed l then (l, Raise KShutdown) else c l.

Definition close : M Ledger kexn unit := fun l =>
  (mkLedger (lg_tasks l) (lg_keepalive l) (lg_replicas l) (lg_sessions l) true, Ok tt).

(** ** Tasks *)

Definition TASK_STATUSES : list string := ["running"; "ready"; "failed"; "abandoned"].

Definition upsert_one (now : Z) (handle_id op : string) (p : Prefix) (target status : string)
    (t : dict string TaskRow) (tid : string) : dict string TaskRow :=
  match dget tid t with
  | Some r => dset tid (mkTaskRow (tr_handle_id r) (tr_op r) (tr_prefix_key r) (tr_target r) status
                          (tr_model_id r) (tr_token_ids r) (tr_created_at r) now) t
  | None => dset tid (mkTaskRow handle_id op (prefix_key p) target status (model_id p)
                        (json_dumps (token_ids p)) now now) t
  end.

Definition upsert_tasks_sync (now : Z) (tids : list string) (handle_id op : string) (p : Prefix)
    (target status : string) : M Ledger kexn unit :=
  modify (fun l => set_tasks (foldl (upsert_one now handle_id op p target status) (lg_tasks l) tids) l).

Definition upsert_tasks (now : Z) (tids : list string) (handle_id op : string) (p : Prefix)
    (target status : string) : M Ledger kexn unit :=
  if bool_decide (status ∈ TASK_STATUSES)
  then run (upsert_tasks_sync now tids handle_id op p target status)
  else raise KValueError.

Definition upsert_task (now : Z) (tid handle_id op : string) (p : Prefix) (target status : string) :
    M Ledger kexn unit :=
  upsert_tasks now [tid] handle_id op p target status.

(** [tuple(json.loads(text)) if text else ()]; bad JSON raises. *)
Definition load_tokens (text : string) : result kexn (list Z) :=
  if bool_decide (text = EmptyString) then Ok []
  else match json_loads text with Some l => Ok l | None => Raise KValueError end.

Definition row_to_record (kv : string * TaskRow) : result kexn TaskRecord :=
  let '(tid, r) := kv in
  match load_tokens (tr_token_ids r) with
  | Ok toks => Ok (mkTaskRecord tid (tr_handle_id r) (tr_op r) (tr_prefix_key r) (tr_target r) (tr_status r)
                     (tr_model_id r) toks (tr_created_at r) (tr_updated_at r))
  | Raise x => Raise x
  end.

(** A list comprehension over rows; the first bad row raises. *)
Fixpoint collect {A B} (f : A -> result kexn B) (l : list A) : result kexn (list B) :=
  match l with
  | [] => Ok []
  | x :: l' =>
      match f x with
      | Raise e => Raise e
      | Ok b => match collect f l' with Ok bs => Ok (b :: bs) | Raise e => Raise e end
      end
  end.

Definition list_running_tasks : M Ledger kexn (list TaskRecord) :=
  run (fun l => (l, collect row_to_record (filter (fun kv => tr_status kv.2 = "running") (lg_tasks l)))).

Definition list_tasks_by_handle (handle_id : string) : M Ledger kexn (list TaskRecord) :=
  run (fun l => (l, collect row_to_record (filter (fun kv => tr_handle_id kv.2 = handle_id) (lg_tasks l)))).

Definition get_task (tid : string) : M Ledger kexn (option TaskRecord) :=
  run (fun l =>
    (l, match dget tid (lg_tasks l) with
        | None => Ok None
        | Some r => match row_to_record (tid, r) with Ok x => Ok (Some x) | Raise e => Raise e end
        end)).

(** [status != 'running' AND updated_at < now - max_age]; the number deleted. *)
Definition expired (now max_age : Z) (kv : string * TaskRow) : bool :=
  negb (bool_decide (tr_status kv.2 = "running")) && (tr_updated_at kv.2 <? now - max_age).

Definition gc_tasks (now max_age : Z) : M Ledger kexn Z :=
  run (fun l =>
    let kept := filter (fun kv => expired now max_age kv = false) (lg_tasks l) in
    (set_tasks kept l, Ok (zlen (lg_tasks l) - zlen kept))).

(** ** Keepalive registrations *)

Definition register_keepalive (now : Z) (p : Prefix) : M Ledger kexn unit :=
  run (modify (fun l =>
    let k := prefix_key p in
    let at_ := match dget k (lg_keepalive l) with Some r => kr_registered_at r | None => now end in
    set_keepalive (dset k (mkKeepRow (model_id p) (json_dumps (token_ids p)) at_) (lg_keepalive l)) l)).

Definition unregister_keepalive (p : Prefix) : M Ledger kexn unit :=
  run (modify (fun l => set_keepalive (ddel (prefix_key p) (lg_keepalive l)) l)).

Definition keep_record (kv : string * KeepRow) : result kexn (option KeepaliveRecord) :=
  let r := kv.2 in
  if bool_decide (kr_token_ids r = EmptyString) then Ok None
  else match json_loads (kr_token_ids r) with
       | Some toks => Ok (Some (mkKeepRecord (mkPrefix (kr_model_id r) toks) (kr_registered_at r)))
       | None => Raise KValueError
       end.

Definition list_keepalive_records : M Ledger kexn (list KeepaliveRecord) :=
  run (fun l => (l, match collect keep_record (lg_keepalive l) with
                    | Ok rs => Ok (omap id rs)
                    | Raise e => Raise e
                    end)).

Definition keepalive_registered_at (p : Prefix) : M Ledger kexn (option Z) :=
  run (fun l => (l, Ok (kr_registered_at <$> dget (prefix_key p) (lg_keepalive l)))).

Definition restore_keepalive (p : Prefix) (at_ : Z) : M Ledger kexn unit :=
  run (modify (fun l =>
    match dget (prefix_key p) (lg_keepalive l) with
    | Some _ => l
    | None => set_keepalive (dset (prefix_key p) (mkKeepRow (model_id p) (json_dumps (token_ids p)) at_)
                               (lg_keepalive l)) l
    end)).

Definition has_keepalive (p : Prefix) : M Ledger kexn bool :=
  run (fun l => (l, Ok (din (prefix_key p) (lg_keepalive l)))).

Definition list_keepalive : M Ledger kexn (list Prefix) :=
  rs ← list_keepalive_records; mret (ka_prefix <$> rs).

(** ** Replicas *)

Definition put_replica (now : Z) (key instance : string) : M Ledger kexn unit :=
  run (modify (fun l => set_replicas (ddel (key, instance) (lg_replicas l) ++ [((key, instance), now)]) l)).

Definition list_replicas (key : string) : M Ledger kexn (list string) :=
  run (fun l => (l, Ok ((fun kv => kv.1.2) <$> filter (fun kv => kv.1.1 = key) (lg_replicas l)))).

Definition delete_replica (key instance : string) : M Ledger kexn unit :=
  run (modify (fun l => set_replicas (ddel (key, instance) (lg_replicas l)) l)).

(** ** Sessions *)

Definition bind_session (now : Z) (sid : string) (p : Prefix) (instance : string) : M Ledger kexn unit :=
  run (modify (fun l =>
    let k := (sid, prefix_key p) in
    set_sessions (ddel k (lg_sessions l) ++
      [(k, mkSessionRow instance (model_id p) (json_dumps (token_ids p)) now)]) l)).

Definition unbind_session (sid : string) : M Ledger kexn unit :=
  run (modify (fun l => set_sessions (filter (fun kv => kv.1.1 <> sid) (lg_sessions l)) l)).

Definition session_prefix (kv : (string * string) * SessionRow) : result kexn (option Prefix) :=
  let r := kv.2 in
  if bool_decide (sr_token_ids r = EmptyString) then Ok None
  else match json_loads (sr_token_ids r) with
       | Some toks => Ok (Some (mkPrefix (sr_model_id r) toks))
       | None => Raise KValueError
       end.

Definition list_session (sid : string) : M Ledger kexn (list Prefix) :=
  run (fun l => (l, match collect session_prefix (filter (fun kv => kv.1.1 = sid) (lg_sessions l)) with
                    | Ok rs => Ok (omap id rs)
                    | Raise e => Raise e
                    end)).

(** ** Controlled rewrites used by the tests *)

Definition backdate_tasks (now days : Z) (exclude : list string) : M Ledger kexn unit :=
  run (modify (fun l => set_tasks ((fun kv : string * TaskRow =>
    let '(tid, r) := kv in
    if bool_decide (tid ∈ exclude) then kv
    else (tid, mkTaskRow (tr_handle_id r) (tr_op r) (tr_prefix_key r) (tr_target r) (tr_status r)
                 (tr_model_id r) (tr_token_ids r) (tr_created_at r) (now - days * 24 * 3600)))
    <$> lg_tasks l) l)).

Definition backdate_keepalive (now seconds : Z) : M Ledger kexn unit :=
  run (modify (fun l => set_keepalive ((fun kv : string * KeepRow =>
    (kv.1, mkKeepRow (kr_model_id kv.2) (kr_token_ids kv.2) (now - seconds))) <$> lg_keepalive l) l)).

Definition corrupt_task_row (tid : string) : M Ledger kexn unit :=
  run (modify (fun l =>
    match dget tid (lg_tasks l) with
    | Some r => set_tasks (dset tid (mkTaskRow EmptyString (tr_op r) (tr_prefix_key r) (tr_target r)
                  (tr_status r) (tr_model_id r) EmptyString (tr_created_at r) (tr_updated_at r)) (lg_tasks l)) l
    | None => l
    end)).

(** ** Histories *)

(** The calls of the running system that change the tables. *)
Inductive lop : Type :=
| LUpsert (now : Z) (tids : list string) (handle_id op : string) (p : Prefix) (target status : string)
| LGc (now max_age : Z)
| LRegister (now : Z) (p : Prefix)
| LUnregister (p : Prefix)
| LRestore (p : Prefix) (at_ : Z)
| LPutReplica (now : Z) (key instance : string)
| LDeleteReplica (key instance : string)
| LBind (now : Z) (sid : string) (p : Prefix) (instance : string)
| LUnbind (sid : string).

Definition run_lop (l : Ledger) (o : lop) : Ledger :=
  match o with
  | LUpsert now tids h op p tg st => (upsert_tasks now tids h op p tg st l).1
  | LGc now age => (gc_tasks now age l).1
  | LRegister now p => (register_keepalive now p l).1
  | LUnregister p => (unregister_keepalive p l).1
  | LRestore p t => (restore_keepalive p t l).1
  | LPutReplica now k i => (put_replica now k i l).1
  | LDeleteReplica k i => (delete_replica k i l).1
  | LBind now sid p i => (bind_session now sid p i l).1
  | LUnbind sid => (unbind_session sid l).1
  end.

Definition history (os : list lop) : Ledger := foldl run_lop empty_ledger os.

(** What the table promises: one row per prefix key, with the prefix itself and the
    moment its current window opened. *)
Abbreviation windows := (gmap string (Prefix * Z)).
Definition window_step (m : windows) (o : lop) : windows :=
  match o with
  | LRegister now p => <[prefix_key p := (p, default now (snd <$> m !! prefix_key p))]> m
  | LUnregister p => delete (prefix_key p) m
  | LRestore p t => if bool_decide (is_Some (m !! prefix_key p)) then m else <[prefix_key p := (p, t)]> m
  | _ => m
  end.

Definition keep_row (w : Prefix * Z) : KeepRow := mkKeepRow (model_id w.1) (json_dumps (token_ids w.1)) w.2.

(** Sessions: which prefixes each session holds. *)
Abbreviation bindings := (gmap (string * string) Prefix).
Definition binding_step (m : bindings) (o : lop) : bindings :=
  match o with
  | LBind _ sid p _ => <[(sid, prefix_key p) := p]> m
  | LUnbind sid => filter (fun kv => kv.1.1 <> sid) m
  | _ => m
  end.

Definition task_row_ok (r : TaskRow) : Prop :=
  tr_status r ∈ TASK_STATUSES /\ exists toks, tr_token_ids r = json_dumps toks.

Record ledger_ok (os : list lop) (l : Ledger) : Prop := {
  lo_open : lg_closed l = false;
  lo_tasks : dict_wf (lg_tasks l);
  lo_rows : Forall (fun kv => task_row_ok kv.2) (lg_tasks l);
  lo_keep_wf : dict_wf (lg_keepalive l);
  lo_keep : forall k, dget k (lg_keepalive l) = keep_row <$> foldl window_step ∅ os !! k;
  lo_repl : dict_wf (lg_replicas l);
  lo_sess_wf : dict_wf (lg_sessions l);
  lo_sess : forall k, (fun r => (sr_model_id r, sr_token_ids r)) <$> dget k (lg_sessions l) =
    (fun p => (model_id p, json_dumps (token_ids p))) <$> foldl binding_step ∅ os !! k
}.

Lemma json_dumps_nonempty l : json_dumps l <> EmptyString.
Proof. done. Qed.

Lemma load_dumped toks : load_tokens (json_dumps toks) = Ok toks.
Proof. unfold load_tokens. by rewrite bool_decide_eq_false_2, json_roundtrip. Qed.

(** ** Tasks *)

Lemma upsert_one_get now h op p tg st t tid tid' :
  dget tid' (upsert_one now h op p tg st t tid) =
  if decide (tid' = tid)
  then Some (match dget tid t with
             | Some r => mkTaskRow (tr_handle_id r) (tr_op r) (tr_prefix_key r) (tr_target r) st
                           (tr_model_id r) (tr_token_ids r) (tr_created_at r) now
             | None => mkTaskRow h op (prefix_key p) tg st (model_id p) (json_dumps (token_ids p)) now now
             end)
  else dget tid' t.
Proof.
  unfold upsert_one. case_decide as E; [subst|].
  - destruct (dget tid t); apply dget_dset_eq.
  - destruct (dget tid t); by rewrite dget_dset_ne.
Qed.

Lemma upsert_one_wf now h op p tg st t tid : dict_wf t -> dict_wf (upsert_one now h op p tg st t tid).
Proof. intros Hw. unfold upsert_one. destruct (dget tid t); by apply dict_wf_dset. Qed.

(** Rows are described by their contents. *)
Lemma rows_ok_iff (t : dict string TaskRow) : dict_wf t ->
  Forall (fun kv => task_row_ok kv.2) t <-> forall tid r, dget tid t = Some r -> task_row_ok r.
Proof.
  intros Hw. rewrite Forall_forall. split.
  - intros Hr tid r Hg. apply (Hr (tid, r)). by apply dget_elem_of.
  - intros Hr [tid r] Hin. apply (Hr tid). by apply dget_elem_of.
Qed.

Lemma upsert_all_wf now h op p tg st tids : forall t, dict_wf t ->
  dict_wf (foldl (upsert_one now h op p tg st) t tids).
Proof. induction tids as [|tid tids IH]; intros t Hw; [done|]. apply IH. by apply upsert_one_wf. Qed.

Lemma upsert_all_get now h op p tg st tids : forall t tid,
  dget tid (foldl (upsert_one now h op p tg st) t tids) =
  if decide (tid ∈ tids)
  then Some (match dget tid t with
             | Some r => mkTaskRow (tr_handle_id r) (tr_op r) (tr_prefix_key r) (tr_target r) st
                           (tr_model_id r) (tr_token_ids r) (tr_created_at r) now
             | None => mkTaskRow h op (prefix_key p) tg st (model_id p) (json_dumps (token_ids p)) now now
             end)
  else dget tid t.
Proof.
  induction tids as [|x tids IH]; intros t tid; [by rewrite decide_False by apply not_elem_of_nil|].
  simpl. rewrite IH, upsert_one_get. destruct (decide (tid = x)) as [->|Hne].
  - rewrite (decide_True _ _ (list_elem_of_here x tids)). destruct (dget x t); by case_decide.
  - destruct (decide (tid ∈ tids)); [rewrite decide_True by (by right); done|].
    by rewrite decide_False by (rewrite elem_of_cons; tauto).
Qed.

Lemma upsert_all_rows now h op p tg st tids t : dict_wf t -> st ∈ TASK_STATUSES ->
  Forall (fun kv => task_row_ok kv.2) t ->
  Forall (fun kv => task_row_ok kv.2) (foldl (upsert_one now h op p tg st) t tids).
Proof.
  intros Hw Hst Hr. apply rows_ok_iff; [by apply upsert_all_wf|]. intros tid r.
  rewrite (rows_ok_iff t Hw) in Hr. rewrite upsert_all_get. case_decide; [|by apply Hr].
  intros [= <-]. destruct (dget tid t) as [r|] eqn:E; (split; [done|]); [by destruct (Hr _ _ E)|by eexists].
Qed.

Lemma run_open {A} (c : M Ledger kexn A) l : lg_closed l = false -> run c l = c l.
Proof. unfold run. by intros ->. Qed.

Lemma history_ok os : ledger_ok os (history os).
Proof.
  unfold history. induction os as [|o os IH] using rev_ind.
  { by split; simpl; try apply NoDup_nil_2; intros; rewrite ?lookup_empty. }
  rewrite foldl_app. simpl. set (l := foldl run_lop empty_ledger os) in *. destruct IH.
  destruct o; simpl;
    try (unfold gc_tasks, register_keepalive, unregister_keepalive, restore_keepalive, put_replica,
           delete_replica, bind_session, unbind_session; rewrite run_open by done; simpl).
  - unfold upsert_tasks. case_bool_decide; [rewrite run_open by done|]; split; simpl; try done;
      rewrite ?foldl_app; try done; [by apply upsert_all_wf|by apply upsert_all_rows].
  - split; simpl; rewrite ?foldl_app; try done; [by apply dict_wf_filter|].
    rewrite Forall_forall in *. intros kv [_ Hin]%list_elem_of_filter. by apply lo_rows0.
  - split; simpl; rewrite ?foldl_app; try done; [by apply dict_wf_dset|]. intros k. simpl.
    rewrite lo_keep0. destruct (decide (k = prefix_key p)) as [->|Hne].
    + rewrite dget_dset_eq, lookup_insert_eq. simpl. unfold keep_row at 2. simpl. do 2 f_equal.
      by destruct (foldl window_step ∅ os !! prefix_key p).
    + by rewrite dget_dset_ne, lookup_insert_ne.
  - split; simpl; rewrite ?foldl_app; try done; [by apply dict_wf_ddel|]. intros k. simpl.
    destruct (decide (k = prefix_key p)) as [->|Hne].
    + by rewrite dget_ddel_eq, lookup_delete_eq.
    + by rewrite dget_ddel_ne, lookup_delete_ne.
  - rewrite lo_keep0. destruct (foldl window_step ∅ os !! prefix_key p) as [w|] eqn:Hs; simpl.
    + split; simpl; rewrite ?foldl_app; try done. simpl. by rewrite bool_decide_eq_true_2 by eauto.
    + split; simpl; rewrite ?foldl_app; try done; [by apply dict_wf_dset|].
      intros k. simpl. rewrite bool_decide_eq_false_2 by (rewrite Hs; by apply is_Some_None).
      destruct (decide (k = prefix_key p)) as [->|Hne].
      * by rewrite dget_dset_eq, lookup_insert_eq.
      * by rewrite dget_dset_ne, lookup_insert_ne.
  - split; simpl; rewrite ?foldl_app; try done. by apply dict_wf_replace.
  - split; simpl; rewrite ?foldl_app; try done. by apply dict_wf_ddel.
  - split; simpl; rewrite ?foldl_app; try done; [by apply dict_wf_replace|]. intros k. simpl.
    rewrite dget_replace by done. case_decide as E; [subst; by rewrite lookup_insert_eq|].
    by rewrite lookup_insert_ne.
  - split; simpl; rewrite ?foldl_app; try done; [by apply dict_wf_filter|]. intros k. simpl.
    assert (Hf : dget k (filter (fun kv => kv.1.1 <> sid) (lg_sessions l)) =
      if decide (k.1 <> sid) then dget k (lg_sessions l) else None)
      by exact (dget_filter_key (fun k0 : string * string => k0.1 <> sid) k (lg_sessions l)).
    rewrite Hf, map_lookup_filter. specialize (lo_sess0 k).
    destruct (foldl binding_step ∅ os !! k); simpl in *; [|case_decide; simpl; congruence].
    destruct (decide (k.1 <> sid)); simpl; [rewrite option_guard_True by done|rewrite option_guard_False by done]; done.
Qed.

(** ** Reading the tables back *)

Lemma collect_ok {A B} (f : A -> result kexn B) (g : A -> B) l :
  (forall x, x ∈ l -> f x = Ok (g x)) -> collect f l = Ok (g <$> l).
Proof.
  induction l as [|x l IH]; intros Hf; [done|]. simpl. rewrite Hf by left.
  rewrite IH; [done|]. intros y Hy. apply Hf. by right.
Qed.

Lemma omap_some {A} (l : list A) : omap id (Some <$> l) = l.
Proof.
  induction l as [|x l IH]; [done|]. change (x :: omap id (Some <$> l) = x :: l). by rewrite IH.
Qed.

(** The listed registrations are the open windows. *)
Lemma keepalive_records_perm os : exists rs, list_keepalive_records (history os) = (history os, Ok rs) /\
  rs ≡ₚ (fun kw => mkKeepRecord kw.2.1 kw.2.2) <$> map_to_list (foldl window_step ∅ os).
Proof.
  pose proof (history_ok os) as []. set (m := foldl window_step ∅ os) in *. set (l := history os) in *.
  unfold list_keepalive_records. rewrite run_open by done.
  pose proof (dict_map_perm keep_row _ m lo_keep_wf0 lo_keep0) as Hp.
  set (g := fun kv : string * KeepRow =>
    mkKeepRecord (mkPrefix (kr_model_id kv.2) (default [] (json_loads (kr_token_ids kv.2)))) (kr_registered_at kv.2)).
  rewrite (collect_ok _ (Some ∘ g)).
  - eexists. split; [reflexivity|].
    rewrite (list_fmap_compose g Some (lg_keepalive l)), omap_some, Hp, <- list_fmap_compose.
    erewrite list_fmap_ext; [reflexivity|]. intros _ [k [[md toks] t]] _. unfold g, compose. simpl.
    by rewrite json_roundtrip.
  - intros kv Hin. rewrite Hp in Hin. apply list_elem_of_fmap in Hin as ([k [[md toks] t]]&->&_).
    unfold keep_record, g. simpl. by rewrite json_roundtrip.
Qed.

(** C19. Keepalive registrations are kept: over any history of ledger calls (task,
    replica and session calls in between included) the table lists exactly the
    registered prefixes, each rebuilt from its JSON text, with the time its
    window opened: the first registration since the last removal, or the time a
    restore brought back; registering again never moves a window, and a restore
    never replaces one that is open. *)
Theorem keepalive_refines os :
  let l := history os in
  let m := foldl window_step ∅ os in
  (exists rs, list_keepalive_records l = (l, Ok rs) /\
     rs ≡ₚ (fun kw => mkKeepRecord kw.2.1 kw.2.2) <$> map_to_list m) /\
  forall p, keepalive_registered_at p l = (l, Ok (snd <$> m !! prefix_key p)) /\
    has_keepalive p l = (l, Ok (bool_decide (is_Some (m !! prefix_key p)))).
Proof.
  intros l m. pose proof (history_ok os : ledger_ok os l) as []. change (foldl window_step ∅ os) with m in lo_keep0. split.
  - apply keepalive_records_perm.
  - intros p. unfold keepalive_registered_at, has_keepalive, din. rewrite !run_open, lo_keep0 by done.
    by destruct (m !! prefix_key p).
Qed.

(** Session bindings are kept: a session lists exactly the prefixes bound to it
    since it was last unbound. *)
Theorem session_refines os sid :
  let l := history os in
  exists ps, list_session sid l = (l, Ok ps) /\
    forall p, p ∈ ps <-> exists k, foldl binding_step ∅ os !! (sid, k) = Some p.
Proof.
  intros l. pose proof (history_ok os : ledger_ok os l) as []. set (m := foldl binding_step ∅ os) in *.
  unfold list_session. rewrite run_open by done.
  set (g := fun kv : (string * string) * SessionRow =>
    mkPrefix (sr_model_id kv.2) (default [] (json_loads (sr_token_ids kv.2)))).
  assert (Hrow : forall k r, (k, r) ∈ lg_sessions l <-> exists p, dget k (lg_sessions l) = Some r /\
    m !! k = Some p /\ sr_model_id r = model_id p /\ sr_token_ids r = json_dumps (token_ids p)).
  { intros k r. rewrite <- (dget_elem_of k r _ lo_sess_wf0). split; [|by intros (p&?&_)].
    intros Hg. specialize (lo_sess0 k). rewrite Hg in lo_sess0. simpl in lo_sess0.
    destruct (m !! k) as [p|]; simplify_eq/=. eauto. }
  assert (Hg : forall k r p, sr_model_id r = model_id p -> sr_token_ids r = json_dumps (token_ids p) -> g (k, r) = p).
  { intros k r [md toks] Hm Ht. unfold g. simpl in *. by rewrite Hm, Ht, json_roundtrip. }
  rewrite (collect_ok _ (Some ∘ g)).
  - eexists. split; [reflexivity|]. rewrite (list_fmap_compose g Some), omap_some.
    intros p. rewrite list_elem_of_fmap. split.
    + intros ([[sid' k] r]&->&Hin). apply list_elem_of_filter in Hin as [Hs Hin]. simpl in Hs. subst sid'.
      apply Hrow in Hin as (p&_&Hm&H1&H2). exists k. by rewrite (Hg _ _ _ H1 H2).
    + intros [k Hm]. specialize (lo_sess0 (sid, k)). rewrite Hm in lo_sess0.
      destruct (dget (sid, k) (lg_sessions l)) as [r|] eqn:Er; simplify_eq/=.
      exists ((sid, k), r). split; [symmetry; by apply Hg|]. apply list_elem_of_filter. split; [done|].
      by apply dget_elem_of.
  - intros [k r] Hin. apply list_elem_of_filter in Hin as [_ Hin]. apply Hrow in Hin as (p&_&_&H1&H2).
    unfold session_prefix, g. simpl. by rewrite H2, bool_decide_eq_false_2, json_roundtrip.
Qed.

Lemma row_record_ok tid r : task_row_ok r -> exists toks, tr_token_ids r = json_dumps toks /\
  row_to_record (tid, r) = Ok (mkTaskRecord tid (tr_handle_id r) (tr_op r) (tr_prefix_key r) (tr_target r)
    (tr_status r) (tr_model_id r) toks (tr_created_at r) (tr_updated_at r)).
Proof. intros (_&toks&Ht). exists toks. split; [done|]. unfold row_to_record. by rewrite Ht, load_dumped. Qed.

(** Task rows: after any history, an upsert with a known status moves exactly the
    given tasks, all of them, to that status; a task that is already recorded
    keeps its handle, operation, target, tokens and creation time, a new one has
    the caller's, with the token list readable again; every other task and table
    is untouched.  An unknown status raises [ValueError] and changes nothing. *)
Theorem upsert_tasks_moves os now tids h op p tg st :
  let l := history os in
  let '(l', o) := upsert_tasks now tids h op p tg st l in
  if bool_decide (st ∈ TASK_STATUSES) then
    o = Ok tt /\ lg_keepalive l' = lg_keepalive l /\ lg_sessions l' = lg_sessions l /\
    (forall tid, tid ∉ tids -> get_task tid l' = (l', (get_task tid l).2)) /\
    (forall tid, tid ∈ tids -> exists rec, get_task tid l' = (l', Ok (Some rec)) /\
       rec_status rec = st /\ rec_updated_at rec = now /\
       match (get_task tid l).2 with
       | Ok (Some old) => rec_handle_id rec = rec_handle_id old /\ rec_op rec = rec_op old /\
           rec_target rec = rec_target old /\ rec_token_ids rec = rec_token_ids old /\
           rec_created_at rec = rec_created_at old
       | _ => rec_handle_id rec = h /\ rec_op rec = op /\ rec_target rec = tg /\
           rec_token_ids rec = token_ids p /\ rec_created_at rec = now
       end)
  else o = Raise KValueError /\ l' = l.
Proof.
  intros l. pose proof (history_ok os : ledger_ok os l) as []. unfold upsert_tasks. case_bool_decide as Hst; [|done].
  rewrite run_open by done. simpl. split_and!; try done.
  - intros tid Hn. unfold get_task. rewrite !run_open by done. simpl. rewrite upsert_all_get.
    by rewrite decide_False.
  - intros tid Hin. unfold get_task. rewrite !run_open by done. cbn [lg_tasks set_tasks]. rewrite upsert_all_get.
    rewrite decide_True by done. pose proof (proj1 (rows_ok_iff _ lo_tasks0) lo_rows0 tid) as Hr.
    destruct (dget tid (lg_tasks l)) as [r|].
    + destruct (row_record_ok tid r (Hr r eq_refl)) as (toks&Ht&E). simpl in *. rewrite Ht in *. 
      rewrite load_dumped in *. eexists. split; [reflexivity|]. done.
    + simpl. rewrite load_dumped. eexists. split; [reflexivity|]. done.
Qed.

(** Collecting old tasks never loses one in flight: after any history [gc_tasks]
    removes exactly the tasks in a terminal state last updated before the
    horizon, reports how many, and leaves [list_running_tasks], the input of the
    restart, as it was. *)
Theorem gc_spares_running os now age :
  let l := history os in
  exists l' n, gc_tasks now age l = (l', Ok n) /\
    (forall tid, dget tid (lg_tasks l') =
       match dget tid (lg_tasks l) with
       | Some r => if expired now age (tid, r) then None else Some r
       | None => None
       end) /\
    n = zlen (filter (fun kv => expired now age kv = true) (lg_tasks l)) /\
    (list_running_tasks l').2 = (list_running_tasks l).2 /\
    exists recs, (list_running_tasks l).2 = Ok recs.
Proof.
  intros l. pose proof (history_ok os : ledger_ok os l) as []. unfold gc_tasks. rewrite run_open by done.
  eexists _, _. split; [reflexivity|]. split_and!.
  - intros tid. simpl. clear lo_rows0. revert lo_tasks0. unfold dict_wf, dkeys. induction (lg_tasks l) as [|[k r] t IH]; [done|].
    rewrite fmap_cons, NoDup_cons. intros [Hk Hw]. rewrite filter_cons.
    destruct (expired now age (k, r)) eqn:E; [rewrite decide_False by done|rewrite decide_True by done]; cbn [dget].
    + rewrite IH by done. destruct (decide (tid = k)) as [->|]; [|done]. rewrite E.
      by rewrite (proj2 (dget_None k t) Hk).
    + destruct (decide (tid = k)) as [->|]; [by rewrite E|]. by apply IH.
  - simpl. clear lo_rows0 lo_tasks0. induction (lg_tasks l) as [|x t IH]; [done|]. rewrite !filter_cons.
    destruct (expired now age x); simpl in *; lia.
  - unfold list_running_tasks. rewrite !run_open by done. simpl. f_equal. rewrite list_filter_filter.
    apply filter_iff_in. intros kv _. split; [tauto|]. intros Hr. split; [done|]. unfold expired.
    by rewrite bool_decide_eq_true_2.
  - unfold list_running_tasks. rewrite run_open by done. simpl.
    assert (Hr : Forall (fun kv => task_row_ok kv.2) (filter (fun kv => tr_status kv.2 = "running") (lg_tasks l))).
    { rewrite Forall_forall in *. intros kv [_ Hin]%list_elem_of_filter. by apply lo_rows0. }
    induction Hr as [|[tid r] t Hr _ IH]; [by eexists|]. simpl in Hr.
    destruct (row_record_ok tid r Hr) as (toks&_&E). destruct IH as [recs IH]. cbn [collect]. rewrite E, IH. by eexists.
Qed.

End ops.
End Db.
