(* ===== verification/Keys.v ===== *)
(** * kvcm: keys

    [kvcm/engines/vllm/keys.py]: the key strings of a prefix, the ranks read back
    from them, and the plan that maps each key to a segment of the target.

    The engine's own code (the upstream [PoolKey] and the block hash) is not part
    of this program: it is a parameter ([upstream], [hash_block_tokens],
    [block_hash_to_str]). *)

From S2P Require Import Prelude PyDict PyStr KvcmTypes Ledger.
From Stdlib Require Import Ascii.
Local Open Scope Z_scope.

#[local] Arguments String.append !_ _ /.

(** ** Ranks *)

(** [s] without the literal [lit] at its start. *)
Fixpoint strip_literal (lit s : string) : option string :=
  match lit, s with
  | EmptyString, _ => Some s
  | String a lit', String b s' => if bool_decide (a = b) then strip_literal lit' s' else None
  | String _ _, EmptyString => None
  end.

(** [@head_or_tp_rank:(\d+)@] at the start of [s]. *)
Definition match_rank (s : string) : option Z :=
  match strip_literal "@head_or_tp_rank:" s with
  | None => None
  | Some r =>
      match scan_nat r with
      | Some (n, String c _) => if bool_decide (c = "@"%char) then Some (Z.of_N n) else None
      | _ => None
      end
  end.

(** [re.search]: the first position that matches. *)
Fixpoint search_rank (s : string) : option Z :=
  match match_rank s with
  | Some n => Some n
  | None => match s with String _ s' => search_rank s' | EmptyString => None end
  end.

Definition parse_key_rank (key : string) : result kexn Z :=
  match search_rank key with Some n => Ok n | None => Raise KValueError end.

(** [sorted(out.items())] of a dict with integer keys. *)
Fixpoint insert_rank (kv : Z * list string) (d : dict Z (list string)) : dict Z (list string) :=
  match d with
  | [] => [kv]
  | kv' :: d' => if kv.1 <? kv'.1 then kv :: d else kv' :: insert_rank kv d'
  end.
Definition sort_ranks (d : dict Z (list string)) : dict Z (list string) := foldr insert_rank [] d.

Fixpoint group_loop (keys : list string) (out : dict Z (list string)) : result kexn (dict Z (list string)) :=
  match keys with
  | [] => Ok out
  | k :: keys' =>
      match parse_key_rank k with
      | Raise e => Raise e
      | Ok r => group_loop keys' (dset r (default [] (dget r out) ++ [k]) out)
      end
  end.

Definition group_keys_by_rank (keys : list string) : result kexn (dict Z (list string)) :=
  match group_loop keys [] with Ok d => Ok (sort_ranks d) | Raise e => Raise e end.

(** ** Key strings *)

Record KeySpec : Type := mkKeySpec {
  model_name : string;
  chunk_hash : string;
  head_or_tp_rank : Z;
  pcp_rank : Z;
  dcp_rank : Z;
  pp_rank : Z;
  kv_cache_group_id : Z;
  cache_role : string;
  cache_family : string;
  layer_id : option Z
}.

Definition to_string (k : KeySpec) : string :=
  match layer_id k with
  | None =>
      model_name k
      +:+ "@pcp:" +:+ py_str (pcp_rank k) +:+ "@dcp:" +:+ py_str (dcp_rank k)
      +:+ "@head_or_tp_rank:" +:+ py_str (head_or_tp_rank k)
      +:+ "@pp_rank:" +:+ py_str (pp_rank k)
      +:+ "@group:" +:+ py_str (kv_cache_group_id k)
      +:+ "@cache_role:" +:+ cache_role k
      +:+ "@cache_family:" +:+ cache_family k
      +:+ "@" +:+ chunk_hash k
  | Some lid =>
      model_name k
      +:+ "@pcp:" +:+ py_str (pcp_rank k) +:+ "@dcp:" +:+ py_str (dcp_rank k)
      +:+ "@head_or_tp_rank:" +:+ py_str (head_or_tp_rank k)
      +:+ "@group:" +:+ py_str (kv_cache_group_id k)
      +:+ "@cache_role:" +:+ cache_role k
      +:+ "@cache_family:" +:+ cache_family k
      +:+ "@layer_id:" +:+ py_str lid
      +:+ "@" +:+ chunk_hash k
  end.

(** The upstream key classes, when they can be imported: the keys of a metadata
    and a number of layers (0: one key).  *)
Definition upstream_keys : Type := option (KeySpec -> Z -> list string).

Record expand_args : Type := mkExpandArgs {
  ea_model_name : string;
  ea_chunk_hashes : list string;
  ea_tp_size : Z;
  ea_put_step : Z;
  ea_pcp_size : Z;
  ea_dcp_size : Z;
  ea_pp_size : Z;
  ea_include_layers : bool;
  ea_num_layers : Z;
  ea_kv_cache_group_id : Z;
  ea_cache_family : string;
  ea_prefer_upstream : bool
}.

(** The defaults of the keyword arguments. *)
Definition default_args (model : string) (hashes : list string) (tp put : Z) : expand_args :=
  mkExpandArgs model hashes tp put 1 1 1 false 0 0 "default" true.

Definition head_or_tp_ranks (a : expand_args) : Z :=
  Z.max (ea_tp_size a / Z.max (ea_put_step a) 1) 1.

(** The innermost body: the keys of one rank combination. *)
Definition expand_body (up : upstream_keys) (a : expand_args) (hash : string) (pcp dcp rank pp : Z) : list string :=
  let spec layer := mkKeySpec (ea_model_name a) hash rank pcp dcp pp (ea_kv_cache_group_id a) "kv"
                      (ea_cache_family a) layer in
  match up with
  | Some make =>
      if ea_prefer_upstream a then make (spec None) (if ea_include_layers a then ea_num_layers a else 0)
      else if ea_include_layers a
      then (fun lid => to_string (mkKeySpec (ea_model_name a) hash rank pcp dcp 0 (ea_kv_cache_group_id a) "kv"
                                    (ea_cache_family a) (Some lid))) <$> py_range (ea_num_layers a)
      else [to_string (spec None)]
  | None =>
      if ea_include_layers a
      then (fun lid => to_string (mkKeySpec (ea_model_name a) hash rank pcp dcp 0 (ea_kv_cache_group_id a) "kv"
                                    (ea_cache_family a) (Some lid))) <$> py_range (ea_num_layers a)
      else [to_string (spec None)]
  end.

Definition expand_store_keys (up : upstream_keys) (a : expand_args) : result kexn (list string) :=
  if ea_include_layers a && (ea_num_layers a <=? 0) then Raise KValueError
  else Ok (
    hash ← ea_chunk_hashes a;
    pcp ← py_range (ea_pcp_size a);
    dcp ← py_range (ea_dcp_size a);
    rank ← py_range (head_or_tp_ranks a);
    pp ← py_range (ea_pp_size a);
    expand_body up a hash pcp dcp rank pp).

(** ** Block hashes *)

Section hashing.
Context {BH : Type} (hash_block_tokens : option BH -> list Z -> BH) (block_hash_to_str : BH -> string).

Record TokenBlockChain : Type := mkChain {
  block_hashes : list BH;
  parent_block_hash : option BH;
  chain_token_ids : list Z;
  chain_block_size : Z
}.

(** The loop: [hashes] grows, the last hash is the next parent. *)
Fixpoint hash_loop (starts : list Z) (bs : Z) (toks : list Z) (parent : option BH) (hashes : list BH) : list BH :=
  match starts with
  | [] => hashes
  | i :: starts' =>
      let h := hash_block_tokens parent (py_slice i (i + bs) toks) in
      hash_loop starts' bs toks (Some h) (hashes ++ [h])
  end.

(** [range(0, n, step)] *)
Definition py_range_step (n step : Z) : list Z :=
  if step <=? 0 then [] else (fun i => i * step) <$> py_range ((n + step - 1) / step).

(** [seed_ok]: the environment has [PYTHONHASHSEED=0]. *)
Definition hash_token_block_chain (seed_ok : bool) (toks : list Z) (bs : Z) : result kexn TokenBlockChain :=
  if negb seed_ok then Raise KIntentInput
  else if bs =? 0 then Raise KOther
  else
    let n_full := (zlen toks / bs) * bs in
    let full := py_take n_full toks in
    Ok (mkChain (hash_loop (py_range_step n_full bs) bs full None []) None full bs).

Definition hash_token_blocks (seed_ok : bool) (toks : list Z) (bs : Z) : result kexn (list string) :=
  match hash_token_block_chain seed_ok toks bs with
  | Ok c => Ok (block_hash_to_str <$> block_hashes c)
  | Raise e => Raise e
  end.

(** ** The key computer *)

Record KeyComputer : Type := mkKeyComputer {
  kc_model_name : string;
  kc_block_size : Z;
  kc_tp_size : Z;
  kc_peer_tp_size : option Z;
  kc_put_step : Z
}.

(** [x] is truthy *)
Definition truthy (o : option Z) : option Z :=
  match o with Some z => if z =? 0 then None else Some z | None => None end.

Definition effective_tp (kc : KeyComputer) : Z :=
  match truthy (kc_peer_tp_size kc) with
  | Some peer => if peer =? kc_tp_size kc then kc_tp_size kc else Z.max (kc_tp_size kc) peer
  | None => kc_tp_size kc
  end.

Definition expand (up : upstream_keys) (kc : KeyComputer) (hashes : list string) : result kexn (list string) :=
  expand_store_keys up (default_args (kc_model_name kc) hashes (effective_tp kc) (kc_put_step kc)).

Definition keys_for_tokens (up : upstream_keys) (seed_ok : bool) (kc : KeyComputer) (toks : list Z) :
    result kexn (list string) :=
  match hash_token_blocks seed_ok toks (kc_block_size kc) with
  | Raise e => Raise e
  | Ok hexes => expand up kc hexes
  end.

(** [targets[i]] *)
Definition seg_at (targets : list string) (i : Z) : result kexn string :=
  if i <? 0 then
    match targets !! Z.to_nat (zlen targets + i) with
    | Some s => if 0 <=? zlen targets + i then Ok s else Raise KOther
    | None => Raise KOther
    end
  else match targets !! Z.to_nat i with Some s => Ok s | None => Raise KOther end.

Definition assign (targets : list string) (key : string) : result kexn (string * string) :=
  match parse_key_rank key with
  | Raise e => Raise e
  | Ok r => match seg_at targets r with Ok s => Ok (key, s) | Raise e => Raise e end
  end.

(** The reverse heterogeneous case: every target stands for [n_sub] ranks. *)
Definition spread_targets (kc : KeyComputer) (max_rank : Z) (targets : list string) : result kexn (list string) :=
  let local_tp := kc_tp_size kc in
  match truthy (kc_peer_tp_size kc) with
  | None => Raise KIntentInput
  | Some peer_tp =>
      let eff := Z.max local_tp peer_tp in
      let n_sub := if local_tp =? 0 then 1 else eff / local_tp in
      if (local_tp <? peer_tp) && (0 <? local_tp) && (eff mod local_tp =? 0)
         && (zlen targets =? local_tp) && (max_rank =? eff - 1)
      then Db.collect (fun i => seg_at targets (i / n_sub)) (py_range eff)
      else Raise KIntentInput
  end.

(** The checks of [build_plan] after the heterogeneous case, and the plan. *)
Definition plan_exact (max_rank : Z) (ranks : list Z) (targets keys : list string) :
    result kexn (list (string * string)) :=
  if existsb (fun r => (r <? 0) || (zlen targets <=? r)) ranks then Raise KIntentInput
  else if max_rank + 1 <? zlen targets then Raise KIntentInput
  else Db.collect (assign targets) keys.

Definition build_plan (kc : KeyComputer) (keys targets : list string) : result kexn (list (string * string)) :=
  match group_keys_by_rank keys with
  | Raise e => Raise e
  | Ok by_rank =>
      let max_rank := foldr Z.max (-1) (dkeys by_rank) in
      if max_rank <=? 0 then
        match by_rank with
        | [] => Ok []
        | _ => match targets with
               | [t] => Ok ((fun k => (k, t)) <$> keys)
               | _ => Raise KIntentInput
               end
        end
      else if zlen targets <=? max_rank then
        match spread_targets kc max_rank targets with
        | Raise e => Raise e
        | Ok targets' => plan_exact max_rank (dkeys by_rank) targets' keys
        end
      else plan_exact max_rank (dkeys by_rank) targets keys
  end.

End hashing.

(** ** Ranks are read back *)

Lemma match_rank_at c s : c <> "@"%char -> match_rank (String c s) = None.
Proof. intros Hc. unfold match_rank. simpl. rewrite bool_decide_eq_false_2; [done|]. congruence. Qed.

Lemma search_skip a s : lacks "@" a = true -> search_rank (a +:+ s) = search_rank s.
Proof.
  induction a as [|c a IH]; [done|]. simpl. intros [Hc Ha]%andb_true_iff. apply negb_true_iff in Hc.
  rewrite match_rank_at by (by apply bool_decide_eq_false in Hc). by apply IH.
Qed.

Lemma search_skip_int z s : search_rank (py_str z +:+ s) = search_rank s.
Proof. apply search_skip. by apply lacks_py_str. Qed.

(** A field name that does not start like the rank's. *)
Lemma search_field lit a s : lit = String "@" a -> lacks "@" a = true ->
  (forall t, match_rank (lit +:+ t) = None) -> search_rank (lit +:+ s) = search_rank s.
Proof.
  intros -> Ha Hm. specialize (Hm s). simpl in *. rewrite Hm. by apply search_skip.
Qed.

Lemma search_here n s : 0 <= n -> search_rank ("@head_or_tp_rank:" +:+ py_str n +:+ String "@" s) = Some n.
Proof.
  intros Hn.
  assert (E : match_rank ("@head_or_tp_rank:" +:+ py_str n +:+ String "@" s) = Some n).
  { unfold match_rank. simpl. rewrite (pretty_Z_nonneg n Hn), scan_pretty_N by done. simpl.
    by rewrite Z2N.id. }
  cbn [String.append] in *. cbn [search_rank]. by rewrite E.
Qed.

Lemma parse_to_string k : lacks "@" (model_name k) = true -> 0 <= head_or_tp_rank k ->
  parse_key_rank (to_string k) = Ok (head_or_tp_rank k).
Proof.
  intros Hm Hr. unfold parse_key_rank.
  assert (E : exists t, to_string k = model_name k +:+ "@pcp:" +:+ py_str (pcp_rank k) +:+ "@dcp:" +:+
    py_str (dcp_rank k) +:+ "@head_or_tp_rank:" +:+ py_str (head_or_tp_rank k) +:+ String "@" t).
  { unfold to_string. destruct (layer_id k); eexists; reflexivity. }
  destruct E as [t ->]. rewrite search_skip by done.
  rewrite (search_field "@pcp:" "pcp:"), search_skip_int by done.
  rewrite (search_field "@dcp:" "dcp:"), search_skip_int by done.
  by rewrite search_here.
Qed.

(** ** The keys of a prefix, offline *)

Definition tp_ranks (kc : KeyComputer) : Z := Z.max (effective_tp kc / Z.max (kc_put_step kc) 1) 1.

Definition key_of (kc : KeyComputer) (hash : string) (rank : Z) : string :=
  to_string (mkKeySpec (kc_model_name kc) hash rank 0 0 0 0 "kv" "default" None).

Definition all_keys (kc : KeyComputer) (hashes : list string) : list string :=
  hash ← hashes; key_of kc hash <$> py_range (tp_ranks kc).

Lemma list_bind_single {A B} (f : A -> B) (l : list A) : (x ← l; [f x]) = f <$> l.
Proof. induction l as [|x l IH]; [done|]. change (f x :: (x ← l; [f x]) = f x :: (f <$> l)). by rewrite IH. Qed.

Lemma expand_offline kc hashes : expand None kc hashes = Ok (all_keys kc hashes).
Proof.
  unfold expand, expand_store_keys, all_keys. simpl. f_equal. apply list_bind_ext; [|done].
  intros hash. change (py_range 1) with [0]. simpl. rewrite !app_nil_r.
  apply (list_bind_single (key_of kc hash)).
Qed.

Lemma elem_of_all_keys kc hashes k :
  k ∈ all_keys kc hashes <-> exists hash rank, k = key_of kc hash rank /\ hash ∈ hashes /\ 0 <= rank < tp_ranks kc.
Proof.
  unfold all_keys. rewrite list_elem_of_bind. unfold py_range. split.
  - intros (hash&Hk&Hh). apply list_elem_of_fmap in Hk as (rank&->&Hr%elem_of_zseq).
    exists hash, rank. split_and!; [done..|lia|lia].
  - intros (hash&rank&->&Hh&Hr). exists hash. split; [|done]. apply list_elem_of_fmap. exists rank.
    split; [done|]. apply elem_of_zseq. lia.
Qed.

Lemma key_of_rank kc hash rank : lacks "@" (kc_model_name kc) = true -> 0 <= rank ->
  parse_key_rank (key_of kc hash rank) = Ok rank.
Proof. intros Hm Hr. by apply (parse_to_string (mkKeySpec _ _ rank _ _ _ _ _ _ _)). Qed.

(** ** Grouping *)

Lemma insert_rank_perm kv d : insert_rank kv d ≡ₚ kv :: d.
Proof.
  induction d as [|kv' d IH]; [done|]. simpl. case_match; [done|]. rewrite IH. apply Permutation_swap.
Qed.

Lemma sort_ranks_perm d : sort_ranks d ≡ₚ d.
Proof. induction d as [|kv d IH]; [done|]. simpl. by rewrite insert_rank_perm, IH. Qed.

Lemma group_loop_ok keys : forall out,
  (forall k, k ∈ keys -> exists r, parse_key_rank k = Ok r) ->
  exists d, group_loop keys out = Ok d /\
    forall r, r ∈ dkeys d <-> r ∈ dkeys out \/ exists k, k ∈ keys /\ parse_key_rank k = Ok r.
Proof.
  induction keys as [|k keys IH]; intros out Hk; simpl.
  - exists out. split; [done|]. intros r. split; [auto|]. intros [|(k&Hin&_)]; [done|]. by apply elem_of_nil in Hin.
  - destruct (Hk k ltac:(left)) as [r Hr]. rewrite Hr.
    destruct (IH (dset r (default [] (dget r out) ++ [k]) out)) as (d&E&Hd); [intros; apply Hk; by right|].
    exists d. split; [done|]. intros r'. rewrite Hd, elem_of_dkeys_dset. split.
    + intros [[->|?]|(k'&?&?)]; [right; exists k; split; [left|done]|by left|].
      right. exists k'. split; [by right|done].
    + intros [?|(k'&[->|?]%elem_of_cons&Hr')]; [auto| |eauto]. left. left. congruence.
Qed.

Lemma group_ok keys : (forall k, k ∈ keys -> exists r, parse_key_rank k = Ok r) ->
  exists d, group_keys_by_rank keys = Ok d /\
    forall r, r ∈ dkeys d <-> exists k, k ∈ keys /\ parse_key_rank k = Ok r.
Proof.
  intros Hk. destruct (group_loop_ok keys [] Hk) as (d&E&Hd). exists (sort_ranks d).
  unfold group_keys_by_rank. rewrite E. split; [done|]. intros r. unfold dkeys in *.
  rewrite sort_ranks_perm, Hd. split; [|auto]. intros [Hin|?]; [by apply elem_of_nil in Hin|done].
Qed.

Lemma foldr_max_spec (l : list Z) n : (forall r, r ∈ l <-> 0 <= r < n) -> 0 < n -> foldr Z.max (-1) l = n - 1.
Proof.
  intros Hl Hn.
  assert (Hub : forall r, r ∈ l -> r <= foldr Z.max (-1) l).
  { clear. induction l as [|x l IH]; intros r; [by intros ?%elem_of_nil|].
    rewrite elem_of_cons. simpl. intros [->|Hr]; [lia|]. specialize (IH _ Hr). lia. }
  assert (Hin : foldr Z.max (-1) l = -1 \/ foldr Z.max (-1) l ∈ l).
  { clear. induction l as [|x l IH]; [by left|]. simpl.
    destruct (Z.max_spec x (foldr Z.max (-1) l)) as [[_ E]|[_ E]]; rewrite E; [|right; left].
    destruct IH; [by left|right; by right]. }
  specialize (Hub (n - 1) ltac:(apply Hl; lia)). destruct Hin as [Hin|Hin]; [lia|].
  apply Hl in Hin. lia.
Qed.

Lemma group_all_keys kc hashes : lacks "@" (kc_model_name kc) = true -> hashes <> [] ->
  exists d, group_keys_by_rank (all_keys kc hashes) = Ok d /\ d <> [] /\
    (forall r, r ∈ dkeys d <-> 0 <= r < tp_ranks kc) /\ foldr Z.max (-1) (dkeys d) = tp_ranks kc - 1.
Proof.
  intros Hm Hh. assert (HR : 0 < tp_ranks kc) by (unfold tp_ranks; lia).
  destruct (group_ok (all_keys kc hashes)) as (d&E&Hd).
  { intros k (hash&rank&->&_&Hr)%elem_of_all_keys. exists rank. apply key_of_rank; [done|lia]. }
  assert (Hd' : forall r, r ∈ dkeys d <-> 0 <= r < tp_ranks kc).
  { intros r. rewrite Hd. split.
    - intros (k&(hash&rank&->&_&Hr)%elem_of_all_keys&Ek). rewrite key_of_rank in Ek by (done || lia). by simplify_eq.
    - intros Hr. destruct hashes as [|h hs]; [done|]. exists (key_of kc h r).
      split; [apply elem_of_all_keys; exists h, r; split_and!; [done|left|lia|lia]|]. apply key_of_rank; [done|lia]. }
  exists d. split_and!; [done| |done|by apply foldr_max_spec]. intros ->.
  by apply (not_elem_of_nil 0), Hd'.
Qed.

(** ** Plans *)

(** The plan that sends the key of rank [i] to [seg i]. *)
Definition plan_by (kc : KeyComputer) (hashes : list string) (seg : Z -> string) : list (string * string) :=
  hash ← hashes; (fun rank => (key_of kc hash rank, seg rank)) <$> py_range (tp_ranks kc).

Definition nth_seg (targets : list string) (i : Z) : string := targets !!! Z.to_nat i.

Lemma seg_at_in targets i : 0 <= i < zlen targets -> seg_at targets i = Ok (nth_seg targets i).
Proof.
  intros Hi. unfold seg_at, nth_seg. rewrite (proj2 (Z.ltb_ge i 0)) by lia.
  destruct (targets !! Z.to_nat i) as [x|] eqn:E.
  - by rewrite (list_lookup_total_correct _ _ _ E).
  - apply lookup_ge_None in E. lia.
Qed.

Lemma collect_app {A B} (f : A -> result kexn B) l1 l2 r1 r2 :
  Db.collect f l1 = Ok r1 -> Db.collect f l2 = Ok r2 -> Db.collect f (l1 ++ l2) = Ok (r1 ++ r2).
Proof.
  revert r1. induction l1 as [|x l1 IH]; intros r1 H1 H2; simpl in *; [by simplify_eq|].
  destruct (f x) as [b|]; [|done]. destruct (Db.collect f l1) as [bs|] eqn:E; [|done]. simplify_eq.
  by rewrite (IH bs).
Qed.

Lemma assign_all kc hashes targets : lacks "@" (kc_model_name kc) = true -> zlen targets = tp_ranks kc ->
  Db.collect (assign targets) (all_keys kc hashes) = Ok (plan_by kc hashes (nth_seg targets)).
Proof.
  intros Hm Ht. unfold all_keys, plan_by. induction hashes as [|hash hashes IH]; [done|].
  rewrite !bind_cons. apply collect_app; [|exact IH].
  assert (Hgen : forall l, (forall r, r ∈ l -> 0 <= r < tp_ranks kc) ->
    Db.collect (assign targets) (key_of kc hash <$> l) = Ok ((fun rank => (key_of kc hash rank, nth_seg targets rank)) <$> l)).
  { clear IH. induction l as [|r l IH]; intros Hl; [done|]. rewrite !fmap_cons. cbn [Db.collect].
    pose proof (Hl r ltac:(left)). unfold assign at 1. rewrite key_of_rank, seg_at_in by (done || lia).
    rewrite IH; [done|]. intros r' Hr'. apply Hl. by right. }
  apply Hgen. unfold py_range. intros r Hr%elem_of_zseq. lia.
Qed.

Lemma plan_exact_all kc hashes targets ranks : lacks "@" (kc_model_name kc) = true ->
  zlen targets = tp_ranks kc -> (forall r, r ∈ ranks <-> 0 <= r < tp_ranks kc) ->
  plan_exact (tp_ranks kc - 1) ranks targets (all_keys kc hashes) = Ok (plan_by kc hashes (nth_seg targets)).
Proof.
  intros Hm Ht Hr. unfold plan_exact.
  assert (Hx : existsb (fun r => (r <? 0) || (zlen targets <=? r)) ranks = false).
  { apply not_true_iff_false. intros (r&Hin&Hb)%existsb_exists. apply list_elem_of_In, Hr in Hin.
    apply orb_true_iff in Hb as [Hb|Hb]; zbool; lia. }
  rewrite Hx, (proj2 (Z.ltb_ge _ _)) by lia. by apply assign_all.
Qed.

(** The heterogeneous target: a smaller instance whose segments each stand for the
    same number of ranks. *)
Definition hetero (kc : KeyComputer) (targets : list string) : bool :=
  match truthy (kc_peer_tp_size kc) with
  | None => false
  | Some peer =>
      (kc_tp_size kc <? peer) && (0 <? kc_tp_size kc) && (Z.max (kc_tp_size kc) peer mod kc_tp_size kc =? 0)
      && (zlen targets =? kc_tp_size kc) && (tp_ranks kc =? Z.max (kc_tp_size kc) peer)
  end.

Definition n_sub (kc : KeyComputer) : Z := tp_ranks kc / kc_tp_size kc.

Lemma spread_hetero kc targets : hetero kc targets = true ->
  exists ts, spread_targets kc (tp_ranks kc - 1) targets = Ok ts /\ zlen ts = tp_ranks kc /\
    zlen targets < tp_ranks kc /\
    forall i, 0 <= i < tp_ranks kc -> nth_seg ts i = nth_seg targets (i / n_sub kc).
Proof.
  unfold hetero, spread_targets, n_sub. destruct (truthy (kc_peer_tp_size kc)) as [peer|]; [|done].
  intros Hb. zbool. set (lt := kc_tp_size kc) in *. set (eff := Z.max lt peer) in *.
  assert (Hge : lt <= eff /\ peer <= eff) by (unfold eff; lia).
  rewrite (proj2 (Z.ltb_lt lt peer)), (proj2 (Z.ltb_lt 0 lt)), (proj2 (Z.eqb_eq (eff mod lt) 0)) by done.
  rewrite (proj2 (Z.eqb_eq (zlen targets) lt)), (proj2 (Z.eqb_eq (tp_ranks kc - 1) (eff - 1))) by lia.
  rewrite (proj2 (Z.eqb_neq lt 0)) by lia. cbn [andb].
  rewrite (Ledger.Db.collect_ok _ (fun i => nth_seg targets (i / (eff / lt)))).
  - eexists. split; [reflexivity|]. unfold py_range. rewrite length_fmap, length_zseq. split_and!; [lia|lia|].
    intros i Hi. unfold nth_seg at 1. apply list_lookup_total_correct.
    rewrite list_lookup_fmap, lookup_zseq by lia. simpl. rewrite Z2Nat.id by lia.
    by replace (tp_ranks kc) with eff by lia.
  - intros i Hi. unfold py_range in Hi. apply elem_of_zseq in Hi. apply seg_at_in.
    assert (Hq : eff = lt * (eff / lt)) by (pose proof (Z.div_mod eff lt ltac:(lia)); lia).
    assert (0 < eff / lt) by nia. split; [apply Z.div_pos; lia|]. apply Z.div_lt_upper_bound; nia.
Qed.

(** C20. Rank mapping: for the keys of any non-empty block list (model names have no
    at-sign), [build_plan] accepts exactly a target with one segment per rank, or
    the smaller instance of a heterogeneous pair whose size divides the ranks;
    then every key goes to the segment of its own rank (or of its group of
    ranks), in order, none missing; any other segment list is refused. *)
Theorem build_plan_maps_ranks kc hashes targets :
  lacks "@" (kc_model_name kc) = true -> hashes <> [] ->
  exists keys, expand None kc hashes = Ok keys /\
    build_plan kc keys targets =
      if zlen targets =? tp_ranks kc then Ok (plan_by kc hashes (nth_seg targets))
      else if hetero kc targets then Ok (plan_by kc hashes (fun i => nth_seg targets (i / n_sub kc)))
      else Raise KIntentInput.
Proof.
  intros Hm Hh. exists (all_keys kc hashes). split; [apply expand_offline|].
  destruct (group_all_keys kc hashes Hm Hh) as (d&Ed&Hne&Hd&Hmax). unfold build_plan. rewrite Ed, Hmax.
  assert (HR : 1 <= tp_ranks kc) by (unfold tp_ranks; lia).
  assert (Hhet : hetero kc targets = true -> zlen targets < tp_ranks kc).
  { intros Hx. by destruct (spread_hetero kc targets Hx) as (ts&_&_&?&_). }
  destruct (tp_ranks kc - 1 <=? 0) eqn:E0; zbool.
  - assert (E1 : tp_ranks kc = 1) by lia. destruct d as [|x d]; [done|]. rewrite E1.
    assert (Hf : zlen targets <> 1 -> hetero kc targets = false).
    { intros Hn. destruct (hetero kc targets) eqn:E; [|done]. specialize (Hhet eq_refl).
      revert E. unfold hetero. destruct (truthy (kc_peer_tp_size kc)); [|done]. intros. zbool. lia. }
    destruct targets as [|t [|t' ts]]; simpl zlen in *.
    + rewrite (proj2 (Z.eqb_neq _ _)), Hf by (simpl; lia). done.
    + rewrite (proj2 (Z.eqb_eq _ _)) by done. f_equal. unfold all_keys, plan_by. rewrite E1.
      clear. induction hashes as [|h hs IH]; [done|]. rewrite !bind_cons, fmap_app, IH. done.
    + rewrite (proj2 (Z.eqb_neq _ _)), Hf by (simpl; lia). done.
  - destruct (zlen targets <=? tp_ranks kc - 1) eqn:E1; zbool.
    + rewrite (proj2 (Z.eqb_neq _ _)) by lia. destruct (hetero kc targets) eqn:Ehet.
      * destruct (spread_hetero kc targets Ehet) as (ts&Es&Hl&_&Hs). rewrite Es.
        rewrite plan_exact_all by done. f_equal. unfold plan_by. apply list_bind_ext; [|done]. intros hash.
        apply list_fmap_ext. intros i r Hr. apply list_elem_of_lookup_2 in Hr. unfold py_range in Hr.
        apply elem_of_zseq in Hr. f_equal. apply Hs. lia.
      * unfold spread_targets. unfold hetero in Ehet. destruct (truthy (kc_peer_tp_size kc)) as [peer|]; [|done].
        replace (tp_ranks kc - 1 =? Z.max (kc_tp_size kc) peer - 1) with (tp_ranks kc =? Z.max (kc_tp_size kc) peer)
          by (destruct (tp_ranks kc =? _) eqn:Ex; zbool; [symmetry; apply Z.eqb_eq; lia|symmetry; apply Z.eqb_neq; lia]).
        by rewrite Ehet.
    + destruct (zlen targets =? tp_ranks kc) eqn:E2; zbool; [by apply plan_exact_all|].
      assert (Hf : hetero kc targets = false) by (destruct (hetero kc targets); [specialize (Hhet eq_refl); lia|done]).
      rewrite Hf. unfold plan_exact. case_match; [done|]. by rewrite (proj2 (Z.ltb_lt _ _)) by lia.
Qed.

Lemma build_plan_maps_ranks_witness :
  exists keys plan, expand None (mkKeyComputer "m" 128 2 (Some 4) 1) ["h0"; "h1"] = Ok keys /\
    build_plan (mkKeyComputer "m" 128 2 (Some 4) 1) keys ["segA"; "segB"] = Ok plan /\
    plan.*2 = ["segA"; "segA"; "segB"; "segB"; "segA"; "segA"; "segB"; "segB"].
Proof.
  destruct (build_plan_maps_ranks (mkKeyComputer "m" 128 2 (Some 4) 1) ["h0"; "h1"] ["segA"; "segB"])
    as (keys&E1&E2); [reflexivity|discriminate|].
  exists keys. eexists. split; [exact E1|]. split; [exact E2|]. vm_compute. reflexivity.
Defined.

(** ** Block hashes depend on the prefix only *)

Section chain.
Context {BH : Type} (hash_block_tokens : option BH -> list Z -> BH).

Lemma hash_loop_app s1 s2 bs toks p hs : exists p',
  hash_loop hash_block_tokens (s1 ++ s2) bs toks p hs =
  hash_loop hash_block_tokens s2 bs toks p' (hash_loop hash_block_tokens s1 bs toks p hs).
Proof. revert p hs. induction s1 as [|i s1 IH]; intros p hs; [by exists p|]. simpl. apply IH. Qed.

Lemma hash_loop_extends ss bs toks p hs : exists ext, hash_loop hash_block_tokens ss bs toks p hs = hs ++ ext /\
  length ext = length ss.
Proof.
  revert p hs. induction ss as [|i ss IH]; intros p hs; [exists []; by rewrite app_nil_r|].
  simpl. destruct (IH (Some (hash_block_tokens p (py_slice i (i + bs) toks)))
    (hs ++ [hash_block_tokens p (py_slice i (i + bs) toks)])) as (ext&->&Hl).
  eexists (_ :: ext). rewrite <- app_assoc. split; [reflexivity|]. simpl. lia.
Qed.

Lemma hash_loop_same ss bs t1 t2 p hs :
  (forall i, i ∈ ss -> py_slice i (i + bs) t1 = py_slice i (i + bs) t2) ->
  hash_loop hash_block_tokens ss bs t1 p hs = hash_loop hash_block_tokens ss bs t2 p hs.
Proof.
  revert p hs. induction ss as [|i ss IH]; intros p hs Hs; [done|]. simpl. rewrite Hs by left.
  apply IH. intros j Hj. apply Hs. by right.
Qed.

(** The starts of the full blocks. *)
Definition starts (bs : Z) (n : nat) : list Z := (fun i => i * bs) <$> zseq 0 n.

Lemma chain_hashes toks bs : 0 < bs ->
  hash_token_block_chain hash_block_tokens true toks bs =
  Ok (mkChain (hash_loop hash_block_tokens (starts bs (Z.to_nat (zlen toks / bs))) bs
                 (take (Z.to_nat (zlen toks / bs * bs)) toks) None [])
        None (take (Z.to_nat (zlen toks / bs * bs)) toks) bs).
Proof.
  intros Hbs. unfold hash_token_block_chain. simpl. rewrite (proj2 (Z.eqb_neq bs 0)) by lia.
  assert (Hq : 0 <= zlen toks / bs) by (apply Z.div_pos; lia).
  unfold py_take. rewrite (proj2 (Z.ltb_ge _ 0)) by nia. do 3 f_equal.
  unfold py_range_step, starts, py_range. rewrite (proj2 (Z.leb_gt bs 0)) by lia.
  replace (zlen toks / bs * bs + bs - 1) with (zlen toks / bs * bs + (bs - 1)) by lia.
  rewrite Z.div_add_l, (Z.div_small (bs - 1)) by lia. do 2 f_equal. lia.
Qed.

(** Block hashes: a prefix of [k] tokens has exactly [k / block_size] hashes (the
    tail that fills no block is dropped), and two prompts that agree on their
    first [n] blocks have the same first [n] hashes, whatever follows: what makes
    keys of a shared prefix equal, and the reuse of cached blocks sound. *)
Theorem chain_prefix_stable bs t1 t2 n :
  0 < bs -> Z.of_nat n * bs <= zlen t1 -> Z.of_nat n * bs <= zlen t2 ->
  take (n * Z.to_nat bs) t1 = take (n * Z.to_nat bs) t2 ->
  exists c1 c2, hash_token_block_chain hash_block_tokens true t1 bs = Ok c1 /\
    hash_token_block_chain hash_block_tokens true t2 bs = Ok c2 /\
    take n (block_hashes c1) = take n (block_hashes c2) /\
    zlen (block_hashes c1) = zlen t1 / bs /\ zlen (chain_token_ids c1) = zlen t1 / bs * bs.
Proof.
  intros Hbs H1 H2 Heq. rewrite !chain_hashes by done. eexists _, _. split; [reflexivity|]. split; [reflexivity|].
  cbn [block_hashes chain_token_ids].
  assert (Hn : forall t : list Z, Z.of_nat n * bs <= zlen t -> (n <= Z.to_nat (zlen t / bs))%nat).
  { intros t Ht. apply Nat2Z.inj_le. rewrite Z2Nat.id by (apply Z.div_pos; lia). apply Z.div_le_lower_bound; lia. }
  assert (Htake : forall t : list Z, Z.of_nat n * bs <= zlen t ->
    take n (hash_loop hash_block_tokens (starts bs (Z.to_nat (zlen t / bs))) bs
      (take (Z.to_nat (zlen t / bs * bs)) t) None []) =
    hash_loop hash_block_tokens (starts bs n) bs (take (n * Z.to_nat bs) t) None []).
  { intros t Ht. specialize (Hn t Ht). set (q := Z.to_nat (zlen t / bs)) in *.
    assert (Es : starts bs q = starts bs n ++ ((fun i => i * bs) <$> zseq (Z.of_nat n) (q - n))).
    { unfold starts. replace q with (n + (q - n))%nat at 1 by lia. by rewrite zseq_app, fmap_app. }
    rewrite Es. destruct (hash_loop_app (starts bs n) ((fun i => i * bs) <$> zseq (Z.of_nat n) (q - n)) bs
      (take (Z.to_nat (zlen t / bs * bs)) t) None []) as [p' ->].
    destruct (hash_loop_extends ((fun i => i * bs) <$> zseq (Z.of_nat n) (q - n)) bs
      (take (Z.to_nat (zlen t / bs * bs)) t) p' (hash_loop hash_block_tokens (starts bs n) bs
      (take (Z.to_nat (zlen t / bs * bs)) t) None [])) as (ext&->&_).
    destruct (hash_loop_extends (starts bs n) bs (take (Z.to_nat (zlen t / bs * bs)) t) None []) as (e0&E0&Hl0).
    rewrite take_app_length' by (rewrite E0; simpl; rewrite Hl0; unfold starts; by rewrite length_fmap, length_zseq).
    apply hash_loop_same. intros i (j&->&Hj%elem_of_zseq)%list_elem_of_fmap.
    assert (Hq : Z.of_nat n * bs <= zlen t / bs * bs) by (subst q; nia).
    rewrite !py_slice_take by (rewrite ?length_take; nia). rewrite !take_take. do 2 f_equal. nia. }
  rewrite !Htake, Heq by done. split; [done|].
  pose proof (Z.div_pos (zlen t1) bs ltac:(lia) Hbs). pose proof (Z.mul_div_le (zlen t1) bs Hbs). split.
  - destruct (hash_loop_extends (starts bs (Z.to_nat (zlen t1 / bs))) bs
      (take (Z.to_nat (zlen t1 / bs * bs)) t1) None []) as (e0&->&Hl0). simpl. rewrite Hl0. unfold starts.
    rewrite length_fmap, length_zseq. lia.
  - rewrite length_take. nia.
Qed.

End chain.

Lemma chain_prefix_stable_witness :
  exists c1 c2, hash_token_block_chain (fun p l => default 7 p * 31 + zsum l) true [1; 2; 3; 4; 5] 2 = Ok c1 /\
    hash_token_block_chain (fun p l => default 7 p * 31 + zsum l) true [1; 2; 3; 9; 9; 9] 2 = Ok c2 /\
    take 1 (block_hashes c1) = take 1 (block_hashes c2) /\ zlen (block_hashes c1) = 2.
Proof.
  destruct (chain_prefix_stable (fun p l => default 7 p * 31 + zsum l) 2 [1; 2; 3; 4; 5] [1; 2; 3; 9; 9; 9] 1)
    as (c1&c2&E1&E2&H&Hl&_); [lia|simpl; lia|simpl; lia|reflexivity|].
  exists c1, c2. split; [exact E1|]. split; [exact E2|]. split; [exact H|exact Hl].
Defined.
