(* ===== verification/Instances.v ===== *)
(** * kvcm: instance directory

    [kvcm/instances.py]: which segments, in rank order, belong to which instance.
    The directory is filled once from the start-up arguments. *)

From S2P Require Import Prelude PyDict PyStr KvcmTypes.
From Stdlib Require Import Ascii.
Local Open Scope Z_scope.

#[local] Arguments String.append !_ _ /.

(** ** [str.strip] and [str.split] *)

(** [str.isspace] on ASCII *)
Definition is_space (c : ascii) : bool :=
  let n := Ascii.N_of_ascii c in
  ((9 <=? n)%N && (n <=? 13)%N) || ((28 <=? n)%N && (n <=? 32)%N).

Fixpoint lstrip (s : string) : string :=
  match s with
  | String c s' => if is_space c then lstrip s' else s
  | EmptyString => EmptyString
  end.

Fixpoint rstrip (s : string) : string :=
  match s with
  | EmptyString => EmptyString
  | String c s' =>
      match rstrip s' with
      | EmptyString => if is_space c then EmptyString else String c EmptyString
      | r => String c r
      end
  end.

Definition strip (s : string) : string := rstrip (lstrip s).

(** [s.split(c, 1)] when [c] occurs *)
Fixpoint split_first (c : ascii) (s : string) : option (string * string) :=
  match s with
  | EmptyString => None
  | String d s' =>
      if bool_decide (d = c) then Some (EmptyString, s')
      else match split_first c s' with Some (a, b) => Some (String d a, b) | None => None end
  end.

(** [s.split(c)] *)
Fixpoint split_all (c : ascii) (s : string) : list string :=
  match s with
  | EmptyString => [EmptyString]
  | String d s' =>
      if bool_decide (d = c) then EmptyString :: split_all c s'
      else match split_all c s' with a :: l => String d a :: l | [] => [String d EmptyString] end
  end.

(** [tuple(s.strip() for s in l if s.strip())] *)
Definition strip_names (l : list string) : list string := filter (fun s => s <> EmptyString) (strip <$> l).

(** ** The directory *)

Abbreviation InstanceDirectory := (dict string (list string)).

Definition register (instance : string) (segs : list string) : M InstanceDirectory kexn unit := fun d =>
  let inst := strip instance in
  let ordered := strip_names segs in
  if bool_decide (inst = EmptyString) then (d, Raise KValueError)
  else match ordered with
       | [] => (d, Raise KValueError)
       | _ => if din inst d then (d, Raise KValueError) else (dset inst ordered d, Ok tt)
       end.

Definition locate (d : InstanceDirectory) (instance : string) : result kexn (list string) :=
  match dget (strip instance) d with Some segs => Ok segs | None => Raise KIntentInput end.

Definition parse_instance_segs (spec : string) : result kexn (string * list string) :=
  match split_first "=" spec with
  | None => Raise KValueError
  | Some (inst, rest) =>
      let inst := strip inst in
      let segs := strip_names (split_all "," rest) in
      if bool_decide (inst = EmptyString) then Raise KValueError
      else match segs with [] => Raise KValueError | _ => Ok (inst, segs) end
  end.

Fixpoint register_specs (specs : list string) : M InstanceDirectory kexn unit :=
  match specs with
  | [] => mret tt
  | spec :: specs' => is_ ← lift (parse_instance_segs spec); _ ← register is_.1 is_.2; register_specs specs'
  end.

Definition directory_from_specs (specs : list string) : result kexn InstanceDirectory :=
  match specs with
  | [] => Raise KValueError
  | _ => match register_specs specs [] with (d, Ok _) => Ok d | (_, Raise e) => Raise e end
  end.

(** ** Parsing what was printed *)

(** Names as they are written on the command line. *)
Definition clean (s : string) : bool :=
  bool_decide (strip s = s) && negb (bool_decide (s = EmptyString)) && lacks "," s && lacks "=" s.

Definition print_spec (inst : string) (segs : list string) : string := inst +:+ "=" +:+ String.concat "," segs.

Lemma split_first_app c a b : lacks c a = true -> split_first c (a +:+ String c b) = Some (a, b).
Proof.
  induction a as [|d a IH]; simpl; intros Ha; [by rewrite bool_decide_eq_true_2|].
  apply andb_true_iff in Ha as [Hd Ha]. apply negb_true_iff in Hd. by rewrite Hd, IH.
Qed.

Lemma split_all_app c a b : lacks c a = true -> split_all c (a +:+ String c b) = a :: split_all c b.
Proof.
  induction a as [|d a IH]; simpl; intros Ha; [by rewrite bool_decide_eq_true_2|].
  apply andb_true_iff in Ha as [Hd Ha]. apply negb_true_iff in Hd. by rewrite Hd, IH.
Qed.

Lemma split_all_one c a : lacks c a = true -> split_all c a = [a].
Proof.
  induction a as [|d a IH]; simpl; intros Ha; [done|].
  apply andb_true_iff in Ha as [Hd Ha]. apply negb_true_iff in Hd. by rewrite Hd, IH.
Qed.

Lemma split_concat segs : segs <> [] -> Forall (fun s => lacks "," s = true) segs ->
  split_all "," (String.concat "," segs) = segs.
Proof.
  induction segs as [|s segs IH]; intros Hne Hall; [done|]. apply Forall_cons in Hall as [Hs Hall].
  destruct segs as [|s' segs]; [by apply split_all_one|].
  change (String.concat "," (s :: s' :: segs)) with (s +:+ String "," (String.concat "," (s' :: segs))).
  by rewrite split_all_app, IH.
Qed.

Lemma clean_spec s : clean s = true -> strip s = s /\ s <> EmptyString /\ lacks "," s = true /\ lacks "=" s = true.
Proof. unfold clean. intros. by zbool. Qed.

Lemma strip_names_clean segs : Forall (fun s => clean s = true) segs -> strip_names segs = segs.
Proof.
  unfold strip_names. induction 1 as [|s segs Hs _ IH]; [done|]. destruct (clean_spec s Hs) as (E&Hne&_&_).
  rewrite fmap_cons, filter_cons, E, decide_True by done. by rewrite IH.
Qed.

(** Start-up arguments: the text [instance=seg0,seg1,...] of clean names parses back
    to exactly that instance and those segments, in rank order. *)
Theorem parse_instance_roundtrip inst segs :
  clean inst = true -> Forall (fun s => clean s = true) segs -> segs <> [] ->
  parse_instance_segs (print_spec inst segs) = Ok (inst, segs).
Proof.
  intros Hi Hs Hne. destruct (clean_spec inst Hi) as (Ei&Hie&_&Hl). unfold parse_instance_segs, print_spec.
  change ("=" +:+ String.concat "," segs) with (String "=" (String.concat "," segs)).
  rewrite split_first_app by done. cbv beta iota zeta. rewrite Ei, bool_decide_eq_false_2 by done.
  rewrite split_concat, strip_names_clean; [by destruct segs|done|done|].
  eapply Forall_impl; [exact Hs|]. intros s H. by destruct (clean_spec s H) as (_&_&?&_).
Qed.

Lemma parse_instance_roundtrip_witness :
  parse_instance_segs "i0=10.0.0.1:17,10.0.0.1:18" = Ok ("i0", ["10.0.0.1:17"; "10.0.0.1:18"]).
Proof.
  apply (parse_instance_roundtrip "i0" ["10.0.0.1:17"; "10.0.0.1:18"]); [reflexivity| |discriminate].
  repeat constructor.
Defined.

(** ** The directory holds what the arguments say *)

Lemma rstrip_idem s : rstrip (rstrip s) = rstrip s.
Proof.
  induction s as [|c s IH]; [done|]. simpl. destruct (rstrip s) as [|d r] eqn:E.
  - destruct (is_space c) eqn:Ec; [done|]. simpl. by rewrite Ec.
  - cbn [rstrip]. cbn [rstrip] in IH. by rewrite IH.
Qed.

Lemma rstrip_keep c s : is_space c = false -> rstrip (String c s) = String c (rstrip s).
Proof. intros Hc. simpl. rewrite Hc. by destruct (rstrip s). Qed.

Lemma lstrip_head s : lstrip s = EmptyString \/ exists c t, lstrip s = String c t /\ is_space c = false.
Proof. induction s as [|c s IH]; [by left|]. simpl. destruct (is_space c) eqn:E; [done|]. right. eauto. Qed.

Lemma strip_idem s : strip (strip s) = strip s.
Proof.
  unfold strip. destruct (lstrip_head s) as [->|(c&t&->&Hc)]; [done|].
  rewrite rstrip_keep by done. simpl lstrip. rewrite Hc, <- rstrip_keep by done. apply rstrip_idem.
Qed.

Lemma strip_names_idem l : strip_names (strip_names l) = strip_names l.
Proof.
  unfold strip_names. induction l as [|s l IH]; [done|]. rewrite fmap_cons, filter_cons.
  case_decide as E; [|done]. rewrite fmap_cons, filter_cons, strip_idem, decide_True by done. by rewrite IH.
Qed.

(** Parsed names are stripped already. *)
Definition stripped (is_ : string * list string) : Prop :=
  strip is_.1 = is_.1 /\ is_.1 <> EmptyString /\ strip_names is_.2 = is_.2 /\ is_.2 <> [].

Lemma parse_stripped spec is_ : parse_instance_segs spec = Ok is_ -> stripped is_.
Proof.
  unfold parse_instance_segs. destruct (split_first "=" spec) as [[i rest]|]; [|done].
  case_bool_decide; [done|]. destruct (strip_names (split_all "," rest)) as [|x l] eqn:E; [done|].
  intros [= <-]. unfold stripped. simpl fst. simpl snd. rewrite <- E. split_and!; [apply strip_idem|done|apply strip_names_idem|].
  by rewrite E.
Qed.

Lemma register_stripped is_ d : stripped is_ ->
  register is_.1 is_.2 d = if din is_.1 d then (d, Raise KValueError) else (dset is_.1 is_.2 d, Ok tt).
Proof.
  intros (H1&H2&H3&H4). unfold register. rewrite H1, H3, bool_decide_eq_false_2 by done. by destruct is_.2.
Qed.

Lemma register_specs_run specs parsed : forall d,
  Forall2 (fun spec is_ => parse_instance_segs spec = Ok is_) specs parsed ->
  dict_wf (d ++ parsed) -> register_specs specs d = (d ++ parsed, Ok tt).
Proof.
  intros d Hp. revert d. induction Hp as [|spec is_ specs parsed Hs _ IH]; intros d Hw; [by rewrite app_nil_r|].
  simpl. unfold mbind, M_bind, lift. rewrite Hs, (register_stripped _ _ (parse_stripped _ _ Hs)).
  assert (Hn : is_.1 ∉ dkeys d).
  { unfold dict_wf, dkeys in *. rewrite fmap_app, fmap_cons in Hw. apply NoDup_app in Hw as (_&Hw&_).
    intros Hin. eapply Hw; [exact Hin|]. left. }
  unfold din. rewrite (proj2 (dget_None _ _) Hn), dset_fresh by done.
  destruct is_ as [i ss]. simpl. replace (d ++ (i, ss) :: parsed) with ((d ++ [(i, ss)]) ++ parsed) in * by (by rewrite <- app_assoc).
  by apply IH.
Qed.

(** The directory: distinct instances given as parseable arguments make a
    directory that answers every one of them with its own segments and refuses
    every other name; it never fails on them and never mixes two instances. *)
Theorem directory_serves specs parsed :
  specs <> [] -> Forall2 (fun spec is_ => parse_instance_segs spec = Ok is_) specs parsed ->
  NoDup parsed.*1 ->
  exists d, directory_from_specs specs = Ok d /\
    (forall i ss, (i, ss) ∈ parsed -> locate d i = Ok ss) /\
    (forall i, strip i ∉ parsed.*1 -> locate d i = Raise KIntentInput).
Proof.
  intros Hne Hp Hnd. exists parsed. unfold directory_from_specs.
  rewrite (register_specs_run specs parsed [] Hp Hnd). split; [by destruct specs|]. unfold locate. split.
  - intros i ss Hin. apply list_elem_of_lookup_1 in Hin as Hk. destruct Hk as [k Hk].
    destruct (Forall2_lookup_r _ _ _ _ _ Hp Hk) as (spec&_&Es).
    destruct (parse_stripped _ _ Es) as (E&_). simpl in E.
    by rewrite E, (proj2 (dget_elem_of i ss parsed Hnd) Hin).
  - intros i Hn. by rewrite (proj2 (dget_None (strip i) parsed) Hn).
Qed.

Lemma directory_serves_witness :
  exists d, directory_from_specs [" a = s0, s1"; "b=s2"] = Ok d /\ locate d "b" = Ok ["s2"] /\
    locate d "c" = Raise KIntentInput.
Proof.
  destruct (directory_serves [" a = s0, s1"; "b=s2"] [("a", ["s0"; "s1"]); ("b", ["s2"])]) as (d&E&H1&H2).
  - discriminate.
  - repeat constructor.
  - simpl. repeat constructor; set_solver.
  - exists d. split; [exact E|]. split; [apply H1; right; left|apply H2]. simpl. change (strip "c") with "c". set_solver.
Defined.
