(* ===== verification/WorkerConfig.v ===== *)
(** * Worker configuration

    [RoleConfig.from_env] of [python/lake/runtime/role.py]: the role a worker process
    reads from its environment, and the node [WorkerServicer] of
    [python/lake/runtime/worker.py] builds from it. *)

From S2P Require Import Prelude PyDict LakeTypes Agent GrpcAgent PoolIface NodeScheduler SchedulerRun ModelRunner Serving.
From S2P Require Import PyStr KvcmTypes Instances.
From Stdlib Require Import Ascii.
Local Open Scope Z_scope.
Import Sched.

(** [str.lower] on ASCII *)
Definition lower_char (c : ascii) : ascii :=
  let n := Ascii.N_of_ascii c in if ((65 <=? n) && (n <=? 90))%N then Ascii.ascii_of_N (n + 32) else c.
Fixpoint lower (s : string) : string :=
  match s with String c r => String (lower_char c) (lower r) | EmptyString => EmptyString end.

Section env.
Context (getenv : string -> option string).

Definition env_bool (name : string) (d : bool) : bool :=
  match getenv name with
  | None => d
  | Some raw => bool_decide (lower (strip raw) ∈ ["1"; "true"; "yes"; "on"])
  end.

Definition env_int (name : string) (d : Z) : result lexn Z :=
  match getenv name with
  | None => Ok d
  | Some raw =>
      if bool_decide (strip raw = EmptyString) then Ok d
      else match py_int 10 raw with Some z => Ok z | None => Raise EValueError end
  end.

Definition env_str (name d : string) : string := default d (getenv name).
(** [x or d] *)
Definition or_str (x d : string) : string := if bool_decide (x = EmptyString) then d else x.

(** [WorkerRole(raw)], [HYBRID] for an unknown value *)
Definition parse_role (raw : string) : WorkerRole :=
  if bool_decide (raw = "prefill") then PREFILL
  else if bool_decide (raw = "decode") then DECODE_ROLE
  else HYBRID.

Definition from_env : result lexn RoleConfig :=
  let role := parse_role (lower (strip (env_str "LAKE_WORKER_ROLE" "hybrid"))) in
  let backend := or_str (lower (strip (env_str "LAKE_MODEL_BACKEND" "qwen3"))) "qwen3" in
  draft ← env_int "LAKE_NUM_DRAFT_TOKENS" 2;
  running ← env_int "LAKE_MAX_RUNNING_REQS" 8;
  tokens ← env_int "LAKE_MAX_NUM_SCHEDULED_TOKENS" 8192;
  threshold ← env_int "LAKE_LONG_PREFILL_TOKEN_THRESHOLD" 0;
  length ← env_int "LAKE_MAX_MODEL_LENGTH" 0;
  budget ← env_int "LAKE_PULL_BUDGET_MS" 0;
  warm_reqs ← env_int "LAKE_WARMUP_NUM_REQS" 1;
  warm_toks ← env_int "LAKE_WARMUP_TOKENS_PER_REQ" 1;
  role_post_init (mkRoleConfig role (env_bool "LAKE_ENABLE_DRAFTER" false) draft (env_bool "LAKE_ENABLE_OVERLAP" true)
    running tokens threshold length budget (env_bool "LAKE_ALLOW_PARTIAL_HIT" false) backend
    (strip (env_str "LAKE_MODEL_PATH" EmptyString)) (or_str (strip (env_str "LAKE_SERVED_MODEL_NAME" "model")) "model")
    (strip (env_str "LAKE_MODEL_REVISION" EmptyString)) warm_reqs warm_toks).
End env.

(** An empty environment gives the defaults of the class. *)
Example from_env_defaults : from_env (fun _ => None) = Ok default_role.
Proof. reflexivity. Qed.

(** What is read is what is configured, and it has passed the checks. *)
Lemma from_env_valid getenv rl : from_env getenv = Ok rl ->
  role_post_init rl = Ok rl /\
  model_backend rl = or_str (lower (strip (env_str getenv "LAKE_MODEL_BACKEND" "qwen3"))) "qwen3" /\
  env_int getenv "LAKE_MAX_RUNNING_REQS" 8 = Ok (max_running_reqs rl) /\
  env_int getenv "LAKE_MAX_NUM_SCHEDULED_TOKENS" 8192 = Ok (max_num_scheduled_tokens rl) /\
  env_int getenv "LAKE_PULL_BUDGET_MS" 0 = Ok (pull_budget_ms rl).
Proof.
  unfold from_env, mbind, result_bind.
  repeat match goal with |- context [match env_int getenv ?n ?d with _ => _ end] => destruct (env_int getenv n d) eqn:?; [|done] end.
  set (c := mkRoleConfig _ _ _ _ _ _ _ _ _ _ _ _ _ _ _ _). intros H.
  destruct (role_post_init_ok _ _ H) as [-> _]. split_and!; done.
Qed.

(** A worker process whose environment selects the mock backend and limits within the
    runner's buffers serves every admitted request through the gRPC agent. *)
Theorem env_worker_serves {W : Type} (sv : Grpc.Stubs W) {C : Grpc.Contract sv} (sha256 : list Z -> list Z)
    (set_order : list string -> list string) getenv rl l fuel w :
  (forall ids x, x ∈ set_order ids -> x ∈ ids) -> Grpc.consistent (Grpc.view w) ->
  from_env getenv = Ok rl -> lower (strip (env_str getenv "LAKE_MODEL_BACKEND" "qwen3")) = "mock" ->
  max_running_reqs rl <= 64 -> max_num_scheduled_tokens rl <= 8192 ->
  Forall (admissible (rl := rl)) l -> Forall (fun rh => hashable sha256 rh.1) l ->
  NoDup ((fun rh => req_id rh.1) <$> l) -> 2 * load l < Z.of_nat fuel ->
  exists s', serve (SA := Grpc.storage_agent sv sha256 set_order) fuel l (grpc_start rl w) = (s', Ok true) /\ drained s' /\
    forall r h, (r, h) ∈ l -> exists r', s_reqs s' !! req_id r = Some r' /\
      output_token_ids r' = mock_decode_tokens (prompt_token_ids r) (max_new r).
Proof.
  intros Hord Hcon Hrl Hmock H1 H2 H3 H4 H5 H6. destruct (from_env_valid _ _ Hrl) as (Hv & Hb & _).
  rewrite Hmock in Hb. 
  destruct (grpc_serves sv sha256 set_order rl l fuel w Hord Hcon Hv Hb H1 H2 H3 H4 H5 H6) as (s' & E & Hd & _ & Hall).
  exists s'. split; [done|]. split; [done|]. intros r h Hin. destruct (Hall r h Hin) as (r' & Hr & _ & _ & Ho). eauto.
Qed.
