(* ===== verification/WorkerMain.v ===== *)
(** * The worker process

    [serve] of [python/lake/runtime/worker.py] and [python/lake/runtime/__main__.py]:
    the role read from the environment, the servicer with its engine, the gRPC server
    in front of it, and the shutdown.  The channels and the server are the gRPC
    library: what binding the port answers, the calls the server hands over and
    whether the engine's thread ends in time are arguments. *)

From S2P Require Import Prelude PyDict LakeTypes Agent GrpcAgent PoolIface NodeScheduler SchedulerRun ModelRunner Serving WorkerEngine WorkerConfig.
Local Open Scope Z_scope.
Import Sched Worker Servicer.

(** [grpc.StatusCode] *)
Inductive RpcCode : Type :=
| RPC_OK | RPC_CANCELLED | RPC_UNKNOWN | RPC_INVALID_ARGUMENT | RPC_DEADLINE_EXCEEDED | RPC_NOT_FOUND | RPC_ALREADY_EXISTS
| RPC_PERMISSION_DENIED | RPC_RESOURCE_EXHAUSTED | RPC_FAILED_PRECONDITION | RPC_ABORTED | RPC_OUT_OF_RANGE | RPC_UNIMPLEMENTED
| RPC_INTERNAL | RPC_UNAVAILABLE | RPC_DATA_LOSS | RPC_UNAUTHENTICATED.

(** [_abort_rpc]: the code of the error, if it has one. *)
Definition abort_rpc (code : option RpcCode) : StatusCode :=
  match default RPC_INTERNAL code with RPC_UNAVAILABLE => UNAVAILABLE | _ => INTERNAL end.

(** What [Generate] can catch, in the order of its clauses. *)
Inductive gexn : Type := GPool (c : PoolErrorCode) | GRpc (code : option RpcCode) | GValueError | GRuntimeError | GOther.
Definition generate_abort (x : gexn) : StatusCode :=
  match x with
  | GPool c => pool_error_status c
  | GRpc code => abort_rpc code
  | GValueError => INVALID_ARGUMENT
  | GRuntimeError | GOther => INTERNAL
  end.

Section process.
Context {W : Type} (sv : Grpc.Stubs W) (sha256 : list Z -> list Z) (set_order : list string -> list string).
Context (load_registered_model : string -> string -> string -> string -> result lexn LoadedModel).
Abbreviation pnode := (sched (Grpc.t W) ModelRunner Engine).
#[local] Existing Instance Grpc.storage_agent.

(** What [WorkerEngine.start] does between [warm] and [ready]. *)
Definition load_and_warm (rl : RoleConfig) : M pnode lexn unit :=
  _ ← on_runner (Runner.load_model load_registered_model None (model_path rl) (role_served_model_name rl) (model_revision rl)
        "dummy" false true);
  _ ← on_runner (Runner.warmup load_registered_model None (warmup_num_reqs rl) (warmup_tokens_per_req rl));
  mret tt.

(** [WorkerServicer.__init__] *)
Definition servicer_init (rl : RoleConfig) (w : W) : result lexn pnode :=
  runner ← Runner.init (model_backend rl);
  match Worker.start (load_and_warm rl) (init (grpc_pool rl w) runner rl new_engine) with
  | (s, Ok _) => Ok s
  | (_, Raise x) => Raise x
  end.

(** What a [Generate] call hands to the engine. *)
Definition generate_calls (rl : RoleConfig) (g : GenerateRequest) : list call :=
  match generate_request rl g with Ok (r, h) => [CSubmit r (Some h)] | Raise _ => [] end.

(** The calls that reach the servicer around one turn of the engine's loop, as in
    [Worker.turn]. *)
Record traffic : Type := mkTraffic {
  tr_before : list GenerateRequest;
  tr_window : list (list GenerateRequest);
  tr_arrive : Z -> list GenerateRequest;
  tr_late : list GenerateRequest;
  tr_straggler : option GenerateRequest
}.
Definition turn_calls (rl : RoleConfig) (stop_at : Z -> bool) (t : traffic) : turn :=
  let all (gs : list GenerateRequest) := gs ≫= generate_calls rl in
  mkTurn (all (tr_before t)) (all <$> tr_window t)
    (fun n => all (tr_arrive t n) ++ (if stop_at n then [CStop] else []))
    (all (tr_late t)) (g ← tr_straggler t; head (generate_calls rl g)).

(** [stop] under the lock, and what it does once the loop's thread ended in time. *)
Definition stop_turn : turn := mkTurn [CStop] [] (fun _ => []) [] None.
Definition after_join (s : pnode) : pnode :=
  on_ext (fun e => set_life (Lifecycle.advance Lifecycle.TERMINATE (en_life e)).1 e) s.

(** The process ends with an exception; it served until the server terminated and the
    loop's thread ended, in the way given; or [stop] gave up waiting for the thread,
    which ends with the process wherever it was. *)
Inductive process_end : Type :=
| PFailed (x : lexn)
| PServed (s : pnode) (o : loop_end)
| PGaveUp (s : pnode).

(** [stop_at]: the steps during which the termination of the server is noticed, if it
    is not noticed between two turns; [joined]: the thread ended before the timeout
    of [stop]. *)
Definition serve (getenv : string -> option string) (w : W) (bound : result lexn unit) (stop_at : Z -> bool)
    (turns : list traffic) (fuel : nat) (joined : bool) : process_end :=
  match from_env getenv with
  | Raise x => PFailed x
  | Ok rl =>
      match servicer_init rl w with
      | Raise x => PFailed x
      | Ok s =>
          match bound with
          | Raise x => PFailed x
          | Ok _ =>
              let loop (ts : list turn) := worker_loop (SA := Grpc.storage_agent sv sha256 set_order) ts fuel s in
              if joined then
                let '(s', o) := loop ((turn_calls rl stop_at <$> turns) ++ [stop_turn]) in PServed (after_join s') o
              else PGaveUp (run_call (loop (turn_calls rl stop_at <$> turns)).1 CStop)
          end
      end
  end.
End process.

(** [__main__.main]: where to listen and whom to call. *)
Definition addresses (getenv : string -> option string) : string * string * string :=
  (env_str getenv "LAKE_WORKER_BIND" "[::]:50053", env_str getenv "LAKE_CP_ADDR" "127.0.0.1:50051",
   env_str getenv "LAKE_KV_ADDR" "127.0.0.1:50052").

(** ** A process that is told to stop leaves its loop *)

Section leaving.
Context {A R : Type} {SA : StorageAgent A} {RE : RuntimeExecutor R}.
Abbreviation node := (sched A R Engine).

(** Started and not at its end: a stop request still has an effect. *)
Definition live (e : Engine) : Prop :=
  en_started e = true /\ (en_life e = Lifecycle.SERVING \/ en_life e = Lifecycle.DRAIN).

Lemma live_same e e' : en_started e' = en_started e -> en_life e' = en_life e -> live e -> live e'.
Proof. unfold live. by intros -> ->. Qed.

Lemma live_fail id x e : live e -> live (fail_item id x e).
Proof. apply live_same; unfold fail_item; by case_match. Qed.
Lemma live_complete id r e : live e -> live (complete_item id r e).
Proof. apply live_same; unfold complete_item; by case_match. Qed.

Lemma live_call (s : node) c : live (s_ext s) -> live (s_ext (run_call s c)).
Proof.
  intros [Hs Hl]. destruct c as [r h|]; simpl.
  - unfold submit. repeat case_match; done.
  - unfold request_stop. rewrite Hs. simpl. destruct (bool_decide _); [done|]. destruct (en_stop _); [done|].
    split; [done|]. right. simpl. destruct Hl as [-> | ->]; done.
Qed.
Lemma live_calls cs : forall s : node, live (s_ext s) -> live (s_ext (foldl run_call s cs)).
Proof. induction cs as [|c cs IH]; intros s H; [done|]. by apply IH, live_call. Qed.

Lemma live_finished r (s : node) : live (s_ext s) -> live (s_ext (on_req_finished r s)).
Proof. intros H. unfold on_req_finished. case_match; [|done]. simpl. by apply live_complete. Qed.

Lemma live_take id (s : node) : live (s_ext s) -> live (s_ext (take_item id s).1).
Proof.
  intros H. unfold take_item. case_match; [|done]. case_match; [by apply live_fail|].
  match goal with |- context [add_request ?r ?h ?s1] => pose proof (add_request_ext s1 r h) as Hx; destruct (add_request r h s1) as [s2 [[]|x]] end;
    simpl in *; [by rewrite Hx|]. apply live_fail. rewrite Hx. done.
Qed.

Lemma live_drain_q q : forall s : node, live (s_ext s) -> live (s_ext (drain_q q s).1).
Proof.
  induction q as [|[id|] q IH]; intros s H; simpl; [done| |by case_match; [|apply IH]].
  unfold mbind, M_bind. pose proof (live_take id (on_ext (set_inbound q) s) H) as H1.
  destruct (take_item id (on_ext (set_inbound q) s)) as [s1 [?|?]]; simpl in *; [by apply IH|done].
Qed.

Lemma live_drain_after cs (s : node) : live (s_ext s) -> live (s_ext (drain_after cs s).1).
Proof. intros H. unfold drain_after, drain_inbound. by apply live_drain_q, live_calls. Qed.

(** What failing the requests in flight and refusing the queue leave alone. *)
Definition core (e : Engine) : Lifecycle.WorkerState * bool * bool := (en_life e, en_started e, en_stop e).

Lemma core_fail id x e : core (fail_item id x e) = core e.
Proof. unfold fail_item. by case_match. Qed.

Lemma core_fail_inflight x (s : node) : core (s_ext (fail_inflight x s)) = core (s_ext s).
Proof.
  unfold fail_inflight. trans (core (s_ext (on_ext (set_inflight []) s))); [|done].
  generalize (on_ext (set_inflight []) s). generalize (en_inflight (s_ext s)).
  intros d. induction d as [|[k id] d IH]; intros s0; [done|]. simpl. rewrite IH. unfold fail_one. simpl.
  case_match; [|done]. unfold on_pool. destruct (Pool.on_request_finished _ _) as [p o]. simpl. case_match; [|done].
  case_match; [done|]. apply core_fail.
Qed.

Lemma core_reject x e : core (reject_inbound x e) = core e.
Proof.
  unfold reject_inbound. trans (core (set_inbound [] e)); [|done]. generalize (set_inbound [] e).
  generalize (en_inbound e). intros q. induction q as [|[id|] q IH]; intros e0; [done| |by apply IH]. simpl. rewrite IH.
  repeat case_match; try done. apply core_fail.
Qed.

Lemma live_core e e' : core e' = core e -> live e -> live e'.
Proof. intros [= H1 H2 _]. by apply live_same. Qed.

Lemma live_failed x (s : node) : live (s_ext s) -> live (reject_inbound x (s_ext (fail_inflight x s))).
Proof. apply live_core. by rewrite core_reject, core_fail_inflight. Qed.

Lemma live_coalesce window : forall s : node, live (s_ext s) -> live (s_ext (coalesce window s).1).
Proof.
  induction window as [|cs window IH]; intros s H; [done|]. simpl. unfold mbind, M_bind.
  pose proof (live_drain_after cs s H) as H1. destruct (drain_after cs s) as [s1 [?|?]]; simpl in *; [by apply IH|done].
Qed.

Lemma live_steps arrive fuel (s : node) : live (s_ext s) -> live (s_ext (step_loop arrive fuel s).1).
Proof.
  intros H. destruct (step_loop arrive fuel s) as [s' o] eqn:E. eapply (ext_keeps_run live); [| |exact H|exact E].
  - intros f [= <-] r s1 H1. by apply live_finished.
  - intros s1 s2 r H1 E1. pose proof (live_drain_after (arrive (s_step_id s1)) s1 H1) as H2. by rewrite E1 in H2.
Qed.

Lemma live_stopped x cs (s : node) : live (s_ext s) ->
  live (s_ext (on_ext (set_stop true) (foldl run_call (on_ext (reject_inbound x) (fail_inflight x s)) cs))).
Proof.
  intros H. assert (H1 : live (s_ext (on_ext (reject_inbound x) (fail_inflight x s)))) by by apply live_failed.
  apply (live_calls cs) in H1. revert H1. generalize (foldl run_call (on_ext (reject_inbound x) (fail_inflight x s)) cs).
  by intros s1 [? ?].
Qed.

Lemma live_turn t fuel (s : node) : live (s_ext s) -> live (s_ext (loop_turn t fuel s).1).
Proof.
  intros H. unfold loop_turn. pose proof (live_drain_q (en_inbound (s_ext s)) s H) as H1. unfold drain_inbound.
  destruct (drain_q (en_inbound (s_ext s)) s) as [s1 [?|?]]; [|done]. simpl in H1. destruct (has_work s1); simpl.
  - unfold mbind at 1, M_bind at 1. pose proof (live_coalesce (t_window t) s1 H1) as H2.
    destruct (coalesce (t_window t) s1) as [s2 [?|?]]; simpl in H2; [|by apply live_stopped].
    pose proof (live_steps (t_arrive t) fuel s2 H2) as H3. destruct (step_loop (t_arrive t) fuel s2) as [s3 [?|?]]; [done|].
    by apply live_stopped.
  - unfold idle_wait, mbind at 1, M_bind at 1. destruct (en_inbound (s_ext s1)) as [|[id|] q]; [done..|]. unfold mbind, M_bind, drain_inbound.
    pose proof (live_drain_q (en_inbound (s_ext (on_ext (set_inbound q) s1))) (on_ext (set_inbound q) s1) H1) as H2.
    destruct (drain_q _ _) as [s2 [?|?]]; done.
Qed.

Lemma stop_takes_effect (s : node) : live (s_ext s) -> en_stop (s_ext (run_call s CStop)) = true.
Proof.
  intros [Hs Hl]. simpl. unfold request_stop. rewrite Hs. simpl. rewrite bool_decide_eq_false_2 by (destruct Hl as [-> | ->]; done).
  destruct (en_stop (s_ext s)) eqn:E; done.
Qed.

Lemma stopped_loop_left turns fuel : forall s : node, live (s_ext s) -> (worker_loop (turns ++ [stop_turn]) fuel s).2 <> Looping.
Proof.
  induction turns as [|t turns IH]; intros s H.
  - simpl. pose proof (stop_takes_effect s H) as E. simpl in E. by rewrite E.
  - simpl. pose proof (live_calls (t_before t) s H) as H0. destruct (en_stop _); [done|].
    pose proof (live_turn t fuel _ H0) as H1.
    destruct (loop_turn t fuel (foldl run_call s (t_before t))) as [s1 [[| |c]|x]]; [by apply IH|done|done|by apply IH].
Qed.

Lemma wind_down_core (s : node) : core (s_ext (wind_down s)) = core (s_ext s).
Proof. unfold wind_down. case_match; simpl; [|rewrite core_fail_inflight; simpl]; apply core_reject. Qed.

Lemma put_call_stop c e : en_stop e = true -> en_stop (from_option put_call id c e) = true.
Proof. by destruct c as [[]|]. Qed.

(** A loop that is left has been told to stop, by a caller or by its own failure. *)
Lemma turn_stopped t fuel (s s1 : node) o : loop_turn t fuel s = (s1, Ok o) -> o <> GoOn -> en_stop (s_ext s1) = true.
Proof.
  unfold loop_turn. destruct (drain_inbound s) as [s0 [?|?]]; [|done]. destruct (has_work s0); simpl.
  - destruct ((_ ← coalesce (t_window t); step_loop (t_arrive t) fuel) s0) as [s2 [?|?]]; by intros [= <- <-].
  - unfold idle_wait, mbind at 1, M_bind at 1. destruct (en_inbound (s_ext s0)) as [|[id|] q]; [by intros [= <- <-]..|].
    unfold mbind, M_bind. destruct (drain_inbound _) as [s2 [?|?]]; [|done]. simpl. intros [= <- <-].
    by destruct (en_stop (s_ext s2)).
Qed.

Lemma left_stopped turns fuel : forall s : node, (worker_loop turns fuel s).2 <> Looping ->
  en_stop (s_ext (worker_loop turns fuel s).1) = true.
Proof.
  assert (Hw : forall s : node, en_stop (s_ext s) = true -> en_stop (s_ext (wind_down s)) = true).
  { intros s H. pose proof (wind_down_core s) as [= _ _ Hc]. by rewrite Hc. }
  induction turns as [|t turns IH]; intros s; [done|]. simpl.
  destruct (en_stop _) eqn:Es; [intros _; by apply Hw|].
  destruct (loop_turn t fuel (foldl run_call s (t_before t))) as [s1 [o|x]] eqn:E; [|by apply IH].
  pose proof (turn_stopped _ _ _ _ _ E) as Hs. destruct o as [| |c]; [by apply IH|intros _; by apply Hw, Hs|intros _].
  by apply put_call_stop, Hw, Hs.
Qed.

Lemma left_live turns fuel : forall s : node, live (s_ext s) -> live (s_ext (worker_loop turns fuel s).1).
Proof.
  assert (Hw : forall s : node, live (s_ext s) -> live (s_ext (wind_down s))).
  { intros s. apply live_core, wind_down_core. }
  induction turns as [|t turns IH]; intros s H; [done|]. simpl. pose proof (live_calls (t_before t) s H) as H0.
  destruct (en_stop _); [by apply Hw|]. pose proof (live_turn t fuel _ H0) as H1.
  destruct (loop_turn t fuel (foldl run_call s (t_before t))) as [s1 [[| |c]|x]]; simpl in H1; [by apply IH|by apply Hw| |by apply IH].
  apply Hw in H1. destruct c as [[r h|]|]; [done| |done]. destruct H1 as [H1 H2]. split; [done|]. simpl. right.
  by destruct H2 as [-> | ->].
Qed.
End leaving.

Section answers.
Context {W : Type} (sv : Grpc.Stubs W) (sha256 : list Z -> list Z) (set_order : list string -> list string).
Context (load_registered_model : string -> string -> string -> string -> result lexn LoadedModel).
Abbreviation pnode := (sched (Grpc.t W) ModelRunner Engine).

(** A servicer that was built has a serving engine with nothing to do. *)
Lemma servicer_started rl (w : W) (s : pnode) : servicer_init load_registered_model rl w = Ok s ->
  s_ext s = set_started true (set_life Lifecycle.SERVING new_engine).
Proof.
  unfold servicer_init. destruct (Runner.init (model_backend rl)) as [runner|x]; [|done]. simpl.
  unfold Worker.start. simpl. unfold mbind, M_bind. simpl.
  set (s0 := on_ext _ _). destruct (load_and_warm load_registered_model rl s0) as [s1 [?|?]] eqn:E; [|done].
  assert (Hx : s_ext s1 = s_ext s0).
  { revert E. unfold load_and_warm, mbind, M_bind, on_runner.
    destruct (Runner.load_model _ _ _ _ _ _ _ _ _) as [r1 [?|?]]; [|by intros [= <-]].
    destruct (Runner.warmup _ _ _ _ _) as [r2 [?|?]]; by intros [= <-]. }
  rewrite Hx. subst s0. simpl. intros [= <-]. simpl. by rewrite Hx.
Qed.

Lemma servicer_serves rl (w : W) (s : pnode) : servicer_init load_registered_model rl w = Ok s ->
  live (s_ext s) /\ eng_inv [] (s_ext s).
Proof.
  intros Hx%servicer_started. rewrite Hx. split; [by split; [|left]|].
  eapply (eng_perm []); [..|apply new_engine_inv]; try done. apply NoDup_nil_2.
Qed.

(** An engine told to stop accepts no more calls. *)
Definition refuses (e : Engine) : Prop := forall r h, submit r h e = (e, Raise ERuntimeError).

(** What the process leaves unanswered. *)
Definition unanswered (s : pnode) (id : nat) (it : Inbound) : Prop := en_items (s_ext s) !! id = Some it /\ ~ closed_item it.

End answers.

(** A worker with the mock backend: a call that names its mode, one without a model
    name that uses the role's, and one with an unknown mode, which is refused. *)
Definition mock_env (name : string) : option string := if bool_decide (name = "LAKE_MODEL_BACKEND") then Some "mock" else None.
Definition demo_calls : list traffic :=
  [mkTraffic [mkGenerateRequest "a" "m" [5; 6; 7] 3 "n" EmptyString 0 0 false; mkGenerateRequest "b" EmptyString [8] 2 EmptyString "COLOCATED" 0 0 false;
     mkGenerateRequest "c" "m" [9] 2 "n" "FASTEST" 0 0 false] [] (fun _ => []) [] None].

Example demo_process :
  match serve Grpc.plain Grpc.demo_sha reverse (fun _ _ _ _ => Raise EGeneric) mock_env (Grpc.mkView ∅ ∅ ∅ ∅) (Ok tt) (fun _ => false)
    demo_calls 60 true with
  | PServed s o => o = Left /\ en_life (s_ext s) = Lifecycle.TERMINATE /\
      ((fun it => output_token_ids <$> in_result it) <$> en_items (s_ext s) !! 0%nat) = Some [[1008; 1009; 1010]] /\
      ((fun it => output_token_ids <$> in_result it) <$> en_items (s_ext s) !! 1%nat) = Some [[1009; 1010]] /\
      en_items (s_ext s) !! 2%nat = None
  | _ => False
  end.
Proof. vm_compute. split_and!; reflexivity. Qed.
