(* ===== verification/ModelLoad.v ===== *)
(** * Model registry and loaders

    [python/lake/engine/model_executor/models/registry.py] and [loader.py]: model
    classes by architecture, and the loaders that build a model and give it its
    weights.  Model classes, their modules and the configuration files of the
    [transformers] package are parameters.  [load_registered_model] is the loader
    [ModelRunner] is given. *)

From S2P Require Import Prelude PyDict LakeTypes ModelRunner PyStr KvcmTypes Instances.
From Stdlib Require Import Ascii.
Local Open Scope Z_scope.

(** A configuration: its architectures, and what the runner reads of it. *)
Record HFConfig : Type := mkHFConfig { architectures : option (list string); hf_model : ModelConfig }.

(** A model object: the names in its [state_dict], and the two attributes the loaders
    set. *)
Record Model : Type := mkModel {
  m_config : HFConfig;
  state_names : list string;
  loaded_weights : option (list string);
  loaded_dummy_weights : bool }.

Section registry.
(** [Cls]: a class; its constructor and its method [load_weights], given the names of
    the weights. *)
Context {Cls : Type} (construct : Cls -> HFConfig -> result lexn Model).
Context (class_load_weights : Cls -> Model -> list string -> result lexn (Model * option (list string))).
(** [getattr(importlib.import_module(module), class)] *)
Context (import_class : string -> string -> result lexn Cls).

Inductive BaseRegisteredModel : Type :=
| RegisteredModel (c : Cls)
| LazyRegisteredModel (module_name class_name : string).

Definition load_model_cls (m : BaseRegisteredModel) : result lexn Cls :=
  match m with RegisteredModel c => Ok c | LazyRegisteredModel m c => import_class m c end.

Abbreviation ModelRegistry := (dict string BaseRegisteredModel).

(** What may be passed for the class. *)
Inductive model_arg : Type := ArgClass (c : Cls) | ArgPath (s : string) | ArgOther.

(** [model_arch]: [None] when it is not a string.  A [TypeError] is [EGeneric]. *)
Definition register_model (model_arch : option string) (a : model_arg) (r : ModelRegistry) : result lexn ModelRegistry :=
  match model_arch with
  | None => Raise EGeneric
  | Some arch =>
      if bool_decide (arch = EmptyString) then Raise EGeneric
      else match a with
           | ArgPath s =>
               match split_first ":" s with
               | None => Raise EValueError
               | Some (m, c) =>
                   if bool_decide (m = EmptyString) || bool_decide (c = EmptyString) then Raise EValueError
                   else Ok (dset arch (LazyRegisteredModel m c) r)
               end
           | ArgClass c => Ok (dset arch (RegisteredModel c) r)
           | ArgOther => Raise EGeneric
           end
  end.

Fixpoint resolve_model_cls (archs : list string) (r : ModelRegistry) : result lexn (Cls * string) :=
  match archs with
  | [] => Raise ENotImplemented
  | arch :: archs =>
      match dget arch r with
      | Some m => c ← load_model_cls m; Ok (c, arch)
      | None => resolve_model_cls archs r
      end
  end.

(** The registry after the module is imported. *)
Definition default_registry : result lexn ModelRegistry :=
  register_model (Some "Qwen3ForCausalLM") (ArgPath "lake.engine.model_executor.models.qwen.qwen3:Qwen3ForCausalLM") [].

(** ** Loaders *)

Inductive Loader : Type := DummyModelLoader (weight_names : option (list string)) | DefaultModelLoader (path revision : string).

Definition get_model_loader (load_format path revision : string) : result lexn Loader :=
  if bool_decide (load_format = "dummy") then Ok (DummyModelLoader None)
  else if bool_decide (load_format = "hf") then Ok (DefaultModelLoader path revision)
  else Raise EValueError.

(** The names of the weights that are made up. *)
Definition iter_dummy_weights (names : option (list string)) (m : Model) : list string := default (state_names m) names.

Definition load_weights (c : Cls) (l : Loader) (m : Model) : result lexn (Model * option (list string)) :=
  match l with
  | DummyModelLoader names =>
      '(m', loaded) ← class_load_weights c m (iter_dummy_weights names m);
      Ok (mkModel (m_config m') (state_names m') (loaded_weights m') true, loaded)
  | DefaultModelLoader _ _ => Raise ENotImplemented
  end.

Definition load_model (l : Loader) (c : Cls) (cfg : HFConfig) : result lexn Model :=
  m ← construct c cfg;
  '(m', loaded) ← load_weights c l m;
  Ok (match loaded with
      | Some names => mkModel (m_config m') (state_names m') (Some names) (loaded_dummy_weights m')
      | None => m'
      end).

(** ** Loading by name *)

Context (path_exists : string -> bool) (from_pretrained : string -> option string -> result lexn HFConfig).

Definition load_hf_config (model_path revision : string) : result lexn HFConfig :=
  from_pretrained model_path
    (if negb (bool_decide (revision = EmptyString)) && negb (path_exists model_path) then Some revision else None).

(** With the model object, which the runner does not look into. *)
Definition load_registered (reg : ModelRegistry) (override : option HFConfig) (backend path revision fmt : string) :
    result lexn (LoadedModel * Model) :=
  cfg ← (match override with Some c => Ok c | None => load_hf_config path revision end);
  '(cls, _) ← resolve_model_cls (default [] (architectures cfg)) reg;
  loader ← get_model_loader fmt path revision;
  model ← load_model loader cls cfg;
  Ok (mkLoadedModel path revision backend fmt (bool_decide (fmt = "dummy")) (hf_model cfg), model).

Definition load_registered_model (reg : ModelRegistry) (backend path revision fmt : string) : result lexn LoadedModel :=
  '(l, _) ← load_registered reg None backend path revision fmt; Ok l.

(** ** Properties *)

(** The class of the first architecture that is registered. *)
Lemma resolve_first archs r arch m : dget arch r = Some m -> forall before, archs = before ++ [arch] ->
  (forall a, a ∈ before -> dget a r = None) -> resolve_model_cls archs r = (c ← load_model_cls m; Ok (c, arch)).
Proof.
  intros Hm before ->. induction before as [|a before IH]; intros Hn; simpl; [by rewrite Hm|].
  rewrite (Hn a) by left. apply IH. intros x Hx. apply Hn. by right.
Qed.

Lemma resolve_none archs r : (forall a, a ∈ archs -> dget a r = None) -> resolve_model_cls archs r = Raise ENotImplemented.
Proof.
  induction archs as [|a archs IH]; intros H; simpl; [done|]. rewrite (H a) by left. apply IH.
  intros x Hx. apply H. by right.
Qed.

(** A registration is found again, and later ones of other names keep it. *)
Theorem register_resolves arch a r r' : register_model (Some arch) a r = Ok r' ->
  (exists m, dget arch r' = Some m /\ resolve_model_cls [arch] r' = (c ← load_model_cls m; Ok (c, arch)) /\
     match a with
     | ArgClass c => m = RegisteredModel c
     | ArgPath s => exists md cl, m = LazyRegisteredModel md cl /\ split_first ":" s = Some (md, cl)
     | ArgOther => False
     end) /\
  forall arch', arch' <> arch -> dget arch' r' = dget arch' r.
Proof.
  unfold register_model. case_bool_decide as Hemp; [done|]. intros H.
  assert (Hr : exists m, r' = dset arch m r /\ match a with
     | ArgClass c => m = RegisteredModel c
     | ArgPath s => exists md cl, m = LazyRegisteredModel md cl /\ split_first ":" s = Some (md, cl)
     | ArgOther => False end).
  { destruct a as [c|s|]; [injection H as <-; eauto| |done].
    destruct (split_first ":" s) as [[md cl]|]; [|done]. destruct (_ || _); [done|]. injection H as <-. eauto 10. }
  destruct Hr as (m & -> & Ha). split.
  - exists m. rewrite dget_dset_eq. split; [done|]. split; [|done]. simpl. by rewrite dget_dset_eq.
  - intros arch' Hne. by rewrite dget_dset_ne.
Qed.

(** What loading answers: an unsupported architecture and an unknown format are
    refused, real weights are not implemented, and dummy weights are exactly the names
    of the model's own state, with the model marked as such. *)
Theorem load_registered_outcome reg override backend path revision fmt cfg :
  match override with Some c => Ok c | None => load_hf_config path revision end = Ok cfg ->
  match resolve_model_cls (default [] (architectures cfg)) reg with
  | Raise e => load_registered reg override backend path revision fmt = Raise e
  | Ok (cls, _) =>
      if bool_decide (fmt = "dummy") then
        forall m m' loaded, construct cls cfg = Ok m -> class_load_weights cls m (state_names m) = Ok (m', loaded) ->
        exists l model, load_registered reg override backend path revision fmt = Ok (l, model) /\
          lm_dummy l = true /\ lm_path l = path /\ lm_backend l = backend /\ lm_model l = hf_model cfg /\ loaded_dummy_weights model = true /\
          (forall names, loaded = Some names -> loaded_weights model = Some names)
      else if bool_decide (fmt = "hf") then
        forall m, construct cls cfg = Ok m -> load_registered reg override backend path revision fmt = Raise ENotImplemented
      else load_registered reg override backend path revision fmt = Raise EValueError
  end.
Proof.
  intros Hc. unfold load_registered. rewrite Hc. simpl.
  destruct (resolve_model_cls _ reg) as [[cls a]|e]; [|done]. simpl. unfold get_model_loader, load_model.
  case_bool_decide as Hf; [|case_bool_decide; [|done]].
  - intros m m' loaded Hm Hl. unfold load_weights, iter_dummy_weights. simpl. rewrite Hm. simpl. rewrite Hl. simpl.
    eexists _, _. split; [done|]. split_and!; try done; by destruct loaded.
  - intros m Hm. simpl. by rewrite Hm.
Qed.
End registry.
