(* ===== verification/Qwen3.v ===== *)
(** * The Qwen3 model classes

    [python/lake/engine/model_executor/models/qwen/qwen3.py]: the modules a Qwen3
    model is made of, with the parameters they declare, their forward functions as far
    as they are written, and [load_weights].  Each class is a record of the attributes
    its constructor sets, with a function [..._module] that gives the module object.

    The classes of [torch.nn] are a parameter ([NN]), with the documented content of
    [state_dict] as laws ([NNLaws]).  At the end the classes are loaded through the
    registry and the loaders of [ModelLoad]. *)

From S2P Require Import Prelude PyDict LakeTypes PyStr ModelRunner ModelLoad TorchAttention.
Local Open Scope Z_scope.

#[local] Arguments String.append !_ _ /.

Abbreviation qres := (result lexn).

(** A parameter: its shape and its type of numbers. *)
Record param (Dt : Type) : Type := mkParam { pr_shape : list Z; pr_dtype : Dt }.
Arguments mkParam {Dt} _ _.
Arguments pr_shape {Dt} _.
Arguments pr_dtype {Dt} _.

(** [Mod]: modules.  [Object]: an instance of a subclass of [nn.Module] whose
    constructor assigned these parameters and modules, in this order. *)
Class NN (Mod Dt : Type) : Type := {
  bfloat16 : Dt;
  dtype_named : string -> option Dt;                        (* getattr(torch, name), when it is a dtype *)
  empty_param : Z -> Dt -> qres (param Dt);                 (* nn.Parameter(torch.empty(n)) *)
  Linear : Z -> Z -> bool -> Dt -> qres Mod;                (* inputs, outputs, bias *)
  Embedding : Z -> Z -> option Z -> Dt -> qres Mod;
  SiLU : Mod;
  Identity : Mod;
  ModuleList : list Mod -> Mod;
  Object : list (string * (param Dt + Mod)) -> Mod;
  state_dict : Mod -> list (string * param Dt)
}.

Definition under {A} (name : string) (l : list (string * A)) : list (string * A) :=
  (fun kv => (name +:+ "." +:+ kv.1, kv.2)) <$> l.

Section qwen3.
Context {Mod Dt Sc : Type} {nn : NN Mod Dt}.
(** [n ** -0.5] *)
Context (inv_root : Z -> qres Sc).

(** A value of [config.dtype]. *)
Inductive dtype_attr : Type := DNone | DType (d : Dt) | DName (s : string).

(** The attributes the classes read.  [None] is an absent attribute where the code
    allows for it; [q_head_dim] may also be present without a value. *)
Record Qwen3Config : Type := mkQwen3Config {
  q_dtype : dtype_attr;
  q_torch_dtype : dtype_attr;
  q_head_dim : option (option Z);
  q_hidden_size : Z;
  q_num_attention_heads : Z;
  q_num_key_value_heads : Z;
  q_intermediate_size : Z;
  q_max_position_embeddings : Z;
  q_attention_bias : option bool;
  q_rms_norm_eps : Sc;
  q_pad_token_id : option Z;
  q_vocab_size : Z;
  q_num_hidden_layers : Z;
  q_layer_types : option (list string);
  q_tie_word_embeddings : bool }.

Definition param_dtype (c : Qwen3Config) : Dt :=
  let dtype := match q_dtype c with
               | DNone => q_torch_dtype c
               | DName s => if bool_decide (s = EmptyString) then q_torch_dtype c else q_dtype c
               | d => d
               end in
  match dtype with
  | DType d => d
  | DName s => default bfloat16 (dtype_named s)
  | DNone => bfloat16
  end.

(** The default of [getattr] is computed in any case. *)
Definition head_dim (c : Qwen3Config) : qres Z :=
  if q_num_attention_heads c =? 0 then Raise EGeneric
  else match q_head_dim c with
       | None => Ok (q_hidden_size c / q_num_attention_heads c)
       | Some (Some d) => Ok d
       | Some None => Raise EGeneric
       end.

Record Qwen3RMSNorm : Type := mkRMSNorm { rn_weight : param Dt; rn_epsilon : Sc }.
Definition Qwen3RMSNorm_init (hidden_size : Z) (eps : Sc) (dtype : Dt) : qres Qwen3RMSNorm :=
  w ← empty_param hidden_size dtype; Ok (mkRMSNorm w eps).
Definition RMSNorm_module (n : Qwen3RMSNorm) : Mod := Object [("weight", inl (rn_weight n))].

Record Qwen3RotaryEmbedding : Type := mkRotary { ro_head_dim : Z; ro_max_position : Z }.
Definition Qwen3RotaryEmbedding_init (c : Qwen3Config) : qres Qwen3RotaryEmbedding :=
  d ← head_dim c; Ok (mkRotary d (q_max_position_embeddings c)).
Definition Rotary_module (r : Qwen3RotaryEmbedding) : Mod := Object [].

Record Qwen3PagedAttention : Type := mkPaged { pa_num_heads : Z; pa_head_dim : Z; pa_num_kv_heads : Z }.
Definition Paged_module (p : Qwen3PagedAttention) : Mod := Object [].

Record Qwen3Attention : Type := mkAttention {
  at_layer_idx : Z;
  at_hidden_size : Z;
  at_num_heads : Z;
  at_num_kv_heads : Z;
  at_head_dim : Z;
  at_q_size : Z;
  at_kv_size : Z;
  at_scaling : Sc;
  at_qkv_proj : Mod;
  at_o_proj : Mod;
  at_rotary : Qwen3RotaryEmbedding;
  at_attn : Qwen3PagedAttention;
  at_q_norm : Qwen3RMSNorm;
  at_k_norm : Qwen3RMSNorm }.
Definition Qwen3Attention_init (c : Qwen3Config) (layer_idx : Z) : qres Qwen3Attention :=
  let dtype := param_dtype c in
  d ← head_dim c;
  let q_size := q_num_attention_heads c * d in
  let kv_size := q_num_key_value_heads c * d in
  scaling ← inv_root d;
  qkv ← Linear (q_hidden_size c) (q_size + 2 * kv_size) (default false (q_attention_bias c)) dtype;
  o ← Linear q_size (q_hidden_size c) false dtype;
  rot ← Qwen3RotaryEmbedding_init c;
  let attn := mkPaged (q_num_attention_heads c) d (q_num_key_value_heads c) in
  qn ← Qwen3RMSNorm_init d (q_rms_norm_eps c) dtype;
  kn ← Qwen3RMSNorm_init d (q_rms_norm_eps c) dtype;
  Ok (mkAttention layer_idx (q_hidden_size c) (q_num_attention_heads c) (q_num_key_value_heads c) d q_size kv_size scaling
        qkv o rot attn qn kn).
Definition Attention_module (a : Qwen3Attention) : Mod :=
  Object [("qkv_proj", inr (at_qkv_proj a)); ("o_proj", inr (at_o_proj a)); ("rotary_emb", inr (Rotary_module (at_rotary a)));
          ("attn", inr (Paged_module (at_attn a))); ("q_norm", inr (RMSNorm_module (at_q_norm a)));
          ("k_norm", inr (RMSNorm_module (at_k_norm a)))].

Record Qwen3MLP : Type := mkMLP { ml_gate_up : Mod; ml_down : Mod }.
Definition Qwen3MLP_init (c : Qwen3Config) : qres Qwen3MLP :=
  let dtype := param_dtype c in
  g ← Linear (q_hidden_size c) (2 * q_intermediate_size c) false dtype;
  d ← Linear (q_intermediate_size c) (q_hidden_size c) false dtype;
  Ok (mkMLP g d).
Definition MLP_module (m : Qwen3MLP) : Mod :=
  Object [("gate_up_proj", inr (ml_gate_up m)); ("down_proj", inr (ml_down m)); ("act_fn", inr SiLU)].

Record Qwen3DecoderLayer : Type := mkLayer {
  dl_layer_idx : Z;
  dl_self_attn : Qwen3Attention;
  dl_mlp : Qwen3MLP;
  dl_input_norm : Qwen3RMSNorm;
  dl_post_norm : Qwen3RMSNorm }.
Definition Qwen3DecoderLayer_init (c : Qwen3Config) (layer_idx : Z) : qres Qwen3DecoderLayer :=
  let dtype := param_dtype c in
  a ← Qwen3Attention_init c layer_idx;
  m ← Qwen3MLP_init c;
  i ← Qwen3RMSNorm_init (q_hidden_size c) (q_rms_norm_eps c) dtype;
  p ← Qwen3RMSNorm_init (q_hidden_size c) (q_rms_norm_eps c) dtype;
  Ok (mkLayer layer_idx a m i p).
Definition Layer_module (l : Qwen3DecoderLayer) : Mod :=
  Object [("self_attn", inr (Attention_module (dl_self_attn l))); ("mlp", inr (MLP_module (dl_mlp l)));
          ("input_layernorm", inr (RMSNorm_module (dl_input_norm l)));
          ("post_attention_layernorm", inr (RMSNorm_module (dl_post_norm l)))].

Fixpoint build_layers (c : Qwen3Config) (idxs : list Z) : qres (list Qwen3DecoderLayer) :=
  match idxs with
  | [] => Ok []
  | i :: idxs => l ← Qwen3DecoderLayer_init c i; ls ← build_layers c idxs; Ok (l :: ls)
  end.

Record Qwen3Model : Type := mkQwen3Model {
  qm_padding_idx : option Z;
  qm_vocab_size : Z;
  qm_embed_tokens : Mod;
  qm_layers : list Qwen3DecoderLayer;
  qm_norm : Qwen3RMSNorm;
  qm_rotary : Qwen3RotaryEmbedding;
  qm_has_sliding_layers : bool }.
Definition Qwen3Model_init (c : Qwen3Config) : qres Qwen3Model :=
  let dtype := param_dtype c in
  e ← Embedding (q_vocab_size c) (q_hidden_size c) (q_pad_token_id c) dtype;
  ls ← build_layers c (py_range (q_num_hidden_layers c));
  n ← Qwen3RMSNorm_init (q_hidden_size c) (q_rms_norm_eps c) dtype;
  r ← Qwen3RotaryEmbedding_init c;
  Ok (mkQwen3Model (q_pad_token_id c) (q_vocab_size c) e ls n r
        (bool_decide ("sliding_attention" ∈ default [] (q_layer_types c)))).
Definition Model_module (m : Qwen3Model) : Mod :=
  Object [("embed_tokens", inr (qm_embed_tokens m)); ("layers", inr (ModuleList (Layer_module <$> qm_layers m)));
          ("norm", inr (RMSNorm_module (qm_norm m))); ("rotary_emb", inr (Rotary_module (qm_rotary m)))].

Record Qwen3ForCausalLM : Type := mkCausalLM { lm_inner : Qwen3Model; lm_head : Mod }.
Definition Qwen3ForCausalLM_init (c : Qwen3Config) : qres Qwen3ForCausalLM :=
  m ← Qwen3Model_init c;
  h ← (if q_tie_word_embeddings c then Ok (qm_embed_tokens m)
       else Linear (q_hidden_size c) (q_vocab_size c) false (param_dtype c));
  Ok (mkCausalLM m h).
Definition CausalLM_module (m : Qwen3ForCausalLM) : Mod :=
  Object [("model", inr (Model_module (lm_inner m))); ("lm_head", inr (lm_head m)); ("logits_processor", inr Identity)].

(** ** Forward

    [V]: what is passed around; only the attention looks at it. *)

Definition RMSNorm_forward {V} (n : Qwen3RMSNorm) (hidden : V) (residual : option V) : V + V * V :=
  match residual with None => inl hidden | Some r => inr (hidden, r) end.
Definition Rotary_forward {V P} (r : Qwen3RotaryEmbedding) (positions : P) (q k : V) : V * V := (q, k).
Definition Attention_forward {V P} (a : Qwen3Attention) (positions : P) (hidden : V) : V := hidden.
Definition MLP_forward {V} (m : Qwen3MLP) (hidden : V) : V := hidden.
Definition Layer_forward {V P} (l : Qwen3DecoderLayer) (hidden : V) (positions : P) : V := hidden.

Definition Model_forward {V} (m : Qwen3Model) (input_ids positions intermediate inputs_embeds : option V) : option V + option V * option V :=
  let hidden := match inputs_embeds with Some e => Some e | None => input_ids end in
  RMSNorm_forward (qm_norm m) (foldl (fun h l => Layer_forward l h positions) hidden (qm_layers m)) None.
Definition CausalLM_forward {V} (m : Qwen3ForCausalLM) (input_ids positions intermediate inputs_embeds : option V) :=
  Model_forward (lm_inner m) input_ids positions intermediate inputs_embeds.
Definition compute_logits {V} (m : Qwen3ForCausalLM) (hidden : V) : V := hidden.

(** [inl]: a tensor. [no_dropout] is the default of the backend. *)
Definition Paged_forward {T V} {O : TensorOps T Sc} (tinv_root : Z -> tres Sc) (no_dropout : Sc)
    (p : Qwen3PagedAttention) (q k v : T + V) : tres (T + V) :=
  match q, k, v with
  | inl tq, inl tk, inl tv =>
      s ← tinv_root (pa_head_dim p);
      o ← forward_tensors tq tk tv true None no_dropout (Some s);
      Ok (inl o)
  | _, _, _ => Ok q
  end.

(** ** Loading

    [attrs]: the attributes of a configuration object.  The set of loaded names is a
    list without repetitions. *)
Context (attrs : HFConfig -> Qwen3Config).
Definition qwen3_construct (cls : unit) (cfg : HFConfig) : qres Model :=
  m ← Qwen3ForCausalLM_init (attrs cfg);
  Ok (mkModel cfg (dkeys (state_dict (CausalLM_module m))) (Some []) false).
Definition qwen3_load_weights (cls : unit) (m : Model) (weights : list string) : qres (Model * option (list string)) :=
  let names := remove_dups weights in
  Ok (mkModel (m_config m) (state_names m) (Some names) (loaded_dummy_weights m), Some names).
End qwen3.

(** ** What [torch.nn] documents

    The state of a module: its own parameters, then those of its modules under their
    names, both in the order of assignment. *)
Class NNLaws (Mod Dt : Type) {nn : NN Mod Dt} : Type := {
  nl_empty : forall n t, 0 <= n -> empty_param n t = Ok (mkParam [n] t);
  nl_linear : forall i o b t, 0 <= i -> 0 <= o -> exists m, Linear i o b t = Ok m /\
    state_dict m = ("weight", mkParam [o; i] t) :: (if b then [("bias", mkParam [o] t)] else []);
  nl_embedding : forall n d p t, 0 <= n -> 0 <= d -> (forall i, p = Some i -> - n <= i < n) ->
    exists m, Embedding n d p t = Ok m /\ state_dict m = [("weight", mkParam [n; d] t)];
  nl_silu : state_dict SiLU = [];
  nl_identity : state_dict Identity = [];
  nl_list : forall ms, state_dict (ModuleList ms) = concat (zip_with (fun i m => under (py_str i) (state_dict m)) (zseq 0 (length ms)) ms);
  nl_object : forall l, state_dict (Object l) =
    omap (fun kv => match kv.2 with inl p => Some (kv.1, p) | inr _ => None end) l ++
    concat ((fun kv => match kv.2 with inl _ => [] | inr m => under kv.1 (state_dict m) end) <$> l)
}.

Section state.
Context {Mod Dt Sc : Type} {nn : NN Mod Dt} {L : NNLaws Mod Dt}.
Context (inv_root : Z -> qres Sc) (inv_root_ok : forall d, 0 < d -> exists s, inv_root d = Ok s).
Abbreviation Config := (@Qwen3Config Dt Sc).

(** The sizes of a configuration the library can build. *)
Record config_ok (c : Config) (d : Z) : Prop := {
  co_head : head_dim c = Ok d;
  co_dim : 0 < d;
  co_hidden : 0 <= q_hidden_size c;
  co_heads : 0 <= q_num_attention_heads c;
  co_kv : 0 <= q_num_key_value_heads c;
  co_inter : 0 <= q_intermediate_size c;
  co_vocab : 0 <= q_vocab_size c;
  co_pad : forall i, q_pad_token_id c = Some i -> - q_vocab_size c <= i < q_vocab_size c }.

(** The parameters of one layer, by their names inside of it. *)
Definition layer_state (c : Config) (d : Z) : list (string * param Dt) :=
  let t := param_dtype c in
  let h := q_hidden_size c in
  let qkv := q_num_attention_heads c * d + 2 * (q_num_key_value_heads c * d) in
  [("self_attn.qkv_proj.weight", mkParam [qkv; h] t)] ++
  (if default false (q_attention_bias c) then [("self_attn.qkv_proj.bias", mkParam [qkv] t)] else []) ++
  [("self_attn.o_proj.weight", mkParam [h; q_num_attention_heads c * d] t);
   ("self_attn.q_norm.weight", mkParam [d] t);
   ("self_attn.k_norm.weight", mkParam [d] t);
   ("mlp.gate_up_proj.weight", mkParam [2 * q_intermediate_size c; h] t);
   ("mlp.down_proj.weight", mkParam [h; q_intermediate_size c] t);
   ("input_layernorm.weight", mkParam [h] t);
   ("post_attention_layernorm.weight", mkParam [h] t)].

(** The parameters of the whole model. *)
Definition model_state (c : Config) (d : Z) : list (string * param Dt) :=
  let t := param_dtype c in
  let h := q_hidden_size c in
  [("model.embed_tokens.weight", mkParam [q_vocab_size c; h] t)] ++
  (py_range (q_num_hidden_layers c) ≫= fun i => under ("model.layers." +:+ py_str i) (layer_state c d)) ++
  [("model.norm.weight", mkParam [h] t); ("lm_head.weight", mkParam [q_vocab_size c; h] t)].

Lemma norm_init n eps t : 0 <= n -> exists r : @Qwen3RMSNorm Dt Sc,
  Qwen3RMSNorm_init n eps t = Ok r /\ state_dict (RMSNorm_module r) = [("weight", mkParam [n] t)].
Proof.
  intros Hn. unfold Qwen3RMSNorm_init. rewrite nl_empty by done. eexists. split; [done|].
  unfold RMSNorm_module. by rewrite nl_object.
Qed.

Lemma under_cons {A} p k (v : A) l : under p ((k, v) :: l) = (p +:+ "." +:+ k, v) :: under p l.
Proof. done. Qed.

Lemma attention_init c d i : config_ok c d -> exists a, Qwen3Attention_init inv_root c i = Ok a /\
  let h := q_hidden_size c in
  let t := param_dtype c in
  let qkv := q_num_attention_heads c * d + 2 * (q_num_key_value_heads c * d) in
  state_dict (Attention_module a) =
    ("qkv_proj.weight", mkParam [qkv; h] t) ::
    (if default false (q_attention_bias c) then [("qkv_proj.bias", mkParam [qkv] t)] else []) ++
    [("o_proj.weight", mkParam [h; q_num_attention_heads c * d] t); ("q_norm.weight", mkParam [d] t); ("k_norm.weight", mkParam [d] t)].
Proof.
  intros [Hd Hpos Hh Ha Hk _ _ _]. unfold Qwen3Attention_init, Qwen3RotaryEmbedding_init. rewrite Hd. simpl.
  destruct (inv_root_ok d Hpos) as [s ->]. simpl.
  destruct (nl_linear (q_hidden_size c) (q_num_attention_heads c * d + 2 * (q_num_key_value_heads c * d))
    (default false (q_attention_bias c)) (param_dtype c)) as (qkv & -> & Sqkv); [lia|nia|]. simpl.
  destruct (nl_linear (q_num_attention_heads c * d) (q_hidden_size c) false (param_dtype c)) as (o & -> & So); [nia|lia|]. simpl.
  destruct (norm_init d (q_rms_norm_eps c) (param_dtype c)) as (n & -> & Sn); [lia|]. simpl.
  eexists. split; [done|]. unfold Attention_module. rewrite nl_object. simpl. rewrite Sqkv, So, Sn.
  unfold Rotary_module, Paged_module. rewrite !nl_object. simpl. by destruct (default false (q_attention_bias c)).
Qed.

Lemma mlp_init c d : config_ok c d -> exists m, Qwen3MLP_init c = Ok m /\
  state_dict (MLP_module m) = [("gate_up_proj.weight", mkParam [2 * q_intermediate_size c; q_hidden_size c] (param_dtype c));
                               ("down_proj.weight", mkParam [q_hidden_size c; q_intermediate_size c] (param_dtype c))].
Proof.
  intros [_ _ Hh _ _ Hi _ _]. unfold Qwen3MLP_init.
  destruct (nl_linear (q_hidden_size c) (2 * q_intermediate_size c) false (param_dtype c)) as (g & -> & Sg); [lia..|]. simpl.
  destruct (nl_linear (q_intermediate_size c) (q_hidden_size c) false (param_dtype c)) as (w & -> & Sw); [lia..|]. simpl.
  eexists. split; [done|]. unfold MLP_module. rewrite nl_object. simpl. by rewrite Sg, Sw, nl_silu.
Qed.

Lemma layer_init c d i : config_ok c d -> exists l, Qwen3DecoderLayer_init inv_root c i = Ok l /\
  state_dict (Layer_module l) = layer_state c d.
Proof.
  intros Hc. unfold Qwen3DecoderLayer_init.
  destruct (attention_init c d i Hc) as (a & -> & Sa). simpl. destruct (mlp_init c d Hc) as (m & -> & Sm). simpl.
  destruct (norm_init (q_hidden_size c) (q_rms_norm_eps c) (param_dtype c)) as (n & -> & Sn); [apply Hc|]. simpl.
  eexists. split; [done|]. unfold Layer_module. rewrite nl_object. simpl. rewrite Sa, Sm, Sn. unfold layer_state.
  by destruct (default false (q_attention_bias c)).
Qed.

Lemma layers_init c d is0 : config_ok c d -> exists ls, build_layers inv_root c is0 = Ok ls /\
  length ls = length is0 /\ Forall (fun l => state_dict (Layer_module l) = layer_state c d) ls.
Proof.
  intros Hc. induction is0 as [|i is0 (ls & E & Hl & Hf)]; simpl; [by exists []|].
  destruct (layer_init c d i Hc) as (l & -> & Sl). simpl. rewrite E. simpl. exists (l :: ls).
  split; [done|]. split; [by rewrite !length_cons, Hl|by constructor].
Qed.

(** Modules with one state, in a list. *)
Lemma list_state (ms : list Mod) st a : Forall (fun m => state_dict m = st) ms ->
  concat (zip_with (fun i m => under (py_str i) (state_dict m)) (zseq a (length ms)) ms) =
  (zseq a (length ms) ≫= fun i => under (py_str i) st).
Proof.
  intros H. revert a. induction H as [|m ms Hm _ IH]; intros a; [done|].
  rewrite length_cons, zseq_S. simpl. by rewrite Hm, IH.
Qed.

Lemma under_bind {A B} p (f : A -> list (string * B)) l : under p (l ≫= f) = (l ≫= fun x => under p (f x)).
Proof. unfold under. induction l as [|x l IH]; [done|]. simpl. rewrite fmap_app. by f_equal. Qed.

Lemma under_under {A} p q (l : list (string * A)) : under p (under q l) = under (p +:+ "." +:+ q) l.
Proof.
  unfold under. rewrite <- list_fmap_compose. apply list_fmap_ext. intros _ [k v] _. simpl. f_equal.
  by rewrite !string_app_assoc.
Qed.

(** The model that is built has exactly these parameters, whether the output layer is
    shared with the embedding or not. *)
Lemma qwen3_state c d : config_ok c d -> exists m, Qwen3ForCausalLM_init inv_root c = Ok m /\
  state_dict (CausalLM_module m) = model_state c d.
Proof.
  intros Hc. pose proof Hc as [Hd _ Hh _ _ _ Hv Hp]. unfold Qwen3ForCausalLM_init, Qwen3Model_init.
  destruct (nl_embedding (q_vocab_size c) (q_hidden_size c) (q_pad_token_id c) (param_dtype c)) as (e & -> & Se); [done..|]. simpl.
  destruct (layers_init c d (py_range (q_num_hidden_layers c)) Hc) as (ls & -> & Hl & Hf). simpl.
  destruct (norm_init (q_hidden_size c) (q_rms_norm_eps c) (param_dtype c)) as (n & -> & Sn); [done|]. simpl.
  unfold Qwen3RotaryEmbedding_init. rewrite Hd. simpl.
  assert (Hh' : exists h, (if q_tie_word_embeddings c then Ok e else Linear (q_hidden_size c) (q_vocab_size c) false (param_dtype c)) = Ok h /\
    state_dict h = [("weight", mkParam [q_vocab_size c; q_hidden_size c] (param_dtype c))]).
  { destruct (q_tie_word_embeddings c); [by exists e|].
    exact (nl_linear (q_hidden_size c) (q_vocab_size c) false (param_dtype c) Hh Hv). }
  destruct Hh' as (h & -> & Sh). simpl. eexists. split; [done|]. unfold model_state, CausalLM_module, Model_module, Rotary_module.
  revert Hf. generalize (layer_state c d) as st. intros st Hf. rewrite !nl_object. simpl.
  rewrite nl_object. simpl. rewrite nl_object, nl_list, Sh, Se, Sn, nl_identity, (list_state _ st) by (by apply Forall_fmap).
  rewrite length_fmap, Hl. unfold py_range. rewrite length_zseq, under_bind. simpl. f_equal.
  unfold under at 1. rewrite fmap_app, <- app_assoc. simpl. f_equal.
  trans (under "model" (zseq 0 (Z.to_nat (q_num_hidden_layers c)) ≫= fun i => under "layers" (under (py_str i) st))); [done|].
  rewrite under_bind. apply list_bind_ext; [|done]. intros i. by rewrite !under_under.
Qed.

End state.

(** ** Names *)

Section names.
Context {Mod Dt Sc : Type} {nn : NN Mod Dt}.
Abbreviation Config := (@Qwen3Config Dt Sc).

Definition layer_names (c : Config) : list string := dkeys (layer_state c 0).
Definition names_with (names : list string) (layers : Z) : list string :=
  "model.embed_tokens.weight" ::
  (py_range layers ≫= fun i => (fun k => ("model.layers." +:+ py_str i) +:+ "." +:+ k) <$> names) ++
  ["model.norm.weight"; "lm_head.weight"].
Definition weight_names (c : Config) : list string := names_with (layer_names c) (q_num_hidden_layers c).

Lemma dkeys_under {A} p (l : list (string * A)) : dkeys (under p l) = (fun k => p +:+ "." +:+ k) <$> dkeys l.
Proof. unfold dkeys, under. by rewrite <- !list_fmap_compose. Qed.

Lemma dkeys_bind {A B} (f : A -> list (string * B)) l : dkeys (l ≫= f) = (l ≫= fun x => dkeys (f x)).
Proof. unfold dkeys. induction l as [|x l IH]; [done|]. simpl. rewrite fmap_app. by f_equal. Qed.

Lemma model_names c d : dkeys (model_state c d) = weight_names c.
Proof.
  unfold weight_names, names_with, model_state.
  assert (Hl : layer_names c = dkeys (layer_state c d)).
  { unfold layer_names, layer_state. by destruct (default false (q_attention_bias c)). }
  revert Hl. generalize (layer_state c d) as st. intros st ->. unfold dkeys at 1. rewrite !fmap_app.
  change (fmap fst) with (@dkeys string (param Dt)). rewrite dkeys_bind.
  apply (f_equal (cons "model.embed_tokens.weight")). apply (f_equal2 app); [|done]. apply list_bind_ext; [|done]. intros i. by rewrite dkeys_under.
Qed.

(** The number of a layer and the name inside of it can be read off a name. *)
Lemma layer_name_inj i j k l : ("model.layers." +:+ py_str i) +:+ "." +:+ k = ("model.layers." +:+ py_str j) +:+ "." +:+ l ->
  i = j /\ k = l.
Proof.
  simpl. intros H. repeat (injection H as H).
  assert (Hs : scan_int (py_str i +:+ ("." +:+ k)) = scan_int (py_str j +:+ ("." +:+ l))) by (by f_equal).
  rewrite !scan_py_str in Hs by done. by injection Hs as -> ->.
Qed.

Lemma names_with_nodup names n : NoDup names -> NoDup (names_with names n).
Proof.
  intros Hn. unfold names_with. set (layers := py_range n ≫= _).
  assert (Hin : forall x, x ∈ layers -> exists t, x = "model.layers." +:+ t).
  { intros x (i & Hx & _)%list_elem_of_bind. apply list_elem_of_fmap in Hx as (k & -> & _).
    exists (py_str i +:+ "." +:+ k). by rewrite string_app_assoc. }
  apply NoDup_cons. split.
  { intros [Hx|Hx]%elem_of_app; [by destruct (Hin _ Hx)|]. set_solver. }
  apply NoDup_app. split_and!; [subst layers; apply NoDup_bind|..].
  - intros i j x _ _ (k & -> & _)%list_elem_of_fmap (l & Hl & _)%list_elem_of_fmap. by apply layer_name_inj in Hl as [-> _].
  - intros i _. apply NoDup_fmap_2_strong; [|done]. intros x y _ _ H. by apply layer_name_inj in H as [_ ->].
  - unfold py_range, zseq. apply NoDup_fmap_2; [|apply NoDup_seq]. intros x y H. lia.
  - intros x Hx. destruct (Hin x Hx) as [t ->]. simpl. set_solver.
  - apply (bool_decide_unpack _). by vm_compute.
Qed.

Lemma weight_names_nodup c : NoDup (weight_names c).
Proof.
  apply names_with_nodup. unfold layer_names, layer_state.
  destruct (default false (q_attention_bias c)); apply (bool_decide_unpack _); by vm_compute.
Qed.

Lemma weight_names_length c : length (weight_names c) =
  (3 + Z.to_nat (q_num_hidden_layers c) * (8 + if default false (q_attention_bias c) then 1 else 0))%nat.
Proof.
  unfold weight_names, names_with. rewrite length_cons, length_app.
  assert (Hl : length (layer_names c) = (8 + if default false (q_attention_bias c) then 1 else 0)%nat).
  { unfold layer_names, layer_state. by destruct (default false (q_attention_bias c)). }
  assert (H : forall l : list Z, length (l ≫= fun i => (fun k => ("model.layers." +:+ py_str i) +:+ "." +:+ k) <$> layer_names c) =
    (length l * length (layer_names c))%nat).
  { intros l. revert Hl. generalize (layer_names c) as ns. intros ns _. induction l as [|i l IH]; [done|].
    change ((i :: l) ≫= ?f) with (f i ++ (l ≫= f)). rewrite length_app, IH, length_fmap. simpl. lia. }
  rewrite H, Hl. unfold py_range. rewrite length_zseq. simpl length. lia.
Qed.
End names.

(** ** Loading through the registry *)

Lemma remove_dups_id (l : list string) : NoDup l -> remove_dups l = l.
Proof. induction 1 as [|x l Hx _ IH]; [done|]. simpl. case_match; [done|by f_equal]. Qed.

Section loading.
Context {Mod Dt Sc : Type} {nn : NN Mod Dt} {L : NNLaws Mod Dt}.
Context (inv_root : Z -> qres Sc) (inv_root_ok : forall d, 0 < d -> exists s, inv_root d = Ok s).
Context (attrs : HFConfig -> @Qwen3Config Dt Sc).
Context (import_class : string -> string -> qres unit) (path_exists : string -> bool)
  (from_pretrained : string -> option string -> qres HFConfig).

(** C37. Loading a Qwen3 configuration with made up weights: the registry finds the
    class, the model that is built has exactly the parameters of [model_state], with the
    shapes of the configuration, every one of them is loaded, under a name of its own, and
    their number is three plus eight or nine for every layer. *)
Theorem qwen3_dummy_load reg cfg d archs backend path revision :
  default_registry = Ok reg ->
  import_class "lake.engine.model_executor.models.qwen.qwen3" "Qwen3ForCausalLM" = Ok tt ->
  architectures cfg = Some ("Qwen3ForCausalLM" :: archs) -> config_ok (attrs cfg) d ->
  exists l model,
    load_registered (qwen3_construct inv_root attrs) qwen3_load_weights import_class path_exists from_pretrained
      reg (Some cfg) backend path revision "dummy" = Ok (l, model) /\
    (exists m, Qwen3ForCausalLM_init inv_root (attrs cfg) = Ok m /\ state_dict (CausalLM_module m) = model_state (attrs cfg) d) /\
    lm_dummy l = true /\ loaded_dummy_weights model = true /\
    state_names model = weight_names (attrs cfg) /\ loaded_weights model = Some (weight_names (attrs cfg)) /\
    NoDup (weight_names (attrs cfg)) /\
    length (weight_names (attrs cfg)) =
      (3 + Z.to_nat (q_num_hidden_layers (attrs cfg)) * (8 + if default false (q_attention_bias (attrs cfg)) then 1 else 0))%nat.
Proof.
  intros Hr Hi Ha Hc. injection Hr as <-.
  pose proof (weight_names_nodup (attrs cfg)) as Hn. pose proof (weight_names_length (attrs cfg)) as Hlen.
  remember (weight_names (attrs cfg)) as ns eqn:Ens. unfold load_registered. simpl. rewrite Ha.
  simpl. rewrite Hi. simpl. unfold load_model, qwen3_construct.
  destruct (qwen3_state inv_root inv_root_ok _ d Hc) as (m & Hm & Hs). rewrite Hm. cbn [mbind result_bind].
  rewrite Hs, model_names, <- Ens. unfold iter_dummy_weights. simpl. rewrite remove_dups_id by done.
  eexists _, _. split; [done|]. split; [by exists m|]. by split_and!.
Qed.

(** What the forward functions do: the hidden states pass through every layer
    unchanged. *)
Lemma forward_passes {V} (m : @Qwen3ForCausalLM Mod Dt Sc) (ids pos inter embeds : option V) :
  CausalLM_forward m ids pos inter embeds = inl (match embeds with Some e => Some e | None => ids end).
Proof.
  unfold CausalLM_forward, Model_forward, RMSNorm_forward. f_equal. generalize (match embeds with Some e => Some e | None => ids end).
  induction (qm_layers (lm_inner m)) as [|l ls IH]; intros h; [done|]. simpl. apply IH.
Qed.
End loading.

(** ** A plain library of modules *)

Inductive tree : Type := TNode (own : list (string * param unit)) (children : list (string * tree)).

Fixpoint tree_state (t : tree) : list (string * param unit) :=
  match t with TNode own children => own ++ concat ((fun kc => under kc.1 (tree_state kc.2)) <$> children) end.

Definition guard (b : bool) (t : tree) : qres tree := if b then Ok t else Raise ERuntimeError.

#[local] Instance tree_nn : NN tree unit := {|
  bfloat16 := tt;
  dtype_named := fun _ => None;
  empty_param := fun n t => if 0 <=? n then Ok (mkParam [n] t) else Raise ERuntimeError;
  Linear := fun i o b t => guard ((0 <=? i) && (0 <=? o))
    (TNode (("weight", mkParam [o; i] t) :: (if b then [("bias", mkParam [o] t)] else [])) []);
  Embedding := fun n d p t => guard ((0 <=? n) && (0 <=? d) && match p with Some i => (- n <=? i) && (i <? n) | None => true end)
    (TNode [("weight", mkParam [n; d] t)] []);
  SiLU := TNode [] [];
  Identity := TNode [] [];
  ModuleList := fun ms => TNode [] (zip_with (fun i m => (py_str i, m)) (zseq 0 (length ms)) ms);
  Object := fun l => TNode (omap (fun kv => match kv.2 with inl p => Some (kv.1, p) | inr _ => None end) l)
                           (omap (fun kv => match kv.2 with inl _ => None | inr m => Some (kv.1, m) end) l);
  state_dict := tree_state |}.

#[local] Instance tree_laws : NNLaws tree unit.
Proof.
  constructor; simpl; unfold guard.
  - intros n t H. by rewrite (proj2 (Z.leb_le _ _) H).
  - intros i o b t Hi Ho. rewrite (proj2 (Z.leb_le _ _) Hi), (proj2 (Z.leb_le _ _) Ho). eexists. split; [done|].
    simpl. by rewrite app_nil_r.
  - intros n d p t Hn Hd Hp. rewrite (proj2 (Z.leb_le _ _) Hn), (proj2 (Z.leb_le _ _) Hd).
    assert (match p with Some i => (- n <=? i) && (i <? n) | None => true end = true) as ->; [|by eexists].
    destruct p as [i|]; [|done]. destruct (Hp i eq_refl). apply andb_true_intro. split; lia.
  - done.
  - done.
  - intros ms. generalize 0. induction ms as [|m ms IH]; intros a; [done|].
    rewrite length_cons, zseq_S. simpl. by rewrite IH.
  - intros l. f_equal. induction l as [|[k [p|m]] l IH]; [done|exact IH|]. simpl. by f_equal.
Defined.

Definition demo_config : @Qwen3Config unit unit :=
  mkQwen3Config DNone DNone (Some (Some 128)) 1024 16 8 3072 40960 None tt (Some 151643) 151936 2 None true.
Definition demo_hf : HFConfig := mkHFConfig (Some ["Qwen3ForCausalLM"]) (mkModelConfig 151936 151643 2).

(** A model with two layers, by the sizes of Qwen3 0.6B, has 19 parameters. *)
Lemma qwen3_dummy_load_witness : exists l model,
  load_registered (qwen3_construct (fun _ => Ok tt) (fun _ => demo_config)) qwen3_load_weights (fun _ _ => Ok tt) (fun _ => false)
    (fun _ _ => Raise ERuntimeError) [("Qwen3ForCausalLM", LazyRegisteredModel "lake.engine.model_executor.models.qwen.qwen3" "Qwen3ForCausalLM")]
    (Some demo_hf) "torch" "p" EmptyString "dummy" = Ok (l, model) /\
  loaded_weights model = Some (weight_names demo_config) /\ length (weight_names demo_config) = 19%nat.
Proof.
  destruct (qwen3_dummy_load (fun _ => Ok tt) (fun d _ => ex_intro _ tt eq_refl) (fun _ => demo_config) (fun _ _ => Ok tt) (fun _ => false)
    (fun _ _ => Raise ERuntimeError) _ demo_hf 128 [] "torch" "p" EmptyString eq_refl eq_refl eq_refl) as (l & model & Hl & _ & _ & _ & _ & Hw & _ & Hn).
  - constructor; simpl; try lia; [reflexivity|]. intros i [= <-]. lia.
  - exists l, model. split; [exact Hl|]. split; [exact Hw|exact Hn].
Defined.

Example demo_names : take 10 (weight_names demo_config) =
  ["model.embed_tokens.weight"; "model.layers.0.self_attn.qkv_proj.weight"; "model.layers.0.self_attn.o_proj.weight";
   "model.layers.0.self_attn.q_norm.weight"; "model.layers.0.self_attn.k_norm.weight"; "model.layers.0.mlp.gate_up_proj.weight";
   "model.layers.0.mlp.down_proj.weight"; "model.layers.0.input_layernorm.weight";
   "model.layers.0.post_attention_layernorm.weight"; "model.layers.1.self_attn.qkv_proj.weight"].
Proof. vm_compute. reflexivity. Qed.
