(* ===== verification/Capability.v ===== *)
(** * kvcm: the operations of a backend and what it can do

    [kvcm/ops/capability.py], [kvcm/backends/mooncake/capability.py] and the base class
    [KvOps] of [kvcm/ops/base.py].  The notes of the tables are not modelled. *)

From S2P Require Import Prelude KvcmTypes.

Inductive Support : Type := YES | NO | UNKNOWN.
#[export] Instance Support_eq_dec : EqDecision Support.
Proof. solve_decision. Defined.

(** What the service has, and what this program can call. *)
Record Capability : Type := mkCap { rpc : Support; channel : Support }.

Record BackendCapability : Type := mkBackendCapability {
  has_lease : Capability;
  soft_pin_after : Capability;
  hard_pin_after : Capability;
  can_copy_with_source : Capability;
  has_offload : Capability;
  has_promotion : Capability;
  has_per_key_demote : Capability;
  has_task_cancel : Capability;
  has_local_segment : Capability;
  has_local_disk_mount : Capability;
  has_dfs_replica : Capability;
  has_admin_query : Capability;
  has_tenant_quota : Capability
}.

Definition all_caps : list (BackendCapability -> Capability) :=
  [has_lease; soft_pin_after; hard_pin_after; can_copy_with_source; has_offload; has_promotion; has_per_key_demote;
   has_task_cancel; has_local_segment; has_local_disk_mount; has_dfs_replica; has_admin_query; has_tenant_quota].

Definition mooncake_v0311 : BackendCapability := mkBackendCapability
  (mkCap YES YES) (mkCap YES NO) (mkCap NO NO) (mkCap NO NO) (mkCap NO NO) (mkCap NO NO) (mkCap NO NO) (mkCap NO NO)
  (mkCap YES YES) (mkCap YES YES) (mkCap NO NO) (mkCap NO NO) (mkCap NO NO).

Definition mooncake_main : BackendCapability := mkBackendCapability
  (mkCap YES YES) (mkCap NO NO) (mkCap NO NO) (mkCap NO NO) (mkCap NO NO) (mkCap NO NO) (mkCap NO NO) (mkCap NO NO)
  (mkCap YES YES) (mkCap YES YES) (mkCap YES UNKNOWN) (mkCap YES YES) (mkCap YES YES).

Inductive PinKind : Type := SOFT | HARD.

(** The interface, over the state [St] of an implementation; instances are names. *)
Record KvOps (St : Type) : Type := mkKvOps {
  kv_capability : BackendCapability;
  kv_copy : Prefix -> string -> M St kexn TaskHandle;
  kv_open_segment_budget : M St kexn (option Z);
  kv_close_segment_budget : option Z -> M St kexn unit;
  kv_check_segment_room : Prefix -> string -> option Z -> M St kexn unit;
  kv_move : Prefix -> string -> string -> M St kexn TaskHandle;
  kv_register_keepalive : Prefix -> M St kexn unit;
  kv_unregister_keepalive : Prefix -> M St kexn unit;
  kv_renew_once : Prefix -> M St kexn bool;
  kv_pin : Prefix -> PinKind -> bool -> M St kexn unit;
  kv_demote : Prefix -> M St kexn unit;
  kv_promote : Prefix -> string -> M St kexn unit;
  kv_check_promote : Prefix -> string -> M St kexn bool;
  kv_retain : Prefix -> option string -> M St kexn TaskHandle;
  kv_remove : Prefix -> bool -> M St kexn unit;
  kv_query_task : TaskHandle -> M St kexn TaskStatus;
  kv_abandon : TaskHandle -> M St kexn unit;
  kv_exists : Prefix -> M St kexn bool;
  kv_prefix_of : TaskHandle -> M St kexn (option Prefix);
  kv_target_of : TaskHandle -> M St kexn (option string) }.
Arguments mkKvOps {St} _ _ _ _ _ _ _ _ _ _ _ _ _ _ _ _ _ _ _ _.
Arguments kv_move {St} _.
Arguments kv_register_keepalive {St} _.
Arguments kv_check_segment_room {St} _.
Arguments kv_prefix_of {St} _.
Arguments kv_target_of {St} _.

Section base.
Context {St : Type}.
Definition unsupported {A} : M St kexn A := raise KUnsupported.

(** The base class: the five abstract methods are given, the others have defaults. *)
Definition KvOps_base (capability : BackendCapability) (copy : Prefix -> string -> M St kexn TaskHandle)
    (query_task : TaskHandle -> M St kexn TaskStatus) (abandon : TaskHandle -> M St kexn unit)
    (exists_ : Prefix -> M St kexn bool) : KvOps St :=
  mkKvOps capability copy (mret None) (fun _ => mret tt) (fun _ _ _ => mret tt)
    (fun _ _ _ => unsupported) (fun _ => unsupported) (fun _ => unsupported) (fun _ => unsupported)
    (fun _ _ _ => unsupported) (fun _ => unsupported) (fun _ _ => unsupported) (fun _ _ => unsupported)
    (fun _ _ => unsupported) (fun _ _ => unsupported)
    query_task abandon exists_ (fun _ => mret None) (fun _ => mret None).
End base.

(** Nothing is called that the service does not have, and an upgrade of the deployed
    version loses no channel. *)
Theorem channels_consistent :
  (forall cap f, cap ∈ [mooncake_v0311; mooncake_main] -> f ∈ all_caps -> channel (f cap) = YES -> rpc (f cap) = YES) /\
  (forall f, f ∈ all_caps -> channel (f mooncake_v0311) = YES -> channel (f mooncake_main) = YES).
Proof.
  split.
  - intros cap f Hc Hf. unfold all_caps in Hf. rewrite !elem_of_cons, elem_of_nil in Hc. rewrite !elem_of_cons, elem_of_nil in Hf.
    destruct Hc as [->|[->|[]]]; repeat (destruct Hf as [->|Hf]; [done|]); done.
  - intros f Hf. unfold all_caps in Hf. rewrite !elem_of_cons, elem_of_nil in Hf.
    repeat (destruct Hf as [->|Hf]; [done|]). done.
Qed.
