(* ===== verification/RankTopology.v ===== *)
(** * kvcm: which segment belongs to which rank

    [kvcm/engines/vllm/topology.py]: the processes below the root named in a pid file,
    the ports they listen on, the ranks in their titles, and the segment of every
    rank.  The host is a parameter: what the files under [/proc], the commands
    [ps] and [ss], a signal and the remote shell answer ([None]: the call raises
    [OSError], or fails in the way the code handles).  Text is ASCII; numbers have
    fewer digits than [int] refuses. *)

From S2P Require Import Prelude PyDict PyStr Keys Instances.
From Stdlib Require Import Ascii.
From stdpp Require Import relations.
Local Open Scope Z_scope.

#[local] Arguments String.append !_ _ /.

(** ** Python text *)

(** [str.split()]: the maximal runs without white space. *)
Fixpoint words_of (cur : string) (s : string) : list string :=
  match s with
  | EmptyString => if bool_decide (cur = EmptyString) then [] else [cur]
  | String c r =>
      if is_space c
      then if bool_decide (cur = EmptyString) then words_of EmptyString r else cur :: words_of EmptyString r
      else words_of (cur +:+ String c EmptyString) r
  end.
Definition words (s : string) : list string := words_of EmptyString s.

(** [str.splitlines()]: a line feed after a carriage return ends no line of its own,
    and the text after the last end of line is a line only when it is not empty. *)
Definition line_sep (c : ascii) : bool :=
  let n := Ascii.N_of_ascii c in ((10 <=? n)%N && (n <=? 13)%N) || ((28 <=? n)%N && (n <=? 30)%N).
Fixpoint lines_of (cur : string) (s : string) : list string :=
  match s with
  | EmptyString => if bool_decide (cur = EmptyString) then [] else [cur]
  | String c r =>
      if line_sep c
      then match r with
           | String d r' =>
               if bool_decide (c = "013"%char) && bool_decide (d = "010"%char)
               then cur :: lines_of EmptyString r' else cur :: lines_of EmptyString r
           | EmptyString => [cur]
           end
      else lines_of (cur +:+ String c EmptyString) r
  end.
Definition splitlines (s : string) : list string := lines_of EmptyString s.

(** [s.rsplit(c, 1)[1]], and [s[s.rfind(c) + 1:]], when [c] occurs in [s]. *)
Fixpoint after_last (c : ascii) (s : string) : option string :=
  match s with
  | EmptyString => None
  | String d r =>
      match after_last c r with
      | Some t => Some t
      | None => if bool_decide (d = c) then Some r else None
      end
  end.

Definition startswith (lit s : string) : bool := match strip_literal lit s with Some _ => true | None => false end.

(** [str.isdigit()] *)
Fixpoint all_digits (s : string) : bool :=
  match s with String c r => is_digit c && all_digits r | EmptyString => true end.
Definition isdigit (s : string) : bool := negb (bool_decide (s = EmptyString)) && all_digits s.

(** [re.search] of [lit(\d+)]: the number at the first match. *)
Fixpoint search_num (lit s : string) : option Z :=
  match (match strip_literal lit s with Some r => scan_nat r | None => None end) with
  | Some (n, _) => Some (Z.of_N n)
  | None => match s with String _ r => search_num lit r | EmptyString => None end
  end.

(** ** The probe *)

(** A set of integers, as its increasing list ([sorted(s)] is the set itself). *)
Abbreviation zset := (list Z).
Fixpoint sadd (x : Z) (s : zset) : zset :=
  match s with
  | [] => [x]
  | y :: r => if x =? y then s else if x <? y then x :: s else y :: sadd x r
  end.
Definition smem (x : Z) (s : zset) : bool := existsb (Z.eqb x) s.

Inductive texn : Type :=
| TProbe (code : Z)          (* [ProbeError] *)
| TResolve                   (* [ResolveError] *)
| TValue                     (* [ValueError] *)
| TIndex                     (* [IndexError] *)
| TOther.                    (* what a call to the host raises and nobody handles *)
Abbreviation res := (result texn).

(** A process, its rank, its ports. *)
Abbreviation row := (Z * option Z * list Z)%type.

Definition PROBE_MISSING : Z := 3.
Definition PROBE_STALE : Z := 4.
Definition PROBE_NO_SS : Z := 5.
Definition PROBE_NO_PS : Z := 6.

Inductive kill_answer : Type := KillOk | KillNoProcess | KillNotPermitted | KillOther.
Inductive ss_answer : Type := SsMissing | SsTimeout | SsOut (out : string).
Inductive ssh_answer : Type := SshRaises | SshTimeout | SshExit (rc : Z) (out : string).

Record Host : Type := mkHost {
  pid_file : string -> option string;              (* open(pidfile).read() *)
  kill0 : Z -> kill_answer;                        (* os.kill(pid, 0) *)
  proc_names : option (list string);               (* os.listdir("/proc") *)
  stat_text : string -> option string;             (* /proc/<pid>/stat *)
  ps_out : option string;                          (* ps -eo pid=,ppid= *)
  ss_out : ss_answer;                              (* ss -ltnp *)
  net_table : string -> option string;             (* /proc/net/tcp, /proc/net/tcp6 *)
  fd_names : string -> option (list string);       (* os.listdir("/proc/<pid>/fd") *)
  fd_target : string -> string -> option string;   (* os.readlink of one of them *)
  cmdline : Z -> option string }.                  (* /proc/<pid>/cmdline *)

Definition int_or_raise (s : string) : res Z := match py_int 10 s with Some z => Ok z | None => Raise TValue end.

Section probe.
Context (h : Host).

Definition pid_alive (pid : Z) : res bool :=
  match kill0 h pid with
  | KillOk => Ok true
  | KillNoProcess => Ok false
  | KillNotPermitted => Ok true
  | KillOther => Raise TOther
  end.

(** [children.setdefault(k, []).append(x)] *)
Definition dappend (k x : Z) (d : dict Z (list Z)) : dict Z (list Z) := dset k (default [] (dget k d) ++ [x]) d.

(** The rows of [/proc/*/stat], and how many there were. *)
Fixpoint stat_loop (names : list string) (children : dict Z (list Z)) (n_stat : Z) : res (dict Z (list Z) * Z) :=
  match names with
  | [] => Ok (children, n_stat)
  | pid_s :: names =>
      if negb (isdigit pid_s) then stat_loop names children n_stat
      else match stat_text h pid_s with
           | None => stat_loop names children n_stat
           | Some stat =>
               match after_last ")" stat with
               | None => stat_loop names children n_stat
               | Some tail =>
                   match words tail with
                   | _ :: ppid_s :: _ =>
                       ppid ← int_or_raise ppid_s;
                       pid ← int_or_raise pid_s;
                       stat_loop names (dappend ppid pid children) (n_stat + 1)
                   | _ => stat_loop names children n_stat
                   end
               end
           end
  end.

Fixpoint ps_loop (lns : list string) (children : dict Z (list Z)) : res (dict Z (list Z)) :=
  match lns with
  | [] => Ok children
  | ln :: lns =>
      match words ln with
      | [pid_s; ppid_s] =>
          pid ← int_or_raise pid_s;
          ppid ← int_or_raise ppid_s;
          ps_loop lns (dappend ppid pid children)
      | _ => ps_loop lns children
      end
  end.

Definition pid_children_map : res (dict Z (list Z)) :=
  cn ← stat_loop (default [] (proc_names h)) [] 0;
  let '(children, n_stat) := cn in
  if negb (n_stat =? 0) then Ok children
  else match ps_out h with
       | None => Raise (TProbe PROBE_NO_PS)
       | Some out => ps_loop (splitlines out) children
       end.

(** The walk over the children; the stack has its top first.  [None]: out of fuel. *)
Fixpoint walk (fuel : nat) (children : dict Z (list Z)) (seen : zset) (stack : list Z) : option zset :=
  match stack with
  | [] => Some seen
  | p :: stack =>
      match fuel with
      | O => None
      | S fuel =>
          if smem p seen then walk fuel children seen stack
          else walk fuel children (sadd p seen) (rev (default [] (dget p children)) ++ stack)
      end
  end.

(** One pop for the root and one for every child. *)
Definition walk_fuel (children : dict Z (list Z)) : nat := S (length (concat (dvals children))).

Definition process_tree (root_pid : Z) : res zset :=
  children ← pid_children_map;
  match walk (walk_fuel children) children [] [root_pid] with
  | Some seen => Ok seen
  | None => Raise TOther
  end.

(** [out.setdefault(pid, set()).add(port)] *)
Definition port_add (pid port : Z) (out : dict Z zset) : dict Z zset :=
  dset pid (sadd port (default [] (dget pid out))) out.

(** The field two before the first that starts with [users:]. *)
Fixpoint local_field (fields : list string) (prev2 : list string) : option string :=
  match fields with
  | [] => None
  | f :: fields =>
      if startswith "users:" f then match prev2 with _ :: x :: _ => Some x | _ => None end
      else local_field fields (f :: prev2)
  end.

Definition ss_line (ln : string) : option (Z * Z) :=
  match search_num "pid=" ln with
  | None => None
  | Some pid =>
      match local_field (words ln) [] with
      | None => None
      | Some local =>
          match after_last ":" local with
          | None => None
          | Some t => match py_int 10 t with Some port => Some (pid, port) | None => None end
          end
      end
  end.

Fixpoint ss_loop (lns : list string) (out : dict Z zset) : dict Z zset :=
  match lns with
  | [] => out
  | ln :: lns => ss_loop lns (match ss_line ln with Some (pid, port) => port_add pid port out | None => out end)
  end.

(** The listening sockets of one table, inode to port. *)
Fixpoint tcp_rows (lns : list string) (inode_port : dict Z Z) : res (dict Z Z) :=
  match lns with
  | [] => Ok inode_port
  | ln :: lns =>
      match words ln with
      | _ :: local :: _ :: st :: _ :: _ :: _ :: _ :: _ :: inode_s :: _ =>
          if negb (bool_decide (st = "0A")) then tcp_rows lns inode_port
          else match after_last ":" local with
               | None => Raise TIndex
               | Some port_s =>
                   match py_int 16 port_s, py_int 10 inode_s with
                   | Some port, Some inode => tcp_rows lns (dset inode port inode_port)
                   | _, _ => tcp_rows lns inode_port
                   end
               end
      | _ => tcp_rows lns inode_port
      end
  end.

Fixpoint tcp_tables (tables : list string) (inode_port : dict Z Z) : res (dict Z Z) :=
  match tables with
  | [] => Ok inode_port
  | t :: tables =>
      match net_table h t with
      | None => tcp_tables tables inode_port
      | Some text => m ← tcp_rows (drop 1 (splitlines text)) inode_port; tcp_tables tables m
      end
  end.

(** [socket:\[(\d+)\]], the whole text. *)
Definition socket_inode (target : string) : option Z :=
  match strip_literal "socket:[" target with
  | None => None
  | Some r => match scan_nat r with
              | Some (n, t) => if bool_decide (t = "]") then Some (Z.of_N n) else None
              | None => None
              end
  end.

Definition fd_step (pid_s : string) (inode_port : dict Z Z) (out : dict Z zset) (fd : string) : res (dict Z zset) :=
  match fd_target h pid_s fd with
  | None => Ok out
  | Some target =>
      match socket_inode target with
      | None => Ok out
      | Some inode =>
          match dget inode inode_port with
          | None => Ok out
          | Some port => pid ← int_or_raise pid_s; Ok (port_add pid port out)
          end
      end
  end.

Fixpoint fold_res {A B} (f : B -> A -> res B) (l : list A) (b : B) : res B :=
  match l with [] => Ok b | x :: l => b' ← f b x; fold_res f l b' end.

Definition pid_step (inode_port : dict Z Z) (out : dict Z zset) (pid_s : string) : res (dict Z zset) :=
  if negb (isdigit pid_s) then Ok out
  else match fd_names h pid_s with
       | None => Ok out
       | Some fds => fold_res (fd_step pid_s inode_port) fds out
       end.

Definition listen_ports_by_pid_proc : res (dict Z zset) :=
  inode_port ← tcp_tables ["/proc/net/tcp"; "/proc/net/tcp6"] [];
  match inode_port with
  | [] => Raise (TProbe PROBE_NO_SS)
  | _ => match proc_names h with
         | None => Raise TOther
         | Some names => fold_res (pid_step inode_port) names []
         end
  end.

Definition listen_ports_by_pid : res (dict Z zset) :=
  match ss_out h with
  | SsMissing => listen_ports_by_pid_proc
  | SsTimeout => Raise (TProbe PROBE_NO_SS)
  | SsOut out => Ok (ss_loop (splitlines out) [])
  end.

(** [.replace(b"\0", b" ")] *)
Fixpoint nul_to_space (s : string) : string :=
  match s with
  | String c r => String (if bool_decide (c = "000"%char) then " "%char else c) (nul_to_space r)
  | EmptyString => EmptyString
  end.

Definition rank_of_pid (pid : Z) : option Z :=
  match cmdline h pid with
  | None => None
  | Some cmd => search_num "Worker_TP" (nul_to_space cmd)
  end.

Fixpoint probe_rows (tree : zset) (ports_by_pid : dict Z zset) : list row :=
  match tree with
  | [] => []
  | pid :: tree =>
      match dget pid ports_by_pid with
      | Some (p :: ps) => (pid, rank_of_pid pid, p :: ps) :: probe_rows tree ports_by_pid
      | _ => probe_rows tree ports_by_pid
      end
  end.

Definition probe_local (pidfile : string) : res (list row) :=
  match pid_file h pidfile with
  | None => Raise (TProbe PROBE_MISSING)
  | Some text =>
      let root := strip text in
      if bool_decide (root = EmptyString) then Raise (TProbe PROBE_MISSING)
      else match py_int 10 root with
           | None => Raise (TProbe PROBE_MISSING)
           | Some root_pid =>
               alive ← pid_alive root_pid;
               if negb alive then Raise (TProbe PROBE_STALE)
               else tree ← process_tree root_pid;
                    ports_by_pid ← listen_ports_by_pid;
                    Ok (probe_rows tree ports_by_pid)
           end
  end.
End probe.

(** The lines [_local_probe_main] prints, with its exit status. *)
Definition tab : ascii := "009"%char.
Definition newline : ascii := "010"%char.
Definition row_text (r : row) : string :=
  let '(pid, rank, ports) := r in
  py_str pid +:+ String tab (match rank with Some k => py_str k | None => "-" end +:+
    String tab (String.concat "," (py_str <$> ports))).
Definition rows_text (rows : list row) : string :=
  foldr (fun r t => row_text r +:+ String newline t) EmptyString rows.

Definition local_probe_main (h : Host) (argv : list string) : res (Z * string) :=
  match argv with
  | [flag; pidfile] =>
      if bool_decide (flag = "--local-probe") then
        match probe_local h pidfile with
        | Ok rows => Ok (0, rows_text rows)
        | Raise (TProbe code) => Ok (code, EmptyString)
        | Raise e => Raise e
        end
      else Ok (2, EmptyString)
  | _ => Ok (2, EmptyString)
  end.

Fixpoint ints (l : list string) : res (list Z) :=
  match l with
  | [] => Ok []
  | x :: l => if bool_decide (x = EmptyString) then ints l else z ← int_or_raise x; zs ← ints l; Ok (z :: zs)
  end.

Fixpoint read_rows (lns : list string) : res (list row) :=
  match lns with
  | [] => Ok []
  | ln :: lns =>
      match split_all tab ln with
      | [pid_s; rank_s; ports_s] =>
          pid ← int_or_raise pid_s;
          rank ← (if bool_decide (rank_s = "-") then Ok None else k ← int_or_raise rank_s; Ok (Some k));
          ports ← ints (split_all "," ports_s);
          rows ← read_rows lns; Ok ((pid, rank, ports) :: rows)
      | _ => read_rows lns
      end
  end.

Definition probe_ssh (answer : ssh_answer) : res (list row) :=
  match answer with
  | SshRaises => Raise TOther
  | SshTimeout => Raise (TProbe (-1))
  | SshExit rc out => if negb (rc =? 0) then Raise (TProbe rc) else read_rows (splitlines out)
  end.

(** ** Ports and segments *)

Definition port_of (seg : string) : res string :=
  match after_last ":" seg with Some p => Ok p | None => Raise TIndex end.

(** [not target_ip or s.startswith(f"{target_ip}:")] *)
Definition on_ip (target_ip s : string) : bool :=
  bool_decide (target_ip = EmptyString) || startswith (target_ip +:+ ":") s.

Fixpoint seg_matches (target_ip : string) (port : Z) (segs : list string) : res (list string) :=
  match segs with
  | [] => Ok []
  | s :: segs =>
      p ← port_of s;
      l ← seg_matches target_ip port segs;
      Ok (if bool_decide (p = py_str port) && on_ip target_ip s then s :: l else l)
  end.

(** [rank_seg] and [unknown], as the two loops build them. *)
Abbreviation pairing := (dict Z string * list string)%type.

Definition port_step (segs : list string) (target_ip : string) (pid : Z) (rank : option Z) (st : pairing) (port : Z) :
    res pairing :=
  matches ← seg_matches target_ip port segs;
  match matches with
  | [] => Ok st
  | [seg] =>
      match rank with
      | None => Ok (st.1, st.2 ++ [py_str pid +:+ String "=" seg])
      | Some k =>
          match dget k st.1 with
          | Some other => if bool_decide (other = seg) then Ok (dset k seg st.1, st.2) else Raise TResolve
          | None => Ok (dset k seg st.1, st.2)
          end
      end
  | _ => Raise TResolve
  end.

Definition row_step (segs : list string) (target_ip : string) (st : pairing) (r : row) : res pairing :=
  let '(pid, rank, ports) := r in fold_res (port_step segs target_ip pid rank) ports st.

(** [unknown.pop().split("=", 1)[1]] *)
Definition seg_part (u : string) : res string :=
  match split_first "=" u with Some (_, s) => Ok s | None => Raise TIndex end.

Definition pin_single (tp : Z) (st : pairing) : res pairing :=
  if (tp =? 1) && negb (din 0 st.1) then
    match st.2 with
    | [u] => s ← seg_part u; Ok (dset 0 s st.1, [])
    | _ => Raise TResolve
    end
  else Ok st.

Fixpoint in_rank_order (ranks : list Z) (rank_seg : dict Z string) : res (list string) :=
  match ranks with
  | [] => Ok []
  | i :: ranks =>
      match dget i rank_seg with
      | None => Raise TResolve
      | Some s => l ← in_rank_order ranks rank_seg; Ok (s :: l)
      end
  end.

Definition intersect_rank_seg (segs : list string) (rows : list row) (tp : Z) (target_ip : string) : res (list string) :=
  st ← fold_res (row_step segs target_ip) rows ([], []);
  st ← pin_single tp st;
  if (1 <? tp) && negb (bool_decide (st.2 = [])) then Raise TResolve
  else in_rank_order (py_range tp) st.1.

(** ** Resolution *)

(** [info["probe"]]: where the rows came from, or that there were none. *)
Inductive probe_kind : Type := ByProbe (source : string) | SingleSegDegraded.
Record Info : Type := mkInfo { info_pidfile : string; info_probe : probe_kind; info_rank_seg : dict Z string }.

Definition rank_seg_of (targets : list string) : dict Z string := zip (py_range (zlen targets)) targets.

Definition degraded (segs : list string) (tp code : Z) (target_ip : string) : option string :=
  if (tp =? 1) && negb (code =? PROBE_STALE) then
    match filter (fun s => on_ip target_ip s = true) segs with
    | [s] => Some s
    | _ => None
    end
  else None.

Definition resolve_segments (h : Host) (remote : ssh_answer) (segs : list string) (tp : Z)
    (pidfile ssh target_ip : string) : res (list string * Info) :=
  let by_ssh := negb (bool_decide (ssh = EmptyString)) in
  if by_ssh && bool_decide (pidfile = EmptyString) then Raise TResolve
  else
    match (if by_ssh then probe_ssh remote else probe_local h pidfile) with
    | Raise (TProbe code) =>
        match degraded segs tp code target_ip with
        | Some s => Ok ([s], mkInfo pidfile SingleSegDegraded [(0, s)])
        | None => Raise TResolve
        end
    | Raise e => Raise e
    | Ok [] => Raise TResolve
    | Ok rows =>
        targets ← intersect_rank_seg segs rows tp target_ip;
        Ok (targets, mkInfo pidfile (ByProbe (if by_ssh then ssh else "local")) (rank_seg_of targets))
    end.

(** [RankTopology] *)
Definition RankTopology_init (tp_size : Z) : res Z := if tp_size <? 1 then Raise TValue else Ok tp_size.
Definition RankTopology_resolve (tp_size : Z) (h : Host) (remote : ssh_answer) (segs : list string)
    (pidfile ssh target_ip : string) : res (list string) :=
  r ← resolve_segments h remote segs tp_size pidfile ssh target_ip; Ok r.1.

(** ** A host with two workers *)

Definition demo_host : Host := mkHost
  (fun f => if bool_decide (f = "/run/w.pid") then Some ("100" +:+ String newline EmptyString) else None)
  (fun _ => KillOk)
  (Some ["1"; "100"; "101"; "102"; "self"])
  (fun p => if bool_decide (p = "1") then Some "1 (init) S 0 1"
            else if bool_decide (p = "100") then Some "100 (a) b) S 1 1"
            else if bool_decide (p = "101") then Some "101 (w) S 100 1"
            else if bool_decide (p = "102") then Some "102 (w) S 100 1" else None)
  None
  SsMissing
  (fun t => if bool_decide (t = "/proc/net/tcp")
            then Some ("head" +:+ String newline
                   ("0: 0100007F:1F90 0:0 0A 0:0 0:0 0 0 0 77 1" +:+ String newline
                    ("1: 0100007F:1F91 0:0 0A 0:0 0:0 0 0 0 78 1" +:+ String newline EmptyString)))
            else None)
  (fun p => if bool_decide (p = "101") then Some ["3"] else if bool_decide (p = "102") then Some ["3"; "4"] else None)
  (fun p fd => if bool_decide (p = "101") then Some "socket:[77]"
               else if bool_decide (fd = "4") then Some "socket:[78]" else Some "/dev/null")
  (fun p => if p =? 101 then Some "VLLM::Worker_TP1" else if p =? 102 then Some "VLLM::Worker_TP0" else None).

Example demo_resolves :
  resolve_segments demo_host SshRaises ["10.0.0.1:8080"; "10.0.0.1:8081"; "10.0.0.2:8080"] 2 "/run/w.pid" EmptyString "10.0.0.1"
  = Ok (["10.0.0.1:8081"; "10.0.0.1:8080"],
        mkInfo "/run/w.pid" (ByProbe "local") [(0, "10.0.0.1:8081"); (1, "10.0.0.1:8080")]).
Proof. vm_compute. reflexivity. Qed.

(** ** The process tree *)

(** [c] is a child of [p]. *)
Definition child (children : dict Z (list Z)) (p c : Z) : Prop := c ∈ default [] (dget p children).

Lemma elem_of_sadd x y s : x ∈ sadd y s <-> x = y \/ x ∈ s.
Proof.
  induction s as [|z s IH]; simpl; [rewrite list_elem_of_singleton; set_solver|].
  destruct (y =? z) eqn:E1; [apply Z.eqb_eq in E1; subst; set_solver|].
  destruct (y <? z); [set_solver|]. rewrite !elem_of_cons, IH. tauto.
Qed.

Lemma smem_spec x s : smem x s = true <-> x ∈ s.
Proof.
  unfold smem. rewrite existsb_exists. split.
  - intros (y & Hy & ->%Z.eqb_eq). by apply list_elem_of_In.
  - intros Hx. exists x. split; [by apply list_elem_of_In|apply Z.eqb_refl].
Qed.

(** What the walk still may push: the children of every process not seen. *)
Definition pending (children : dict Z (list Z)) (seen : zset) : nat :=
  length (concat (dvals (filter (fun kl => smem kl.1 seen = false) children))).

Lemma pending_nil children : pending children [] = length (concat (dvals children)).
Proof.
  unfold pending, dvals. induction children as [|[k l] d IH]; [done|].
  rewrite filter_cons_True by done. csimpl. rewrite !length_app. unfold smem in IH. simpl in *. lia.
Qed.

Lemma pending_le children seen p :
  (pending children (sadd p seen) <= pending children seen)%nat.
Proof.
  unfold pending, dvals. induction children as [|[k l] d IH]; [done|].
  rewrite !filter_cons. csimpl. destruct (smem k seen) eqn:Hk.
  - assert (smem k (sadd p seen) = true) as -> by (apply smem_spec, elem_of_sadd; right; by apply smem_spec).
    done.
  - rewrite (decide_True (P := false = false)) by done. case_decide; csimpl; rewrite ?length_app; lia.
Qed.

Lemma pending_push children seen p : smem p seen = false ->
  (pending children (sadd p seen) + length (default [] (dget p children)) <= pending children seen)%nat.
Proof.
  intros Hp. induction children as [|[k l] d IH]; [done|].
  unfold pending, dvals in *. rewrite !filter_cons. csimpl. destruct (decide (p = k)) as [<-|Hpk].
  - rewrite Hp. assert (smem p (sadd p seen) = true) as -> by (apply smem_spec, elem_of_sadd; by left).
    rewrite (decide_True (P := false = false)) by done. rewrite decide_False by done.
    csimpl. rewrite length_app. pose proof (pending_le d seen p). unfold pending, dvals in *. lia.
  - assert (smem k (sadd p seen) = smem k seen) as ->.
    { apply Bool.eq_iff_eq_true. rewrite !smem_spec, elem_of_sadd. naive_solver. }
    case_decide; csimpl; rewrite ?length_app; lia.
Qed.

(** Everything seen or on the stack is reachable from the root; the children of
    what was seen are seen or on the stack. *)
Record walking (children : dict Z (list Z)) (root : Z) (seen : zset) (stack : list Z) : Prop := {
  walking_root : root ∈ seen \/ root ∈ stack;
  walking_reach : forall p, p ∈ seen \/ p ∈ stack -> rtc (child children) root p;
  walking_closed : forall p c, p ∈ seen -> child children p c -> c ∈ seen \/ c ∈ stack }.

Lemma elem_of_rev {A} (x : A) l : x ∈ rev l <-> x ∈ l.
Proof. by rewrite !list_elem_of_In, <- in_rev. Qed.

Lemma walk_spec children root fuel : forall seen stack,
  walking children root seen stack -> (length stack + pending children seen <= fuel)%nat ->
  exists seen', walk fuel children seen stack = Some seen' /\ walking children root seen' [].
Proof.
  induction fuel as [|fuel IH]; intros seen [|p stack] [Hroot Hreach Hclosed] Hf; simpl in *; try (eexists; split; [done|]; by constructor); [lia|].
  destruct (smem p seen) eqn:Hp.
  - apply IH; [|lia]. apply smem_spec in Hp. constructor.
    + set_solver.
    + intros q Hq. apply Hreach. set_solver.
    + intros q c Hq Hc. destruct (Hclosed q c Hq Hc) as [|Hs]; [by left|]. set_solver.
  - pose proof (pending_push children seen p Hp) as Hpush.
    apply IH; [|rewrite length_app, length_rev; lia]. constructor.
    + rewrite elem_of_sadd, elem_of_app. set_solver.
    + intros q. rewrite elem_of_sadd, elem_of_app, elem_of_rev.
      intros [[->|Hq]|[Hq|Hq]]; [apply Hreach; set_solver..| |apply Hreach; set_solver].
      eapply rtc_r; [apply Hreach; right; by left|]. exact Hq.
    + intros q c. rewrite !elem_of_sadd, elem_of_app, elem_of_rev.
      intros [->|Hq] Hc; [tauto|]. destruct (Hclosed q c Hq Hc) as [|Hs]; [tauto|]. set_solver.
Qed.

(** C32. The walk over the process table always ends, and it returns exactly the
    processes that descend from the root of the pid file, whatever the table
    looks like (a pid that is its own ancestor included). *)
Theorem process_tree_reachable h root children :
  pid_children_map h = Ok children ->
  exists tree, process_tree h root = Ok tree /\ forall p, p ∈ tree <-> rtc (child children) root p.
Proof.
  intros Hc. unfold process_tree, mbind, result_bind. rewrite Hc.
  assert (length [root] + pending children [] <= walk_fuel children)%nat as Hf.
  { unfold walk_fuel. rewrite pending_nil. simpl. lia. }
  destruct (walk_spec children root (walk_fuel children) [] [root]) as (seen & -> & [Hroot Hreach Hclosed]); [|done|].
  { constructor; [set_solver|intros p; rewrite list_elem_of_singleton; intros [H%elem_of_nil| ->]; [done|apply rtc_refl]|].
    intros p c H%elem_of_nil. done. }
  exists seen. split; [done|]. intros p. split; [intros H; apply Hreach; by left|].
  revert p. apply rtc_ind_r; [set_solver|]. intros p q H Hs IH.
  destruct (Hclosed p q IH Hs) as [|H'%elem_of_nil]; done.
Qed.

Lemma process_tree_reachable_witness :
  pid_children_map demo_host = Ok [(0, [1]); (1, [100]); (100, [101; 102])] /\
  exists tree, process_tree demo_host 100 = Ok tree /\
    forall p, p ∈ tree <-> rtc (child [(0, [1]); (1, [100]); (100, [101; 102])]) 100 p.
Proof. split; [reflexivity|]. apply process_tree_reachable. reflexivity. Defined.

(** ** Ranks and segments *)

Section pairing.
Context (segs : list string) (target_ip : string).

(** Every segment name has a port. *)
Definition have_ports : Prop := Forall (fun s => is_Some (after_last ":" s)) segs.

(** The segments of the target that listen on [port]. *)
Definition cands (port : Z) : list string :=
  filter (fun s => after_last ":" s = Some (py_str port) /\ on_ip target_ip s = true) segs.

Lemma seg_matches_cands port : have_ports -> seg_matches target_ip port segs = Ok (cands port).
Proof.
  unfold have_ports, cands. induction segs as [|s l IH]; [done|]. intros [[p Hp] Hl]%Forall_cons. simpl.
  unfold port_of, mbind, result_bind. rewrite Hp, IH by done. rewrite filter_cons, Hp. f_equal.
  destruct (decide (p = py_str port)) as [->|Hne].
  - rewrite bool_decide_eq_true_2 by done. simpl.
    destruct (on_ip target_ip s) eqn:E; [by rewrite decide_True|]. rewrite decide_False; [done|by intros [_ [=]]].
  - rewrite bool_decide_eq_false_2 by done. simpl. rewrite decide_False; [done|]. intros [[= ?] _]. done.
Qed.

(** The rows as single observations: a process with its rank and one port. *)
Abbreviation obs := (Z * option Z * Z)%type.
Definition observations (rows : list row) : list obs :=
  concat ((fun r : row => (fun port => (r.1, port)) <$> r.2) <$> rows).

Definition obs_step (st : pairing) (o : obs) : res pairing := port_step segs target_ip o.1.1 o.1.2 st o.2.

Lemma fold_res_app {A B} (f : B -> A -> res B) l1 l2 b :
  fold_res f (l1 ++ l2) b = (b' ← fold_res f l1 b; fold_res f l2 b').
Proof.
  revert b. induction l1 as [|x l IH]; intros b; [done|]. simpl. unfold mbind, result_bind in *.
  destruct (f b x); [apply IH|done].
Qed.

Lemma rows_observed rows : forall st,
  fold_res (row_step segs target_ip) rows st = fold_res obs_step (observations rows) st.
Proof.
  induction rows as [|[[pid rank] ports] rows IH]; intros st; [done|].
  unfold observations. simpl. rewrite fold_res_app. unfold mbind, result_bind.
  assert (fold_res (port_step segs target_ip pid rank) ports st
          = fold_res obs_step ((fun port => (pid, rank, port)) <$> ports) st) as <-.
  { clear. revert st. induction ports as [|q ports IHp]; intros st; [done|]. simpl. unfold mbind, result_bind, obs_step at 1. simpl.
    destruct (port_step _ _ _ _ _ _); [apply IHp|done]. }
  destruct (fold_res _ ports st); [apply IH|done].
Qed.

(** Some process with that rank listens on a port of the segment. *)
Definition claims (os : list obs) (rank : option Z) (s : string) : Prop :=
  exists pid port, (pid, rank, port) ∈ os /\ s ∈ cands port.

(** The processes without a rank, each with the segment it listens on. *)
Definition unranked (os : list obs) : list string :=
  concat ((fun o : obs => match o.1.2 with
                          | None => (fun s => py_str o.1.1 +:+ String "=" s) <$> cands o.2
                          | Some _ => []
                          end) <$> os).

Definition unambiguous (os : list obs) : Prop := forall o, o ∈ os -> (length (cands o.2) <= 1)%nat.
Definition agreed (os : list obs) : Prop := forall k s1 s2, claims os (Some k) s1 -> claims os (Some k) s2 -> s1 = s2.

Definition paired (os : list obs) (st : pairing) : Prop :=
  (forall k s, dget k st.1 = Some s <-> claims os (Some k) s) /\ st.2 = unranked os.

Lemma claims_snoc os pid rank port r s :
  claims (os ++ [(pid, rank, port)]) r s <-> claims os r s \/ (r = rank /\ s ∈ cands port).
Proof.
  unfold claims. split.
  - intros (p & q & H & Hs). rewrite elem_of_app, list_elem_of_singleton in H.
    destruct H as [H|[= <- -> <-]]; [left; eauto|by right].
  - intros [(p & q & H & Hs)|[-> Hs]]; [exists p, q|exists pid, port]; (split; [|done]); rewrite elem_of_app;
      [by left|right; by left].
Qed.

Lemma unranked_snoc os o : unranked (os ++ [o]) = unranked os ++ unranked [o].
Proof. unfold unranked. by rewrite fmap_app, concat_app. Qed.

Lemma port_step_paired os pid rank port st st' : have_ports -> paired os st ->
  port_step segs target_ip pid rank st port = Ok st' ->
  (length (cands port) <= 1)%nat /\ paired (os ++ [(pid, rank, port)]) st'.
Proof.
  intros Hp [Hst Hun]. unfold port_step, mbind, result_bind. rewrite seg_matches_cands by done.
  assert (Hs : forall r s, claims (os ++ [(pid, rank, port)]) r s <-> claims os r s \/ (r = rank /\ s ∈ cands port))
    by (intros; apply claims_snoc).
  destruct (cands port) as [|seg [|? ?]] eqn:Hc; [| |done].
  - intros [= <-]. split; [simpl; lia|]. split; [|rewrite unranked_snoc, Hun; unfold unranked; simpl; rewrite Hc; by destruct rank; rewrite app_nil_r].
    intros k s. rewrite Hs, Hst. set_solver.
  - intros H. split; [simpl; lia|]. destruct rank as [k0|].
    + assert (st' = (dset k0 seg st.1, st.2) /\ (forall o, dget k0 st.1 = Some o -> o = seg)) as [-> Hsame].
      { destruct (dget k0 st.1) as [other|]; [case_bool_decide|]; simplify_eq; naive_solver. }
      split; simpl; [|rewrite unranked_snoc, Hun; unfold unranked; simpl; by rewrite app_nil_r].
      intros k s. rewrite Hs. destruct (decide (k = k0)) as [->|Hne].
      * rewrite dget_dset_eq, <- Hst. rewrite list_elem_of_singleton. naive_solver.
      * rewrite dget_dset_ne, Hst by done. naive_solver.
    + injection H as <-. split; simpl; [|rewrite unranked_snoc, Hun; unfold unranked at 3; simpl; by rewrite Hc].
      intros k s. rewrite Hs, Hst. naive_solver.
Qed.

Lemma port_step_defined os pid rank port st : have_ports -> paired os st ->
  (length (cands port) <= 1)%nat -> agreed (os ++ [(pid, rank, port)]) ->
  exists st', port_step segs target_ip pid rank st port = Ok st'.
Proof.
  intros Hp [Hst _] Hlen Hag. unfold port_step, mbind, result_bind. rewrite seg_matches_cands by done.
  destruct (cands port) as [|seg [|? ?]] eqn:Hc; [by eexists| |simpl in Hlen; lia].
  destruct rank as [k|]; [|by eexists]. destruct (dget k st.1) as [other|] eqn:Hk; [|by eexists].
  rewrite bool_decide_eq_true_2; [by eexists|]. apply (Hag k); apply claims_snoc.
  - left. by apply Hst.
  - right. split; [done|]. rewrite Hc. by left.
Qed.

Lemma fold_paired l : forall os st st', have_ports -> paired os st -> fold_res obs_step l st = Ok st' ->
  unambiguous l /\ paired (os ++ l) st'.
Proof.
  induction l as [|[[pid rank] port] l IH]; intros os st st' Hp Hst H.
  - simpl in H. injection H as <-. rewrite app_nil_r. split; [by intros o ?%elem_of_nil|done].
  - simpl in H. unfold mbind, result_bind, obs_step at 1 in H. simpl in H.
    destruct (port_step _ _ _ _ _ _) as [st1|] eqn:H1; [|done].
    apply (port_step_paired os) in H1 as [Hl H1]; [|done..].
    apply (IH _ _ _ Hp H1) in H as [Hu H]. rewrite <- app_assoc in H. split; [|done].
    intros o [->|Ho]%elem_of_cons; [done|auto].
Qed.

Lemma agreed_prefix os l : agreed (os ++ l) -> agreed os.
Proof.
  intros H k s1 s2 (p1 & q1 & H1 & Hs1) (p2 & q2 & H2 & Hs2).
  apply (H k); [exists p1, q1|exists p2, q2]; (split; [|done]); rewrite elem_of_app; by left.
Qed.

Lemma fold_defined l : forall os st, have_ports -> paired os st -> unambiguous l -> agreed (os ++ l) ->
  exists st', fold_res obs_step l st = Ok st'.
Proof.
  induction l as [|[[pid rank] port] l IH]; intros os st Hp Hst Hu Hag; [by eexists|].
  rewrite cons_middle, (assoc_L (++)) in Hag.
  destruct (port_step_defined os pid rank port st) as [st1 H1]; [done|done|apply (Hu (pid, rank, port)); by left|by eapply agreed_prefix|].
  simpl. unfold mbind, result_bind, obs_step at 1. simpl. rewrite H1.
  apply (port_step_paired os) in H1 as [_ H1]; [|done..].
  eapply IH; [done|exact H1| |done]. intros o Ho. apply Hu. by right.
Qed.

Lemma paired_nil : paired [] ([], []).
Proof. split; [|done]. intros k s. split; [done|]. by intros (p & q & H%elem_of_nil & _). Qed.

Lemma in_rank_order_spec ranks d out :
  in_rank_order ranks d = Ok out <-> Forall2 (fun i s => dget i d = Some s) ranks out.
Proof.
  revert out. induction ranks as [|i ranks IH]; intros out; simpl.
  - split; [intros [= <-]; constructor|intros H; by inversion H].
  - unfold mbind, result_bind. split.
    + destruct (dget i d) as [s|] eqn:E; [|done]. destruct (in_rank_order ranks d); [|done].
      intros [= <-]. constructor; [done|]. by apply IH.
    + intros H. inversion H as [|? s ? l Hs Hl]; subst. rewrite Hs. apply IH in Hl. by rewrite Hl.
Qed.

Lemma elem_of_unranked os u : u ∈ unranked os <->
  exists pid port s, (pid, None, port) ∈ os /\ s ∈ cands port /\ u = py_str pid +:+ String "=" s.
Proof.
  unfold unranked. induction os as [|[[pid [k|]] port] os IH]; simpl.
  - split; [intros H; by apply elem_of_nil in H|]. by intros (? & ? & ? & H%elem_of_nil & _).
  - rewrite IH. split; intros (p & q & s & Hin & Hs); exists p, q, s; (split; [|done]); set_solver.
  - rewrite elem_of_app, IH, list_elem_of_fmap. split.
    + intros [(s & -> & Hs)|(p & q & s & Hin & Hs)]; [exists pid, port, s|exists p, q, s]; set_solver.
    + intros (p & q & s & [[= -> ->]|Hin]%elem_of_cons & Hs & ->); [left; eauto|right; eauto 6].
Qed.

Lemma claims_unranked os s : claims os None s -> exists pid, (py_str pid +:+ String "=" s) ∈ unranked os.
Proof. intros (pid & port & Hin & Hs). exists pid. apply elem_of_unranked. eauto 6. Qed.

Lemma unranked_nil os : (forall s, ~ claims os None s) <-> unranked os = [].
Proof.
  split.
  - intros H. destruct (unranked os) as [|u l] eqn:E; [done|].
    assert (u ∈ unranked os) as (p & q & s & Hin & Hs & _)%elem_of_unranked by (rewrite E; by left).
    destruct (H s). by exists p, q.
  - intros H s [pid Hin]%claims_unranked. rewrite H in Hin. by apply elem_of_nil in Hin.
Qed.

Lemma seg_part_text pid s : seg_part (py_str pid +:+ String "=" s) = Ok s.
Proof. unfold seg_part. by rewrite split_first_app by (by apply lacks_py_str). Qed.

Lemma unranked_single os u : unranked os = [u] ->
  exists s, seg_part u = Ok s /\ claims os None s /\ forall s', claims os None s' -> s' = s.
Proof.
  intros E. assert (u ∈ unranked os) as (p & q & s & Hin & Hs & ->)%elem_of_unranked by (rewrite E; by left).
  exists s. split; [apply seg_part_text|]. split; [by exists p, q|]. intros s' [pid Hu]%claims_unranked.
  rewrite E in Hu. apply list_elem_of_singleton in Hu. apply (f_equal seg_part) in Hu.
  rewrite !seg_part_text in Hu. congruence.
Qed.

Lemma Forall2_ranks (P : Z -> string -> Prop) tp out : 0 <= tp ->
  Forall2 P (py_range tp) out <-> zlen out = tp /\ forall i s, out !! i = Some s -> P (Z.of_nat i) s.
Proof.
  intros Htp. unfold py_range. rewrite Forall2_same_length_lookup, length_zseq. split.
  - intros [Hl H]. split; [lia|]. intros i s Hi. apply (H i); [|done].
    apply lookup_zseq. apply lookup_lt_Some in Hi. lia.
  - intros [Hl H]. split; [lia|]. intros i x s Hx Hs. pose proof (lookup_lt_Some _ _ _ Hs).
    rewrite lookup_zseq in Hx by lia. injection Hx as <-. by apply H.
Qed.
End pairing.

(** The two loops of [intersect_rank_seg] succeed exactly when no port is ambiguous
    and the claims of every rank agree; they collect exactly the claims. *)
Lemma loops_spec segs target_ip rows : have_ports segs ->
  (exists st, fold_res (row_step segs target_ip) rows ([], []) = Ok st) <->
  unambiguous segs target_ip (observations rows) /\ agreed segs target_ip (observations rows).
Proof.
  intros Hp. rewrite rows_observed. split.
  - intros [st H]. apply (fold_paired _ _ _ [] _ _ Hp (paired_nil _ _)) in H as [Hu [H _]]. split; [done|].
    intros k s1 s2 H1 H2. apply H in H1, H2. congruence.
  - intros [Hu Ha]. by apply (fold_defined _ _ _ [] _ Hp (paired_nil _ _)).
Qed.

Lemma loops_paired segs target_ip rows st : have_ports segs ->
  fold_res (row_step segs target_ip) rows ([], []) = Ok st -> paired segs target_ip (observations rows) st.
Proof.
  intros Hp. rewrite rows_observed. intros H.
  by apply (fold_paired _ _ _ [] _ _ Hp (paired_nil _ _)) in H as [_ H].
Qed.

Lemma intersect_iff segs rows tp target_ip out :
  have_ports segs -> 1 < tp ->
  intersect_rank_seg segs rows tp target_ip = Ok out <->
  unambiguous segs target_ip (observations rows) /\
  (forall s, ~ claims segs target_ip (observations rows) None s) /\
  agreed segs target_ip (observations rows) /\
  zlen out = tp /\
  (forall i s, out !! i = Some s -> claims segs target_ip (observations rows) (Some (Z.of_nat i)) s).
Proof.
  intros Hp Htp. unfold intersect_rank_seg, pin_single. rewrite (proj2 (Z.eqb_neq tp 1)) by lia. simpl andb.
  rewrite (proj2 (Z.ltb_lt 1 tp) Htp). simpl andb. rewrite unranked_nil.
  pose proof (loops_spec segs target_ip rows Hp) as Hl.
  pose proof (loops_paired segs target_ip rows) as Hpair.
  destruct (fold_res _ rows _) as [st|e]; cbn [mbind result_bind].
  - destruct (Hpair st Hp eq_refl) as [Hd Hun]. rewrite <- Hun.
    destruct (decide (st.2 = [])) as [E|E].
    + rewrite bool_decide_eq_true_2 by done. simpl. rewrite in_rank_order_spec, Forall2_ranks by lia.
      setoid_rewrite Hd. pose proof (proj1 Hl (ex_intro _ st eq_refl)). tauto.
    + rewrite bool_decide_eq_false_2 by done. simpl. split; [done|]. by intros (_ & ? & _).
  - split; [done|]. intros (Hu & _ & Ha & _). destruct (proj2 Hl (conj Hu Ha)) as [st [=]].
Qed.

(** Ranks with one claim each get distinct segments exactly when no segment is claimed
    twice. *)
Lemma distinct_claims segs target_ip os (out : list string) : agreed segs target_ip os ->
  (forall i s, out !! i = Some s -> claims segs target_ip os (Some (Z.of_nat i)) s) ->
  NoDup out <-> forall i j s, 0 <= i < zlen out -> 0 <= j < zlen out ->
    claims segs target_ip os (Some i) s -> claims segs target_ip os (Some j) s -> i = j.
Proof.
  intros Ha Ho. rewrite NoDup_alt. split.
  - intros Hnd i j s Hi Hj Hci Hcj.
    destruct (lookup_lt_is_Some_2 out (Z.to_nat i)) as [si Hsi]; [lia|].
    destruct (lookup_lt_is_Some_2 out (Z.to_nat j)) as [sj Hsj]; [lia|].
    pose proof (Ho _ _ Hsi) as H1. pose proof (Ho _ _ Hsj) as H2. rewrite Z2Nat.id in H1, H2 by lia.
    rewrite (Ha _ _ _ H1 Hci) in Hsi. rewrite (Ha _ _ _ H2 Hcj) in Hsj. specialize (Hnd _ _ _ Hsi Hsj). lia.
  - intros Hd i j s Hi Hj. pose proof (lookup_lt_Some _ _ _ Hi). pose proof (lookup_lt_Some _ _ _ Hj).
    specialize (Hd (Z.of_nat i) (Z.of_nat j) s ltac:(lia) ltac:(lia) (Ho _ _ Hi) (Ho _ _ Hj)). lia.
Qed.

(** C31. What resolving several ranks checks, and what it does not.  It succeeds exactly
    when no observed port belongs to two segments of the target, no process
    without a rank listens on one, the processes of a rank agree on one segment,
    and every rank from 0 to [tp - 1] has one; the answer then names, rank by
    rank, the segment a process of that rank listens on.  Nothing compares the
    ranks with each other, although the module asks for an error on any
    inconsistency: the answered segments are distinct exactly when no segment is
    claimed by two of these ranks, and otherwise ranks share one silently. *)
Theorem intersect_exact segs rows tp target_ip out :
  have_ports segs -> 1 < tp ->
  (intersect_rank_seg segs rows tp target_ip = Ok out <->
   unambiguous segs target_ip (observations rows) /\
   (forall s, ~ claims segs target_ip (observations rows) None s) /\
   agreed segs target_ip (observations rows) /\
   zlen out = tp /\
   (forall i s, out !! i = Some s -> claims segs target_ip (observations rows) (Some (Z.of_nat i)) s)) /\
  (intersect_rank_seg segs rows tp target_ip = Ok out ->
   NoDup out <-> forall i j s, 0 <= i < tp -> 0 <= j < tp ->
     claims segs target_ip (observations rows) (Some i) s -> claims segs target_ip (observations rows) (Some j) s -> i = j).
Proof.
  intros Hp Htp. pose proof (intersect_iff segs rows tp target_ip out Hp Htp) as Hi. split; [done|].
  intros (_&_&Ha&<-&Ho)%Hi. by apply distinct_claims.
Qed.

(** For one rank: its own claim when there is one, else the only claim of a process
    without a rank. *)
Theorem intersect_single segs rows target_ip out :
  have_ports segs -> intersect_rank_seg segs rows 1 target_ip = Ok out ->
  exists s, out = [s] /\
    (claims segs target_ip (observations rows) (Some 0) s \/
     (claims segs target_ip (observations rows) None s /\
      (forall s', claims segs target_ip (observations rows) None s' -> s' = s) /\
      (forall s', ~ claims segs target_ip (observations rows) (Some 0) s'))).
Proof.
  intros Hp. unfold intersect_rank_seg. pose proof (loops_paired segs target_ip rows) as Hpair.
  destruct (fold_res _ rows _) as [st|e]; [|done]. destruct (Hpair st Hp eq_refl) as [Hd Hun].
  cbn [mbind result_bind]. unfold pin_single, din. simpl.
  destruct (dget 0 st.1) as [s|] eqn:H0; simpl.
  - change (0 + Z.of_nat 0) with 0. rewrite H0. intros [= <-]. exists s. split; [done|]. left. by apply Hd.
  - destruct st.2 as [|u [|? ?]]; simpl; [done| |done].
    destruct (unranked_single _ _ _ u (eq_sym Hun)) as (s & -> & Hs & Honly). simpl.
    change (0 + Z.of_nat 0) with 0. rewrite dget_dset_eq. intros [= <-]. exists s. split; [done|]. right. split_and!; [done|done|].
    intros s' Hs'. apply Hd in Hs'. congruence.
Qed.

(** ** The remote probe *)

(** The text has none of the line separators. *)
Definition one_line (s : string) : Prop := forall c, line_sep c = true -> lacks c s = true.

Lemma one_line_app a b : one_line a -> one_line b -> one_line (a +:+ b).
Proof. intros Ha Hb c Hc. by rewrite lacks_app, Ha, Hb. Qed.
Lemma one_line_cons c s : line_sep c = false -> one_line s -> one_line (String c s).
Proof. intros Hc Hs d Hd. simpl. rewrite Hs by done. rewrite bool_decide_eq_false_2; [done|]. intros ->. congruence. Qed.
Lemma line_sep_digit c : line_sep c = true -> is_digit c = false /\ c <> "-"%char.
Proof.
  unfold line_sep. intros H. split; [|by intros ->]. unfold is_digit, digit_val.
  destruct ((48 <=? _)%N && _) eqn:E; [|done]. apply andb_prop in E as [E%N.leb_le _].
  apply orb_prop in H as [[_ H%N.leb_le]%andb_prop|[_ H%N.leb_le]%andb_prop]; lia.
Qed.
Lemma one_line_py_str z : one_line (py_str z).
Proof. intros c [H1 H2]%line_sep_digit. by apply lacks_py_str. Qed.
Lemma lacks_ports c ports : is_digit c = false -> c <> "-"%char -> c <> ","%char ->
  lacks c (String.concat "," (py_str <$> ports)) = true.
Proof.
  intros H1 H2 H3. induction ports as [|p [|q ports] IH]; [done|by apply lacks_py_str|].
  change (String.concat "," (py_str <$> p :: q :: ports))
    with (py_str p +:+ String "," (String.concat "," (py_str <$> q :: ports))).
  rewrite lacks_app, lacks_py_str by done. cbn [lacks]. rewrite IH, bool_decide_eq_false_2; [done|].
  by intros <-.
Qed.

Definition rank_text (rank : option Z) : string := match rank with Some k => py_str k | None => "-" end.

Lemma lacks_rank_text c rank : is_digit c = false -> c <> "-"%char -> lacks c (rank_text rank) = true.
Proof.
  intros Hc Hm. destruct rank; [by apply lacks_py_str|]. simpl.
  rewrite bool_decide_eq_false_2; [done|]. by intros <-.
Qed.

Lemma one_line_row r : one_line (row_text r).
Proof.
  destruct r as [[pid rank] ports]. unfold row_text. fold (rank_text rank).
  apply one_line_app; [apply one_line_py_str|]. apply one_line_cons; [done|].
  apply one_line_app; [intros c [H1 H2]%line_sep_digit; by apply lacks_rank_text|].
  apply one_line_cons; [done|].
  intros c Hc. pose proof (line_sep_digit c Hc) as [H1 H2]. apply lacks_ports; [done..|]. by intros ->.
Qed.

Lemma lines_of_line a : forall cur t, one_line a ->
  lines_of cur (a +:+ String newline t) = (cur +:+ a) :: lines_of EmptyString t.
Proof.
  induction a as [|c a IH]; intros cur t Ha.
  - rewrite string_app_nil. simpl. destruct t; done.
  - assert (line_sep c = false) as Hc.
    { destruct (line_sep c) eqn:E; [|done]. specialize (Ha c E). simpl in Ha. by rewrite bool_decide_eq_true_2 in Ha. }
    cbn [String.append lines_of]. rewrite Hc, IH, string_app_assoc; [done|].
    intros d Hd. specialize (Ha d Hd). simpl in Ha. by apply andb_prop in Ha as [_ ?].
Qed.

Lemma splitlines_rows rows : splitlines (rows_text rows) = row_text <$> rows.
Proof.
  unfold splitlines. induction rows as [|r rows IH]; [done|]. simpl.
  rewrite lines_of_line by apply one_line_row. by rewrite IH.
Qed.

Lemma ints_py_str ports : ints (py_str <$> ports) = Ok ports.
Proof.
  induction ports as [|p ports IH]; [done|]. csimpl. rewrite bool_decide_eq_false_2.
  - unfold int_or_raise, mbind, result_bind. by rewrite py_int_str, IH.
  - destruct (py_str_head p) as (c & s & -> & _). done.
Qed.

Lemma ints_ports ports : ints (split_all "," (String.concat "," (py_str <$> ports))) = Ok ports.
Proof.
  destruct ports as [|p ports]; [done|]. rewrite split_concat; [apply ints_py_str|done|].
  apply Forall_fmap, Forall_true. intros x. by apply lacks_py_str.
Qed.

Lemma read_rows_text rows : read_rows (row_text <$> rows) = Ok rows.
Proof.
  induction rows as [|[[pid rank] ports] rows IH]; [done|]. cbn [fmap list_fmap read_rows].
  unfold row_text at 1. fold (rank_text rank).
  rewrite split_all_app by (by apply lacks_py_str). rewrite split_all_app by (by apply lacks_rank_text).
  rewrite split_all_one by (by apply lacks_ports).
  unfold int_or_raise, mbind, result_bind in *. rewrite py_int_str.
  assert ((if bool_decide (rank_text rank = "-") then Ok None
           else match match py_int 10 (rank_text rank) with Some z => Ok z | None => Raise TValue end with
                | Ok a => Ok (Some a) | Raise e => Raise e end) = Ok (E := texn) rank) as ->.
  { destruct rank as [k|]; [|done]. simpl. rewrite py_int_str, bool_decide_eq_false_2; [done|].
    intros E. pose proof (py_int_str k) as H. rewrite E in H. done. }
  rewrite ints_ports. fold row_text. by rewrite IH.
Qed.

(** Which exceptions a function raises. *)
Definition raises_only {A} (P : texn -> Prop) (r : res A) : Prop := match r with Ok _ => True | Raise e => P e end.

Lemma raises_bind {A B} P (r : res A) (k : A -> res B) :
  raises_only P r -> (forall a, raises_only P (k a)) -> raises_only P (r ≫= k).
Proof. intros Hr Hk. destruct r as [a|e]; [apply Hk|exact Hr]. Qed.
Lemma raises_fold {A B} P (f : B -> A -> res B) l b :
  (forall b x, raises_only P (f b x)) -> raises_only P (fold_res f l b).
Proof. intros Hf. revert b. induction l as [|x l IH]; intros b; [done|]. simpl. by apply raises_bind. Qed.

(** A probe exception carries one of the four stable exit codes. *)
Definition stable_code (e : texn) : Prop :=
  match e with TProbe c => c ∈ [PROBE_MISSING; PROBE_STALE; PROBE_NO_SS; PROBE_NO_PS] | _ => True end.

Lemma int_codes s : raises_only stable_code (int_or_raise s).
Proof. unfold int_or_raise. by destruct (py_int 10 s). Qed.

Lemma children_codes h : raises_only stable_code (pid_children_map h).
Proof.
  unfold pid_children_map. apply raises_bind.
  - generalize (default [] (proc_names h)), (@nil (Z * list Z)), 0. intros l. induction l as [|p l IH]; intros d n; simpl; [done|].
    repeat (case_match; try by apply IH).
    apply raises_bind; [apply int_codes|intros ?; apply raises_bind; [apply int_codes|intros ?; apply IH]].
  - intros [d n]. case_match; [done|]. case_match; [|simpl; set_solver].
    generalize (splitlines s). intros l. revert d. induction l as [|ln l IH]; intros d'; simpl; [done|].
    repeat (case_match; try by apply IH).
    apply raises_bind; [apply int_codes|intros ?; apply raises_bind; [apply int_codes|intros ?; apply IH]].
Qed.

Lemma ports_codes h : raises_only stable_code (listen_ports_by_pid h).
Proof.
  unfold listen_ports_by_pid, listen_ports_by_pid_proc. destruct (ss_out h); [|simpl; set_solver|done].
  apply raises_bind.
  - generalize ["/proc/net/tcp"; "/proc/net/tcp6"], (@nil (Z * Z)). intros l. induction l as [|t l IH]; intros m; simpl; [done|].
    destruct (net_table h t); [|apply IH]. apply raises_bind; [|apply IH].
    generalize (drop 1 (splitlines s)). intros lns. revert m. induction lns as [|ln lns IHl]; intros m; simpl; [done|].
    repeat (case_match; try by apply IHl). done.
  - intros m. destruct m; [simpl; set_solver|]. destruct (proc_names h); [|done]. apply raises_fold. intros b x.
    unfold pid_step. destruct (negb _); [done|]. destruct (fd_names h x); [|done]. apply raises_fold. intros b' fd.
    unfold fd_step. repeat (case_match; try done). apply raises_bind; [apply int_codes|done].
Qed.

Lemma probe_codes h pidfile : raises_only stable_code (probe_local h pidfile).
Proof.
  unfold probe_local. destruct (pid_file h pidfile); [|simpl; set_solver].
  case_bool_decide; [simpl; set_solver|]. destruct (py_int 10 _); [|simpl; set_solver].
  apply raises_bind; [unfold pid_alive; by case_match|]. intros []; simpl; [|set_solver].
  apply raises_bind; [|intros ?; apply raises_bind; [apply ports_codes|done]].
  unfold process_tree. apply raises_bind; [apply children_codes|]. intros ?. by case_match.
Qed.

(** Probing through the remote shell is transparent: when the remote entry point
    ends (it prints rows, or exits with a code), what the caller reads back from
    its output and exit code is what the probe computed on that host, rows and
    error code alike. *)
Theorem remote_probe_transparent h pidfile :
  match local_probe_main h ["--local-probe"; pidfile] with
  | Ok (rc, out) => probe_ssh (SshExit rc out) = probe_local h pidfile
  | Raise e => probe_local h pidfile = Raise e
  end.
Proof.
  unfold local_probe_main. rewrite bool_decide_eq_true_2 by done.
  pose proof (probe_codes h pidfile) as Hc. destruct (probe_local h pidfile) as [rows|[code| | | |]]; try done; simpl.
  - rewrite splitlines_rows. apply read_rows_text.
  - simpl in Hc. rewrite (proj2 (Z.eqb_neq code 0)); [done|]. intros ->.
    unfold PROBE_MISSING, PROBE_STALE, PROBE_NO_SS, PROBE_NO_PS in Hc. set_solver by lia.
Qed.

(** ** Resolution *)

Lemma intersect_length segs rows tp target_ip out : 0 <= tp ->
  intersect_rank_seg segs rows tp target_ip = Ok out -> zlen out = tp.
Proof.
  intros Htp. unfold intersect_rank_seg, mbind, result_bind. intros H. repeat (case_match; try done).
  apply in_rank_order_spec in H. by apply Forall2_ranks in H as [? _].
Qed.

Lemma degraded_spec segs tp code target_ip s : degraded segs tp code target_ip = Some s ->
  tp = 1 /\ code <> PROBE_STALE /\ forall s', s' ∈ segs /\ on_ip target_ip s' = true <-> s' = s.
Proof.
  unfold degraded. destruct (tp =? 1) eqn:Ht; [|done]. destruct (code =? PROBE_STALE) eqn:Hc; [done|]. simpl.
  destruct (filter _ segs) as [|x [|? ?]] eqn:Hf; [done| |done]. intros [= ->].
  apply Z.eqb_eq in Ht. apply Z.eqb_neq in Hc. split_and!; [done|done|]. intros s'.
  transitivity (s' ∈ filter (fun s => on_ip target_ip s = true) segs); [rewrite list_elem_of_filter; tauto|].
  by rewrite Hf, list_elem_of_singleton.
Qed.

(** What resolution guarantees: one segment per rank; when the probe worked, the
    answer of [intersect_rank_seg] on its rows; when it failed, only for one rank,
    only the single segment of the target, and never because the root process is
    dead. *)
Theorem resolve_guarded h remote segs tp pidfile ssh target_ip targets info :
  0 <= tp -> resolve_segments h remote segs tp pidfile ssh target_ip = Ok (targets, info) ->
  zlen targets = tp /\
  let probe := if bool_decide (ssh = EmptyString) then probe_local h pidfile else probe_ssh remote in
  match info_probe info with
  | ByProbe _ => exists rows, probe = Ok rows /\ rows <> [] /\ intersect_rank_seg segs rows tp target_ip = Ok targets
  | SingleSegDegraded =>
      exists code s, probe = Raise (TProbe code) /\ code <> PROBE_STALE /\ tp = 1 /\ targets = [s] /\
        forall s', s' ∈ segs /\ on_ip target_ip s' = true <-> s' = s
  end.
Proof.
  intros Htp. unfold resolve_segments.
  destruct (bool_decide (ssh = EmptyString)) eqn:Hssh; cbn [negb andb]; [|destruct (bool_decide (pidfile = _)); [done|]];
    [destruct (probe_local h pidfile) as [[|r rows]|[code| | | |]]|destruct (probe_ssh remote) as [[|r rows]|[code| | | |]]]; try done.
  all: try (unfold mbind, result_bind; destruct (intersect_rank_seg _ _ _ _) as [l|] eqn:Hi; [|done];
    intros [= <- <-]; (split; [by eapply intersect_length|]); simpl; by eexists).
  all: destruct (degraded segs tp code target_ip) as [s|] eqn:Hd; [|done]; intros [= <- <-];
    apply degraded_spec in Hd as (-> & Hne & Hs); (split; [done|]); simpl; eauto 8.
Qed.

Lemma resolve_guarded_witness :
  let segs := ["10.0.0.1:8080"; "10.0.0.1:8081"] in
  exists info, resolve_segments demo_host SshRaises segs 2 "/run/w.pid" EmptyString EmptyString
               = Ok (["10.0.0.1:8081"; "10.0.0.1:8080"], info) /\
  exists rs, probe_local demo_host "/run/w.pid" = Ok rs /\ rs <> [] /\
    intersect_rank_seg segs rs 2 EmptyString = Ok ["10.0.0.1:8081"; "10.0.0.1:8080"].
Proof.
  simpl. eexists. split; [vm_compute; reflexivity|].
  refine (proj2 (resolve_guarded demo_host SshRaises ["10.0.0.1:8080"; "10.0.0.1:8081"] 2 "/run/w.pid" EmptyString EmptyString
    ["10.0.0.1:8081"; "10.0.0.1:8080"]
    (mkInfo "/run/w.pid" (ByProbe "local") [(0, "10.0.0.1:8081"); (1, "10.0.0.1:8080")]) _ _));
    [lia|vm_compute; reflexivity].
Defined.

Lemma intersect_exact_witness :
  let segs := ["10.0.0.1:8080"; "10.0.0.1:8081"; "10.0.0.2:8080"] in
  let rows := [(101, Some 1, [8080; 22]); (102, Some 0, [8081])] in
  have_ports segs /\ agreed segs "10.0.0.1" (observations rows) /\
  claims segs "10.0.0.1" (observations rows) (Some 0) "10.0.0.1:8081".
Proof.
  intros segs rows.
  assert (have_ports segs) as Hp by (unfold segs, have_ports; repeat (constructor; [by eexists|]); constructor).
  destruct (proj1 (proj1 (intersect_exact segs rows 2 "10.0.0.1" ["10.0.0.1:8081"; "10.0.0.1:8080"] Hp ltac:(lia))))
    as (_ & _ & Ha & _ & Hc); [vm_compute; reflexivity|].
  split; [done|]. split; [done|]. by apply (Hc 0%nat).
Defined.

(** Defect: the pairing does not see that one port is held by the processes of two ranks (a
    listening socket inherited by a fork): both get the same segment. *)
Theorem shared_port_accepted :
  intersect_rank_seg ["10.0.0.1:8080"] [(101, Some 0, [8080]); (102, Some 1, [8080])] 2 EmptyString
  = Ok ["10.0.0.1:8080"; "10.0.0.1:8080"].
Proof. vm_compute. reflexivity. Qed.
