(* ===== verification/ArgParse.v ===== *)
(** * Command lines

    What [kvcm/daemon.py] uses of [argparse]: a parser whose options are long names
    with one value each, converted by their type, checked against their choices,
    collected into a list, required or with a default; and the help option.  An option
    may be abbreviated, its value may follow as the next argument or after [=].  The
    text of messages is not modelled: a refused command line ends the process with
    status 2, [--help] with status 0.  Arguments are read as in Python 3.11, which
    refuses an ambiguous abbreviation before it acts on any argument.

    Floating point numbers are a parameter: a type, and what [float] makes of a
    text. *)

From S2P Require Import Prelude PyDict PyStr Instances RankTopology.
From Stdlib Require Import Ascii.
Local Open Scope Z_scope.

#[local] Arguments String.append !_ _ /.

Inductive action : Type := StoreStr | StoreInt | StoreFloat | Append | Help.
#[export] Instance action_eq_dec : EqDecision action.
Proof. solve_decision. Defined.

(** How a parser ends. *)
Inductive parsed (A : Type) : Type := Parsed (a : A) | Exit (code : Z).
Arguments Parsed {A} a.
Arguments Exit {A} code.

Section parser.
Context {F : Type} (py_float : string -> option F).

Inductive value : Type := VNone | VStr (s : string) | VInt (z : Z) | VFloat (f : F) | VList (l : list string).

Record opt : Type := mkOpt {
  o_name : string;                       (* with its dashes *)
  o_dest : string;
  o_action : action;
  o_default : value;
  o_required : bool;
  o_choices : option (list string) }.

Definition Namespace := dict string value.

(** ** Reading the arguments *)

Fixpoint has (c : ascii) (s : string) : bool :=
  match s with EmptyString => false | String d s => bool_decide (d = c) || has c s end.

(** [re.match(r'^-\d+$|^-\d*\.\d+$', s)] on the text after the dash *)
Fixpoint all_digits (s : string) : bool :=
  match s with EmptyString => true | String c s => is_digit c && all_digits s end.
Fixpoint negative_number (s : string) : bool :=
  match s with
  | EmptyString => false
  | String c r =>
      if is_digit c then bool_decide (r = EmptyString) || negative_number r
      else bool_decide (c = "."%char) && negb (bool_decide (r = EmptyString)) && all_digits r
  end.

Inductive token : Type :=
| TArg (s : string)
| TOpt (o : opt) (explicit : option string)
| TShortHelp (rest : string)              (* [-h] followed by more letters *)
| TUnknown
| TAmbiguous.

Definition find_opt (opts : list opt) (s : string) : option opt := List.find (fun o => bool_decide (o_name o = s)) opts.

(** The options a text abbreviates; a value may follow after [=]. *)
Definition abbreviated (opts : list opt) (s : string) : list opt * option string :=
  let '(p, v) := match split_first "=" s with Some (p, v) => (p, Some v) | None => (s, None) end in
  (filter (fun o => String.prefix p (o_name o) = true) opts, v).

Definition classify (opts : list opt) (s : string) : token :=
  match s with
  | EmptyString => TArg s
  | String c r =>
      if negb (bool_decide (c = "-"%char)) then TArg s
      else match find_opt opts s with
      | Some o => TOpt o None
      | None =>
          if bool_decide (r = EmptyString) then TArg s
          else
            let with_value := match split_first "=" s with
                              | Some (p, v) => match find_opt opts p with Some o => Some (TOpt o (Some v)) | None => None end
                              | None => None
                              end in
            match with_value with
            | Some t => t
            | None =>
                let tuples := match r with
                  | String d rest =>
                      if bool_decide (d = "-"%char) then
                        let '(os, v) := abbreviated opts s in (fun o => TOpt o v) <$> os
                      else match find_opt opts (String c (String d EmptyString)) with
                           | Some o => [TShortHelp rest]
                           | None => []
                           end
                  | EmptyString => []
                  end in
                match tuples with
                | [t] => t
                | _ :: _ :: _ => TAmbiguous
                | [] => if negative_number r then TArg s else if has " " s then TArg s else TUnknown
                end
            end
      end
  end.

(** After [--] everything is an argument; the dashes themselves match no option. *)
Fixpoint tokens (opts : list opt) (argv : list string) : list token :=
  match argv with
  | [] => []
  | s :: argv => if bool_decide (s = "--") then TUnknown :: (TArg <$> argv) else classify opts s :: tokens opts argv
  end.

(** ** Acting on them *)

Definition convert (o : opt) (s : string) : option value :=
  match o_action o with
  | StoreStr | Append => Some (VStr s)
  | StoreInt => VInt <$> py_int 10 s
  | StoreFloat => VFloat <$> py_float s
  | Help => None
  end.

Definition allowed (o : opt) (s : string) : bool :=
  match o_choices o with None => true | Some l => bool_decide (s ∈ l) end.

Definition store (o : opt) (v : value) (ns : Namespace) : Namespace :=
  match o_action o, v with
  | Append, VStr s =>
      let l := match dget (o_dest o) ns with Some (VList l) => l | _ => [] end in
      dset (o_dest o) (VList (l ++ [s])) ns
  | _, _ => dset (o_dest o) v ns
  end.

Definition take_action (o : opt) (s : string) (ns : Namespace) : option Namespace :=
  v ← convert o s;
  if allowed o s then Some (store o v ns) else None.

Fixpoint all_h (s : string) : bool := match s with EmptyString => true | String c s => bool_decide (c = "h"%char) && all_h s end.

(** [seen]: the options that occurred; [extras]: an argument no option takes. *)
Fixpoint consume (ts : list token) (ns : Namespace) (seen : list string) (extras : bool) : parsed (Namespace * list string * bool) :=
  match ts with
  | [] => Parsed (ns, seen, extras)
  | TArg _ :: ts => consume ts ns seen true
  | TUnknown :: ts => consume ts ns seen true
  | TAmbiguous :: _ => Exit 2
  | TShortHelp rest :: _ => if all_h rest then Exit 0 else Exit 2
  | TOpt o (Some s) :: ts =>
      match take_action o s ns with
      | Some ns => consume ts ns (o_name o :: seen) extras
      | None => Exit 2
      end
  | TOpt o None :: ts =>
      match o_action o with
      | Help => Exit 0
      | _ =>
          match ts with
          | TArg s :: ts =>
              match take_action o s ns with
              | Some ns => consume ts ns (o_name o :: seen) extras
              | None => Exit 2
              end
          | _ => Exit 2
          end
      end
  end.

Definition is_ambiguous (t : token) : bool := match t with TAmbiguous => true | _ => false end.

Definition defaults (opts : list opt) : Namespace := (fun o => (o_dest o, o_default o)) <$> filter (fun o => o_action o <> Help) opts.

Definition parse_args (opts : list opt) (argv : list string) : parsed Namespace :=
  let ts := tokens opts argv in
  if existsb is_ambiguous ts then Exit 2
  else match consume ts (defaults opts) [] false with
       | Exit c => Exit c
       | Parsed (ns, seen, extras) =>
           if forallb (fun o => negb (o_required o) || bool_decide (o_name o ∈ seen)) opts && negb extras then Parsed ns else Exit 2
       end.

(** ** Round trip

    An option written as [--name=value] is read as that value, whatever the value is. *)

Definition assign (a : opt * string) : string := o_name a.1 +:+ "=" +:+ a.2.

(** The names of a parser: long, without [=], each once. *)
Definition long_name (s : string) : bool :=
  match s with String "-" (String "-" (String _ _)) => lacks "=" s | _ => false end.
Definition opts_ok (opts : list opt) : Prop :=
  NoDup (o_name <$> opts) /\ Forall (fun o => lacks "=" (o_name o) = true) opts.

Lemma find_opt_in opts o : NoDup (o_name <$> opts) -> o ∈ opts -> find_opt opts (o_name o) = Some o.
Proof.
  induction opts as [|o' opts IH]; intros Hn Hin; [by apply not_elem_of_nil in Hin|]. simpl.
  rewrite fmap_cons, NoDup_cons in Hn. destruct Hn as [Hn1 Hn2].
  apply elem_of_cons in Hin as [->|Hin]; [by rewrite bool_decide_eq_true_2|].
  rewrite bool_decide_eq_false_2; [by apply IH|]. intros E. apply Hn1. rewrite E. by apply list_elem_of_fmap_2.
Qed.

Lemma find_opt_none opts s : Forall (fun o => lacks "=" (o_name o) = true) opts -> lacks "=" s = false -> find_opt opts s = None.
Proof.
  intros H Hs. induction H as [|o opts Ho _ IH]; [done|]. simpl. rewrite bool_decide_eq_false_2; [done|]. intros E. congruence.
Qed.

Lemma classify_assign opts o v : opts_ok opts -> o ∈ opts -> long_name (o_name o) = true ->
  classify opts (assign (o, v)) = TOpt o (Some v).
Proof.
  intros [Hn Hf] Hin Hl. unfold assign. simpl.
  assert (Hlack : lacks "=" (o_name o +:+ String "=" v) = false) by (rewrite lacks_app; simpl; apply andb_false_r).
  pose proof (find_opt_none opts _ Hf Hlack) as Hnone. pose proof (find_opt_in opts o Hn Hin) as Hfind.
  assert (Hsplit : split_first "=" (o_name o +:+ String "=" v) = Some (o_name o, v)).
  { apply split_first_app. rewrite Forall_forall in Hf. by apply Hf. }
  destruct (o_name o) as [|c r] eqn:En; [done|]. simpl in *. rewrite Hsplit.
  destruct c as [[] [] [] [] [] [] [] []]; try done. destruct r as [|c' r']; [done|]. simpl in *. by rewrite Hnone, Hfind.
Qed.

Lemma tokens_assign opts l : opts_ok opts -> Forall (fun a => a.1 ∈ opts /\ long_name (o_name a.1) = true) l ->
  tokens opts (assign <$> l) = (fun a => TOpt a.1 (Some a.2)) <$> l.
Proof.
  intros Hok. induction 1 as [|[o v] l [Hin Hl] _ IH]; [done|]. rewrite !fmap_cons. simpl in Hin, Hl. cbn [tokens].
  rewrite bool_decide_eq_false_2; [by rewrite classify_assign, IH|]. unfold assign. simpl.
  destruct (o_name o) as [|c1 [|c2 [|c3 r]]]; try done; simpl; by destruct c1 as [[] [] [] [] [] [] [] []]; try destruct c2 as [[] [] [] [] [] [] [] []].
Qed.

(** The values of a command line, one after the other. *)
Fixpoint apply_all (l : list (opt * string)) (ns : Namespace) : option Namespace :=
  match l with [] => Some ns | (o, s) :: l => ns ← take_action o s ns; apply_all l ns end.

Lemma consume_assign l : forall ns ns' seen, apply_all l ns = Some ns' ->
  consume ((fun a => TOpt a.1 (Some a.2)) <$> l) ns seen false = Parsed (ns', rev (o_name <$> (fst <$> l)) ++ seen, false).
Proof.
  induction l as [|[o s] l IH]; intros ns ns' seen H; [by injection H as <-|]. simpl in *.
  destruct (take_action o s ns) as [ns1|]; [|done]. simpl in H. rewrite (IH _ _ _ H). by rewrite <- app_assoc.
Qed.

(** What a command line of assignments gives: the values are stored in their order; it
    is accepted exactly when every required option is among them. *)
Lemma parse_assign opts l ns : opts_ok opts -> Forall (fun a => a.1 ∈ opts /\ long_name (o_name a.1) = true) l ->
  apply_all l (defaults opts) = Some ns ->
  parse_args opts (assign <$> l) =
    if forallb (fun o => negb (o_required o) || bool_decide (o_name o ∈ o_name <$> (fst <$> l))) opts then Parsed ns else Exit 2.
Proof.
  intros Hok Hl Ha. unfold parse_args. rewrite tokens_assign by done.
  assert (existsb is_ambiguous ((fun a => TOpt a.1 (Some a.2)) <$> l) = false) as ->.
  { clear. by induction l. }
  rewrite (consume_assign l _ ns) by done. rewrite app_nil_r, andb_true_r.
  assert (forall os, forallb (fun o => negb (o_required o) || bool_decide (o_name o ∈ rev (o_name <$> l.*1))) os =
    forallb (fun o => negb (o_required o) || bool_decide (o_name o ∈ o_name <$> l.*1)) os) as ->; [|done].
  intros os. clear. induction os as [|o os IH]; [done|]. simpl. rewrite IH. do 2 f_equal. apply bool_decide_ext.
  rewrite !list_elem_of_In. symmetry. apply in_rev.
Qed.

(** A required option that does not occur refuses every command line. *)
Lemma seen_tokens ts : forall ns seen ex r, consume ts ns seen ex = Parsed r ->
  forall n, n ∈ r.1.2 -> n ∈ seen \/ exists o v, TOpt o v ∈ ts /\ o_name o = n.
Proof.
  induction ts as [ts IH] using (induction_ltof1 _ (@length token)). unfold ltof in IH.
  intros ns seen ex r. destruct ts as [|t ts]; simpl.
  { intros [= <-] n Hn. by left. }
  assert (Hstep : forall o v ts' ns' , (length ts' < length (t :: ts))%nat -> (forall x, x ∈ ts' -> x ∈ t :: ts) -> TOpt o v ∈ t :: ts ->
    consume ts' ns' (o_name o :: seen) ex = Parsed r -> forall n, n ∈ r.1.2 -> n ∈ seen \/ exists o v, TOpt o v ∈ t :: ts /\ o_name o = n).
  { intros o v ts' ns' Hlen Hsub Hin Hc n Hn. destruct (IH ts' Hlen _ _ _ _ Hc n Hn) as [H|(o' & v' & H & <-)]; [|by eauto 6].
    apply elem_of_cons in H as [->|H]; [eauto 6|by left]. }
  destruct t as [s|o [s|]|rest| |]; try done.
  - intros Hc n Hn. destruct (IH ts ltac:(simpl; lia) _ _ _ _ Hc n Hn) as [H|(o' & v' & H & <-)]; [by left|].
    right. exists o', v'. split; [by right|done].
  - destruct (take_action o s ns) as [ns1|]; [|done]. apply (Hstep o (Some s)); [simpl; lia|by right|left].
  - assert (Hnext : match ts with
       | TArg s :: ts' => match take_action o s ns with Some ns1 => consume ts' ns1 (o_name o :: seen) ex | None => Exit 2 end
       | _ => Exit 2 end = Parsed r -> forall n, n ∈ r.1.2 -> n ∈ seen \/ exists o0 v, TOpt o0 v ∈ TOpt o None :: ts /\ o_name o0 = n).
    { destruct ts as [|[s| | | |] ts']; try done. destruct (take_action o s ns) as [ns1|]; [|done].
      apply (Hstep o None); [simpl; lia|intros x Hx; by do 2 right|left]. }
    destruct (o_action o); done.
  - by case_match.
  - intros Hc n Hn. destruct (IH ts ltac:(simpl; lia) _ _ _ _ Hc n Hn) as [H|(o' & v' & H & <-)]; [by left|].
    right. exists o', v'. split; [by right|done].
Qed.

Lemma parse_required opts argv ns o : parse_args opts argv = Parsed ns -> o ∈ opts -> o_required o = true ->
  exists o' v, TOpt o' v ∈ tokens opts argv /\ o_name o' = o_name o.
Proof.
  unfold parse_args. destruct (existsb _ _); [done|].
  destruct (consume _ _ _ _) as [[[ns1 seen] extras]|] eqn:Ec; [|done]. destruct (_ && _) eqn:Eb; [|done].
  intros _ Hin Hreq. apply andb_true_iff in Eb as [Hf _]. rewrite forallb_forall in Hf.
  assert (Hs : o_name o ∈ seen). { specialize (Hf o ltac:(by apply list_elem_of_In)). rewrite Hreq in Hf. by apply bool_decide_eq_true in Hf. }
  destruct (seen_tokens _ _ _ _ _ Ec (o_name o) Hs) as [H|H]; [by apply not_elem_of_nil in H|done].
Qed.
End parser.

Arguments mkOpt {F} _ _ _ _ _ _.
Arguments VNone {F}.
Arguments VStr {F} _.
Arguments VInt {F} _.
Arguments VFloat {F} _.
Arguments VList {F} _.

