(* ===== verification/SubmitGate.v ===== *)
(** * kvcm: the submission gate

    The concurrent part of [MooncakeBackend.copy] and [move]
    ([kvcm/backends/mooncake/backend.py]): every copy in progress starts one
    coroutine per key of its plan; all of them share one semaphore of
    [submit_concurrency] places; a place is held while the coroutine awaits its one
    RPC.  The RPC runs on a thread of the pool: a coroutine whose wait times out or is
    cancelled gives its place back while the thread goes on calling
    ([g_lingering]).  A failing key or a cancellation makes its copy set [stop]
    some time later, and coroutines of that copy that get a place after that return
    without calling.

    A key is the pair of its copy and its index in the plan.  The steps are the
    points where the event loop may switch. *)

From S2P Require Import Prelude KvcmTypes.

Abbreviation key := (nat * nat)%type.

Record gate : Type := mkGate {
  g_size : gmap nat nat;
  g_waiting : list key;
  g_inflight : list key;
  g_lingering : list key;
  g_slots : gmap key TaskId;
  g_failed : gmap nat kexn;
  g_stop : gset nat;
  g_calls : list key
}.

Definition empty_gate : gate := mkGate ∅ [] [] [] ∅ ∅ ∅ [].

(** [asyncio.create_task(_submit_one(i, ...)) for i, ... in enumerate(plan)] *)
Definition keys_of (c n : nat) : list key := (fun i => (c, i)) <$> seq 0 n.
Definition enter (c n : nat) (g : gate) : gate :=
  mkGate (<[c := n]> (g_size g)) (g_waiting g ++ keys_of c n) (g_inflight g) (g_lingering g) (g_slots g) (g_failed g)
    (g_stop g) (g_calls g).

(** A place is free: the coroutine calls, or returns if its copy has stopped. *)
Definition acquire (k : key) (g : gate) : gate :=
  if bool_decide (k.1 ∈ g_stop g)
  then mkGate (g_size g) (remove_first k (g_waiting g)) (g_inflight g) (g_lingering g) (g_slots g) (g_failed g) (g_stop g) (g_calls g)
  else mkGate (g_size g) (remove_first k (g_waiting g)) (k :: g_inflight g) (g_lingering g) (g_slots g) (g_failed g) (g_stop g)
         (g_calls g ++ [k]).

(** The RPC returned a task id, or raised, to a coroutine that awaits it. *)
Definition reply (k : key) (t : TaskId) (g : gate) : gate :=
  mkGate (g_size g) (g_waiting g) (remove_first k (g_inflight g)) (g_lingering g) (<[k := t]> (g_slots g)) (g_failed g)
    (g_stop g) (g_calls g).
Definition fail (c : nat) (e : kexn) (m : gmap nat kexn) : gmap nat kexn :=
  match m !! c with Some _ => m | None => <[c := e]> m end.
Definition reply_error (k : key) (e : kexn) (g : gate) : gate :=
  mkGate (g_size g) (g_waiting g) (remove_first k (g_inflight g)) (g_lingering g) (g_slots g) (fail k.1 e (g_failed g))
    (g_stop g) (g_calls g).
(** The coroutine stops waiting (its time is up, [KQuery], or it is cancelled): the
    place is free, the thread is still inside the call. *)
Definition leave (k : key) (e : kexn) (g : gate) : gate :=
  mkGate (g_size g) (g_waiting g) (remove_first k (g_inflight g)) (k :: g_lingering g) (g_slots g) (fail k.1 e (g_failed g))
    (g_stop g) (g_calls g).
(** The thread of such a call ends; nobody takes its answer. *)
Definition thread_ends (k : key) (g : gate) : gate :=
  mkGate (g_size g) (g_waiting g) (g_inflight g) (remove_first k (g_lingering g)) (g_slots g) (g_failed g) (g_stop g) (g_calls g).
(** A coroutine of a cancelled copy is cancelled while it waits for a place. *)
Definition drop_waiting (k : key) (g : gate) : gate :=
  mkGate (g_size g) (remove_first k (g_waiting g)) (g_inflight g) (g_lingering g) (g_slots g) (g_failed g) (g_stop g) (g_calls g).
(** The copy itself is cancelled. *)
Definition cancel (c : nat) (g : gate) : gate :=
  mkGate (g_size g) (g_waiting g) (g_inflight g) (g_lingering g) (g_slots g) (fail c KCancelled (g_failed g)) (g_stop g) (g_calls g).
(** [stop.set()] *)
Definition set_stop (c : nat) (g : gate) : gate :=
  mkGate (g_size g) (g_waiting g) (g_inflight g) (g_lingering g) (g_slots g) (g_failed g) ({[c]} ∪ g_stop g) (g_calls g).

Section gate.
Context (submit_concurrency : nat).

Inductive step (g : gate) : gate -> Prop :=
| s_enter c n : g_size g !! c = None -> step g (enter c n g)
| s_acquire k : k ∈ g_waiting g -> (length (g_inflight g) < submit_concurrency)%nat -> step g (acquire k g)
| s_reply k t : k ∈ g_inflight g -> step g (reply k t g)
| s_reply_error k e : k ∈ g_inflight g -> step g (reply_error k e g)
| s_leave k e : k ∈ g_inflight g -> step g (leave k e g)
| s_thread_ends k : k ∈ g_lingering g -> step g (thread_ends k g)
| s_drop_waiting k : k ∈ g_waiting g -> is_Some (g_failed g !! k.1) -> step g (drop_waiting k g)
| s_cancel c : step g (cancel c g)
| s_stop c : is_Some (g_failed g !! c) -> step g (set_stop c g).

Record inv (g : gate) : Prop := {
  i_bound : (length (g_inflight g) <= submit_concurrency)%nat;
  i_stop : forall c, c ∈ g_stop g -> is_Some (g_failed g !! c);
  i_nodup : NoDup (g_waiting g ++ g_calls g);
  i_inflight : NoDup (g_inflight g ++ g_lingering g) /\ forall k, k ∈ g_inflight g ++ g_lingering g -> k ∈ g_calls g;
  i_lingering : forall k, k ∈ g_lingering g -> is_Some (g_failed g !! k.1);
  i_known : forall k, k ∈ g_waiting g ++ g_calls g -> is_Some (g_size g !! k.1);
  i_all : forall c n i, g_size g !! c = Some n -> (i < n)%nat -> g_failed g !! c = None ->
    (c, i) ∈ g_waiting g \/ (c, i) ∈ g_inflight g \/ is_Some (g_slots g !! (c, i))
}.

Lemma elem_of_keys c n k : k ∈ keys_of c n <-> k.1 = c /\ (k.2 < n)%nat.
Proof.
  unfold keys_of. rewrite list_elem_of_fmap. destruct k as [c' i]. simpl. split.
  - intros (j&[= -> ->]&Hj%elem_of_seq). split; [done|lia].
  - intros [-> Hi]. exists i. split; [done|]. apply elem_of_seq. lia.
Qed.

Lemma NoDup_keys c n : NoDup (keys_of c n).
Proof. apply NoDup_fmap_2; [by intros ?? [=]|]. apply NoDup_seq. Qed.

Lemma fail_lookup c e m c' : fail c e m !! c' = None -> m !! c' = None.
Proof.
  unfold fail. destruct (m !! c) eqn:E; [done|]. rewrite lookup_insert_None. tauto.
Qed.

Lemma fail_mono c e m c' : is_Some (m !! c') -> is_Some (fail c e m !! c').
Proof.
  intros H. destruct (fail c e m !! c') eqn:E; [by eexists|]. apply fail_lookup in E. rewrite E in H. done.
Qed.

Lemma fail_here c e m : is_Some (fail c e m !! c).
Proof. unfold fail. destruct (m !! c) eqn:E; [by rewrite E|]. rewrite lookup_insert_eq. by eexists. Qed.

Lemma inv_enter c n g : inv g -> g_size g !! c = None -> inv (enter c n g).
Proof.
  intros [] Hc.
  assert (Hnew : forall k, k ∈ keys_of c n -> k ∉ g_waiting g ++ g_calls g).
  { intros k [<- _]%elem_of_keys Hin. destruct (i_known0 k Hin) as [m Hm]. congruence. }
  split; simpl; try done.
  - rewrite <- app_assoc, (Permutation_app_comm (keys_of c n)), app_assoc. apply NoDup_app. split_and!; [done| |apply NoDup_keys].
    intros k Hk Hn. exact (Hnew k Hn Hk).
  - intros k. rewrite !elem_of_app, elem_of_keys. intros [[Hk|[<- _]]|Hk].
    + destruct (decide (k.1 = c)) as [->|]; [rewrite lookup_insert_eq; by eexists|].
      rewrite lookup_insert_ne by done. apply i_known0. set_solver.
    + rewrite lookup_insert_eq. by eexists.
    + destruct (decide (k.1 = c)) as [->|]; [rewrite lookup_insert_eq; by eexists|].
      rewrite lookup_insert_ne by done. apply i_known0. set_solver.
  - intros c' m i. destruct (decide (c' = c)) as [->|Hne].
    + rewrite lookup_insert_eq. intros [= <-] Hi _. left. apply elem_of_app. right. by apply elem_of_keys.
    + rewrite lookup_insert_ne by done. intros Hm Hi Hf. destruct (i_all0 _ _ _ Hm Hi Hf) as [|[|]]; auto.
      left. apply elem_of_app. by left.
Qed.

Lemma inv_acquire k g : inv g -> k ∈ g_waiting g -> (length (g_inflight g) < submit_concurrency)%nat -> inv (acquire k g).
Proof.
  intros [] Hk Hl. pose proof i_nodup0 as (Hw&Hdis&Hc)%NoDup_app.
  unfold acquire. case_bool_decide as Hs.
  - split; simpl; try done.
    + apply NoDup_app. split_and!; [by apply NoDup_remove_first| |done]. intros x Hx. apply Hdis. by eapply elem_of_remove_first_1.
    + intros x Hx. apply i_known0. rewrite elem_of_app in *. destruct Hx as [Hx|]; [|by right].
      left. by eapply elem_of_remove_first_1.
    + intros c n i Hn Hi Hf. destruct (i_all0 _ _ _ Hn Hi Hf) as [Hx|[|]]; auto. left.
      apply elem_of_remove_first; [done|]. split; [done|]. intros <-. destruct (i_stop0 _ Hs) as [e He]. simpl in He. congruence.
  - split; simpl; try done.
    + apply NoDup_app. split_and!; [by apply NoDup_remove_first| |].
      * intros x Hx%(elem_of_remove_first k x _ Hw). rewrite elem_of_app, list_elem_of_singleton. intros [?|?]; [|by destruct Hx].
        by apply (Hdis x); [apply Hx|].
      * apply NoDup_app. split_and!; [done| |apply NoDup_singleton]. intros x Hx ->%list_elem_of_singleton. by apply (Hdis k).
    + destruct i_inflight0 as [Hn Hin]. split.
      * constructor; [|done]. intros Hx. by apply (Hdis k); [|apply Hin].
      * intros x. rewrite elem_of_cons, (elem_of_app (g_calls g)), list_elem_of_singleton. intros [->|?]; auto.
    + intros x Hx. apply i_known0. rewrite !elem_of_app, list_elem_of_singleton in *.
      destruct Hx as [Hx|[?|Hx]]; [left; by eapply elem_of_remove_first_1|by right|left; by subst].
    + intros c n i Hn Hi Hf. destruct (i_all0 _ _ _ Hn Hi Hf) as [Hx|[|]].
      * destruct (decide ((c, i) = k)) as [->|Hne]; [right; left; left|].
        left. by apply elem_of_remove_first.
      * right. left. by right.
      * auto.
Qed.

(** Calls out after a coroutine got its answer, or left. *)
Lemma out_remove k (l m : list key) : k ∈ l -> l ++ m ≡ₚ k :: remove_first k l ++ m.
Proof.
  intros Hk. induction l as [|x l IH]; simpl; [by apply elem_of_nil in Hk|]. case_decide as Hx; [by subst|].
  rewrite IH by set_solver. constructor.
Qed.

Lemma out_answered k g (l m : list key) : k ∈ l -> NoDup (l ++ m) /\ (forall x, x ∈ l ++ m -> x ∈ g_calls g) ->
  NoDup (remove_first k l ++ m) /\ forall x, x ∈ remove_first k l ++ m -> x ∈ g_calls g.
Proof.
  intros Hk [Hn Hin]. rewrite (out_remove k l m Hk) in Hn. apply NoDup_cons in Hn as [_ Hn]. split; [done|].
  intros x Hx. apply Hin. rewrite (out_remove k l m Hk). by right.
Qed.

Lemma inv_reply k t g : inv g -> k ∈ g_inflight g -> inv (reply k t g).
Proof.
  intros [] Hk. pose proof (proj1 i_inflight0) as (Hn&_&_)%NoDup_app. split; simpl; try done.
  - pose proof (length_remove_first_le k (g_inflight g)). lia.
  - by apply out_answered.
  - intros c n i Hs Hi Hf. destruct (i_all0 _ _ _ Hs Hi Hf) as [|[Hx|Hx]]; auto; destruct (decide ((c, i) = k)) as [->|Hne].
    + right. right. rewrite lookup_insert_eq. by eexists.
    + right. left. by apply elem_of_remove_first.
    + right. right. rewrite lookup_insert_eq. by eexists.
    + right. right. by rewrite lookup_insert_ne.
Qed.

Lemma inv_reply_error k e g : inv g -> k ∈ g_inflight g -> inv (reply_error k e g).
Proof.
  intros [] Hk. pose proof (proj1 i_inflight0) as (Hn&_&_)%NoDup_app. split; simpl; try done.
  - pose proof (length_remove_first_le k (g_inflight g)). lia.
  - intros c Hc. by apply fail_mono, i_stop0.
  - by apply out_answered.
  - intros x Hx. by apply fail_mono, i_lingering0.
  - intros c n i Hs Hi Hf. destruct (i_all0 _ _ _ Hs Hi (fail_lookup _ _ _ _ Hf)) as [|[Hx|]]; auto.
    right. left. apply elem_of_remove_first; [done|]. split; [done|]. intros <-. simpl in Hf.
    destruct (fail_here c e (g_failed g)) as [x Hx']. congruence.
Qed.

Lemma inv_leave k e g : inv g -> k ∈ g_inflight g -> inv (leave k e g).
Proof.
  intros Hi Hk. destruct (inv_reply_error k e g Hi Hk) as [H1 H2 H3 _ H5 H6 H7]. destruct Hi. split; simpl in *; try done.
  - destruct i_inflight0 as [Hn Hin].
    assert (Hp : remove_first k (g_inflight g) ++ k :: g_lingering g ≡ₚ g_inflight g ++ g_lingering g).
    { rewrite (out_remove k _ _ Hk). by rewrite <- Permutation_middle. }
    split; [by rewrite Hp|]. intros x. rewrite Hp. apply Hin.
  - intros x [->|Hx]%elem_of_cons; [apply fail_here|auto].
Qed.

Lemma inv_thread_ends k g : inv g -> k ∈ g_lingering g -> inv (thread_ends k g).
Proof.
  intros [] Hk. split; simpl; try done.
  - destruct i_inflight0 as [Hn Hin].
    destruct (out_answered k g (g_lingering g) (g_inflight g) Hk) as [Hn' Hin'].
    { split; [by rewrite Permutation_app_comm|]. intros x Hx. apply Hin. by rewrite Permutation_app_comm. }
    split; [by rewrite Permutation_app_comm|]. intros x Hx. apply Hin'. by rewrite Permutation_app_comm.
  - intros x Hx. apply i_lingering0. by eapply elem_of_remove_first_1.
Qed.

Lemma inv_drop_waiting k g : inv g -> k ∈ g_waiting g -> is_Some (g_failed g !! k.1) -> inv (drop_waiting k g).
Proof.
  intros [] Hk Hf. pose proof i_nodup0 as (Hw&Hdis&Hc)%NoDup_app. split; simpl; try done.
  - apply NoDup_app. split_and!; [by apply NoDup_remove_first| |done]. intros x Hx. apply Hdis. by eapply elem_of_remove_first_1.
  - intros x Hx. apply i_known0. rewrite elem_of_app in *. destruct Hx as [Hx|]; [|by right].
    left. by eapply elem_of_remove_first_1.
  - intros c n i Hn Hi Hnf. destruct (i_all0 _ _ _ Hn Hi Hnf) as [Hx|[|]]; auto. left.
    apply elem_of_remove_first; [done|]. split; [done|]. intros <-. destruct Hf as [e He]. simpl in He. congruence.
Qed.

Lemma inv_cancel c g : inv g -> inv (cancel c g).
Proof.
  intros []. split; simpl; try done.
  - intros c' Hc. by apply fail_mono, i_stop0.
  - intros x Hx. by apply fail_mono, i_lingering0.
  - intros c' n i Hs Hi Hf. apply (i_all0 _ n); [done|done|]. by eapply fail_lookup.
Qed.

Lemma inv_set_stop c g : inv g -> is_Some (g_failed g !! c) -> inv (set_stop c g).
Proof. intros [] Hc. split; simpl; try done. intros c'. rewrite elem_of_union, elem_of_singleton. intros [->|?]; auto. Qed.

Lemma inv_reach g : rtc step empty_gate g -> inv g.
Proof.
  apply (rtc_ind_r (fun g => inv g)).
  - split; simpl; [lia|set_solver|apply NoDup_nil_2| |set_solver|set_solver|].
    + split; [apply NoDup_nil_2|]. set_solver.
    + intros c n i. by rewrite lookup_empty.
  - intros g1 g2 _ Hs Hi. destruct Hs; auto using inv_enter, inv_acquire, inv_reply, inv_reply_error, inv_leave, inv_thread_ends,
      inv_drop_waiting, inv_cancel, inv_set_stop.
Qed.

Lemma calls_frozen c g g' : c ∈ g_stop g -> step g g' ->
  c ∈ g_stop g' /\ filter (fun k => k.1 = c) (g_calls g') = filter (fun k => k.1 = c) (g_calls g).
Proof.
  intros Hc Hs. destruct Hs; simpl; try done; [|set_solver]. unfold acquire. case_bool_decide as Hk; simpl; [done|].
  split; [done|]. rewrite filter_app, filter_cons, decide_False; [by rewrite app_nil_r|]. intros E. by subst c.
Qed.

(** C17. Concurrent submission, with any number of copies in progress and any order of
    replies, failures, timeouts and cancellations.  At most [submit_concurrency]
    calls are awaited at any time in the whole process; a call that is out
    beyond these belongs to a copy that has failed: its coroutine gave up waiting
    and gave its place back while the thread was still calling.  So the calls out
    are bounded by [submit_concurrency] only while no copy has failed.  No key is
    submitted twice; once no key of a copy is waiting or in flight and none
    failed, every key of its plan has its task id; and after a copy has stopped,
    none of its keys is submitted any more. *)
Theorem submission_bounded g :
  rtc step empty_gate g ->
  (length (g_inflight g) <= submit_concurrency)%nat /\
  (forall k, k ∈ g_lingering g -> (k ∉ g_inflight g) /\ is_Some (g_failed g !! k.1)) /\
  (g_failed g = ∅ -> (length (g_inflight g ++ g_lingering g) <= submit_concurrency)%nat) /\
  NoDup (g_calls g) /\
  (forall c n, g_size g !! c = Some n -> g_failed g !! c = None ->
     (forall k, k ∈ g_waiting g ++ g_inflight g -> k.1 <> c) ->
     forall i, (i < n)%nat -> is_Some (g_slots g !! (c, i))) /\
  (forall c g', c ∈ g_stop g -> rtc step g g' ->
     filter (fun k => k.1 = c) (g_calls g') = filter (fun k => k.1 = c) (g_calls g)).
Proof.
  intros Hr. pose proof (inv_reach g Hr) as []. split_and!; [done|..|by apply NoDup_app in i_nodup0 as (_&_&?)| |].
  - intros k Hk. split; [|auto]. destruct i_inflight0 as [(_&Hd&_)%NoDup_app _]. intros Hi. by apply (Hd k).
  - intros Hf. destruct (g_lingering g) as [|k l]; [by rewrite app_nil_r|].
    destruct (i_lingering0 k ltac:(left)) as [x Hx]. rewrite Hf in Hx. done.
  - intros c n Hn Hf Hq i Hi. destruct (i_all0 _ _ _ Hn Hi Hf) as [Hx|[Hx|]]; [..|done];
      (exfalso; apply (Hq (c, i)); [apply elem_of_app; auto|done]).
  - intros c g' Hc Hg. cut (c ∈ g_stop g' /\ filter (fun k => k.1 = c) (g_calls g') = filter (fun k => k.1 = c) (g_calls g));
      [by intros []|].
    revert g' Hg. apply (rtc_ind_r (fun g' => c ∈ g_stop g' /\ _)); [done|].
    intros g1 g2 _ Hs [Hc1 <-]. by apply calls_frozen.
Qed.

End gate.

(** Two copies through a gate of two places: one key of the second fails. *)
Definition busy_gate : gate :=
  set_stop 1 (reply_error (1, 0)%nat KStoreClient (acquire (1, 0)%nat (reply (0, 1)%nat (TPair 1 2)
    (reply (0, 0)%nat (TPair 1 1) (acquire (0, 1)%nat (acquire (0, 0)%nat (enter 1 2 (enter 0 2 empty_gate)))))))).

Lemma busy_gate_reached : rtc (step 2) empty_gate busy_gate.
Proof.
  unfold busy_gate.
  eapply rtc_l; [by apply (s_enter 2 _ 0%nat 2)|]. eapply rtc_l; [by apply (s_enter 2 _ 1%nat 2)|].
  eapply rtc_l; [apply (s_acquire 2 _ (0, 0)%nat); [vm_compute; set_solver|simpl; lia]|].
  eapply rtc_l; [apply (s_acquire 2 _ (0, 1)%nat); [vm_compute; set_solver|vm_compute; lia]|].
  eapply rtc_l; [apply (s_reply 2 _ (0, 0)%nat (TPair 1 1)); vm_compute; set_solver|].
  eapply rtc_l; [apply (s_reply 2 _ (0, 1)%nat (TPair 1 2)); vm_compute; set_solver|].
  eapply rtc_l; [apply (s_acquire 2 _ (1, 0)%nat); [vm_compute; set_solver|vm_compute; lia]|].
  eapply rtc_l; [apply (s_reply_error 2 _ (1, 0)%nat KStoreClient); vm_compute; set_solver|].
  eapply rtc_l; [apply (s_stop 2 _ 1%nat); vm_compute; by eexists|]. apply rtc_refl.
Qed.

Lemma submission_bounded_witness : is_Some (g_slots busy_gate !! (0, 1)%nat).
Proof.
  destruct (submission_bounded 2 busy_gate busy_gate_reached) as (_&_&_&_&H&_).
  apply (H 0%nat 2%nat).
  - vm_compute. reflexivity.
  - vm_compute. reflexivity.
  - intros k Hk. change (k ∈ [(1, 1)%nat]) in Hk. apply list_elem_of_singleton in Hk as ->. discriminate.
  - lia.
Defined.

(** Defect: with one place, a call that times out and the next one are out together,
    although [submit_concurrency] is documented as the bound on the calls in flight in
    the whole process. *)
Definition overrun_gate : gate :=
  acquire (1, 0)%nat (leave (0, 0)%nat KQuery (acquire (0, 0)%nat (enter 1 1 (enter 0 1 empty_gate)))).

Theorem timed_out_calls_exceed_bound :
  rtc (step 1) empty_gate overrun_gate /\ g_inflight overrun_gate ++ g_lingering overrun_gate = [(1, 0); (0, 0)]%nat.
Proof.
  split; [|vm_compute; reflexivity]. unfold overrun_gate.
  eapply rtc_l; [by apply (s_enter 1 _ 0%nat 1)|]. eapply rtc_l; [by apply (s_enter 1 _ 1%nat 1)|].
  eapply rtc_l; [apply (s_acquire 1 _ (0, 0)%nat); [vm_compute; set_solver|simpl; lia]|].
  eapply rtc_l; [apply (s_leave 1 _ (0, 0)%nat KQuery); vm_compute; set_solver|].
  eapply rtc_l; [apply (s_acquire 1 _ (1, 0)%nat); [vm_compute; set_solver|vm_compute; lia]|]. apply rtc_refl.
Qed.
