(* ===== verification/Backend.v ===== *)
(** * kvcm: the mooncake backend

    [kvcm/backends/mooncake/backend.py].  The store, its admin port and the
    executor pools are outside this program: what a call to them returns or
    raises is an argument of the method that makes it (an RPC that times out
    raises [QueryError], as [_rpc] does).  Everything between two awaits runs
    alone on the event loop, and one coroutine drives a handle, so a method is a
    function of the backend's state; [query_task] also takes what other
    coroutines do while its first RPC is out.

    The process-wide submission gate is a transition system over all copies in
    progress. *)

From S2P Require Import Prelude PyDict PyStr KvcmTypes Ledger Keys Instances.
From Stdlib Require Import Ascii.
Local Open Scope Z_scope.

#[local] Arguments String.append !_ _ /.

(** ** Task ids as text *)

Definition encode_task_id (t : TaskId) : string :=
  match t with
  | TPair hi lo => py_str hi +:+ ":" +:+ py_str lo
  | TStr s => s
  end.

Definition decode_task_id (s : string) : TaskId :=
  match split_all ":" s with
  | [a; b] => match py_int 10 a, py_int 10 b with
              | Some hi, Some lo => TPair hi lo
              | _, _ => TStr s
              end
  | _ => TStr s
  end.

(** ** State *)

Record Entry : Type := mkEntry {
  en_prefix : Prefix;
  en_target : string;
  en_plan : list (string * string);
  en_handle_id : string
}.

Record Backend : Type := mkBackend {
  b_plans : dict TaskHandle Entry;
  b_watch : dict TaskHandle (list TaskId);
  b_ledger : option Ledger
}.

(** The parts fixed at construction: the key computer with the engine's code it
    calls, the instance directory, whether there is an admin client. *)
Record Config : Type := mkConfig {
  cf_keys_for_tokens : list Z -> result kexn (list string);
  cf_computer : KeyComputer;
  cf_directory : InstanceDirectory;
  cf_admin : bool;
  cf_submit_concurrency : Z;
  cf_lease_ttl : Z
}.

Inductive StoreTaskStatus : Type := S_PENDING | S_PROCESSING | S_SUCCESS | S_FAILED.
#[export] Instance StoreTaskStatus_eq_dec : EqDecision StoreTaskStatus.
Proof. solve_decision. Defined.

(** What [client.query_task] returns. *)
Record QueryResp : Type := mkResp {
  qr_status : StoreTaskStatus;
  qr_message : string
}.

(** One key of [GET /batch_query_keys]: the endpoints of its memory replicas. *)
Record AdminRow : Type := mkAdminRow {
  ar_ok : bool;
  ar_memory : list string
}.

(** A row of [batch_memory_replica_sizes]: endpoint (may be empty), size if it is an
    integer. *)
Record ReplicaRow : Type := mkReplicaRow {
  rr_endpoint : string;
  rr_size : option Z
}.

Module Mooncake.

Definition set_plans p (b : Backend) : Backend := mkBackend p (b_watch b) (b_ledger b).
Definition set_watch w (b : Backend) : Backend := mkBackend (b_plans b) w (b_ledger b).
Definition set_ledger l (b : Backend) : Backend := mkBackend (b_plans b) (b_watch b) l.

Definition pop_watch (h : TaskHandle) (b : Backend) : Backend := set_watch (ddel h (b_watch b)) b.
Definition pop_plan (h : TaskHandle) (b : Backend) : Backend := set_plans (ddel h (b_plans b)) b.

Section ops.
Context `{Digest} (cf : Config).

(** ** RPC limits *)

(** The limit of one RPC ([None]: wait without a limit), or the [QueryError] of a
    spent budget. *)
Definition rpc_limit (rpc_timeout_s : Z) (timeout_s : option Z) : result kexn (option Z) :=
  match timeout_s with
  | None => if rpc_timeout_s <=? 0 then Ok None else Ok (Some rpc_timeout_s)
  | Some t =>
      let limit := if rpc_timeout_s <=? 0 then t else Z.min rpc_timeout_s t in
      if limit <=? 0 then Raise KQuery else Ok (Some limit)
  end.

Definition bounded_rpc_limit (rpc_timeout_s : Z) (deadline : option Z) (now : Z) : result kexn (option Z) :=
  match deadline with
  | None => rpc_limit rpc_timeout_s None
  | Some d => if d - now <=? 0 then Raise KQuery else rpc_limit rpc_timeout_s (Some (d - now))
  end.

(** ** Room on the target segment *)

(** [dict.fromkeys] *)
Definition fromkeys (l : list string) : list string := dkeys (foldl (fun d k => dset k tt d) [] l).

(** The replica rows of one key: its endpoints and the first usable size. *)
Definition usable_size (r : ReplicaRow) : option Z :=
  match rr_size r with Some s => if s <? 0 then None else Some s | None => None end.
Definition key_layout (rows : list ReplicaRow) : list string * option Z :=
  (filter (fun e => e <> EmptyString) (rr_endpoint <$> rows),
   foldl (fun size r => match size with Some s => Some s | None => usable_size r end) None rows).

(** The size of the first key that has one. *)
Definition sample_size (layout : dict string (list ReplicaRow)) (keys : list string) : option Z :=
  foldl (fun s k => match s with Some z => Some z
                    | None => (key_layout (default [] (dget k layout))).2 end) None keys.

(** The loop over the plan: the keys already seen and the total. *)
Definition add_need (layout : dict string (list ReplicaRow)) (sample : option Z) (probe : string)
    (st : list string * Z) (ks : string * string) : result kexn (list string * Z) :=
  let '(seen, total) := st in
  let '(key, seg) := ks in
  if negb (bool_decide (seg = probe)) || bool_decide (key ∈ seen) then Ok st
  else
    let '(placed, known) := key_layout (default [] (dget key layout)) in
    if bool_decide (seg ∈ placed) then Ok (key :: seen, total)
    else match known with
         | Some s => Ok (key :: seen, total + s)
         | None => match sample with
                   | Some s => Ok (key :: seen, total + s)
                   | None => Raise KQuery
                   end
         end.
Fixpoint need_loop (layout : dict string (list ReplicaRow)) (sample : option Z) (probe : string)
    (plan : list (string * string)) (st : list string * Z) : result kexn Z :=
  match plan with
  | [] => Ok st.2
  | ks :: plan' =>
      match add_need layout sample probe st ks with
      | Ok st' => need_loop layout sample probe plan' st'
      | Raise e => Raise e
      end
  end.

(** [except StoreClientError: raise QueryError] *)
Definition as_query_error {A} (r : result kexn A) : result kexn A :=
  match r with Raise KStoreClient => Raise KQuery | _ => r end.

Definition new_bytes_by_segment (plan : list (string * string))
    (layout : result kexn (dict string (list ReplicaRow))) : result kexn (option (string * Z)) :=
  match as_query_error layout with
  | Raise e => Raise e
  | Ok lay =>
      match plan with
      | [] => Raise KOther
      | (_, probe) :: _ =>
          match need_loop lay (sample_size lay (fromkeys (plan.*1))) probe plan ([], 0) with
          | Raise e => Raise e
          | Ok total => Ok (if total <=? 0 then None else Some (probe, total))
          end
      end
  end.

Definition check_segment (nbytes : Z) (query : result kexn (Z * Z)) : result kexn unit :=
  if negb (cf_admin cf) then Raise KQuery
  else match query with
       | Raise KSegmentNotFound => Raise KAdmissionStop
       | Raise (KAdmin None) => Raise KAdmissionWait
       | Raise (KAdmin (Some st)) => if 500 <=? st then Raise KAdmissionWait else Raise KQuery
       | Raise e => Raise e
       | Ok (used, capacity) =>
           if capacity =? 0 then Raise KAdmissionStop
           else if capacity - used <? nbytes then Raise KAdmissionWait
           else Ok tt
       end.

(** The cache of one round of waiting: not in a round, or the last need with the
    segment and key set it was computed for. *)
Abbreviation need_key := (string * gset string)%type.
Inductive Admission : Type :=
| NoRound
| Round (cached : option (need_key * option (string * Z))).

Definition open_segment_budget : Admission := Round None.
Definition close_segment_budget (before : Admission) : Admission := before.

Definition plan_key (plan : list (string * string)) : need_key :=
  (default EmptyString ((head plan.*2)), list_to_set plan.*1).

Definition admit_new_bytes (slot : Admission) (plan : list (string * string))
    (layout : result kexn (dict string (list ReplicaRow))) (query : result kexn (Z * Z)) :
    Admission * result kexn unit :=
  match plan with
  | [] => (slot, Ok tt)
  | _ =>
      let key := plan_key plan in
      let '(slot', need) :=
        match slot with
        | Round (Some (k, n)) => if bool_decide (k = key) then (slot, Ok n)
                                 else match new_bytes_by_segment plan layout with
                                      | Ok n => (Round (Some (key, n)), Ok n)
                                      | Raise e => (slot, Raise e)
                                      end
        | Round None => match new_bytes_by_segment plan layout with
                        | Ok n => (Round (Some (key, n)), Ok n)
                        | Raise e => (slot, Raise e)
                        end
        | NoRound => (slot, new_bytes_by_segment plan layout)
        end in
      match need with
      | Raise e => (slot', Raise e)
      | Ok None => (slot', Ok tt)
      | Ok (Some (_, nbytes)) => (slot', check_segment nbytes query)
      end
  end.

(** ** Ledger writes *)

Definition in_ledger {A} (c : M Ledger kexn A) : M Backend kexn A := fun b =>
  match b_ledger b with
  | None => (b, Raise KRuntimeError)
  | Some l => let '(l', r) := c l in (set_ledger (Some l') b, r)
  end.

Definition record (now : Z) (h : TaskHandle) (status : string) (tids : option (list TaskId)) : M Backend kexn unit :=
  fun b =>
    match b_ledger b with
    | None => (b, Ok tt)
    | Some _ =>
        match dget h (b_plans b) with
        | None => (b, Ok tt)
        | Some e =>
            in_ledger (Db.upsert_tasks now (encode_task_id <$> default (task_ids h) tids) (en_handle_id e)
                         (op_value (h_op h)) (en_prefix e) (en_target e) status) b
        end
    end.

Definition finish (now : Z) (h : TaskHandle) (status : string) : M Backend kexn unit :=
  _ ← record now h status None;
  modify (fun b => pop_plan h (pop_watch h b)).

(** A shielded ledger write: it runs to its end; if the waiting coroutine is
    cancelled meanwhile, the cancellation comes out instead of the outcome. *)
Definition shield (cancelled : bool) (c : M Backend kexn unit) : M Backend kexn unit := fun b =>
  let '(b', r) := c b in (b', if cancelled then Raise KCancelled else r).

(** ** copy and move *)

(** How the concurrent submission ended: a slot per key of the plan, and the
    exception that stopped it. *)
Record Submission : Type := mkSubmission {
  sb_slots : list (option TaskId);
  sb_fail : option kexn;
  sb_uuid : string;
  sb_cancel_record : bool
}.

Definition copy_plan (p : Prefix) (target : string) : result kexn (list (string * string)) :=
  match cf_keys_for_tokens cf (token_ids p) with
  | Raise e => Raise e
  | Ok [] => Ok []
  | Ok keys =>
      match locate (cf_directory cf) target with
      | Raise e => Raise e
      | Ok segs => build_plan (cf_computer cf) keys segs
      end
  end.

(** The plan of [copy]: no key is an input error. *)
Definition required_plan (p : Prefix) (target : string) : result kexn (list (string * string)) :=
  match cf_keys_for_tokens cf (token_ids p) with
  | Raise e => Raise e
  | Ok [] => Raise KIntentInput
  | Ok keys =>
      match locate (cf_directory cf) target with
      | Raise e => Raise e
      | Ok segs => build_plan (cf_computer cf) keys segs
      end
  end.

Definition is_cancel (e : kexn) : bool := bool_decide (e = KCancelled).

(** [plan[i] for i, t in enumerate(slots) if t is not None] *)
Definition partial_plan (plan : list (string * string)) (slots : list (option TaskId)) : list (string * string) :=
  omap (fun ps : (string * string) * option TaskId => match ps.2 with Some _ => Some ps.1 | None => None end)
    (zip plan slots).

(** The [except BaseException] branch.  [returns_partial]: [copy] hands the partial
    handle back when it was cancelled; [move] re-raises. *)
Definition submit_failed (returns_partial : bool) (op : OpKind) (now : Z) (p : Prefix) (target : string)
    (plan : list (string * string)) (sb : Submission) (e : kexn) : M Backend kexn TaskHandle := fun b =>
  let ids := omap id (sb_slots sb) in
  match ids with
  | [] => (b, Raise (if is_cancel e then KCancelled else KSubmit None))
  | _ =>
      let h := mkHandle op ids in
      let b1 := set_plans (dset h (mkEntry p target (partial_plan plan (sb_slots sb)) (sb_uuid sb)) (b_plans b)) b in
      let '(b2, r) := shield (sb_cancel_record sb) (record now h "running" None) b1 in
      match r with
      | Raise KCancelled => (b2, Raise KCancelled)
      | _ => (b2, if is_cancel e then (if returns_partial then Ok h else Raise KCancelled)
                  else Raise (KSubmit (Some h)))
      end
  end.

(** From the slots on. *)
Definition submit_done (returns_partial : bool) (op : OpKind) (now : Z) (p : Prefix) (target : string)
    (plan : list (string * string)) (sb : Submission) : M Backend kexn TaskHandle :=
  match sb_fail sb with
  | Some e => submit_failed returns_partial op now p target plan sb e
  | None =>
      let h := mkHandle op (omap id (sb_slots sb)) in
      _ ← modify (fun b => set_plans (dset h (mkEntry p target plan (sb_uuid sb)) (b_plans b)) b);
      _ ← shield (sb_cancel_record sb) (record now h "running" None);
      mret h
  end.

Definition copy (now : Z) (p : Prefix) (target : string)
    (slot : Admission) (layout : result kexn (dict string (list ReplicaRow))) (query : result kexn (Z * Z))
    (submit : list (string * string) -> Submission) : M Backend kexn TaskHandle :=
  plan ← lift (required_plan p target);
  _ ← lift (admit_new_bytes slot plan layout query).2;
  submit_done true COPY now p target plan (submit plan).

(** Each key with its source and target segments. *)
Definition moves (plan source_plan : list (string * string)) : list (string * string * string) :=
  (fun pq : (string * string) * (string * string) => (pq.1.1, pq.2.2, pq.1.2)) <$> zip plan source_plan.

Definition move (now : Z) (p : Prefix) (target source : string)
    (slot : Admission) (layout : result kexn (dict string (list ReplicaRow))) (query : result kexn (Z * Z))
    (submit : list (string * string * string) -> Submission) : M Backend kexn TaskHandle :=
  plan ← lift (required_plan p target);
  source_plan ← lift (required_plan p source);
  _ ← lift (admit_new_bytes slot plan layout query).2;
  submit_done false MOVE now p target plan (submit (moves plan source_plan)).

Definition check_segment_room (p : Prefix) (target : string) (slot : Admission)
    (layout : result kexn (dict string (list ReplicaRow))) (query : result kexn (Z * Z)) :
    Admission * result kexn unit :=
  match copy_plan p target with
  | Raise e => (slot, Raise e)
  | Ok plan => admit_new_bytes slot plan layout query
  end.

(** ** Replica verification *)

Definition require_admin_rows (keys : list string) (rows : dict string AdminRow) : result kexn unit :=
  if forallb (fun k => din k rows) keys then
    if forallb (fun k => match dget k rows with Some r => ar_ok r | None => true end) keys
    then Ok tt else Raise KQuery
  else Raise KQuery.

(** The text of one missing replica; what callers read is whether the list is
    empty. *)
Definition missing_line (key seg : string) : string := key +:+ " missing on " +:+ seg.

Definition verify_missing (plan : list (string * string)) (rows : result kexn (dict string AdminRow)) :
    result kexn (list string) :=
  if negb (cf_admin cf) then Raise KQuery
  else match rows with
       | Raise KAdminMain | Raise KStoreClient => Raise KQuery
       | Raise e => Raise e
       | Ok d =>
           match require_admin_rows (plan.*1) d with
           | Raise e => Raise e
           | Ok _ =>
               Ok (omap (fun ks : string * string =>
                     match dget ks.1 d with
                     | Some r => if bool_decide (ks.2 ∈ ar_memory r) then None else Some (missing_line ks.1 ks.2)
                     | None => None
                     end) plan)
           end
       end.

(** [t for t in task_ids if t not in conflicted] *)
Definition not_conflicted (h : TaskHandle) (conflicted : list TaskId) : list TaskId :=
  filter (fun t => t ∉ conflicted) (task_ids h).

Definition verify_watch (now : Z) (h : TaskHandle) (plan : list (string * string))
    (rows : result kexn (dict string AdminRow)) : M Backend kexn TaskStatus := fun b =>
  match verify_missing plan rows with
  | Raise e => (b, Raise e)
  | Ok (_ :: _) => (b, Ok RUNNING)
  | Ok [] =>
      let conflicted := default [] (dget h (b_watch b)) in
      let rest := not_conflicted h conflicted in
      let b1 := pop_watch h b in
      match dget h (b_plans b1) with
      | None => (b1, Ok TS_READY)
      | Some _ =>
          (_ ← (match rest with [] => mret tt | _ => record now h "ready" (Some rest) end);
           _ ← modify (pop_plan h);
           mret TS_READY) b1
      end
  end.

(** ** query_task *)

Fixpoint contains (sub s : string) : bool :=
  match strip_literal sub s with
  | Some _ => true
  | None => match s with String _ s' => contains sub s' | EmptyString => false end
  end.

Definition is_failed (r : QueryResp) : bool := bool_decide (qr_status r = S_FAILED).
Definition is_conflict (r : QueryResp) : bool :=
  is_failed r && contains "OBJECT_HAS_REPLICATION_TASK" (qr_message r).

Definition conflicted_ids (h : TaskHandle) (resps : list QueryResp) : list TaskId :=
  (filter (fun tr => is_conflict tr.2 = true) (zip (task_ids h) resps)).*1.

Definition query_task (now : Z) (h : TaskHandle) (meanwhile : Backend -> Backend)
    (resps : result kexn (list QueryResp)) (rows : result kexn (dict string AdminRow)) :
    M Backend kexn TaskStatus := fun b0 =>
  match task_ids h with
  | [] => (b0, Raise KValueError)
  | _ =>
      match dget h (b_plans b0) with
      | None => (b0, Raise KKeyError)
      | Some e =>
          let plan := en_plan e in
          if din h (b_watch b0) then verify_watch now h plan rows b0
          else
            let b := meanwhile b0 in
            match resps with
            | Raise KStoreClient => (b, Raise KQuery)
            | Raise x => (b, Raise x)
            | Ok rs =>
                let failed := filter (fun r => is_failed r = true) rs in
                match failed with
                | _ :: _ =>
                    let conflicted := conflicted_ids h rs in
                    if (zlen conflicted =? zlen failed) then
                      match dget h (b_plans b) with
                      | None => (b, Raise KKeyError)
                      | Some _ =>
                          (_ ← modify (fun b => set_watch (dset h conflicted (b_watch b)) b);
                           _ ← record now h "failed" (Some conflicted);
                           verify_watch now h plan rows) b
                      end
                    else (_ ← finish now h "failed"; mret FAILED) b
                | [] =>
                    if negb (forallb (fun r => bool_decide (qr_status r = S_SUCCESS)) rs) then (b, Ok RUNNING)
                    else match verify_missing plan rows with
                         | Raise x => (b, Raise x)
                         | Ok [] => (_ ← finish now h "ready"; mret TS_READY) b
                         | Ok missing => (_ ← finish now h "failed"; raise (KVerify missing)) b
                         end
                end
            end
      end
  end.

(** ** abandon, exists and the readers *)

Definition abandon (now : Z) (cancelled : bool) (h : TaskHandle) : M Backend kexn unit := fun b =>
  match dget h (b_plans b) with
  | None => (b, Raise KKeyError)
  | Some _ =>
      let rest := not_conflicted h (default [] (dget h (b_watch b))) in
      (_ ← modify (pop_watch h);
       _ ← (match rest with [] => mret tt | _ => shield cancelled (record now h "abandoned" (Some rest)) end);
       modify (pop_plan h)) b
  end.

(** [is_exist]: a truth value per key. *)
Definition exists_ (p : Prefix) (answer : list string -> result kexn (list bool)) : result kexn bool :=
  match cf_keys_for_tokens cf (token_ids p) with
  | Raise e => Raise e
  | Ok [] => Ok false
  | Ok keys =>
      match as_query_error (answer keys) with
      | Raise e => Raise e
      | Ok bs => if zlen bs =? zlen keys then Ok (forallb id bs) else Raise KQuery
      end
  end.

Definition renew_once (p : Prefix) (answer : list string -> result kexn (list bool)) : result kexn bool :=
  exists_ p answer.

Definition prefix_of (h : TaskHandle) (b : Backend) : option Prefix := en_prefix <$> dget h (b_plans b).
Definition target_of (h : TaskHandle) (b : Backend) : option string := en_target <$> dget h (b_plans b).

(** ** Keepalive registration and removal *)

Definition register_keepalive (now : Z) (p : Prefix) : M Backend kexn unit :=
  in_ledger (Db.register_keepalive now p).
Definition unregister_keepalive (p : Prefix) : M Backend kexn unit :=
  in_ledger (Db.unregister_keepalive p).

Definition retain : M Backend kexn TaskHandle := raise KNotImplemented.

(** What [remove] does to the outside, in order. *)
Inductive remove_event : Type :=
| RSleep (ttl : Z)
| RBatchRemove (keys : list string) (force : bool).

Definition remove (p : Prefix) (force : bool) (slept : result kexn unit) (removed : result kexn unit) :
    M Backend kexn (list remove_event) := fun b =>
  match cf_keys_for_tokens cf (token_ids p) with
  | Raise e => (b, Raise e)
  | Ok [] => (b, Raise KIntentInput)
  | Ok keys =>
      (_ ← unregister_keepalive p;
       ev ← (if force then mret [] else (_ ← lift slept; mret [RSleep (cf_lease_ttl cf)]));
       _ ← lift removed;
       mret (ev ++ [RBatchRemove keys force])) b
  end.

(** ** Restart *)

(** [groups.setdefault(rec.handle_id, []).append(rec)] *)
Definition group_rows (rows : list TaskRecord) : dict string (list TaskRecord) :=
  foldl (fun g r => dset (rec_handle_id r) (default [] (dget (rec_handle_id r) g) ++ [r]) g) [] rows.

Definition op_of_value (s : string) : option OpKind :=
  if bool_decide (s = "copy") then Some COPY else if bool_decide (s = "move") then Some MOVE
  else if bool_decide (s = "retain") then Some RETAIN else None.

(** One group of rows: the restored handle, or why it is skipped. *)
Definition rebuild_group (hid : string) (rows : list TaskRecord) : M Backend kexn (option TaskHandle) := fun b =>
  match rows, b_ledger b with
  | r0 :: _, Some l =>
      if bool_decide (hid = EmptyString) then (b, Ok None)
      else match op_of_value (rec_op r0) with
           | Some RETAIN | None => (b, Ok None)
           | Some op =>
               match rec_token_ids r0 with
               | [] => (b, Ok None)
               | toks =>
                   let p := mkPrefix (rec_model_id r0) toks in
                   let plan := match cf_keys_for_tokens cf toks with
                               | Raise _ => []
                               | Ok keys =>
                                   match locate (cf_directory cf) (rec_target r0) with
                                   | Raise _ => []
                                   | Ok segs => match build_plan (cf_computer cf) keys segs with
                                                | Ok pl => pl | Raise _ => [] end
                                   end
                               end in
                   match plan with
                   | [] => (b, Ok None)
                   | _ =>
                       match (Db.list_tasks_by_handle hid l).2 with
                       | Raise e => (b, Raise e)
                       | Ok all_rows =>
                           if negb (zlen all_rows =? zlen plan) then (b, Ok None)
                           else
                             let h := mkHandle op (decode_task_id ∘ rec_task_id <$> rows) in
                             let b1 := set_plans (dset h (mkEntry p (rec_target r0) plan hid) (b_plans b)) b in
                             let conflicted := decode_task_id ∘ rec_task_id <$>
                                                 filter (fun r => rec_status r = "failed") all_rows in
                             (match conflicted with
                              | [] => b1
                              | _ => set_watch (dset h conflicted (b_watch b1)) b1
                              end, Ok (Some h))
                       end
                   end
               end
           end
  | _, _ => (b, Ok None)
  end.

Fixpoint rebuild_groups (gs : list (string * list TaskRecord)) : M Backend kexn (list TaskHandle) :=
  match gs with
  | [] => mret []
  | (hid, rows) :: gs' =>
      o ← rebuild_group hid rows;
      hs ← rebuild_groups gs';
      mret (match o with Some h => h :: hs | None => hs end)
  end.

Definition rebuild : M Backend kexn (list TaskHandle) := fun b =>
  match b_ledger b with
  | None => (b, Ok [])
  | Some l =>
      match (Db.list_running_tasks l).2 with
      | Raise e => (b, Raise e)
      | Ok running => rebuild_groups (group_rows running) b
      end
  end.

End ops.

(** ** Task ids survive the ledger *)

Lemma colon_lacks z : lacks ":" (py_str z) = true.
Proof. by apply lacks_py_str. Qed.

Lemma decode_encode_pair hi lo : decode_task_id (encode_task_id (TPair hi lo)) = TPair hi lo.
Proof.
  unfold decode_task_id, encode_task_id.
  change (":" +:+ py_str lo) with (String ":" (py_str lo)).
  rewrite split_all_app, split_all_one by apply colon_lacks. by rewrite !py_int_str.
Qed.

(** Task ids written to the ledger are read back: every pair of integers, and
    every other id whose text is not itself a pair, decodes to itself. *)
Theorem task_id_roundtrip t :
  match t with TPair _ _ => True | TStr s => forall hi lo, decode_task_id s <> TPair hi lo end ->
  decode_task_id (encode_task_id t) = t.
Proof.
  destruct t as [hi lo|s]; intros Ht; [apply decode_encode_pair|]. simpl. revert Ht. unfold decode_task_id.
  destruct (split_all ":" s) as [|a [|b [|c l]]]; try done.
  destruct (py_int 10 a), (py_int 10 b); try done. intros Ht. by destruct (Ht z z0).
Qed.

Lemma task_id_roundtrip_witness :
  decode_task_id (encode_task_id (TPair 18446744073709551615 7)) = TPair 18446744073709551615 7.
Proof. apply (task_id_roundtrip (TPair 18446744073709551615 7)). exact I. Defined.

(** ** What is tracked *)

Record b_ok (b : Backend) : Prop := {
  bo_plans : dict_wf (b_plans b);
  bo_watch : dict_wf (b_watch b);
  bo_sub : forall h, h ∈ dkeys (b_watch b) -> h ∈ dkeys (b_plans b)
}.

Definition tracked (h : TaskHandle) (b : Backend) : Prop := is_Some (dget h (b_plans b)).

Section proofs.
Context `{Digest} (cf : Config).

Lemma ok_pop_watch h b : b_ok b -> b_ok (pop_watch h b).
Proof.
  intros []. split; simpl; [done|by apply dict_wf_ddel|]. intros h'. rewrite elem_of_dkeys_ddel by done.
  intros [? _]. auto.
Qed.

Lemma ok_pop_both h b : b_ok b -> b_ok (pop_plan h (pop_watch h b)).
Proof.
  intros []. split; simpl; [by apply dict_wf_ddel|by apply dict_wf_ddel|]. intros h'.
  rewrite !elem_of_dkeys_ddel by done. intros [? ?]. auto.
Qed.

Lemma ok_pop_plan h b : b_ok b -> h ∉ dkeys (b_watch b) -> b_ok (pop_plan h b).
Proof.
  intros [] Hn. split; simpl; [by apply dict_wf_ddel|done|]. intros h' Hh. rewrite elem_of_dkeys_ddel by done.
  split; [auto|]. by intros ->.
Qed.

Lemma ok_track h e b : b_ok b -> b_ok (set_plans (dset h e (b_plans b)) b).
Proof.
  intros []. split; simpl; [by apply dict_wf_dset|done|]. intros h' Hh. rewrite elem_of_dkeys_dset. auto.
Qed.

Lemma ok_watch h c b : b_ok b -> tracked h b -> b_ok (set_watch (dset h c (b_watch b)) b).
Proof.
  intros [] Ht. split; simpl; [done|by apply dict_wf_dset|]. intros h'. rewrite elem_of_dkeys_dset.
  intros [->|?]; [by apply dget_is_Some|auto].
Qed.

Lemma ok_ledger l b : b_ok b -> b_ok (set_ledger l b).
Proof. by intros []. Qed.

(** The two dicts are not touched by ledger writes. *)
Lemma record_dicts now h st tids b b' r : record now h st tids b = (b', r) ->
  b_plans b' = b_plans b /\ b_watch b' = b_watch b.
Proof.
  unfold record, in_ledger. intros E. destruct (b_ledger b) as [l|]; [|by simplify_eq].
  destruct (dget h (b_plans b)); [|by simplify_eq].
  destruct (Db.upsert_tasks _ _ _ _ _ _ _ l) as [l' o]. by simplify_eq.
Qed.

Lemma record_ok now h st tids b b' r : record now h st tids b = (b', r) -> b_ok b -> b_ok b'.
Proof. intros E []. destruct (record_dicts _ _ _ _ _ _ _ E) as [E1 E2]. by split; rewrite ?E1, ?E2. Qed.

Lemma finish_ok now h st b b' r : finish now h st b = (b', r) -> b_ok b -> b_ok b'.
Proof.
  unfold finish, mbind, M_bind, modify. intros E Hb. destruct (record now h st None b) as [b1 [[]|x]] eqn:Er;
    assert (Hb1 := record_ok _ _ _ _ _ _ _ Er Hb); simplify_eq/=; [|done]. by apply ok_pop_both.
Qed.

Lemma verify_watch_ok now h plan rows b b' r :
  verify_watch cf now h plan rows b = (b', r) -> b_ok b -> b_ok b'.
Proof.
  unfold verify_watch. intros E Hb. destruct (verify_missing cf plan rows) as [[|m ms]|x]; [|by simplify_eq..].
  pose proof (ok_pop_watch h b Hb) as Hb1.
  destruct (dget h (b_plans (pop_watch h b))); [|by simplify_eq].
  assert (Hn : h ∉ dkeys (b_watch (pop_watch h b))).
  { simpl. rewrite elem_of_dkeys_ddel by apply Hb. tauto. }
  destruct (not_conflicted h (default [] (dget h (b_watch b)))) as [|t ts].
  - injection E as <- _. by apply ok_pop_plan.
  - unfold mbind, M_bind, modify in E.
    destruct (record now h "ready" (Some (t :: ts)) (pop_watch h b)) as [b1 [[]|x]] eqn:Er;
      assert (Hb2 := record_ok _ _ _ _ _ _ _ Er Hb1); injection E as <- _; [|done].
    apply ok_pop_plan; [done|]. destruct (record_dicts _ _ _ _ _ _ _ Er) as [_ ->]. done.
Qed.

Lemma query_task_ok now h mid resps rows b b' r :
  query_task cf now h mid resps rows b = (b', r) -> b_ok b -> b_ok (mid b) -> b_ok b'.
Proof.
  unfold query_task. intros E Hb Hm. destruct (task_ids h); [by simplify_eq|].
  destruct (dget h (b_plans b)) as [e|] eqn:Ee; [|by simplify_eq].
  destruct (din h (b_watch b)); [by eapply verify_watch_ok|].
  destruct resps as [rs|x]; [|by destruct x; simplify_eq].
  destruct (filter (fun r => is_failed r = true) rs) as [|f fs] eqn:Ef.
  - destruct (negb _); [by simplify_eq|]. destruct (verify_missing cf (en_plan e) rows) as [[|m ms]|x]; [..|by simplify_eq];
      unfold mbind, M_bind in E;
      (destruct (finish now h _ (mid b)) as [b1 [[]|x]] eqn:Er; assert (Hb1 := finish_ok _ _ _ _ _ _ Er Hm); by injection E as <- _).
  - case_match.
    + destruct (dget h (b_plans (mid b))) as [e'|] eqn:Et; [|by simplify_eq].
      unfold mbind, M_bind, modify in E.
      assert (Hb1 : b_ok (set_watch (dset h (conflicted_ids h rs) (b_watch (mid b))) (mid b)))
        by (apply ok_watch; [done|by eexists]).
      destruct (record now h "failed" (Some (conflicted_ids h rs)) _) as [b1 [[]|x]] eqn:Er;
        assert (Hb2 := record_ok _ _ _ _ _ _ _ Er Hb1); [by eapply verify_watch_ok|by simplify_eq].
    + unfold mbind, M_bind in E. destruct (finish now h "failed" (mid b)) as [b1 [[]|x]] eqn:Er;
        assert (Hb1 := finish_ok _ _ _ _ _ _ Er Hm); by injection E as <- _.
Qed.

Lemma abandon_ok now c h b b' r : abandon now c h b = (b', r) -> b_ok b -> b_ok b'.
Proof.
  unfold abandon. intros E Hb. destruct (dget h (b_plans b)); [|by simplify_eq].
  pose proof (ok_pop_watch h b Hb) as Hb1.
  assert (Hn : h ∉ dkeys (b_watch (pop_watch h b))).
  { simpl. rewrite elem_of_dkeys_ddel by apply Hb. tauto. }
  unfold mbind, M_bind, modify, shield in E.
  destruct (not_conflicted h (default [] (dget h (b_watch b)))) as [|t ts].
  - injection E as <- _. by apply ok_pop_plan.
  - destruct (record now h "abandoned" (Some (t :: ts)) (pop_watch h b)) as [b1 r1] eqn:Er.
    assert (Hb2 := record_ok _ _ _ _ _ _ _ Er Hb1). destruct (record_dicts _ _ _ _ _ _ _ Er) as [_ Ew].
    destruct c; simplify_eq; [done|]. destruct r1; simplify_eq; [|done]. apply ok_pop_plan; [done|]. by rewrite Ew.
Qed.

Lemma submit_done_ok rp op now p tg plan sb b b' r :
  submit_done rp op now p tg plan sb b = (b', r) -> b_ok b -> b_ok b'.
Proof.
  unfold submit_done, submit_failed, mbind, M_bind, modify, shield. intros E Hb.
  destruct (sb_fail sb) as [x|].
  - destruct (omap id (sb_slots sb)) as [|t ts] eqn:Es; [by simplify_eq|].
    destruct (record now _ "running" None _) as [b1 r1] eqn:Er.
    assert (Hb1 : b_ok b1) by (eapply record_ok; [exact Er|by apply ok_track]).
    destruct (sb_cancel_record sb); [by simplify_eq|]. destruct r1 as [|[]]; by simplify_eq.
  - destruct (record now _ "running" None _) as [b1 r1] eqn:Er.
    assert (Hb1 : b_ok b1) by (eapply record_ok; [exact Er|by apply ok_track]).
    destruct (sb_cancel_record sb); [by simplify_eq|]. destruct r1 as [[]|]; by injection E as <- _.
Qed.

Lemma rebuild_group_ok hid rows b b' r : rebuild_group cf hid rows b = (b', r) -> b_ok b -> b_ok b'.
Proof.
  unfold rebuild_group. intros E Hb. repeat (case_match; try by simplify_eq);
    simplify_eq; try done; try by apply ok_track.
  all: apply ok_watch; [by apply ok_track|]; unfold tracked; simpl; rewrite dget_dset_eq; by eexists.
Qed.

Lemma rebuild_groups_ok gs : forall b b' r, rebuild_groups cf gs b = (b', r) -> b_ok b -> b_ok b'.
Proof.
  induction gs as [|[hid rows] gs IH]; intros b b' r E Hb; [by injection E as <- _|].
  simpl in E. unfold mbind, M_bind in E. destruct (rebuild_group cf hid rows b) as [b1 [o|x]] eqn:E1;
    assert (Hb1 := rebuild_group_ok _ _ _ _ _ E1 Hb); [|by simplify_eq].
  destruct (rebuild_groups cf gs b1) as [b2 [hs|x]] eqn:E2; assert (Hb2 := IH _ _ _ E2 Hb1); by injection E as <- _.
Qed.

Lemma rebuild_ok b b' r : rebuild cf b = (b', r) -> b_ok b -> b_ok b'.
Proof.
  unfold rebuild. intros E Hb. destruct (b_ledger b) as [l|]; [|by simplify_eq].
  destruct (Db.list_running_tasks l).2; [by eapply rebuild_groups_ok|by simplify_eq].
Qed.

(** The states of a backend: any calls, with any answers of the store, in any
    order; while a query waits, the state may have become any other one. *)
Inductive reach : Backend -> Prop :=
| reach_new l : reach (mkBackend [] [] l)
| reach_copy b now p tg slot lay q sub : reach b -> reach (copy cf now p tg slot lay q sub b).1
| reach_move b now p tg src slot lay q sub : reach b -> reach (move cf now p tg src slot lay q sub b).1
| reach_query b b2 now h resps rows :
    reach b -> reach b2 -> reach (query_task cf now h (fun _ => b2) resps rows b).1
| reach_abandon b now c h : reach b -> reach (abandon now c h b).1
| reach_rebuild b : reach b -> reach (rebuild cf b).1
| reach_ledger b l : reach b -> reach (set_ledger l b).

Lemma reach_ok b : reach b -> b_ok b.
Proof.
  induction 1 as [l|b now p tg slot lay q sub _ IH|b now p tg src slot lay q sub _ IH|b b2 now h resps rows _ IH _ IH2|
    b now c h _ IH|b _ IH|b l _ IH].
  - split; simpl; [apply NoDup_nil_2..|]. by intros h ?%elem_of_nil.
  - unfold copy, mbind, M_bind, lift. repeat (case_match; simplify_eq; try done).
    destruct (submit_done _ _ _ _ _ _ _ _) as [b' r] eqn:E. by eapply submit_done_ok.
  - unfold move, mbind, M_bind, lift. repeat (case_match; simplify_eq; try done).
    destruct (submit_done _ _ _ _ _ _ _ _) as [b' r] eqn:E. by eapply submit_done_ok.
  - destruct (query_task _ _ _ _ _ _ _) as [b' r] eqn:E. by eapply query_task_ok.
  - destruct (abandon _ _ _ _) as [b' r] eqn:E. by eapply abandon_ok.
  - destruct (rebuild _ _) as [b' r] eqn:E. by eapply rebuild_ok.
  - by apply ok_ledger.
Qed.

(** Outcomes that end a task: READY, FAILED, or a failed verification. *)
Definition terminal {A} (o : result kexn A) (st : A -> bool) : bool :=
  match o with Ok a => st a | Raise (KVerify _) => true | Raise _ => false end.
Definition final_status (s : TaskStatus) : bool := bool_decide (s = TS_READY) || bool_decide (s = FAILED).

(** A call to the store does not raise this program's own [VerifyError]. *)
Definition rpc_outcome {A} (r : result kexn A) : Prop := forall m, r <> Raise (KVerify m).

Lemma record_outcome now h st tids b b' r : record now h st tids b = (b', r) -> rpc_outcome r.
Proof.
  unfold record, in_ledger, Db.upsert_tasks, Db.run, Db.upsert_tasks_sync, raise, modify.
  intros E m ->. by repeat case_match; simplify_eq.
Qed.

Lemma untracked_pop h b : b_ok b -> ~ tracked h (pop_plan h b).
Proof. intros Hb [e He]. simpl in He. by rewrite dget_ddel_eq in He by apply Hb. Qed.

Lemma finish_untracked now h st b b' : b_ok b -> finish now h st b = (b', Ok tt) -> ~ tracked h b'.
Proof.
  intros Hb E. unfold finish, mbind, M_bind, modify in E.
  destruct (record now h st None b) as [b3 [[]|x]] eqn:Er; simplify_eq.
  apply untracked_pop, ok_pop_watch. by eapply record_ok.
Qed.

Lemma finish_outcome now h st b b' r : finish now h st b = (b', r) -> rpc_outcome r.
Proof.
  unfold finish, mbind, M_bind, modify. intros E. destruct (record now h st None b) as [b3 [[]|x]] eqn:Er;
    simplify_eq; [by intros m|]. intros m [= ->]. by eapply record_outcome.
Qed.

(** [finish] followed by a fixed outcome. *)
Lemma finish_then now h st b b' {A} (k : M Backend kexn A) o (f : A -> bool) : b_ok b ->
  (forall s, (k s).1 = s) -> (finish now h st ≫= fun _ => k) b = (b', o) -> terminal o f = true -> ~ tracked h b'.
Proof.
  intros Hb Hk E Ht. unfold mbind, M_bind in E. destruct (finish now h st b) as [b1 [[]|x]] eqn:Ef.
  - specialize (Hk b1). rewrite E in Hk. simpl in Hk. subst. by eapply finish_untracked.
  - simplify_eq. assert (Ho := finish_outcome _ _ _ _ _ _ Ef). destruct x; try done. by destruct (Ho missing).
Qed.

Lemma verify_missing_outcome plan rows : rpc_outcome rows -> rpc_outcome (verify_missing cf plan rows).
Proof.
  intros Hr m. unfold verify_missing, require_admin_rows. destruct (negb (cf_admin cf)); [done|].
  destruct rows as [d|x].
  - destruct (forallb _ _); [|done]. by destruct (forallb (fun k => match dget k d with Some r => ar_ok r | None => true end) _).
  - destruct x; try done. by specialize (Hr missing).
Qed.

Lemma verify_watch_untracked now h plan rows b b' o : b_ok b -> rpc_outcome rows ->
  verify_watch cf now h plan rows b = (b', o) -> terminal o final_status = true -> ~ tracked h b'.
Proof.
  intros Hb Hr E Ht. unfold verify_watch in E. assert (Hv := verify_missing_outcome plan rows Hr).
  destruct (verify_missing cf plan rows) as [[|m ms]|x]; [|by simplify_eq|].
  2: { simplify_eq. destruct x; try done. by destruct (Hv missing). }
  destruct (dget h (b_plans (pop_watch h b))) eqn:Ep.
  - destruct (not_conflicted h _) as [|t ts]; [injection E as <- _; by apply untracked_pop, ok_pop_watch|].
    unfold mbind, M_bind, modify in E.
    destruct (record now h "ready" (Some (t :: ts)) (pop_watch h b)) as [b3 [[]|x]] eqn:Er.
    + injection E as <- _. apply untracked_pop. eapply record_ok; [exact Er|by apply ok_pop_watch].
    + simplify_eq. assert (Ho := record_outcome _ _ _ _ _ _ _ Er). destruct x; try done. by destruct (Ho missing).
  - injection E as <- _. unfold tracked. rewrite Ep. by apply is_Some_None.
Qed.

Lemma query_untracked now h b b2 resps rows b' o : b_ok b -> b_ok b2 -> rpc_outcome resps -> rpc_outcome rows ->
  query_task cf now h (fun _ => b2) resps rows b = (b', o) -> terminal o final_status = true -> ~ tracked h b'.
Proof.
  intros Hb Hb2 Hrs Hrw E Ht. unfold query_task in E. destruct (task_ids h); [by simplify_eq|].
  destruct (dget h (b_plans b)) as [e|]; [|by simplify_eq].
  destruct (din h (b_watch b)); [by apply (verify_watch_untracked now h (en_plan e) rows b b' o)|].
  destruct resps as [rs|x]; [|destruct x; simplify_eq; try done; by destruct (Hrs missing)].
  destruct (filter (fun r => is_failed r = true) rs) as [|f fs].
  - destruct (negb _); [by simplify_eq|]. assert (Hv := verify_missing_outcome (en_plan e) rows Hrw).
    destruct (verify_missing cf (en_plan e) rows) as [[|m ms]|x].
    + eapply (finish_then now h); [exact Hb2| |exact E|exact Ht]. done.
    + eapply (finish_then now h); [exact Hb2| |exact E|exact Ht]. done.
    + simplify_eq. destruct x; try done. by destruct (Hv missing).
  - case_match; [|eapply (finish_then now h); [exact Hb2| |exact E|exact Ht]; done].
    destruct (dget h (b_plans b2)) as [e2|] eqn:Et; [|by simplify_eq]. unfold mbind, M_bind, modify in E.
    assert (Hb3 : b_ok (set_watch (dset h (conflicted_ids h rs) (b_watch b2)) b2)) by (apply ok_watch; [done|by eexists]).
    destruct (record now h "failed" (Some (conflicted_ids h rs)) _) as [b4 [[]|x]] eqn:Er.
    + apply (verify_watch_untracked now h (en_plan e) rows b4 b' o); [eapply record_ok; [exact Er|done]|done|exact E|done].
    + simplify_eq. assert (Ho := record_outcome _ _ _ _ _ _ _ Er). destruct x; try done. by destruct (Ho missing).
Qed.

(** Tracking: in every state the backend can reach, whatever the store answers and
    whatever runs while a query waits, a handle under conflict observation is a
    tracked handle, so no observation outlives its task; and once [query_task]
    has answered READY or FAILED or raised [VerifyError], or [abandon] has
    returned, the handle is tracked no more. *)
Theorem no_orphan_watch b h :
  reach b ->
  (is_Some (dget h (b_watch b)) -> tracked h b) /\
  (forall now b2 resps rows b' o, reach b2 -> rpc_outcome resps -> rpc_outcome rows ->
     query_task cf now h (fun _ => b2) resps rows b = (b', o) -> terminal o final_status = true ->
     ~ tracked h b') /\
  (forall now c b', abandon now c h b = (b', Ok tt) -> ~ tracked h b').
Proof.
  intros Hr. assert (Hb := reach_ok b Hr). split_and!.
  - intros Hw. apply dget_is_Some in Hw. apply dget_is_Some. by apply Hb.
  - intros now b2 resps rows b' o Hr2. by apply query_untracked, reach_ok.
  - intros now c b' E. unfold abandon in E. destruct (dget h (b_plans b)); [|done].
    unfold mbind, M_bind, modify, shield in E. destruct (not_conflicted h _) as [|t ts].
    + injection E as <-. by apply untracked_pop, ok_pop_watch.
    + destruct (record now h "abandoned" (Some (t :: ts)) (pop_watch h b)) as [b1 r1] eqn:Er.
      destruct c; [done|]. destruct r1; [|done]. injection E as <-. apply untracked_pop.
      eapply record_ok; [exact Er|by apply ok_pop_watch].
Qed.

(** C15. READY means the bytes are there: when [query_task] answers READY the admin port
    has just listed, for every key of the plan and on its own target segment, a
    memory replica; no other answer of the store leads to READY. *)
Theorem ready_is_verified now h mid resps rows b b' e :
  dget h (b_plans b) = Some e -> query_task cf now h mid resps rows b = (b', Ok TS_READY) ->
  cf_admin cf = true /\ exists d, rows = Ok d /\
    forall key seg, (key, seg) ∈ en_plan e ->
      exists r, dget key d = Some r /\ ar_ok r = true /\ seg ∈ ar_memory r.
Proof.
  intros He E.
  assert (Hver : verify_missing cf (en_plan e) rows = Ok [] -> cf_admin cf = true /\ exists d, rows = Ok d /\
    forall key seg, (key, seg) ∈ en_plan e -> exists r, dget key d = Some r /\ ar_ok r = true /\ seg ∈ ar_memory r).
  { unfold verify_missing. destruct (cf_admin cf); [|done]. simpl. destruct rows as [d|x]; [|by destruct x].
    unfold require_admin_rows. destruct (forallb _ _) eqn:E1; [|done]. destruct (forallb (fun k => _) _) eqn:E2 in |- *; [|done].
    intros [= Hm]. split; [done|]. exists d. split; [done|]. intros key seg Hin.
    assert (Hk : key ∈ (en_plan e).*1) by (apply list_elem_of_fmap; by exists (key, seg)).
    rewrite forallb_forall in E1, E2. apply list_elem_of_In in Hk. specialize (E1 _ Hk). specialize (E2 _ Hk).
    unfold din in E1. destruct (dget key d) as [r|] eqn:Er; [|done]. exists r. split_and!; [done..|].
    destruct (decide (seg ∈ ar_memory r)) as [|Hn]; [done|]. exfalso.
    assert (Hs : missing_line key seg ∈ []).
    { rewrite <- Hm. apply list_elem_of_omap. exists (key, seg). split; [done|]. simpl. rewrite Er.
      by rewrite bool_decide_eq_false_2. }
    by apply elem_of_nil in Hs. }
  assert (Hw : forall b1, verify_watch cf now h (en_plan e) rows b1 = (b', Ok TS_READY) ->
    verify_missing cf (en_plan e) rows = Ok []).
  { intros b1. unfold verify_watch. by destruct (verify_missing cf (en_plan e) rows) as [[|m ms]|x]. }
  apply Hver. unfold query_task in E. rewrite He in E. destruct (task_ids h); [done|].
  destruct (din h (b_watch b)); [by eapply Hw|].
  destruct resps as [rs|x]; [|by destruct x].
  destruct (filter (fun r => is_failed r = true) rs) as [|f fs].
  - destruct (negb _); [done|]. destruct (verify_missing cf (en_plan e) rows) as [[|m ms]|x]; [done| |done].
    unfold mbind, M_bind, raise in E. by destruct (finish _ _ _ _) as [b1 [[]|x]].
  - case_match.
    + destruct (dget h (b_plans (mid b))); [|done]. unfold mbind, M_bind, modify in E.
      destruct (record _ _ _ _ _) as [b1 [[]|x]]; [|done]. by eapply Hw.
    + unfold mbind, M_bind in E. by destruct (finish _ _ _ _) as [b1 [[]|x]].
Qed.

(** Without an admin client nothing is ever verified. *)
Lemma no_admin_not_ready now h mid resps rows b : cf_admin cf = false -> (query_task cf now h mid resps rows b).2 <> Ok TS_READY.
Proof.
  intros Ha. assert (Hv : forall plan, verify_missing cf plan rows = Raise KQuery) by (intros; unfold verify_missing; by rewrite Ha).
  assert (Hw : forall plan b1, verify_watch cf now h plan rows b1 = (b1, Raise KQuery)) by (intros; unfold verify_watch; by rewrite Hv).
  unfold query_task. destruct (task_ids h); [done|]. destruct (dget h (b_plans b)) as [e|]; [|done].
  destruct (din h (b_watch b)); [by rewrite Hw|]. destruct resps as [rs|x]; [|by destruct x].
  destruct (filter (fun r => is_failed r = true) rs) as [|f fs].
  - destruct (negb _); [done|]. by rewrite Hv.
  - destruct (_ =? _).
    + destruct (dget h (b_plans (mid b))); [|done]. unfold mbind, M_bind, modify. destruct (record _ _ _ _ _) as [b1 [[]|x]]; [|done].
      by rewrite Hw.
    + unfold mbind, M_bind. by destruct (finish _ _ _ _) as [b1 [[]|x]].
Qed.

(** ** What the ledger says of a task *)

Definition row_status (b : Backend) (t : TaskId) : option string :=
  match b_ledger b with
  | Some l => tr_status <$> dget (encode_task_id t) (lg_tasks l)
  | None => None
  end.
Definition ledger_open (b : Backend) : Prop := exists l, b_ledger b = Some l /\ lg_closed l = false.

Lemma record_rows now h st tids b e : ledger_open b -> dget h (b_plans b) = Some e -> st ∈ Db.TASK_STATUSES ->
  exists b', record now h st tids b = (b', Ok tt) /\ b_plans b' = b_plans b /\ b_watch b' = b_watch b /\
    ledger_open b' /\
    forall t, row_status b' t =
      if decide (encode_task_id t ∈ encode_task_id <$> default (task_ids h) tids) then Some st else row_status b t.
Proof.
  intros (l&El&Ho) He Hst. unfold record, in_ledger. rewrite El, He. unfold Db.upsert_tasks.
  rewrite bool_decide_eq_true_2 by done. rewrite Db.run_open by done. simpl.
  eexists. split; [reflexivity|]. simpl. split_and!; [done..|by eexists|].
  intros t. unfold row_status. simpl. rewrite El, Db.upsert_all_get.
  case_decide; [|done]. by destruct (dget (encode_task_id t) (lg_tasks l)).
Qed.

Lemma status_known st : st ∈ ["running"; "ready"; "failed"; "abandoned"] -> st ∈ Db.TASK_STATUSES.
Proof. done. Qed.

Lemma finish_rows now h st b e : ledger_open b -> dget h (b_plans b) = Some e -> st ∈ Db.TASK_STATUSES ->
  exists b', finish now h st b = (b', Ok tt) /\ ledger_open b' /\
    forall t, row_status b' t = if decide (encode_task_id t ∈ encode_task_id <$> task_ids h) then Some st else row_status b t.
Proof.
  intros Ho He Hst. destruct (record_rows now h st None b e Ho He Hst) as (b1&E&_&_&Ho1&Hr).
  unfold finish, mbind, M_bind, modify. rewrite E. eexists. split; [reflexivity|]. split; [exact Ho1|]. exact Hr.
Qed.

Lemma verify_watch_rows now h rows b b' e o : ledger_open b -> dget h (b_plans b) = Some e ->
  verify_watch cf now h (en_plan e) rows b = (b', o) ->
  (o <> Ok TS_READY -> b' = b) /\
  (o = Ok TS_READY -> forall t, row_status b' t =
     if decide (encode_task_id t ∈ encode_task_id <$> not_conflicted h (default [] (dget h (b_watch b))))
     then Some "ready" else row_status b t).
Proof.
  intros Ho He E. unfold verify_watch in E.
  destruct (verify_missing cf (en_plan e) rows) as [[|m ms]|x]; [|by simplify_eq; split..].
  cbn [pop_watch set_watch b_plans] in E. rewrite He in E.
  destruct (not_conflicted h (default [] (dget h (b_watch b)))) as [|t ts].
  - injection E as <- <-. split; [done|]. intros _ t. rewrite decide_False by apply not_elem_of_nil. done.
  - destruct (record_rows now h "ready" (Some (t :: ts)) (pop_watch h b) e Ho He) as (b1&Er&_&_&_&Hrow);
      [apply status_known; set_solver|].
    unfold mbind, M_bind, modify in E. change (mkBackend _ _ _) with (pop_watch h b) in E. rewrite Er in E.
    injection E as <- <-. split; [done|]. intros _. exact Hrow.
Qed.

(** Finishing a handle writes the status to the row of each of its tasks. *)
Lemma finish_settles now h st b e : ledger_open b -> dget h (b_plans b) = Some e -> st ∈ Db.TASK_STATUSES ->
  exists b1, finish now h st b = (b1, Ok tt) /\ forall t, t ∈ task_ids h -> row_status b1 t = Some st.
Proof.
  intros Ho He Hst. destruct (finish_rows now h st b e Ho He Hst) as (b1&Ef&_&Hrow). exists b1. split; [done|].
  intros t Ht. rewrite Hrow. rewrite decide_True; [done|]. apply list_elem_of_fmap. eauto.
Qed.

(** Verifying an observed handle never answers FAILED and never raises a
    verification error. *)
Lemma verify_watch_shape now h e rows b1 b' o : rpc_outcome rows -> verify_watch cf now h (en_plan e) rows b1 = (b', o) ->
  match o with Ok FAILED | Raise (KVerify _) => False | _ => True end.
Proof.
  intros Hrw E1. unfold verify_watch in E1. assert (Hv := verify_missing_outcome (en_plan e) rows Hrw).
  destruct (verify_missing cf (en_plan e) rows) as [[|m ms]|x]; [|by simplify_eq|].
  - destruct (dget h (b_plans (pop_watch h b1))); [|by simplify_eq]. destruct (not_conflicted h _); [by injection E1 as <- <-|].
    unfold mbind, M_bind in E1. destruct (record _ _ _ _ _) as [b2 [[]|x]] eqn:Er; injection E1 as <- <-; [done|].
    assert (Hro := record_outcome _ _ _ _ _ _ _ Er). destruct x; try done. by destruct (Hro missing).
  - simplify_eq. destruct x; try done. by destruct (Hv missing).
Qed.

(** It changes nothing unless every replica is there; then the tasks that were not
    in conflict are recorded as ready. *)
Lemma verify_watch_settles now h e rows b1 b' o : rpc_outcome rows ->
  ledger_open b1 -> dget h (b_plans b1) = Some e -> verify_watch cf now h (en_plan e) rows b1 = (b', o) ->
  match o with
  | Ok TS_READY => forall t, t ∈ task_ids h -> row_status b' t = Some "ready" \/ t ∈ default [] (dget h (b_watch b1))
  | Ok FAILED | Raise (KVerify _) => False
  | _ => b' = b1
  end.
Proof.
  intros Hrw Ho1 He1 E1. destruct (verify_watch_rows _ _ _ _ _ _ _ Ho1 He1 E1) as [H1 H2].
  assert (Hshape := verify_watch_shape _ _ _ _ _ _ _ Hrw E1).
  destruct o as [[]|[]]; try (by destruct Hshape); try (by apply H1).
  intros t Ht. rewrite H2 by done. destruct (decide (t ∈ default [] (dget h (b_watch b1)))); [by right|]. left.
  rewrite decide_True; [done|]. apply list_elem_of_fmap. exists t. split; [done|]. by apply list_elem_of_filter.
Qed.

(** The ledger follows the task: with an open ledger, a query of a tracked handle
    that ends in READY leaves every task recorded ready, except those observed
    in conflict before or found in conflict by this query; one that ends in
    FAILED or in a failed verification leaves every task recorded failed; a
    retryable [QueryError] of the store changes no row and keeps the handle. *)
Theorem query_task_settles now h resps rows b b' e o :
  ledger_open b -> dget h (b_plans b) = Some e -> task_ids h <> [] ->
  rpc_outcome resps -> rpc_outcome rows ->
  query_task cf now h id resps rows b = (b', o) ->
  match o with
  | Ok TS_READY => forall t, t ∈ task_ids h ->
      row_status b' t = Some "ready" \/ t ∈ default [] (dget h (b_watch b)) \/
      (exists rs, resps = Ok rs /\ t ∈ conflicted_ids h rs)
  | Ok FAILED | Raise (KVerify _) => forall t, t ∈ task_ids h -> row_status b' t = Some "failed"
  | Raise KQuery => tracked h b' /\ forall t, row_status b' t = row_status b t \/
      (exists rs, resps = Ok rs /\ encode_task_id t ∈ encode_task_id <$> conflicted_ids h rs /\ row_status b' t = Some "failed")
  | Ok RUNNING => tracked h b'
  | _ => True
  end.
Proof.
  intros Ho He Hne Hrs Hrw E.
  assert (Hfin := fun st Hst => finish_settles now h st b e Ho He Hst).
  unfold query_task in E. rewrite He in E. destruct (task_ids h) as [|t0 ts0] eqn:Eids; [done|].
  assert (Htr : tracked h b) by (by eexists).
  assert (Hvw := fun b1 => verify_watch_settles now h e rows b1 b' o Hrw).
  rewrite <- Eids in *. clear Eids.
  destruct (din h (b_watch b)).
  { specialize (Hvw b Ho He E). destruct o as [[]|[]]; subst; try done; try naive_solver. }
  destruct resps as [rs|x].
  2: { destruct x; injection E as <- <-; try done; try (split; [done|by left]). by destruct (Hrs missing). }
  destruct (filter (fun r => is_failed r = true) rs) as [|f fs].
  - destruct (negb _); [by injection E as <- <-|]. assert (Hv := verify_missing_outcome (en_plan e) rows Hrw).
    destruct (verify_missing cf (en_plan e) rows) as [[|m ms]|x].
    + destruct (Hfin "ready" ltac:(apply status_known; set_solver)) as (b1&Ef&Hrow).
      unfold mbind, M_bind in E. change (id b) with b in E. rewrite Ef in E. injection E as <- <-. auto.
    + destruct (Hfin "failed" ltac:(apply status_known; set_solver)) as (b1&Ef&Hrow).
      unfold mbind, M_bind in E. change (id b) with b in E. rewrite Ef in E. injection E as <- <-. auto.
    + injection E as <- <-. destruct x; try done; [by destruct (Hv missing)|split; [done|by left]].
  - destruct (zlen (conflicted_ids h rs) =? zlen (f :: fs)).
    + change (id b) with b in E. rewrite He in E. unfold mbind, M_bind, modify in E.
      set (b1 := set_watch _ b) in E.
      destruct (record_rows now h "failed" (Some (conflicted_ids h rs)) b1 e Ho He) as (b2&Er&Ep&Ew&Ho2&Hrow);
        [apply status_known; set_solver|]. rewrite Er in E.
      assert (He2 : dget h (b_plans b2) = Some e) by (by rewrite Ep).
      assert (Hc : default [] (dget h (b_watch b2)) = conflicted_ids h rs) by (by rewrite Ew; simpl; rewrite dget_dset_eq).
      assert (Htr2 : tracked h b2) by (by eexists).
      specialize (Hvw b2 Ho2 He2 E). rewrite Hc in Hvw. destruct o as [[]|[]]; subst; try done.
      * intros t Ht. destruct (Hvw t Ht) as [|]; [by left|]. right. right. eauto.
      * split; [done|]. intros t. simpl in Hrow. rewrite Hrow. case_decide; [right; eauto|by left].
    + destruct (Hfin "failed" ltac:(apply status_known; set_solver)) as (b1&Ef&Hrow).
      unfold mbind, M_bind in E. change (id b) with b in E. rewrite Ef in E. injection E as <- <-. auto.
Qed.

(** ** Restart *)

Definition is_pair (t : TaskId) : Prop := match t with TPair _ _ => True | TStr _ => False end.

Lemma decode_encode t : is_pair t -> decode_task_id (encode_task_id t) = t.
Proof. destruct t; [intros _; apply decode_encode_pair|done]. Qed.

Lemma encode_nodup ids : Forall is_pair ids -> NoDup ids -> NoDup (encode_task_id <$> ids).
Proof.
  intros Hp Hnd. induction Hnd as [|t ids Hn Hnd IH]; [apply NoDup_nil_2|]. apply Forall_cons in Hp as [Ht Hp].
  rewrite fmap_cons. constructor; [|auto]. intros (t'&Et&Hin)%list_elem_of_fmap. apply Hn.
  rewrite Forall_forall in Hp. rewrite <- (decode_encode t Ht), Et, decode_encode; auto.
Qed.

Definition new_row (now : Z) (hid op : string) (p : Prefix) (tg st : string) : TaskRow :=
  mkTaskRow hid op (prefix_key p) tg st (model_id p) (json_dumps (token_ids p)) now now.

Lemma upsert_fresh now hid op p tg st tids : forall t, NoDup tids -> (forall x, x ∈ tids -> x ∉ dkeys t) ->
  foldl (Db.upsert_one now hid op p tg st) t tids = t ++ ((fun tid => (tid, new_row now hid op p tg st)) <$> tids).
Proof.
  induction tids as [|x tids IH]; intros t Hnd Hf; simpl; [by rewrite app_nil_r|].
  apply NoDup_cons in Hnd as [Hx Hnd]. assert (Hxf := Hf x ltac:(left)). unfold Db.upsert_one at 2.
  rewrite (proj2 (dget_None _ _) Hxf), dset_fresh by done. rewrite IH; [by rewrite <- app_assoc|done|].
  intros y Hy. unfold dkeys. rewrite fmap_app, elem_of_app. intros [Hy'|Hy']; [by apply (Hf y); [right|]|].
  apply list_elem_of_singleton in Hy' as ->. done.
Qed.

Definition record_of (now : Z) (hid op : string) (p : Prefix) (tg st : string) (tid : string) : TaskRecord :=
  mkTaskRecord tid hid op (prefix_key p) tg st (model_id p) (token_ids p) now now.

Lemma collect_new now hid op p tg st tids :
  Db.collect Db.row_to_record ((fun tid => (tid, new_row now hid op p tg st)) <$> tids) =
  Ok (record_of now hid op p tg st <$> tids).
Proof.
  rewrite (Db.collect_ok _ (fun kv => record_of now hid op p tg st kv.1)).
  - by rewrite <- list_fmap_compose.
  - intros kv (tid&->&_)%list_elem_of_fmap. simpl. by rewrite Db.load_dumped.
Qed.

Lemma filter_all {A} (P : A -> Prop) `{forall x, Decision (P x)} (l : list A) :
  (forall x, x ∈ l -> P x) -> filter P l = l.
Proof.
  induction l as [|x l IH]; intros Hl; [done|]. rewrite filter_cons, decide_True by (apply Hl; left).
  rewrite IH; [done|]. intros y Hy. apply Hl. by right.
Qed.

Lemma collect_rows_app {A B} (f : A -> result kexn B) l1 l2 xs ys :
  Db.collect f l1 = Ok xs -> Db.collect f l2 = Ok ys -> Db.collect f (l1 ++ l2) = Ok (xs ++ ys).
Proof.
  revert xs. induction l1 as [|a l1 IH]; intros xs; simpl; [by intros [= <-]|].
  destruct (f a); [|done]. destruct (Db.collect f l1) as [zs|]; [|done]. intros [= <-] Hy. by rewrite (IH zs).
Qed.

Lemma collect_elem {A B} (f : A -> result kexn B) l xs x :
  Db.collect f l = Ok xs -> x ∈ xs -> exists a, a ∈ l /\ f a = Ok x.
Proof.
  revert xs. induction l as [|a l IH]; intros xs; simpl; [intros [= <-] ?%elem_of_nil; done|].
  destruct (f a) eqn:Ea; [|done]. destruct (Db.collect f l) as [zs|]; [|done]. intros [= <-] [->|Hx]%elem_of_cons.
  - exists a. split; [left|done].
  - destruct (IH zs eq_refl Hx) as (a'&?&?). exists a'. split; [by right|done].
Qed.

(** ** Groups of rows *)

Definition group_step (g : dict string (list TaskRecord)) (r : TaskRecord) : dict string (list TaskRecord) :=
  dset (rec_handle_id r) (default [] (dget (rec_handle_id r) g) ++ [r]) g.

Lemma dict_last {A} k (v w : A) (g : dict string A) : k ∉ dkeys g ->
  dget k (g ++ [(k, v)]) = Some v /\ dset k w (g ++ [(k, v)]) = g ++ [(k, w)].
Proof.
  induction g as [|[k' v'] g IH]; intros Hk; simpl; [by rewrite !decide_True|].
  unfold dkeys in Hk. simpl in Hk. apply not_elem_of_cons in Hk as [Hne Hk]. rewrite !decide_False by done.
  destruct (IH Hk) as [-> ->]. done.
Qed.

(** Rows of a handle that no earlier row has form one more group. *)
Lemma group_new hid (old recs : list TaskRecord) : recs <> [] ->
  (forall r, r ∈ recs -> rec_handle_id r = hid) -> hid ∉ dkeys (group_rows old) ->
  group_rows (old ++ recs) = group_rows old ++ [(hid, recs)].
Proof.
  intros Hne Hh Hk. unfold group_rows. rewrite foldl_app. fold (group_rows old). fold group_step.
  assert (Hgen : forall l acc, (forall r, r ∈ l -> rec_handle_id r = hid) ->
    foldl group_step (group_rows old ++ [(hid, acc)]) l = group_rows old ++ [(hid, acc ++ l)]).
  { induction l as [|r l IH]; intros acc Hl; [by rewrite app_nil_r|]. simpl. unfold group_step at 2. rewrite (Hl r ltac:(left)).
    destruct (dict_last hid acc (acc ++ [r]) (group_rows old) Hk) as [-> Hd]. simpl. rewrite Hd.
    rewrite IH by (intros; apply Hl; by right). by rewrite <- app_assoc. }
  destruct recs as [|r recs]; [done|]. simpl. unfold group_step at 2. rewrite (Hh r ltac:(left)).
  rewrite (proj2 (dget_None _ _) Hk). simpl. rewrite dset_fresh by done. rewrite Hgen; [done|].
  intros r' Hr'. apply Hh. by right.
Qed.

(** A group holds rows of its own handle, and at least one. *)
Lemma group_rows_spec rows hid rs : (hid, rs) ∈ group_rows rows ->
  rs <> [] /\ forall r, r ∈ rs -> r ∈ rows /\ rec_handle_id r = hid.
Proof.
  revert hid rs. induction rows as [|r rows IH] using rev_ind; intros hid rs; [by intros ?%elem_of_nil|].
  unfold group_rows. rewrite foldl_app. simpl. fold (group_rows rows).
  intros [[= -> ->]|Hin]%elem_of_dset.
  - split; [by destruct (default [] _)|]. intros x. rewrite !elem_of_app, !list_elem_of_singleton.
    intros [Hx| ->]; [|auto]. destruct (dget (rec_handle_id r) (group_rows rows)) as [rs|] eqn:Eg; [|by apply elem_of_nil in Hx].
    apply dget_elem in Eg. destruct (IH _ _ Eg) as [_ H1]. destruct (H1 x Hx). auto.
  - destruct (IH _ _ Hin) as [H1 H2]. split; [done|]. intros x Hx. destruct (H2 x Hx). rewrite elem_of_app. auto.
Qed.

(** The handle id and the task ids of a submission occur in no row: [uuid4] and the
    store give out new ones. *)
Record fresh_submission (l : Ledger) (uuid : string) (ids : list TaskId) : Prop := {
  fs_open : lg_closed l = false;
  fs_handle : forall kv, kv ∈ lg_tasks l -> tr_handle_id kv.2 <> uuid;
  fs_tasks : forall kv, kv ∈ lg_tasks l -> decode_task_id kv.1 ∉ ids
}.

(** The records of a fresh submission give back its handle and its plan. *)
Lemma decode_records now uuid p tg ids : Forall is_pair ids ->
  decode_task_id ∘ rec_task_id <$> (record_of now uuid "copy" p tg "running" <$> (encode_task_id <$> ids)) = ids.
Proof.
  intros Hpair. rewrite <- !list_fmap_compose. rewrite <- (list_fmap_id ids) at 2. apply list_fmap_ext.
  intros i t Ht. simpl. apply decode_encode. rewrite Forall_forall in Hpair. apply Hpair. by eapply list_elem_of_lookup_2.
Qed.

Lemma rebuild_group_new now p tg uuid ids plan l1 P W :
  required_plan cf p tg = Ok plan -> plan <> [] -> length ids = length plan -> Forall is_pair ids ->
  uuid <> EmptyString -> token_ids p <> [] ->
  let recs := record_of now uuid "copy" p tg "running" <$> (encode_task_id <$> ids) in
  (Db.list_tasks_by_handle uuid l1).2 = Ok recs ->
  rebuild_group cf uuid recs (mkBackend P W (Some l1)) =
    (mkBackend (dset (mkHandle COPY ids) (mkEntry p tg plan uuid) P) W (Some l1), Ok (Some (mkHandle COPY ids))).
Proof.
  intros Hplan Hne Hlen Hpair Huuid Htok recs Hall. assert (Hdec := decode_records now uuid p tg ids Hpair).
  fold recs in Hdec. unfold rebuild_group.
  destruct recs as [|r0 rs] eqn:Er; [unfold recs in Er; destruct ids; by destruct plan|].
  simpl b_ledger. rewrite bool_decide_eq_false_2 by done.
  assert (Hr0 : exists tid, r0 = record_of now uuid "copy" p tg "running" tid).
  { unfold recs in Er. destruct ids; [done|]. injection Er as <- _. eauto. }
  destruct Hr0 as [tid ->]. simpl rec_op. change (op_of_value "copy") with (Some COPY). cbv iota beta.
  simpl rec_token_ids. simpl rec_target. simpl rec_model_id.
  unfold required_plan in Hplan.
  destruct (cf_keys_for_tokens cf (token_ids p)) as [[|k ks]|] eqn:Ek; [done| |done].
  destruct (locate (cf_directory cf) tg) as [segs|] eqn:Eloc; [|done].
  destruct (token_ids p) as [|tk tks] eqn:Etok; [done|]. rewrite Ek, Hplan.
  destruct plan as [|pl0 pls] eqn:Epl; [done|]. rewrite <- Epl in *. rewrite Hall.
  rewrite (proj2 (Z.eqb_eq _ _)).
  2: { f_equal. rewrite <- Hlen, <- Er. unfold recs. by rewrite !length_fmap. }
  simpl negb. cbv iota. rewrite filter_nil_in.
  - rewrite Hdec. destruct p as [md tk']. simpl in *. subst tk'. by rewrite Epl.
  - rewrite <- Er. by intros r (tid'&->&_)%list_elem_of_fmap.
Qed.

(** Restoring the other groups does not depend on the new rows. *)
Lemma rebuild_group_other hid rows P W l l1 :
  (Db.list_tasks_by_handle hid l1).2 = (Db.list_tasks_by_handle hid l).2 ->
  rebuild_group cf hid rows (mkBackend P W (Some l1)) =
    (set_ledger (Some l1) (rebuild_group cf hid rows (mkBackend P W (Some l))).1,
     (rebuild_group cf hid rows (mkBackend P W (Some l))).2).
Proof.
  intros E. unfold rebuild_group. destruct rows as [|r0 rows]; [done|]. cbn [b_ledger]. cbv beta iota zeta. rewrite E.
  repeat case_match; done.
Qed.

Lemma rebuild_group_ledger hid rows b : b_ledger (rebuild_group cf hid rows b).1 = b_ledger b.
Proof. unfold rebuild_group. repeat case_match; done. Qed.

Lemma rebuild_groups_other gs l l1 : (forall hid rows, (hid, rows) ∈ gs ->
    (Db.list_tasks_by_handle hid l1).2 = (Db.list_tasks_by_handle hid l).2) ->
  forall P W b0 hs, rebuild_groups cf gs (mkBackend P W (Some l)) = (b0, Ok hs) ->
  rebuild_groups cf gs (mkBackend P W (Some l1)) = (set_ledger (Some l1) b0, Ok hs) /\ b_ledger b0 = Some l.
Proof.
  induction gs as [|[hid rows] gs IH]; intros Hg P W b0 hs; simpl; [by intros [= <- <-]|].
  unfold mbind, M_bind. rewrite (rebuild_group_other hid rows P W l l1) by (eapply Hg; left).
  pose proof (rebuild_group_ledger hid rows (mkBackend P W (Some l))) as Hl.
  destruct (rebuild_group cf hid rows (mkBackend P W (Some l))) as [[P1 W1 l'] [o|x]]; [|done]. simpl in *. subst l'.
  destruct (rebuild_groups cf gs (mkBackend P1 W1 (Some l))) as [b2 [hs2|x]] eqn:E2; [|done].
  destruct (IH ltac:(intros; eapply Hg; by right) _ _ _ _ E2) as [E3 Hl2]. change (set_ledger (Some l1) (mkBackend P1 W1 (Some l)))
    with (mkBackend P1 W1 (Some l1)). rewrite E3. by intros [= <- <-].
Qed.

(** Every handle a restart tracks has the tasks of one group. *)
Lemma rebuild_group_keys hid rows b b' o h : rebuild_group cf hid rows b = (b', o) -> h ∈ dkeys (b_plans b') ->
  h ∈ dkeys (b_plans b) \/ task_ids h = decode_task_id ∘ rec_task_id <$> rows.
Proof.
  unfold rebuild_group. intros E Hh. destruct rows as [|r0 rows]; [injection E as <- _; by left|].
  revert E. repeat case_match; intros E; injection E as <- _; simpl in Hh; try (by left);
    (apply elem_of_dkeys_dset in Hh as [->|Hh]; [by right|by left]).
Qed.

Lemma rebuild_groups_keys gs : forall b b' hs h, rebuild_groups cf gs b = (b', Ok hs) -> h ∈ dkeys (b_plans b') ->
  h ∈ dkeys (b_plans b) \/ exists g, g ∈ gs /\ task_ids h = decode_task_id ∘ rec_task_id <$> g.2.
Proof.
  induction gs as [|[hid rows] gs IH]; intros b b' hs h; simpl; [intros [= <- _]; by left|]. unfold mbind, M_bind.
  destruct (rebuild_group cf hid rows b) as [b1 [o|x]] eqn:E1; [|done].
  destruct (rebuild_groups cf gs b1) as [b2 [hs2|x]] eqn:E2; [|done]. intros [= <- _] Hh.
  destruct (IH _ _ _ _ E2 Hh) as [Hh1|(g&Hg&Ht)].
  - destruct (rebuild_group_keys _ _ _ _ _ _ E1 Hh1) as [?|?]; [by left|right]. exists (hid, rows). split; [left|done].
  - right. exists g. split; [by right|done].
Qed.

Lemma rebuild_groups_app gs1 gs2 b b1 b2 hs1 hs2 :
  rebuild_groups cf gs1 b = (b1, Ok hs1) -> rebuild_groups cf gs2 b1 = (b2, Ok hs2) ->
  rebuild_groups cf (gs1 ++ gs2) b = (b2, Ok (hs1 ++ hs2)).
Proof.
  revert b hs1. induction gs1 as [|[hid rows] gs1 IH]; intros b hs1; simpl; [by intros [= -> <-]|].
  unfold mbind, M_bind. destruct (rebuild_group cf hid rows b) as [b0 [o|x]]; [|done].
  destruct (rebuild_groups cf gs1 b0) as [b3 [hs3|x]] eqn:E3; [|done]. intros [= -> <-] E2. rewrite (IH _ _ E3 E2).
  by destruct o.
Qed.

Lemma rebuild_running l b0 hs0 : rebuild cf (mkBackend [] [] (Some l)) = (b0, Ok hs0) ->
  exists old, (Db.list_running_tasks l).2 = Ok old /\
    rebuild_groups cf (group_rows old) (mkBackend [] [] (Some l)) = (b0, Ok hs0).
Proof.
  unfold rebuild. cbn [b_ledger]. destruct (Db.list_running_tasks l) as [l' [old|x]]; [|done]. by exists old.
Qed.

(** What a restart reads of the ledger after a fresh submission. *)
Section fresh.
Context (now : Z) (p : Prefix) (tg uuid : string) (ids : list TaskId) (l : Ledger).
Context (Hfs : fresh_submission l uuid ids).
Let tids := encode_task_id <$> ids.
Let row := new_row now uuid "copy" p tg "running".
Let l1 := Db.set_tasks (lg_tasks l ++ ((fun tid => (tid, row)) <$> tids)) l.
Let recs := record_of now uuid "copy" p tg "running" <$> tids.

Lemma fresh_by_handle hid : hid <> uuid -> (Db.list_tasks_by_handle hid l1).2 = (Db.list_tasks_by_handle hid l).2.
Proof.
  intros Hh. destruct Hfs. unfold Db.list_tasks_by_handle. rewrite !Db.run_open by done. simpl. rewrite filter_app, (filter_nil_in _ (_ <$> tids)).
  - by rewrite app_nil_r.
  - intros kv (tid&->&_)%list_elem_of_fmap. simpl. congruence.
Qed.

Lemma fresh_own_rows : (Db.list_tasks_by_handle uuid l1).2 = Ok recs.
Proof.
  destruct Hfs. unfold Db.list_tasks_by_handle. rewrite Db.run_open by done. simpl. rewrite filter_app, (filter_nil_in _ (lg_tasks l)).
  - rewrite filter_all; [apply collect_new|]. by intros kv (tid&->&_)%list_elem_of_fmap.
  - intros kv Hkv. by apply fs_handle0.
Qed.

Lemma fresh_running old : (Db.list_running_tasks l).2 = Ok old -> (Db.list_running_tasks l1).2 = Ok (old ++ recs).
Proof.
  destruct Hfs. unfold Db.list_running_tasks. rewrite !Db.run_open by done. simpl. intros E. rewrite filter_app. apply collect_rows_app; [done|].
  rewrite filter_all; [apply collect_new|]. by intros kv (tid&->&_)%list_elem_of_fmap.
Qed.

(** A running row is a row of the table. *)
Lemma running_row old r : (Db.list_running_tasks l).2 = Ok old -> r ∈ old ->
  exists kv, kv ∈ lg_tasks l /\ rec_task_id r = kv.1 /\ rec_handle_id r = tr_handle_id kv.2.
Proof.
  destruct Hfs. unfold Db.list_running_tasks. rewrite Db.run_open by done. simpl. intros E Hr.
  destruct (collect_elem _ _ _ _ E Hr) as ([k rw]&Hin%list_elem_of_filter&Ek). exists (k, rw). split; [apply Hin|].
  unfold Db.row_to_record in Ek. destruct (Db.load_tokens _); [|done]. by injection Ek as <-.
Qed.

Lemma fresh_groups old hid rows : (Db.list_running_tasks l).2 = Ok old -> (hid, rows) ∈ group_rows old ->
  hid <> uuid /\ (decode_task_id ∘ rec_task_id <$> rows) <> ids.
Proof.
  intros E Hin. destruct (group_rows_spec _ _ _ Hin) as [Hne Hr]. destruct rows as [|r rows]; [done|].
  destruct (Hr r ltac:(left)) as [Hro Hh]. destruct (running_row old r E Hro) as (kv&Hkv&Ht&Hhid). destruct Hfs. split.
  - rewrite <- Hh, Hhid. by apply fs_handle0.
  - intros Hd. apply (fs_tasks0 kv Hkv). rewrite <- Hd, <- Ht. left.
Qed.

Lemma fresh_upsert : Forall is_pair ids -> NoDup ids ->
  Db.upsert_tasks now tids uuid "copy" p tg "running" l = (l1, Ok tt).
Proof.
  intros Hp Hnd. destruct Hfs. unfold Db.upsert_tasks. rewrite bool_decide_eq_true_2 by set_solver. rewrite Db.run_open by done.
  unfold Db.upsert_tasks_sync, modify. rewrite upsert_fresh; [done|by apply encode_nodup|].
  intros x (t&->&Ht)%list_elem_of_fmap (kv&Ekv&Hkv)%list_elem_of_fmap. apply (fs_tasks0 kv Hkv). rewrite <- Ekv, decode_encode; [done|].
  by eapply Forall_forall in Hp.
Qed.
End fresh.

(** C16. A restart loses no transfer.  Take a ledger with any rows, other transfers
    still running among them, and what a restart would restore from it.  After a
    copy whose every key was submitted, a new process with the same ledger, keys
    and directory restores the same handles, tracked in the same way, and one
    more: the handle of that copy with the same tasks, tracked with the same
    prefix, target and plan and not watched for a conflict.  The submission's
    handle id and task ids are new ([fresh_submission]). *)
Theorem restart_restores_copy now p tg slot lay q uuid ids plan b l b0 hs0 :
  required_plan cf p tg = Ok plan -> (admit_new_bytes cf slot plan lay q).2 = Ok tt ->
  plan <> [] -> length ids = length plan -> Forall is_pair ids -> NoDup ids -> uuid <> EmptyString ->
  token_ids p <> [] -> b_ledger b = Some l -> fresh_submission l uuid ids ->
  rebuild cf (mkBackend [] [] (Some l)) = (b0, Ok hs0) ->
  exists b1 b2, copy cf now p tg slot lay q (fun _ => mkSubmission (Some <$> ids) None uuid false) b =
      (b1, Ok (mkHandle COPY ids)) /\
    rebuild cf (mkBackend [] [] (b_ledger b1)) = (b2, Ok (hs0 ++ [mkHandle COPY ids])) /\
    b_plans b2 = b_plans b0 ++ [(mkHandle COPY ids, mkEntry p tg plan uuid)] /\ b_watch b2 = b_watch b0.
Proof.
  intros Hplan Hadm Hne Hlen Hpair Hnd Huuid Htok El Hfs Hold.
  assert (Hids : ids <> []) by (intros ->; by destruct plan).
  set (h := mkHandle COPY ids). set (e := mkEntry p tg plan uuid). set (tids := encode_task_id <$> ids).
  set (l1 := Db.set_tasks (lg_tasks l ++ ((fun tid => (tid, new_row now uuid "copy" p tg "running")) <$> tids)) l).
  exists (mkBackend (dset h e (b_plans b)) (b_watch b) (Some l1)), (mkBackend (b_plans b0 ++ [(h, e)]) (b_watch b0) (Some l1)).
  split_and!; [|simpl b_ledger|done|done].
  { unfold copy, mbind, M_bind, lift. rewrite Hplan, Hadm. unfold submit_done, mbind, M_bind, modify, shield. simpl.
    rewrite Db.omap_some. fold h. fold e. unfold record, in_ledger. simpl. rewrite El. simpl. rewrite dget_dset_eq.
    simpl. by rewrite (fresh_upsert now p tg uuid ids l Hfs Hpair Hnd). }
  destruct (rebuild_running l b0 hs0 Hold) as (old&Eo&Hgs). clear Hold. rename Hgs into Hold. unfold rebuild. cbn [b_ledger].
  cbv beta iota. unfold l1, tids. rewrite (fresh_running now p tg uuid ids l Hfs old Eo). fold tids l1.
  assert (Hg : forall hid rows, (hid, rows) ∈ group_rows old -> hid <> uuid /\ (decode_task_id ∘ rec_task_id <$> rows) <> ids).
  { intros hid rows. by apply (fresh_groups uuid ids l Hfs). }
  rewrite (group_new uuid); [|unfold tids; by destruct ids|by intros r (tid&->&_)%list_elem_of_fmap|].
  2: { intros (g&Eg&Hin)%list_elem_of_fmap. destruct g as [hid rows]. simpl in Eg. subst hid. by destruct (Hg _ _ Hin). }
  destruct (rebuild_groups_other (group_rows old) l l1) with (P := @nil (TaskHandle * Entry)) (W := @nil (TaskHandle * list TaskId)) (b0 := b0) (hs := hs0)
    as [Eother _]; [|done|].
  { intros hid rows Hin. apply fresh_by_handle with (ids := ids); [done|]. by eapply Hg. }
  eapply rebuild_groups_app; [exact Eother|]. cbn [rebuild_groups]. unfold mbind, M_bind, tids.
  change (set_ledger (Some l1) b0) with (mkBackend (b_plans b0) (b_watch b0) (Some l1)).
  rewrite (rebuild_group_new now p tg uuid ids plan l1 (b_plans b0) (b_watch b0)); [|done..|by apply fresh_own_rows].
  cbn [mret M_ret]. fold h e. rewrite dset_fresh; [done|]. intros Hh.
  destruct (rebuild_groups_keys _ _ _ _ _ Hold Hh) as [Hh'|([hid rows]&Hin&Ht)]; [by apply elem_of_nil in Hh'|].
  simpl in Ht. by destruct (Hg _ _ Hin).
Qed.

(** ** Admission *)

(** The keys of the plan on the probed segment, each once. *)
Fixpoint new_keys (probe : string) (seen : list string) (plan : list (string * string)) : list string :=
  match plan with
  | [] => []
  | (k, s) :: plan' =>
      if negb (bool_decide (s = probe)) || bool_decide (k ∈ seen) then new_keys probe seen plan'
      else k :: new_keys probe (k :: seen) plan'
  end.

Lemma elem_of_new_keys probe plan : forall seen k,
  k ∈ new_keys probe seen plan <-> (k, probe) ∈ plan /\ k ∉ seen.
Proof.
  induction plan as [|[k' s] plan IH]; intros seen k; simpl; [set_solver|].
  case_bool_decide as E1; simpl; [subst|].
  - case_bool_decide as E2.
    + rewrite IH, elem_of_cons. naive_solver.
    + rewrite elem_of_cons, IH, !elem_of_cons. destruct (decide (k = k')) as [->|]; naive_solver.
  - rewrite IH, elem_of_cons. naive_solver.
Qed.

Lemma NoDup_new_keys probe plan : forall seen, NoDup (new_keys probe seen plan).
Proof.
  induction plan as [|[k s] plan IH]; intros seen; simpl; [apply NoDup_nil_2|]. case_match; [done|].
  constructor; [|done]. rewrite elem_of_new_keys. set_solver.
Qed.

Definition placed_at (layout : dict string (list ReplicaRow)) (k : string) : list string :=
  (key_layout (default [] (dget k layout))).1.
(** A key's own size, or the sample's. *)
Definition size_of (layout : dict string (list ReplicaRow)) (sample : option Z) (k : string) : Z :=
  default (default 0 sample) (key_layout (default [] (dget k layout))).2.

Lemma need_loop_sum layout sample probe plan : forall seen total t,
  need_loop layout sample probe plan (seen, total) = Ok t ->
  t = total + zsum (size_of layout sample <$> filter (fun k => probe ∉ placed_at layout k) (new_keys probe seen plan)).
Proof.
  induction plan as [|[k s] plan IH]; intros seen total t E; cbn [need_loop] in E; [injection E as <-; simpl; lia|].
  unfold add_need in E. simpl new_keys. destruct (negb (bool_decide (s = probe)) || bool_decide (k ∈ seen)) eqn:Eg; [by apply IH|].
  apply orb_false_iff in Eg as [Es _]. apply negb_false_iff, bool_decide_eq_true in Es. subst s.
  rewrite filter_cons.
  assert (Hp : placed_at layout k = (key_layout (default [] (dget k layout))).1) by done.
  assert (Hs : size_of layout sample k = default (default 0 sample) (key_layout (default [] (dget k layout))).2) by done.
  destruct (key_layout (default [] (dget k layout))) as [placed known]. simpl in Hp, Hs.
  rewrite <- Hp in E. destruct (bool_decide (probe ∈ placed_at layout k)) eqn:Ep; zbool.
  - rewrite decide_False by tauto. by apply IH.
  - rewrite decide_True by done. rewrite fmap_cons, zsum_cons, Hs.
    destruct known as [z|]; [|destruct sample as [z|]; [|done]]; apply IH in E; simpl; lia.
Qed.

(** What [new_bytes_by_segment] counts: the keys of the plan's first segment that have no
    replica there, each once, in bytes. *)
Definition fresh_keys (layout : dict string (list ReplicaRow)) (plan : list (string * string)) : list string :=
  let probe := default EmptyString (head plan.*2) in
  filter (fun k => probe ∉ placed_at layout k) (new_keys probe [] plan).
Definition new_bytes (layout : dict string (list ReplicaRow)) (plan : list (string * string)) : Z :=
  zsum (size_of layout (sample_size layout (fromkeys plan.*1)) <$> fresh_keys layout plan).

Lemma elem_of_fresh_keys layout plan probe k : head plan.*2 = Some probe ->
  k ∈ fresh_keys layout plan <-> (k, probe) ∈ plan /\ probe ∉ placed_at layout k.
Proof.
  intros Hp. unfold fresh_keys. rewrite Hp. simpl. rewrite list_elem_of_filter, elem_of_new_keys. set_solver.
Qed.

Lemma NoDup_fresh_keys layout plan : NoDup (fresh_keys layout plan).
Proof. apply NoDup_filter, NoDup_new_keys. Qed.

Lemma new_bytes_ok plan lay need : plan <> [] -> new_bytes_by_segment plan lay = Ok need ->
  exists layout probe, lay = Ok layout /\ head plan.*2 = Some probe /\
    need = if new_bytes layout plan <=? 0 then None else Some (probe, new_bytes layout plan).
Proof.
  destruct plan as [|[k0 probe] plan]; [done|]. intros _. set (pl := (k0, probe) :: plan). unfold new_bytes_by_segment, as_query_error.
  destruct lay as [layout|x]; [|by destruct x]. cbv beta iota. unfold pl at 1.
  destruct (need_loop layout (sample_size layout (fromkeys pl.*1)) probe pl ([], 0)) as [total|] eqn:En; [|done].
  apply need_loop_sum in En. rewrite Z.add_0_l in En. intros [= <-]. exists layout, probe. split_and!; [done|done|].
  assert (Hb : new_bytes layout pl = total) by (rewrite En; done). by rewrite Hb.
Qed.

Lemma check_segment_ok n q : check_segment cf n q = Ok tt ->
  exists used capacity, q = Ok (used, capacity) /\ capacity <> 0 /\ used + n <= capacity.
Proof.
  unfold check_segment. destruct (negb (cf_admin cf)); [done|].
  destruct q as [[used cap]|x]; [|destruct x as [| | | | | | | | | | | | | [st|] | | | | | |]; try done; by destruct (500 <=? st)].
  destruct (cap =? 0) eqn:E0; [done|]. destruct (cap - used <? n) eqn:E1; [done|]. zbool. intros _.
  exists used, cap. split_and!; [done|done|lia].
Qed.

(** One call of [_admit_new_bytes] in a round: its plan, and what the store and the
    admin port answer.  The calls of a round share its slot. *)
Record ask : Type := mkAsk {
  ask_plan : list (string * string);
  ask_layout : result kexn (dict string (list ReplicaRow));
  ask_query : result kexn (Z * Z)
}.
Definition admit_all (slot : Admission) (asks : list ask) : Admission :=
  foldl (fun s a => (admit_new_bytes cf s (ask_plan a) (ask_layout a) (ask_query a)).1) slot asks.

(** The need of one call and where it comes from. *)
Definition need_from (asks : list ask) (key : string * gset string) (need : option (string * Z)) : Prop :=
  exists a layout probe, a ∈ asks /\ plan_key (ask_plan a) = key /\ ask_layout a = Ok layout /\
    head (ask_plan a).*2 = Some probe /\
    need = if new_bytes layout (ask_plan a) <=? 0 then None else Some (probe, new_bytes layout (ask_plan a)).

Lemma admit_cases slot a slot' o : ask_plan a <> [] ->
  admit_new_bytes cf slot (ask_plan a) (ask_layout a) (ask_query a) = (slot', o) ->
  (slot' = slot /\ exists x, o = Raise x) \/
  exists need, (slot = Round (Some (plan_key (ask_plan a), need)) \/ need_from [a] (plan_key (ask_plan a)) need) /\
    slot' = (if slot is NoRound then NoRound else Round (Some (plan_key (ask_plan a), need))) /\
    o = match need with None => Ok tt | Some (_, n) => check_segment cf n (ask_query a) end.
Proof.
  destruct a as [plan lay q]. simpl. intros Hne E. unfold admit_new_bytes in E. destruct plan as [|ks plan]; [done|].
  set (pl := ks :: plan) in *. cbv zeta in E.
  assert (Hnew : forall need, new_bytes_by_segment pl lay = Ok need -> need_from [mkAsk pl lay q] (plan_key pl) need).
  { intros need (layout&probe&->&Hp&->)%new_bytes_ok; [|done]. exists (mkAsk pl (Ok layout) q), layout, probe. split_and!; [left|done..]. }
  destruct slot as [|[[k n]|]].
  - destruct (new_bytes_by_segment pl lay) as [need|x]; [|injection E as <- <-; eauto]. right. exists need.
    split_and!; [right; auto|..]; destruct need as [[? ?]|]; by injection E as <- <-.
  - case_bool_decide as Ek.
    + right. exists n. subst k. split_and!; [by left|..]; destruct n as [[? ?]|]; by injection E as <- <-.
    + destruct (new_bytes_by_segment pl lay) as [need|x]; [|injection E as <- <-; eauto]. right. exists need.
      split_and!; [right; auto|..]; destruct need as [[? ?]|]; by injection E as <- <-.
  - destruct (new_bytes_by_segment pl lay) as [need|x]; [|injection E as <- <-; eauto]. right. exists need.
    split_and!; [right; auto|..]; destruct need as [[? ?]|]; by injection E as <- <-.
Qed.

Lemma need_from_sub asks asks' key need : (forall a, a ∈ asks -> a ∈ asks') -> need_from asks key need -> need_from asks' key need.
Proof. intros Hs (a&layout&probe&Ha&H1). exists a, layout, probe. split; [by apply Hs|done]. Qed.

(** A cached need was computed by an earlier call of the round, for the key it is
    stored under. *)
Lemma admit_all_cached asks : forall slot0 k need, slot0 = NoRound \/ slot0 = open_segment_budget ->
  admit_all slot0 asks = Round (Some (k, need)) -> need_from asks k need.
Proof.
  induction asks as [|a asks IH] using rev_ind; intros slot0 k need H0 E; [by destruct H0 as [-> | ->]|].
  unfold admit_all in E. rewrite foldl_app in E. simpl in E. fold (admit_all slot0 asks) in E.
  assert (Hold : admit_all slot0 asks = Round (Some (k, need)) -> need_from (asks ++ [a]) k need).
  { intros Hs. eapply need_from_sub; [|by eapply IH]. intros ? ?. rewrite elem_of_app. by left. }
  destruct (decide (ask_plan a = [])) as [Ep|Hne]; [rewrite Ep in E; by apply Hold|].
  destruct (admit_new_bytes cf (admit_all slot0 asks) (ask_plan a) (ask_layout a) (ask_query a)) as [s o] eqn:Ea.
  simpl in E. subst s. destruct (admit_cases _ _ _ _ Hne Ea) as [[Hs _]|(n&Hn&Hs&_)]; [by apply Hold|].
  destruct (admit_all slot0 asks) as [|c]; [done|]. injection Hs as -> ->. destruct Hn as [Hn|Hn]; [by apply Hold|].
  eapply need_from_sub; [|exact Hn]. intros ? ->%list_elem_of_singleton. rewrite elem_of_app. right. left.
Qed.

(** C18. Admission: a copy is let through only if the first target segment of its plan
    has room for the bytes it adds there.  They are counted from one layout of the
    store, fetched by this call or, in a round of waiting, by an earlier call of
    the same round whose plan had the same first segment and the same set of keys:
    the keys of that plan on that segment without a replica on it, each once, with
    the batch's sample size for keys whose size is unknown.  The room is what the
    admin port answered to this very call.  Outside a round the layout is this
    call's own. *)
Theorem admitted_fits slot0 asks a slot' :
  slot0 = NoRound \/ slot0 = open_segment_budget -> ask_plan a <> [] ->
  admit_new_bytes cf (admit_all slot0 asks) (ask_plan a) (ask_layout a) (ask_query a) = (slot', Ok tt) ->
  exists from layout probe, from ∈ asks ++ [a] /\ ask_layout from = Ok layout /\
    plan_key (ask_plan from) = plan_key (ask_plan a) /\ head (ask_plan a).*2 = Some probe /\
    head (ask_plan from).*2 = Some probe /\
    (forall k, k ∈ fresh_keys layout (ask_plan from) <-> (k, probe) ∈ ask_plan from /\ probe ∉ placed_at layout k) /\
    NoDup (fresh_keys layout (ask_plan from)) /\
    (new_bytes layout (ask_plan from) <= 0 \/
     exists used capacity, ask_query a = Ok (used, capacity) /\ capacity <> 0 /\
       used + new_bytes layout (ask_plan from) <= capacity) /\
    (slot0 = NoRound -> from = a).
Proof.
  intros H0 Hne E. destruct (admit_cases _ _ _ _ Hne E) as [(_&x&?)|(need&Hn&_&Ho)]; [done|].
  assert (Hfrom : need_from (if slot0 is NoRound then [a] else asks ++ [a]) (plan_key (ask_plan a)) need).
  { destruct Hn as [Hn|Hn].
    - destruct H0 as [-> | ->].
      + assert (Hnr : admit_all NoRound asks = NoRound).
        { clear. induction asks as [|b asks IH] using rev_ind; [done|]. unfold admit_all. rewrite foldl_app. simpl.
          fold (admit_all NoRound asks). rewrite IH. destruct (decide (ask_plan b = [])) as [->|Hb]; [done|].
          destruct (admit_new_bytes cf NoRound _ _ _) as [s o] eqn:Eb. by destruct (admit_cases _ _ _ _ Hb Eb) as [[-> _]|(?&_&->&_)]. }
        rewrite Hnr in Hn. done.
      + apply admit_all_cached in Hn; [|by right]. eapply need_from_sub; [|exact Hn]. intros ? ?. apply elem_of_app. by left.
    - eapply need_from_sub; [|exact Hn]. intros ? ->%list_elem_of_singleton. destruct slot0; [left|rewrite elem_of_app; right; left]. }
  destruct Hfrom as (from&layout&probe&Hin&Hk&Hl&Hp&->). exists from, layout, probe.
  assert (Hpa : head (ask_plan a).*2 = Some probe).
  { unfold plan_key in Hk. rewrite Hp in Hk. simpl in Hk. injection Hk as Hk _. destruct (ask_plan a); [done|]. simpl in *. by f_equal. }
  split_and!; try done.
  - destruct slot0; [|done]. apply list_elem_of_singleton in Hin as ->. rewrite elem_of_app. right. left.
  - intros k. by apply elem_of_fresh_keys.
  - apply NoDup_fresh_keys.
  - destruct (new_bytes layout (ask_plan from) <=? 0) eqn:Et; zbool; [by left|right]. by apply check_segment_ok.
  - intros ->. by apply list_elem_of_singleton in Hin.
Qed.

End proofs.

(** ** A concrete backend

    Two ranks, blocks of two tokens, a toy hash in place of the engine's. *)

#[local] Instance toy_digest : Digest := fun s => s.
Definition toy_computer : KeyComputer := mkKeyComputer "m" 2 2 None 1.
Definition toy_cf : Config :=
  mkConfig (keys_for_tokens (fun p l => default 7 p * 31 + zsum l) py_str None true toy_computer) toy_computer
    [("i0", ["s0"; "s1"])] true 4 10.
Definition toy_prefix : Prefix := mkPrefix "m" [1; 2; 3; 4; 5].
Definition toy_plan : list (string * string) :=
  match required_plan toy_cf toy_prefix "i0" with Ok pl => pl | Raise _ => [] end.
Definition toy_layout : result kexn (dict string (list ReplicaRow)) :=
  Ok ((fun ks => (ks.1, [mkReplicaRow "far" (Some 10)])) <$> toy_plan).
Definition toy_rows : result kexn (dict string AdminRow) :=
  Ok ((fun ks => (ks.1, mkAdminRow true [ks.2])) <$> toy_plan).
Definition toy_ids : list TaskId := [TPair 1 0; TPair 1 1; TPair 1 2; TPair 1 3].
Definition toy_handle : TaskHandle := mkHandle COPY toy_ids.
Definition toy_start : Backend := mkBackend [] [] (Some Db.empty_ledger).
Definition toy_copied : Backend :=
  (copy toy_cf 5 toy_prefix "i0" NoRound toy_layout (Ok (0, 100))
     (fun _ => mkSubmission (Some <$> toy_ids) None "u" false) toy_start).1.
Definition all_done : result kexn (list QueryResp) := Ok (replicate 4 (mkResp S_SUCCESS "ok")).

Lemma toy_copied_reached : reach toy_cf toy_copied.
Proof. apply reach_copy, reach_new. Qed.

Lemma no_orphan_watch_witness :
  ~ tracked toy_handle (query_task toy_cf 6 toy_handle (fun _ => toy_copied) all_done toy_rows toy_copied).1.
Proof.
  destruct (no_orphan_watch toy_cf toy_copied toy_handle toy_copied_reached) as (_&H&_).
  eapply (H 6 toy_copied all_done toy_rows).
  - apply toy_copied_reached.
  - discriminate.
  - discriminate.
  - apply surjective_pairing.
  - vm_compute. reflexivity.
Defined.

Lemma ready_is_verified_witness :
  exists d, toy_rows = Ok d /\ exists r, dget "m@pcp:0@dcp:0@head_or_tp_rank:1@pp_rank:0@group:0@cache_role:kv@cache_family:default@220" d = Some r /\
    "s1" ∈ ar_memory r.
Proof.
  destruct (ready_is_verified toy_cf 6 toy_handle id all_done toy_rows toy_copied
    (query_task toy_cf 6 toy_handle id all_done toy_rows toy_copied).1 (mkEntry toy_prefix "i0" toy_plan "u")) as (_&d&E&H).
  - vm_compute. reflexivity.
  - vm_compute. reflexivity.
  - exists d. split; [exact E|].
    destruct (H "m@pcp:0@dcp:0@head_or_tp_rank:1@pp_rank:0@group:0@cache_role:kv@cache_family:default@220" "s1") as (r&Hr&_&Hs).
    + vm_compute. right. left.
    + exists r. split; [exact Hr|exact Hs].
Defined.

Lemma query_task_settles_witness :
  row_status (query_task toy_cf 6 toy_handle id all_done
    (Ok ((fun ks => (ks.1, mkAdminRow true [])) <$> toy_plan)) toy_copied).1 (TPair 1 2) = Some "failed".
Proof.
  set (rows := Ok ((fun ks => (ks.1, mkAdminRow true [])) <$> toy_plan) : result kexn (dict string AdminRow)).
  assert (E : exists m, (query_task toy_cf 6 toy_handle id all_done rows toy_copied).2 = Raise (KVerify m))
    by (vm_compute; eexists; reflexivity).
  destruct E as [m E].
  pose proof (query_task_settles toy_cf 6 toy_handle all_done rows toy_copied
    (query_task toy_cf 6 toy_handle id all_done rows toy_copied).1 (mkEntry toy_prefix "i0" toy_plan "u") (Raise (KVerify m))) as H.
  apply H.
  - vm_compute. eexists. split; reflexivity.
  - vm_compute. reflexivity.
  - discriminate.
  - discriminate.
  - discriminate.
  - rewrite <- E. apply surjective_pairing.
  - right. right. left.
Defined.

(** Another copy is still running when the toy copy is submitted. *)
Definition other_prefix : Prefix := mkPrefix "m" [9; 9].
Definition other_ids : list TaskId := [TPair 2 0; TPair 2 1].
Definition other_copied : Backend :=
  (copy toy_cf 4 other_prefix "i0" NoRound (Ok [("m@pcp:0@dcp:0@head_or_tp_rank:0@pp_rank:0@group:0@cache_role:kv@cache_family:default@235",
       [mkReplicaRow "far" (Some 10)])]) (Ok (0, 100))
     (fun _ => mkSubmission (Some <$> other_ids) None "v" false) toy_start).1.
Definition other_ledger : Ledger := default Db.empty_ledger (b_ledger other_copied).

Lemma restart_restores_copy_witness :
  exists b1 b2, copy toy_cf 5 toy_prefix "i0" NoRound toy_layout (Ok (0, 100))
      (fun _ => mkSubmission (Some <$> toy_ids) None "u" false) other_copied = (b1, Ok toy_handle) /\
    rebuild toy_cf (mkBackend [] [] (b_ledger b1)) = (b2, Ok [mkHandle COPY other_ids; toy_handle]).
Proof.
  destruct (restart_restores_copy toy_cf 5 toy_prefix "i0" NoRound toy_layout (Ok (0, 100)) "u" toy_ids toy_plan other_copied
    other_ledger (rebuild toy_cf (mkBackend [] [] (Some other_ledger))).1 [mkHandle COPY other_ids]) as (b1&b2&E1&E2&_).
  - vm_compute. reflexivity.
  - vm_compute. reflexivity.
  - vm_compute. discriminate.
  - vm_compute. reflexivity.
  - repeat constructor.
  - repeat constructor; set_solver.
  - discriminate.
  - discriminate.
  - vm_compute. reflexivity.
  - split; [vm_compute; reflexivity|..]; intros kv Hkv;
      (change (kv ∈ (fun tid => (tid, new_row 4 "v" "copy" other_prefix "i0" "running")) <$> ["2:0"; "2:1"]) in Hkv);
      apply list_elem_of_fmap in Hkv as (tid&->&Ht).
    + discriminate.
    + apply elem_of_cons in Ht as [->|Ht%list_elem_of_singleton]; [|subst tid]; vm_compute; set_solver.
  - vm_compute. reflexivity.
  - exists b1, b2. split; [exact E1|exact E2].
Defined.

(** The segment is full at the first call of the round; the second call does not fetch
    the layout again, and fits. *)
Definition full_then_room : list ask * ask :=
  ([mkAsk toy_plan toy_layout (Ok (90, 100))], mkAsk toy_plan (Raise KStoreClient) (Ok (80, 100))).

Lemma admitted_fits_witness :
  (admit_new_bytes toy_cf (admit_all toy_cf open_segment_budget []) toy_plan toy_layout (Ok (90, 100))).2 = Raise KAdmissionWait /\
  exists from layout, from ∈ full_then_room.1 ++ [full_then_room.2] /\ ask_layout from = Ok layout /\
    80 + new_bytes layout (ask_plan from) <= 100.
Proof.
  split; [vm_compute; reflexivity|].
  destruct (admitted_fits toy_cf open_segment_budget full_then_room.1 full_then_room.2
    (admit_new_bytes toy_cf (admit_all toy_cf open_segment_budget full_then_room.1) toy_plan (Raise KStoreClient) (Ok (80, 100))).1)
    as (from&layout&probe&Hin&El&_&_&_&_&_&Hn&_).
  - right. reflexivity.
  - vm_compute. discriminate.
  - vm_compute. reflexivity.
  - exists from, layout. split; [exact Hin|]. split; [exact El|].
    destruct Hn as [Hn|(used&cap&[= <- <-]&_&Hn)]; lia.
Defined.

End Mooncake.
