(* ===== verification/Prefetch.v ===== *)
(** * kvcm: one prefetch

    [kvcm/flows/prefetch.py], and the part of [kvcm/task_engine.py] that runs one
    prefetch: waiting for room outside the gate, the gate, the copy and the
    polling.  Time is counted in milliseconds.

    What an awaited call answers is an argument: how the copy ended, the answers
    of [query_task] one after the other and how long each took, whether a sleep
    was cancelled.  The state is the trace of the calls: what each query answered
    and the handles [abandon] was called for. *)

From S2P Require Import Prelude KvcmTypes.

(** ** flows/prefetch.py *)

(** How draining a copy ended ([_drain_copy] after it cancelled the copy): the copy
    handed a handle back; it ended in its own cancellation; it raised
    [SubmitError]; the drain itself was cancelled (with a handle the copy had
    handed back, if any); it raised something else. *)
Inductive drain : Type :=
| DHandle (h : TaskHandle)
| DEnded
| DSubmit (oh : option TaskHandle)
| DInterrupted (handed : option TaskHandle)
| DRaise (x : kexn).

(** How waiting for the copy ended. *)
Inductive copy_end : Type :=
| CReturned (h : TaskHandle)
| CRaised (x : kexn)
| CTimedOut (d : drain)
| CCancelled (d : drain).

(** One answer of [query_task]. *)
Abbreviation poll := (result kexn TaskStatus).

(** What the flow did with a handle. *)
Inductive flow_event : Type :=
| Queried (a : poll)
| Abandoned (h : TaskHandle).

Module Flow.
Section flow.
(** [ab h]: what [ops.abandon(h)] raises, if anything. *)
Context (ab : TaskHandle -> option kexn).
Abbreviation trace := (list flow_event).

(** [_abandon]: lost handles and ledger failures are logged. *)
Definition abandon (oh : option TaskHandle) : M trace kexn unit := fun tr =>
  match oh with
  | None => (tr, Ok tt)
  | Some h =>
      (tr ++ [Abandoned h], match ab h with
                  | None | Some KKeyError | Some KSqlite | Some KShutdown => Ok tt
                  | Some x => Raise x
                  end)
  end.

(** Waiting for the copy: the handle to poll, or how the flow ends. *)
Definition await_copy (ce : copy_end) : M trace kexn TaskHandle :=
  match ce with
  | CReturned h => mret h
  | CRaised (KSubmit oh) => _ ← abandon oh; raise KPrefetch
  | CRaised x => raise x
  | CTimedOut d =>
      match d with
      | DHandle h => _ ← abandon (Some h); raise KPrefetch
      | DEnded => _ ← abandon None; raise KPrefetch
      | DSubmit oh => _ ← abandon oh; raise KPrefetch
      | DInterrupted handed => _ ← abandon handed; raise KCancelled
      | DRaise x => raise x
      end
  | CCancelled d =>
      match d with
      | DHandle h => _ ← abandon (Some h); raise KCancelled
      | DEnded => _ ← abandon None; raise KCancelled
      | DSubmit oh => raise (KSubmit oh)
      | DInterrupted handed => _ ← abandon handed; raise KCancelled
      | DRaise x => raise x
      end
  end.

Context (polls : nat -> poll) (took : nat -> Z) (sleep_cancelled : nat -> bool).
Context (poll_s : Z).

(** The polling loop from the [i]-th query at time [now]; [false]: out of fuel. *)
Fixpoint poll_loop (fuel : nat) (i : nat) (now deadline : Z) (h : TaskHandle) : M trace kexn bool :=
  match fuel with
  | O => mret false
  | S fuel' =>
      let now := now + took i in
      let go_on :=
        if deadline <=? now then (_ ← abandon (Some h); raise KPrefetch)
        else if sleep_cancelled i then raise KCancelled
        else poll_loop fuel' (S i) (now + poll_s) deadline h in
      _ ← modify (fun tr => tr ++ [Queried (polls i)]);
      match polls i with
      | Raise (KVerify _) => raise KPrefetch
      | Raise KQuery => go_on
      | Raise x => raise x
      | Ok TS_READY => mret true
      | Ok FAILED => raise KPrefetch
      | Ok _ => go_on
      end
  end.

(** [except asyncio.CancelledError: abandon; raise] around the loop. *)
Definition poll_to_end (fuel : nat) (now deadline : Z) (h : TaskHandle) : M trace kexn bool :=
  try_catch (poll_loop fuel 0 now deadline h)
    (fun x => if bool_decide (x = KCancelled) then (_ ← abandon (Some h); raise KCancelled) else raise x).

(** [run_after_exists]: [copy_took] is the time the copy took. *)
Definition run_after_exists (fuel : nat) (ce : copy_end) (copy_took timeout_s : Z) : M trace kexn bool :=
  h ← await_copy ce; poll_to_end fuel copy_took timeout_s h.

Definition run (fuel : nat) (present : result kexn bool) (ce : copy_end) (copy_took timeout_s : Z) :
    M trace kexn bool :=
  b ← lift present;
  if (b : bool) then run_after_exists fuel ce copy_took timeout_s else raise KPrefetch.

(** ** Every handle is settled *)

(** The handle a copy handed to the flow, returned or in its [SubmitError]. *)
Definition handed (ce : copy_end) : option TaskHandle :=
  match ce with
  | CReturned h => Some h
  | CRaised (KSubmit oh) => oh
  | CTimedOut (DHandle h) | CCancelled (DHandle h) => Some h
  | CTimedOut (DSubmit oh) | CCancelled (DSubmit oh) => oh
  | CTimedOut (DInterrupted oh) | CCancelled (DInterrupted oh) => oh
  | _ => None
  end.

(** Answers after which the backend tracks the handle no more. *)
Definition terminal_poll (p : poll) : bool :=
  match p with Ok TS_READY | Ok FAILED | Raise (KVerify _) => true | _ => false end.
(** Exceptions [query_task] is not documented to raise while a handle is tracked. *)
Definition unexpected (p : poll) : bool :=
  match p with Raise (KVerify _) | Raise KQuery | Raise KCancelled => false | Raise _ => true | Ok _ => false end.

(** The handle [h] needs no more tracking after the event [e]. *)
Definition settles (h : TaskHandle) (e : flow_event) : Prop :=
  match e with
  | Abandoned h' => h' = h
  | Queried a => terminal_poll a = true \/ unexpected a = true
  end.
(** The calls [tr'] extend [tr] and end with an event satisfying [P]. *)
Definition ends_with (P : flow_event -> Prop) (tr tr' : trace) : Prop :=
  exists ext e, tr' = tr ++ ext ++ [e] /\ P e.

Lemma ends_with_one (P : flow_event -> Prop) e tr : P e -> ends_with P tr (tr ++ [e]).
Proof. by exists [], e. Qed.

Lemma ends_with_trans (P : flow_event -> Prop) tr ext tr' : ends_with P (tr ++ ext) tr' -> ends_with P tr tr'.
Proof. intros (ext'&e&->&?). exists (ext ++ ext'), e. by rewrite <-!app_assoc. Qed.

Lemma abandon_then {A} h (x : kexn) tr :
  exists o, (abandon (Some h) ≫= fun _ => raise (A := A) x) tr = (tr ++ [Abandoned h], Raise o).
Proof. unfold mbind, M_bind, raise. simpl. destruct (ab h) as [[]|]; eauto. Qed.

(** What a run of the loop left behind, except when it ran out of fuel or was
    cancelled. *)
Definition loop_post (h : TaskHandle) (tr : trace) (r : trace * result kexn bool) : Prop :=
  match r.2 with
  | Ok false => True
  | Ok true => ends_with (fun e => e = Queried (Ok TS_READY)) tr r.1
  | Raise KCancelled => exists ext, r.1 = tr ++ ext
  | Raise _ => ends_with (settles h) tr r.1
  end.

Lemma loop_post_trans h tr ext r : loop_post h (tr ++ ext) r -> loop_post h tr r.
Proof.
  destruct r as [tr' [[]|[]]]; unfold loop_post; simpl; try apply ends_with_trans; [done|].
  intros [ext' ->]. exists (ext ++ ext'). by rewrite app_assoc.
Qed.

Lemma poll_loop_spec fuel : forall i now deadline h tr, loop_post h tr (poll_loop fuel i now deadline h tr).
Proof.
  induction fuel as [|fuel IH]; intros i now deadline h tr; [done|].
  cbn [poll_loop]. cbv zeta. unfold mbind at 1, M_bind at 1, modify at 1.
  destruct (polls i) as [[]|[]] eqn:Ep;
    try (apply loop_post_trans with (ext := [Queried (polls i)]); rewrite Ep;
         destruct (deadline <=? now + took i);
         [|destruct (sleep_cancelled i); [by exists []; rewrite app_nil_r|apply IH]];
         destruct (abandon_then (A := bool) h KPrefetch (tr ++ [Queried (polls i)])) as [x E]; rewrite Ep in E; rewrite E;
         unfold loop_post; simpl; destruct x; try (apply ends_with_one; done); by eexists);
    try (apply ends_with_one; simpl; auto; done); by exists [Queried (Raise KCancelled)].
Qed.

Lemma poll_to_end_settled fuel now deadline h tr : loop_post h tr (poll_loop fuel 0 now deadline h tr) ->
  match (poll_to_end fuel now deadline h tr).2 with
  | Ok false => True
  | Ok true => ends_with (fun e => e = Queried (Ok TS_READY)) tr (poll_to_end fuel now deadline h tr).1
  | Raise _ => ends_with (settles h) tr (poll_to_end fuel now deadline h tr).1
  end.
Proof.
  unfold poll_to_end, try_catch. destruct (poll_loop fuel 0 now deadline h tr) as [tr1 [[]|x]]; [done..|].
  unfold loop_post. simpl. case_bool_decide as Hx; [|by destruct x].
  subst x. intros [ext ->]. destruct (abandon_then (A := bool) h KCancelled (tr ++ ext)) as [y E]. rewrite E.
  apply ends_with_trans with (ext := ext). by apply ends_with_one.
Qed.

Lemma await_copy_returns ce tr tr1 h : await_copy ce tr = (tr1, Ok h) -> ce = CReturned h /\ tr1 = tr.
Proof.
  unfold await_copy, mbind, M_bind, raise. destruct ce as [h1|x|d|d]; [by intros [= -> ->]|..];
    [destruct x|destruct d|destruct d]; try done; destruct (abandon _ tr) as [? []]; done.
Qed.

(** The one case in which the flow loses a handle: it is cancelled while the copy runs,
    and the drained copy ends in a [SubmitError] that carries the handle. *)
Definition drops (ce : copy_end) : bool :=
  match ce with CCancelled (DSubmit (Some _)) => true | _ => false end.

Lemma await_copy_raises ce tr tr1 x h : await_copy ce tr = (tr1, Raise x) -> handed ce = Some h ->
  if drops ce then tr1 = tr /\ x = KSubmit (Some h) else ends_with (settles h) tr tr1.
Proof.
  assert (Hgen : forall oh (y : kexn), oh = Some h ->
    (abandon oh ≫= fun _ => raise (A := TaskHandle) y) tr = (tr1, Raise x) -> ends_with (settles h) tr tr1).
  { intros oh y -> E. destruct (abandon_then (A := TaskHandle) h y tr) as [z E2]. rewrite E2 in E.
    injection E as <- _. by apply ends_with_one. }
  destruct ce as [h0|[]|[]|[]]; intros Ea Hh; simplify_eq/=; try by (eapply Hgen; [|exact Ea]). by injection Ea as <- <-.
Qed.

Lemma flow_settled fuel ce copy_took timeout_s tr tr' o :
  run_after_exists fuel ce copy_took timeout_s tr = (tr', o) -> o <> Ok false ->
  (o = Ok true -> ends_with (fun e => e = Queried (Ok TS_READY)) tr tr') /\
  (forall h, handed ce = Some h ->
     if drops ce then tr' = tr /\ o = Raise (KSubmit (Some h)) else ends_with (settles h) tr tr').
Proof.
  intros E Hf. unfold run_after_exists, mbind, M_bind in E.
  destruct (await_copy ce tr) as [tr1 [h1|x]] eqn:Ea.
  - apply await_copy_returns in Ea as [-> ->].
    pose proof (poll_to_end_settled fuel copy_took timeout_s h1 tr (poll_loop_spec _ _ _ _ _ _)) as H.
    rewrite E in H. simpl in H. destruct o as [[]|]; [|done|by split; [|intros h [= <-]]].
    split; [done|]. intros h [= <-]. destruct H as (ext&e&->&->). exists ext, (Queried (Ok TS_READY)). split; [done|by left].
  - injection E as <- <-. split; [done|]. intros h Hh. apply await_copy_raises with (x := x) (h := h) in Ea; [|done].
    destruct (drops ce); [|done]. by destruct Ea as [-> ->].
Qed.

(** C26. What becomes of a transfer a prefetch started, however the flow ends (the copy
    returns, fails, times out or is cancelled, at any poll, or while draining).
    In every case but one the last call the flow made for a handle the copy
    handed over abandoned the handle or is a query with a terminal answer (or one
    [query_task] is not documented to raise).  The exception is a flow cancelled
    while its copy runs whose drained copy ends in a [SubmitError] that carries
    the handle: that error comes out in place of the cancellation and no call is
    made for the handle.  The flow succeeds only when its last query answered
    READY. *)
Theorem flow_settles fuel ce copy_took timeout_s tr tr' o :
  run_after_exists fuel ce copy_took timeout_s tr = (tr', o) -> o <> Ok false ->
  (o = Ok true -> ends_with (fun e => e = Queried (Ok TS_READY)) tr tr') /\
  (forall h, handed ce = Some h ->
     if drops ce then tr' = tr /\ o = Raise (KSubmit (Some h)) else ends_with (settles h) tr tr').
Proof. apply flow_settled. Qed.

(** A flow ends: with a positive polling interval, whatever the store answers, it has
    ended after at most one poll per interval of the timeout plus two. *)
Lemma flow_ends fuel ce copy_took timeout_s tr :
  0 < poll_s -> (forall i, 0 <= took i) -> 0 <= copy_took ->
  timeout_s < (Z.of_nat fuel - 1) * poll_s -> (1 <= fuel)%nat ->
  (run_after_exists fuel ce copy_took timeout_s tr).2 <> Ok false.
Proof.
  intros Hp Ht Hc Hf Hf1. unfold run_after_exists, mbind, M_bind.
  destruct (await_copy ce tr) as [tr1 [h|x]]; [|done]. unfold poll_to_end, try_catch.
  assert (Hloop : forall n i now, timeout_s < now + (Z.of_nat n - 1) * poll_s -> (1 <= n)%nat ->
    forall tr, (poll_loop n i now timeout_s h tr).2 <> Ok false).
  { induction n as [|n IH]; intros i now Hn Hn1 tr0; [lia|]. cbn [poll_loop]. cbv zeta.
    unfold mbind at 1, M_bind at 1, modify at 1. generalize (tr0 ++ [Queried (polls i)]). intros tr2.
    specialize (Ht i).
    assert (Hgo : ((if timeout_s <=? now + took i then (_ ← abandon (Some h); raise KPrefetch)
      else if sleep_cancelled i then raise KCancelled
      else poll_loop n (S i) (now + took i + poll_s) timeout_s h) tr2).2 <> Ok false).
    { destruct (timeout_s <=? now + took i) eqn:El.
      - destruct (abandon_then (A := bool) h KPrefetch tr2) as [y E]. by rewrite E.
      - zbool. destruct (sleep_cancelled i); [done|]. apply IH; [lia|].
        destruct n; [lia|]. lia. }
    destruct (polls i) as [[]|[]]; try exact Hgo; done. }
  specialize (Hloop fuel 0%nat copy_took ltac:(nia) Hf1 tr1). destruct (poll_loop fuel 0 copy_took timeout_s h tr1) as [tr2 [b|x]]; [done|].
  case_bool_decide; [|done]. destruct (abandon_then (A := bool) h KCancelled tr2) as [y E]. by rewrite E.
Qed.

(** A flow whose queries never answer READY does not succeed. *)
Lemma flow_not_ready fuel ce copy_took timeout_s tr : (forall j, polls j <> Ok TS_READY) ->
  (run_after_exists fuel ce copy_took timeout_s tr).2 <> Ok true.
Proof.
  intros Hp.
  assert (Hl : forall fuel i now h tr, (poll_loop fuel i now timeout_s h tr).2 <> Ok true).
  { clear fuel tr. induction fuel as [|fuel IH]; intros i now h tr; [done|]. cbn [poll_loop]. cbv zeta.
    unfold mbind at 1, M_bind at 1, modify at 1. specialize (Hp i). generalize (tr ++ [Queried (polls i)]). intros tr2.
    assert (Hgo : ((if timeout_s <=? now + took i then (_ ← abandon (Some h); raise KPrefetch)
      else if sleep_cancelled i then raise KCancelled
      else poll_loop fuel (S i) (now + took i + poll_s) timeout_s h) tr2).2 <> Ok true).
    { destruct (timeout_s <=? now + took i); [|destruct (sleep_cancelled i); [done|apply IH]].
      destruct (abandon_then (A := bool) h KPrefetch tr2) as [y E]. by rewrite E. }
    destruct (polls i) as [[]|[]]; first [exact Hgo|done]. }
  unfold run_after_exists, mbind, M_bind. destruct (await_copy ce tr) as [tr1 [h|x]]; [|done].
  unfold poll_to_end, try_catch. specialize (Hl fuel 0%nat copy_took h tr1).
  destruct (poll_loop fuel 0 copy_took timeout_s h tr1) as [tr2 [b|x]]; [done|].
  case_bool_decide; [|done]. destruct (abandon_then (A := bool) h KCancelled tr2) as [y E]. by rewrite E.
Qed.

End flow.
End Flow.

(** A copy whose handle is pending at the first poll and ready at the second. *)
Definition two_polls (i : nat) : poll := match i with O => Ok RUNNING | _ => Ok TS_READY end.
Definition wit_handle : TaskHandle := mkHandle COPY [TPair 0 1].

Lemma flow_settles_witness :
  let r := Flow.run_after_exists (fun _ => None) two_polls (fun _ => 1) (fun _ => false) 500 5 (CReturned wit_handle) 20 1000 [] in
  r = ([Queried (Ok RUNNING); Queried (Ok TS_READY)], Ok true) /\
  Flow.ends_with (Flow.settles wit_handle) [] r.1.
Proof.
  intros r. split; [reflexivity|].
  eapply (Flow.flow_settles (fun _ => None) two_polls (fun _ => 1) (fun _ => false) 500 5 (CReturned wit_handle) 20 1000 []);
    [reflexivity|discriminate|reflexivity].
Defined.
