(* ===== verification/Keepalive.v ===== *)
(** * kvcm: the keepalive loop

    [kvcm/loops.py], [KeepaliveLoop], over the ledger.  A sweep reads a snapshot of
    the registrations and visits them one after the other; every ledger call and
    every renewal is awaited, so other calls of the ledger run in between: they
    are arguments ([turn]), as is what [renew_once] answers.  The two skeleton
    loops of the file have no operation. *)

From S2P Require Import Prelude PyDict PyStr KvcmTypes Ledger.

Record KeepaliveLoop : Type := mkKeepaliveLoop {
  ks_ledger : Ledger;
  ks_interval : Z;
  ks_window : Z;
  ks_stop : bool;
  ks_register_failures : Z;
  (** writes handed to the event loop and not yet run *)
  ks_scheduled : list (bool * Prefix);
  (** the calls of [renew_once], oldest first *)
  ks_renewed : list Prefix
}.

(** The event loop as [_submit_ledger] finds it. *)
Inductive loop_view : Type := NotRunning | Running | Closing.

(** One visited record: the calls other tasks make before its ledger call, what
    [renew_once] answers, and the calls made while it runs. *)
Record turn : Type := mkTurn {
  t_before : list Db.lop;
  t_present : result kexn bool;
  t_during : list Db.lop
}.

Module Loop.
Section ops.
Context `{Digest}.

Definition init (ledger : Ledger) (interval window : Z) : result kexn KeepaliveLoop :=
  if interval <=? 0 then Raise KValueError
  else if window <=? 0 then Raise KValueError
  else Ok (mkKeepaliveLoop ledger interval window false 0 [] []).

Definition set_ledger l (s : KeepaliveLoop) : KeepaliveLoop :=
  mkKeepaliveLoop l (ks_interval s) (ks_window s) (ks_stop s) (ks_register_failures s) (ks_scheduled s) (ks_renewed s).
Definition set_stop b (s : KeepaliveLoop) : KeepaliveLoop :=
  mkKeepaliveLoop (ks_ledger s) (ks_interval s) (ks_window s) b (ks_register_failures s) (ks_scheduled s) (ks_renewed s).
Definition set_failures n (s : KeepaliveLoop) : KeepaliveLoop :=
  mkKeepaliveLoop (ks_ledger s) (ks_interval s) (ks_window s) (ks_stop s) n (ks_scheduled s) (ks_renewed s).
Definition set_scheduled w (s : KeepaliveLoop) : KeepaliveLoop :=
  mkKeepaliveLoop (ks_ledger s) (ks_interval s) (ks_window s) (ks_stop s) (ks_register_failures s) w (ks_renewed s).
Definition set_renewed r (s : KeepaliveLoop) : KeepaliveLoop :=
  mkKeepaliveLoop (ks_ledger s) (ks_interval s) (ks_window s) (ks_stop s) (ks_register_failures s) (ks_scheduled s) r.

Definition ledger_call {A} (c : M Ledger kexn A) : M KeepaliveLoop kexn A := fun s =>
  let '(l, r) := c (ks_ledger s) in (set_ledger l s, r).

Definition note_failure : M KeepaliveLoop kexn unit :=
  modify (fun s => set_failures (ks_register_failures s + 1) s).

(** [_observe_ledger_future]: a cancelled write is not counted. *)
Definition observe (c : M KeepaliveLoop kexn unit) : M KeepaliveLoop kexn unit :=
  try_catch c (fun x => if bool_decide (x = KCancelled) then mret tt else note_failure).

Definition write (now : Z) (w : bool * Prefix) : M Ledger kexn unit :=
  if w.1 then Db.register_keepalive now w.2 else Db.unregister_keepalive w.2.

Definition submit_ledger (now : Z) (v : loop_view) (w : bool * Prefix) : M KeepaliveLoop kexn unit :=
  match v with
  | NotRunning => observe (ledger_call (write now w))
  | Running => modify (fun s => set_scheduled (ks_scheduled s ++ [w]) s)
  | Closing => note_failure
  end.

(** [_schedule_ledger_write]: the event loop runs the oldest scheduled write. *)
Definition schedule_ledger_write (now : Z) : M KeepaliveLoop kexn unit := fun s =>
  match ks_scheduled s with
  | [] => (s, Ok tt)
  | w :: ws => observe (ledger_call (write now w)) (set_scheduled ws s)
  end.

Definition register (now : Z) (v : loop_view) (p : Prefix) := submit_ledger now v (true, p).
Definition unregister (now : Z) (v : loop_view) (p : Prefix) := submit_ledger now v (false, p).

(** [cancelled]: the write was interrupted by the cancellation of the caller. *)
Definition register_await (now : Z) (cancelled : bool) (p : Prefix) : M KeepaliveLoop kexn unit :=
  try_catch (if cancelled then raise KCancelled else ledger_call (Db.register_keepalive now p))
    (fun x => if bool_decide (x = KCancelled) then raise x else note_failure).

(** ** One sweep *)

(** Calls other tasks make on the ledger while the sweep waits. *)
Definition others (os : list Db.lop) : M KeepaliveLoop kexn unit :=
  modify (fun s => set_ledger (foldl Db.run_lop (ks_ledger s) os) s).

Definition sweep_one (now : Z) (rec : KeepaliveRecord) (t : turn) : M KeepaliveLoop kexn unit :=
  let p := ka_prefix rec in
  _ ← others (t_before t);
  window ← gets ks_window;
  if window <=? now - registered_at rec then ledger_call (Db.unregister_keepalive p)
  else
    b ← ledger_call (Db.has_keepalive p);
    if negb b then mret tt
    else
      _ ← modify (fun s => set_renewed (ks_renewed s ++ [p]) s);
      _ ← others (t_during t);
      match t_present t with
      | Raise KQuery => mret tt
      | Raise x => raise x
      | Ok present => if present then mret tt else ledger_call (Db.unregister_keepalive p)
      end.

Fixpoint sweep_loop (now : Z) (recs : list KeepaliveRecord) (ts : KeepaliveRecord -> turn) : M KeepaliveLoop kexn unit :=
  match recs with
  | [] => mret tt
  | r :: recs => _ ← sweep_one now r (ts r); sweep_loop now recs ts
  end.

Definition sweep_once (now : Z) (ts : KeepaliveRecord -> turn) : M KeepaliveLoop kexn unit :=
  recs ← ledger_call Db.list_keepalive_records; sweep_loop now recs ts.

(** One turn of [_run]: whether [stop] was called during the sleep, and the sweep.
    Returns whether the loop goes on. *)
Definition run_turn (now : Z) (stopped_meanwhile : bool) (ts : KeepaliveRecord -> turn) : M KeepaliveLoop kexn bool :=
  _ ← (if stopped_meanwhile then modify (set_stop true) else mret tt);
  stop ← gets ks_stop;
  if (stop : bool) then mret false
  else
    _ ← try_catch (sweep_once now ts)
          (fun x => if bool_decide (x = KCancelled) then raise x else mret tt);
    stop ← gets ks_stop;
    mret (negb stop).

Definition start : M KeepaliveLoop kexn unit := modify (set_stop false).
Definition stop : M KeepaliveLoop kexn unit := modify (set_stop true).

(** ** What a sweep leaves *)

Abbreviation wins := (foldl Db.window_step ∅).

(** The registration a sweep keeps: its window is open and the renewal did not
    report it gone. *)
Definition kept (now window : Z) (present : Prefix -> result kexn bool) (w : Prefix * Z) : bool :=
  (now - w.2 <? window) && match present w.1 with Ok false => false | _ => true end.

(** No other task touches the ledger during the sweep. *)
Definition quiet (present : Prefix -> result kexn bool) (r : KeepaliveRecord) : turn :=
  mkTurn [] (present (ka_prefix r)) [].

Lemma wins_keyed os k p t : wins os !! k = Some (p, t) -> k = prefix_key p.
Proof.
  revert k p t. induction os as [|o os IH] using rev_ind; intros k p t; [done|].
  rewrite foldl_app. simpl. destruct o; simpl; try apply IH.
  - rewrite lookup_insert_Some. intros [[<- [= <- _]]|[_ E]]; [done|by apply IH in E].
  - rewrite lookup_delete_Some. intros [_ E]. by apply IH in E.
  - case_bool_decide; [apply IH|]. rewrite lookup_insert_Some. intros [[<- [= <- _]]|[_ E]]; [done|by apply IH in E].
Qed.

(** A ledger reached by calls, and the registrations it holds. *)
Definition at_history (os : list Db.lop) (s : KeepaliveLoop) : Prop := ks_ledger s = Db.history os.

Lemma has_keepalive_at os s p : at_history os s ->
  ledger_call (Db.has_keepalive p) s = (s, Ok (bool_decide (is_Some (wins os !! prefix_key p)))).
Proof.
  intros Hs. unfold ledger_call, Db.has_keepalive. rewrite Hs. destruct (Db.history_ok os).
  rewrite Db.run_open by done. unfold din. rewrite lo_keep.
  assert (set_ledger (Db.history os) s = s) as -> by (rewrite <- Hs; by destruct s).
  by destruct (wins os !! prefix_key p).
Qed.

Lemma unregister_at os s p : at_history os s ->
  exists s', ledger_call (Db.unregister_keepalive p) s = (s', Ok tt) /\
    at_history (os ++ [Db.LUnregister p]) s' /\ s' = set_ledger (ks_ledger s') s.
Proof.
  intros Hs. unfold ledger_call, at_history, Db.history. rewrite foldl_app. fold (Db.history os). simpl. rewrite Hs.
  destruct (Db.unregister_keepalive p (Db.history os)) as [l o] eqn:E. exists (set_ledger l s). split; [|done].
  f_equal. revert E. destruct (Db.history_ok os). unfold Db.unregister_keepalive. rewrite Db.run_open by done. by intros [= <- <-].
Qed.

(** One visited record of a quiet sweep. *)
Lemma sweep_one_quiet os now present rec s : at_history os s ->
  (present (ka_prefix rec) = Raise KQuery \/ exists b, present (ka_prefix rec) = Ok b) ->
  wins os !! prefix_key (ka_prefix rec) = Some (ka_prefix rec, registered_at rec) ->
  let k := prefix_key (ka_prefix rec) in
  exists s' os', sweep_one now rec (quiet present rec) s = (s', Ok tt) /\ at_history (os ++ os') s' /\
    wins (os ++ os') = (if kept now (ks_window s) present (ka_prefix rec, registered_at rec) then wins os else delete k (wins os)) /\
    ks_window s' = ks_window s /\
    ks_renewed s' = ks_renewed s ++ (if now - registered_at rec <? ks_window s then [ka_prefix rec] else []).
Proof.
  intros Hs Hp Hm k. unfold sweep_one, quiet, others. cbn [t_before t_present t_during].
  unfold mbind, M_bind, modify, gets. cbn [foldl].
  assert (set_ledger (ks_ledger s) s = s) as -> by (by destruct s).
  unfold kept. cbn [fst snd].
  destruct (ks_window s <=? now - registered_at rec) eqn:Ew; zbool.
  - destruct (unregister_at os s (ka_prefix rec) Hs) as (s'&E&Hs'&Hl). exists s', [Db.LUnregister (ka_prefix rec)].
    rewrite E. destruct (now - registered_at rec <? ks_window s) eqn:Ew'; zbool; [lia|].
    split_and!; [done|done|by rewrite foldl_app|by rewrite Hl|by rewrite Hl, app_nil_r].
  - rewrite (has_keepalive_at os s _ Hs), Hm, bool_decide_eq_true_2 by eauto.
    destruct (now - registered_at rec <? ks_window s) eqn:Ew'; zbool; [|lia]. cbn [negb andb].
    set (s1 := set_renewed (ks_renewed s ++ [ka_prefix rec]) s).
    assert (Hs1 : at_history os s1) by done.
    assert (set_ledger (ks_ledger s1) s1 = s1) as -> by done.
    destruct Hp as [->|[[] ->]].
    + exists s1, []. by rewrite app_nil_r.
    + exists s1, []. by rewrite app_nil_r.
    + destruct (unregister_at os s1 (ka_prefix rec) Hs1) as (s'&E&Hs'&Hl). exists s', [Db.LUnregister (ka_prefix rec)].
      rewrite E. split_and!; [done|done|by rewrite foldl_app|by rewrite Hl|by rewrite Hl].
Qed.

Lemma sweep_loop_quiet now present recs : forall os s,
  (forall p, present p = Raise KQuery \/ exists b, present p = Ok b) -> at_history os s ->
  NoDup (prefix_key ∘ ka_prefix <$> recs) ->
  (forall r, r ∈ recs -> wins os !! prefix_key (ka_prefix r) = Some (ka_prefix r, registered_at r)) ->
  exists s' os', sweep_loop now recs (quiet present) s = (s', Ok tt) /\ at_history (os ++ os') s' /\
    (forall k, wins (os ++ os') !! k =
       if decide (k ∈ (prefix_key ∘ ka_prefix <$> recs)) then w ← wins os !! k; guard (kept now (ks_window s) present w = true);; Some w
       else wins os !! k) /\
    ks_renewed s' = ks_renewed s ++ (ka_prefix <$> filter (fun r => now - registered_at r < ks_window s) recs).
Proof.
  induction recs as [|r recs IH]; intros os s Hp Hs Hnd Hrec.
  { exists s, []. rewrite (app_nil_r os). split_and!; [done|done| |by rewrite filter_nil, app_nil_r].
    intros k. by rewrite decide_False by apply not_elem_of_nil. }
  rewrite fmap_cons, NoDup_cons in Hnd. destruct Hnd as [Hn Hnd].
  pose proof (Hrec r (list_elem_of_here _ _)) as Hr. cbn [sweep_loop].
  destruct (sweep_one_quiet os now present r s Hs (Hp _) Hr) as (s1&os1&E1&Hs1&Hw1&Hk1&Hn1).
  destruct (IH (os ++ os1) s1 Hp Hs1 Hnd) as (s2&os2&E2&Hs2&Hw2&Hn2).
  { intros r' Hr'. rewrite Hw1. destruct (kept now (ks_window s) present (ka_prefix r, registered_at r)); [apply Hrec; by right|].
    rewrite lookup_delete_ne; [apply Hrec; by right|]. intros Heq. apply Hn. unfold compose. rewrite Heq.
    apply list_elem_of_fmap. eauto. }
  exists s2, (os1 ++ os2). rewrite app_assoc. unfold mbind, M_bind. rewrite E1. split_and!; [done|done|..].
  - intros k. rewrite Hw2, Hk1, fmap_cons. unfold compose at 3. destruct (decide (k = prefix_key (ka_prefix r))) as [->|Hne].
    + rewrite decide_False by done. rewrite decide_True by left. rewrite Hw1, Hr. simpl.
      destruct (kept now (ks_window s) present (ka_prefix r, registered_at r)); simpl; [done|by rewrite lookup_delete_eq].
    + assert (wins (os ++ os1) !! k = wins os !! k) as ->.
      { rewrite Hw1. destruct (kept now (ks_window s) present (ka_prefix r, registered_at r)); [done|by rewrite lookup_delete_ne]. }
      destruct (decide (k ∈ _)); [by rewrite decide_True by (by right)|].
      rewrite decide_False; [done|]. by rewrite elem_of_cons; intros [|].
  - rewrite Hn2, Hn1, Hk1, filter_cons. destruct (now - registered_at r <? ks_window s) eqn:Ew; zbool.
    + rewrite decide_True by lia. by rewrite <- app_assoc.
    + rewrite decide_False by lia. by rewrite app_nil_r.
Qed.

(** One sweep of the keepalive loop, from any ledger history and with nobody else
    writing meanwhile: it ends normally, exactly the registrations with an open
    window are renewed, each once, and exactly those whose window is open and
    which the store did not report gone stay registered, with their window
    unmoved; a failed query keeps the registration. *)
Theorem sweep_keeps_live os now present s : ks_ledger s = Db.history os ->
  (forall p, present p = Raise KQuery \/ exists b, present p = Ok b) ->
  exists s' os', sweep_once now (quiet present) s = (s', Ok tt) /\ ks_ledger s' = Db.history (os ++ os') /\
    wins (os ++ os') = filter (fun kw => kept now (ks_window s) present kw.2 = true) (wins os) /\
    exists fresh, ks_renewed s' = ks_renewed s ++ fresh /\
      fresh ≡ₚ (fun kw => kw.2.1) <$> filter (fun kw => now - kw.2.2 < ks_window s) (map_to_list (wins os)).
Proof.
  intros Hs Hp. destruct (Db.keepalive_records_perm os) as (rs&Hl&Hperm).
  unfold sweep_once, mbind, M_bind, ledger_call at 1. rewrite Hs, Hl.
  assert (set_ledger (Db.history os) s = s) as -> by (rewrite <- Hs; by destruct s).
  assert (Hkeys : prefix_key ∘ ka_prefix <$> rs ≡ₚ (map_to_list (wins os)).*1).
  { rewrite Hperm, <- list_fmap_compose. erewrite list_fmap_ext; [reflexivity|].
    intros i [k [p t]] Hi. apply list_elem_of_lookup_2, elem_of_map_to_list, wins_keyed in Hi. by rewrite Hi. }
  destruct (sweep_loop_quiet now present rs os s Hp Hs) as (s'&os'&E&Hs'&Hw&Hn).
  { rewrite Hkeys. apply NoDup_fst_map_to_list. }
  { intros r Hr. rewrite Hperm in Hr. apply list_elem_of_fmap in Hr as ([k [p t]]&->&Hin). simpl.
    apply elem_of_map_to_list in Hin. by rewrite <- (wins_keyed _ _ _ _ Hin). }
  exists s', os'. split_and!; [done|done|..].
  - apply map_eq. intros k. rewrite Hw, map_lookup_filter.
    destruct (decide (k ∈ _)) as [|Hk]; [done|]. destruct (wins os !! k) as [w|] eqn:Ek; [|done]. exfalso. apply Hk.
    rewrite Hkeys. apply list_elem_of_fmap. exists (k, w). split; [done|]. by apply elem_of_map_to_list.
  - eexists. split; [exact Hn|]. rewrite Hperm, list_filter_fmap, <- list_fmap_compose. done.
Qed.

(** Defect: the sweep acts on what it read before it waited.  When a prefetch
    finishes and registers its prefix while the sweep's renewal of that prefix is
    on its way to report the old copy gone, the new registration is removed. *)
Theorem stale_absence_drops_registration now later p s :
  let r := mkKeepRecord p now in
  lg_closed (ks_ledger s) = false -> dict_wf (lg_keepalive (ks_ledger s)) ->
  0 < ks_window s -> dget (prefix_key p) (lg_keepalive (ks_ledger s)) <> None ->
  let s' := (sweep_one now r (mkTurn [] (Ok false) [Db.LRegister later p]) s).1 in
  dget (prefix_key p) (lg_keepalive (ks_ledger s')) = None.
Proof.
  intros r. destruct s as [[tasks ka reps sess []] iv w st fl sch rn]; [done|]. simpl. intros _ Hwf Hw Hd.
  unfold sweep_one, others, ledger_call, mbind, M_bind, modify, gets, set_ledger. simpl.
  destruct (w <=? now - now) eqn:E; zbool; [lia|].
  unfold Db.has_keepalive, Db.run, din. simpl. destruct (dget (prefix_key p) ka) eqn:Ed; [|done]. simpl.
  rewrite Ed. by apply dget_ddel_eq, dict_wf_dset.
Qed.

End ops.
End Loop.

(** Two registrations, one of them past its window, the other reported gone. *)
Lemma sweep_keeps_live_witness :
  let d : Digest := fun s => s in
  let p1 := mkPrefix "m" [1] in
  let p2 := mkPrefix "m" [2] in
  let os := [Db.LRegister 0 p1; Db.LRegister 50 p2] in
  let s := mkKeepaliveLoop (Db.history os) 5 60 false 0 [] [] in
  (exists s' os', Loop.sweep_once 70 (Loop.quiet (fun _ => Raise KQuery)) s = (s', Ok tt) /\
     ks_ledger s' = Db.history (os ++ os')) /\
  ks_renewed (Loop.sweep_once 70 (Loop.quiet (fun _ => Raise KQuery)) s).1 = [p2].
Proof.
  intros d p1 p2 os s. split; [|reflexivity].
  destruct (Loop.sweep_keeps_live os 70 (fun _ => Raise KQuery) s eq_refl) as (s'&os'&E&Hl&_); [by left|].
  by exists s', os'.
Defined.
