(* ===== verification/Events.v ===== *)
(** * kvcm: republished block events

    [kvcm/api/events.py]: one publisher per target instance, built on first use, and
    one [BlockStored] event per prefix that became ready.  The publisher class,
    the block hash and the hash conversion are upstream code: parameters.  A
    publisher is described by its queue bound, the batches handed to it and
    whether it was shut down. *)

From S2P Require Import Prelude PyDict PyStr KvcmTypes Keys Instances.
From Stdlib Require Import Ascii.
Local Open Scope Z_scope.

Section events.
Context {BH EH : Type} (hash_block_tokens : option BH -> list Z -> BH) (convert : BH -> EH).

Record BlockStored : Type := mkBlockStored {
  ev_block_hashes : list EH;
  ev_parent : option EH;
  ev_token_ids : list Z;
  ev_block_size : Z;
  ev_group_idx : Z;
  ev_kind : string
}.

Record EventBatch : Type := mkEventBatch {
  eb_ts : Z;
  eb_events : list BlockStored;
  eb_rank : Z
}.

(** [pub_maxsize]: the bound of [_event_queue] ([Some 0]: unbounded), [None] when the
    publisher has no such queue. *)
Record Publisher : Type := mkPublisher {
  pub_endpoint : string;
  pub_maxsize : option Z;
  pub_batches : list EventBatch;
  pub_down : bool
}.

Record EventPublisher : Type := mkEventPublisher {
  ep_endpoints : dict string string;
  ep_block_size : Z;
  ep_pubs : dict string Publisher;
  ep_missing : list string;
  (** publishers taken out of the table by [shutdown] *)
  ep_stopped : list Publisher
}.

(** [parse_kv_event_endpoints]: [str.partition("=")] of every argument. *)
Fixpoint parse_endpoints (items : list string) (out : dict string string) : result kexn (dict string string) :=
  match items with
  | [] => Ok out
  | raw :: items =>
      match split_first "=" raw with
      | None => Raise KValueError
      | Some (i, e) =>
          if bool_decide (i = EmptyString) || bool_decide (e = EmptyString) then Raise KValueError
          else if din i out then Raise KValueError
          else parse_endpoints items (dset i e out)
      end
  end.
Definition parse_kv_event_endpoints (items : list string) : result kexn (dict string string) := parse_endpoints items [].

Definition init (endpoints : dict string string) (block_size : Z) : EventPublisher :=
  mkEventPublisher endpoints block_size [] [] [].

Definition set_pubs p (s : EventPublisher) : EventPublisher :=
  mkEventPublisher (ep_endpoints s) (ep_block_size s) p (ep_missing s) (ep_stopped s).
Definition set_missing m (s : EventPublisher) : EventPublisher :=
  mkEventPublisher (ep_endpoints s) (ep_block_size s) (ep_pubs s) m (ep_stopped s).

(** The upstream constructor: the queue bound of the publisher it makes, or what it
    raises. *)
Context (make_publisher : string -> result kexn (option Z)).

Definition publisher_for (instance_id endpoint : string) : M EventPublisher kexn Publisher := fun s =>
  match dget instance_id (ep_pubs s) with
  | Some pub => (s, Ok pub)
  | None =>
      match make_publisher endpoint with
      | Raise x => (s, Raise x)
      | Ok q => let pub := mkPublisher endpoint q [] false in
                (set_pubs (dset instance_id pub (ep_pubs s)) s, Ok pub)
      end
  end.

Definition push (pub : Publisher) (b : EventBatch) : Publisher :=
  mkPublisher (pub_endpoint pub) (pub_maxsize pub) (pub_batches pub ++ [b]) (pub_down pub).

(** [put_nowait] when there is a queue, dropping the batch when it is full. *)
Definition enqueue (instance_id : string) (pub : Publisher) (b : EventBatch) : M EventPublisher kexn unit :=
  modify (fun s =>
    match pub_maxsize pub with
    | Some m => if (0 <? m) && (m <=? zlen (pub_batches pub)) then s
                else set_pubs (dset instance_id (push pub b) (ep_pubs s)) s
    | None => set_pubs (dset instance_id (push pub b) (ep_pubs s)) s
    end).

Definition block_stored (c : TokenBlockChain) : BlockStored :=
  mkBlockStored (convert <$> block_hashes c) (convert <$> parent_block_hash c) (chain_token_ids c)
    (chain_block_size c) 0 "full_attention".

Definition publish_block_stored (now : Z) (seed_ok : bool) (p : Prefix) (instance_id : string) :
    M EventPublisher kexn unit := fun s =>
  match dget instance_id (ep_endpoints s) with
  | None => (if bool_decide (instance_id ∈ ep_missing s) then s else set_missing (ep_missing s ++ [instance_id]) s, Ok tt)
  | Some endpoint =>
      match hash_token_block_chain hash_block_tokens seed_ok (token_ids p) (ep_block_size s) with
      | Raise x => (s, Raise x)
      | Ok chain =>
          match block_hashes chain with
          | [] => (s, Ok tt)
          | _ => (pub ← publisher_for instance_id endpoint;
                  enqueue instance_id pub (mkEventBatch now [block_stored chain] 0)) s
          end
      end
  end.

Definition shut (pub : Publisher) : Publisher :=
  mkPublisher (pub_endpoint pub) (pub_maxsize pub) (pub_batches pub) true.
Definition shutdown : M EventPublisher kexn unit := modify (fun s =>
  mkEventPublisher (ep_endpoints s) (ep_block_size s) [] (ep_missing s) (ep_stopped s ++ (shut <$> dvals (ep_pubs s)))).

(** ** What is published where *)

Inductive event_op : Type :=
| EPublish (now : Z) (seed_ok : bool) (p : Prefix) (instance_id : string)
| EShutdown.
Definition run_event (s : EventPublisher) (o : event_op) : EventPublisher :=
  match o with
  | EPublish now ok p i => (publish_block_stored now ok p i s).1
  | EShutdown => (shutdown s).1
  end.

(** A batch as the contract has it: one event with the hashes and the tokens of the
    whole blocks of a prefix that was published to this instance, rank 0. *)
Definition batch_ok (bs : Z) (ops : list event_op) (i : string) (b : EventBatch) : Prop :=
  exists now p ev, EPublish now true p i ∈ ops /\ b = mkEventBatch now [ev] 0 /\ ev_kind ev = "full_attention" /\
    ev_block_size ev = bs /\ ev_token_ids ev = take (Z.to_nat (zlen (token_ids p) / bs * bs)) (token_ids p) /\
    0 < zlen (ev_block_hashes ev) /\ zlen (ev_token_ids ev) = zlen (ev_block_hashes ev) * bs /\
    exists c, hash_token_block_chain hash_block_tokens true (token_ids p) bs = Ok c /\
      ev_block_hashes ev = convert <$> block_hashes c.

Record publisher_ok (ops : list event_op) (s : EventPublisher) (i : string) (pub : Publisher) : Prop := {
  po_endpoint : dget i (ep_endpoints s) = Some (pub_endpoint pub);
  po_up : pub_down pub = false;
  po_bound : forall m, pub_maxsize pub = Some m -> 0 < m -> zlen (pub_batches pub) <= m;
  po_batches : Forall (batch_ok (ep_block_size s) ops i) (pub_batches pub)
}.

Lemma chain_batch_ok now p bs i ops c : 0 < bs -> EPublish now true p i ∈ ops ->
  hash_token_block_chain hash_block_tokens true (token_ids p) bs = Ok c -> block_hashes c <> [] ->
  batch_ok bs ops i (mkEventBatch now [block_stored c] 0).
Proof.
  intros Hbs Hin E Hne. exists now, p, (block_stored c). pose proof E as E'.
  rewrite (chain_hashes _ (token_ids p) bs Hbs) in E'. injection E' as Hc.
  assert (Hq : 0 <= zlen (token_ids p) / bs) by (apply Z.div_pos; lia).
  pose proof (Z.mul_div_le (zlen (token_ids p)) bs Hbs) as Hle.
  assert (Hlen : zlen (block_hashes c) = zlen (token_ids p) / bs).
  { rewrite <- Hc. cbn [block_hashes]. destruct (hash_loop_extends hash_block_tokens
      (starts bs (Z.to_nat (zlen (token_ids p) / bs))) bs (take (Z.to_nat (zlen (token_ids p) / bs * bs)) (token_ids p)) None [])
      as (ext&->&Hl). simpl. rewrite Hl.
    unfold starts. rewrite length_fmap, length_zseq. lia. }
  split_and!; try done; try (by rewrite <- Hc); cbn [ev_block_hashes ev_token_ids block_stored]; rewrite ?length_fmap.
  - destruct (block_hashes c); [done|]. simpl. lia.
  - rewrite Hlen. rewrite <- Hc at 1. cbn [chain_token_ids]. rewrite length_take. nia.
  - by exists c.
Qed.

Lemma batch_ok_mono bs ops o i b : batch_ok bs ops i b -> batch_ok bs (ops ++ [o]) i b.
Proof. intros (now&p&ev&Hin&H). exists now, p, ev. split; [set_solver|done]. Qed.

Lemma publisher_ok_mono ops o s s' i pub : publisher_ok ops s i pub -> ep_endpoints s' = ep_endpoints s ->
  ep_block_size s' = ep_block_size s -> publisher_ok (ops ++ [o]) s' i pub.
Proof.
  intros [] He Hb. split; [by rewrite He|done|done|]. rewrite Hb. eapply Forall_impl; [done|].
  intros. by apply batch_ok_mono.
Qed.

Lemma publisher_ok_push ops s i pub b : publisher_ok ops s i pub -> batch_ok (ep_block_size s) ops i b ->
  (forall m, pub_maxsize pub = Some m -> 0 < m -> zlen (pub_batches pub) < m) -> publisher_ok ops s i (push pub b).
Proof.
  intros [] Hb Hm. split; [done|done|..]; simpl.
  - intros m E Hp. specialize (Hm m E Hp). rewrite length_app. simpl. lia.
  - apply Forall_app. split; [done|]. by apply Forall_singleton.
Qed.

(** All publishers of the table satisfy their contract. *)
Definition events_inv (eps : dict string string) (bs : Z) (ops : list event_op) (s : EventPublisher) : Prop :=
  ep_endpoints s = eps /\ ep_block_size s = bs /\
  forall i pub, dget i (ep_pubs s) = Some pub -> publisher_ok ops s i pub.

Lemma events_inv_set eps bs ops s i pub : events_inv eps bs ops s -> publisher_ok ops s i pub ->
  events_inv eps bs ops (set_pubs (dset i pub (ep_pubs s)) s).
Proof.
  intros (He&Hb&Hp) Hi. split_and!; [done|done|]. intros j pub'. simpl.
  destruct (decide (j = i)) as [->|Hne]; [rewrite dget_dset_eq; intros [= <-]; by destruct Hi|].
  rewrite dget_dset_ne by done. intros E. by destruct (Hp _ _ E).
Qed.

Lemma enqueue_inv eps bs ops s i pub b : events_inv eps bs ops s -> publisher_ok ops s i pub ->
  batch_ok bs ops i b -> events_inv eps bs ops (enqueue i pub b s).1.
Proof.
  intros Hi Hp Hb. unfold enqueue, modify. destruct (pub_maxsize pub) as [m|] eqn:Em; simpl.
  - destruct ((0 <? m) && (m <=? zlen (pub_batches pub))) eqn:Ef; [done|]. apply events_inv_set; [done|].
    apply publisher_ok_push; [done|by destruct Hi as (_&->&_)|]. rewrite Em. intros ? [= <-]; zbool; lia.
  - apply events_inv_set; [done|]. apply publisher_ok_push; [done|by destruct Hi as (_&->&_)|]. by rewrite Em.
Qed.

Lemma events_inv_publish eps bs ops s now ok p i : 0 < bs -> events_inv eps bs ops s ->
  events_inv eps bs (ops ++ [EPublish now ok p i]) (publish_block_stored now ok p i s).1.
Proof.
  intros Hbs Hi.
  assert (Hi' : events_inv eps bs (ops ++ [EPublish now ok p i]) s).
  { destruct Hi as (He&Hb&Hp). split_and!; [done..|]. intros j pub E. by apply publisher_ok_mono with (s := s); [apply Hp|..]. }
  unfold publish_block_stored. destruct (dget i (ep_endpoints s)) as [endpoint|] eqn:Ee.
  2:{ simpl. case_bool_decide; [done|]. destruct Hi' as (?&?&Hp). split_and!; [done..|]. intros j pub E. by destruct (Hp _ _ E). }
  destruct (hash_token_block_chain _ ok _ _) as [c|x] eqn:Ec; [|done].
  destruct (block_hashes c) as [|h hs] eqn:Eh; [done|].
  assert (Hbatch : batch_ok bs (ops ++ [EPublish now ok p i]) i (mkEventBatch now [block_stored c] 0)).
  { destruct ok; [|done]. destruct Hi as (_&Hb&_). rewrite Hb in Ec. apply chain_batch_ok with (p := p); [done|set_solver|done|by rewrite Eh]. }
  unfold mbind, M_bind, publisher_for. destruct (dget i (ep_pubs s)) as [pub|] eqn:Ep.
  - apply enqueue_inv; [done| |done]. by apply Hi'.
  - destruct (make_publisher endpoint) as [q|x]; [|done].
    assert (Hnew : publisher_ok (ops ++ [EPublish now ok p i]) s i (mkPublisher endpoint q [] false)).
    { split; simpl; [done|done| |done]. intros; lia. }
    apply enqueue_inv; [by apply events_inv_set|by destruct Hnew|done].
Qed.

(** Block events reach the right readers: over any sequence of publications and
    shutdowns, each instance's publisher is bound to that instance's own
    endpoint, holds no more batches than its queue bound, and every batch on it
    carries exactly the whole blocks (tokens and hashes) of a prefix that was
    published to that instance; an instance without an endpoint has none. *)
Theorem events_routed eps bs ops : 0 < bs ->
  let s := foldl run_event (init eps bs) ops in
  forall i pub, dget i (ep_pubs s) = Some pub -> publisher_ok ops s i pub.
Proof.
  intros Hbs. cut (events_inv eps bs ops (foldl run_event (init eps bs) ops)); [by intros (_&_&?)|].
  induction ops as [|o ops IH] using rev_ind; [done|]. rewrite foldl_app. simpl.
  destruct o as [now ok p i|]; [by apply events_inv_publish|]. destruct IH as (?&?&?). by split_and!.
Qed.
End events.

Lemma events_routed_witness :
  let h := fun (p : option Z) (l : list Z) => default 7 p * 31 + zsum l in
  let ops := [EPublish 5 true (mkPrefix "m" [1; 2; 3; 4; 5]) "i1"; EPublish 6 true (mkPrefix "m" [1; 2]) "i2"] in
  let s := foldl (run_event h (fun x => x) (fun _ => Ok (Some 1))) (init [("i1", "tcp://*:1")] 2) ops in
  (exists pub, dget "i1" (ep_pubs s) = Some pub /\ publisher_ok h (fun x => x) ops s "i1" pub) /\ ep_missing s = ["i2"].
Proof.
  intros h ops s. split; [|reflexivity]. eexists. split; [reflexivity|].
  by apply (events_routed h (fun x => x) (fun _ => Ok (Some 1)) [("i1", "tcp://*:1")] 2 ops).
Defined.
