(* ===== verification/TaskEngine.v ===== *)
(** * kvcm: the task engine

    [kvcm/task_engine.py].  [Run] is one prefetch: the throttle, the existence check,
    waiting for room outside the gate, the gate, the flow of [Prefetch], and what
    follows a ready copy; and the tracking of handles found after a restart.
    [Intents] has the intent table. *)

From S2P Require Import Prelude PyDict PyStr KvcmTypes Ledger Prefetch Keepalive Events.

(** How waiting for a gate place ended.  A place is held only after [GAcquired]: a
    semaphore gives a place back when the waiter is cancelled. *)
Inductive gate_end : Type := GAcquired | GTimedOut | GCancelled.

(** What the environment answers in one round of [_wait_then_run], and how long each
    call takes in milliseconds. *)
Record round : Type := mkRound {
  r_room : result kexn unit;
  r_room_took : Z;
  r_sleep_cancelled : bool;
  r_oversleep : Z;
  r_gate : gate_end;
  r_gate_took : Z;
  r_copy : copy_end;
  r_copy_took : Z;
  r_polls : nat -> poll;
  r_polls_took : nat -> Z;
  r_poll_cancelled : nat -> bool;
  r_flow_took : Z
}.

Module Run.
Section run.
Context `{Digest}.
Context {BH EH : Type} (hash_block_tokens : option BH -> list Z -> BH) (convert : BH -> EH).
Context (make_publisher : string -> result kexn (option Z)) (ab : TaskHandle -> option kexn).

Record RunState : Type := mkRun {
  rs_now : Z;
  (** gate places this prefetch holds *)
  rs_held : Z;
  (** segment budgets this prefetch has open *)
  rs_budgets : Z;
  (** the budget left at each started copy *)
  rs_copies : list Z;
  rs_calls : list flow_event;
  rs_keepalive : option KeepaliveLoop;
  rs_events : option (EventPublisher (EH := EH))
}.

Definition tick (d : Z) (s : RunState) : RunState :=
  mkRun (rs_now s + d) (rs_held s) (rs_budgets s) (rs_copies s) (rs_calls s) (rs_keepalive s) (rs_events s).
Definition hold (d : Z) (s : RunState) : RunState :=
  mkRun (rs_now s) (rs_held s + d) (rs_budgets s) (rs_copies s) (rs_calls s) (rs_keepalive s) (rs_events s).
Definition budget (d : Z) (s : RunState) : RunState :=
  mkRun (rs_now s) (rs_held s) (rs_budgets s + d) (rs_copies s) (rs_calls s) (rs_keepalive s) (rs_events s).
Definition add_copy (left : Z) (s : RunState) : RunState :=
  mkRun (rs_now s) (rs_held s) (rs_budgets s) (rs_copies s ++ [left]) (rs_calls s) (rs_keepalive s) (rs_events s).
Definition set_calls c (s : RunState) : RunState :=
  mkRun (rs_now s) (rs_held s) (rs_budgets s) (rs_copies s) c (rs_keepalive s) (rs_events s).
Definition set_keep k (s : RunState) : RunState :=
  mkRun (rs_now s) (rs_held s) (rs_budgets s) (rs_copies s) (rs_calls s) k (rs_events s).
Definition set_events e (s : RunState) : RunState :=
  mkRun (rs_now s) (rs_held s) (rs_budgets s) (rs_copies s) (rs_calls s) (rs_keepalive s) e.

Abbreviation R := (M RunState kexn).

(** ** Waiting outside the gate, then running inside it *)

Context (poll_s : Z).

Definition remaining (deadline : Z) : R Z := gets (fun s => deadline - rs_now s).

(** Polls the flow can make before its own deadline. *)
Definition flow_fuel (left : Z) : nat := Z.to_nat (left / poll_s + 3).

(** [run_after_exists] with the budget [left]. *)
Definition flow (r : round) (left : Z) : R bool := fun s =>
  let '(tr, o) := Flow.run_after_exists ab (r_polls r) (r_polls_took r) (r_poll_cancelled r) poll_s
                    (flow_fuel left) (r_copy r) (r_copy_took r) left (rs_calls s) in
  (tick (r_flow_took r) (set_calls tr s), o).

(** How a round ended when it raised nothing: back to waiting, returned, or the flow's
    polls outran their fuel. *)
Inductive round_end : Type := Again | Finished | OutOfFuel.

(** Inside the gate. *)
Definition inside (r : round) (deadline : Z) : R round_end :=
  try_catch
    (left ← remaining deadline;
     if left <=? 0 then raise KPrefetch
     else (_ ← modify (add_copy left); ended ← flow r left; mret (if (ended : bool) then Finished else OutOfFuel)))
    (fun x => match x with
              | KAdmissionWait => mret Again
              | KAdmissionStop => raise KPrefetch
              | _ => raise x
              end).

Definition enter_gate (r : round) (deadline : Z) : R round_end :=
  left ← remaining deadline;
  if left <=? 0 then raise KPrefetch
  else
    _ ← modify (tick (r_gate_took r));
    match r_gate r with
    | GTimedOut => raise KPrefetch
    | GCancelled => raise KCancelled
    | GAcquired => _ ← modify (hold 1); try_finally (inside r deadline) (modify (hold (-1)))
    end.

(** One round of the loop. *)
Definition wait_round (r : round) (deadline : Z) : R round_end :=
  left ← remaining deadline;
  if left <=? 0 then raise KPrefetch
  else
    _ ← modify (tick (r_room_took r));
    match r_room r with
    | Raise KQuery => left ← remaining deadline; if left <=? 0 then raise KPrefetch else raise KQuery
    | Raise KAdmissionWait =>
        left ← remaining deadline;
        if left <=? 0 then raise KPrefetch
        else if r_sleep_cancelled r then raise KCancelled
        else (_ ← modify (tick (Z.min 500 left + r_oversleep r)); mret Again)
    | Raise KAdmissionStop => raise KPrefetch
    | Raise x => raise x
    | Ok _ => enter_gate r deadline
    end.

(** [Ok false]: out of fuel, here or in the flow's polls. *)
Fixpoint wait_loop (fuel : nat) (rounds : nat -> round) (i : nat) (deadline : Z) : R bool :=
  match fuel with
  | O => mret false
  | S fuel => e ← wait_round (rounds i) deadline;
              match e with
              | Finished => mret true
              | OutOfFuel => mret false
              | Again => wait_loop fuel rounds (S i) deadline
              end
  end.

Definition wait_then_run (fuel : nat) (rounds : nat -> round) (timeout_s : Z) : R bool :=
  deadline ← gets (fun s => rs_now s + timeout_s);
  _ ← modify (budget 1);
  try_finally (wait_loop fuel rounds 0 deadline) (modify (budget (-1))).

(** ** Once the copy is ready *)

(** [wall]: the clock of the ledger; [cut]: the registration was cancelled. *)
Definition register_ready (wall : Z) (cut : bool) (p : option Prefix) : R unit := fun s =>
  match p, rs_keepalive s with
  | Some p, Some k => let '(k', o) := Loop.register_await wall cut p k in (set_keep (Some k') s, o)
  | _, _ => (s, Ok tt)
  end.

(** A failure to publish is logged. *)
Definition publish_ready (wall : Z) (seed_ok : bool) (p : option Prefix) (target : option string) : R unit := fun s =>
  match rs_events s, p, target with
  | Some e, Some p, Some t =>
      (set_events (Some (publish_block_stored hash_block_tokens convert make_publisher wall seed_ok p t e).1) s, Ok tt)
  | _, _, _ => (s, Ok tt)
  end.

Definition on_ready (wall : Z) (cut seed_ok : bool) (p : option Prefix) (target : option string) : R unit :=
  _ ← register_ready wall cut p; publish_ready wall seed_ok p target.

(** [_throttle]: [false] when the limiter has refused [fuel] times. *)
Fixpoint throttle (limiter : option (nat -> bool)) (fuel i : nat) : R bool :=
  match limiter with
  | None => mret true
  | Some f =>
      match fuel with
      | O => mret false
      | S fuel => if f i then mret true else (_ ← modify (tick 500); throttle limiter fuel (S i))
      end
  end.

Definition run_prefetch (tfuel fuel : nat) (limiter : option (nat -> bool)) (present : result kexn bool)
    (rounds : nat -> round) (timeout_s wall : Z) (cut seed_ok : bool) (p : Prefix) (target : string) : R bool :=
  go ← throttle limiter tfuel 0;
  if negb go then mret false
  else
    b ← lift present;
    if negb b then raise KPrefetch
    else
      ended ← wait_then_run fuel rounds timeout_s;
      if negb ended then mret false
      else (_ ← on_ready wall cut seed_ok (Some p) (Some target); mret true).

(** ** Tracking a handle after a restart *)

(** [abandon] outside [PrefetchFlow]: what it raises is raised. *)
Definition abandon_raw (h : TaskHandle) : R unit := fun s =>
  (set_calls (rs_calls s ++ [Abandoned h]) s, match ab h with None => Ok tt | Some x => Raise x end).

Fixpoint track_loop (fuel i : nat) (polls : nat -> poll) (took : nat -> Z) (sleep_cancelled : nat -> bool)
    (h : TaskHandle) (p : option Prefix) (target : option string) (wall deadline : Z) (cut seed_ok : bool) : R bool :=
  match fuel with
  | O => mret false
  | S fuel =>
      _ ← modify (fun s => tick (took i) (set_calls (rs_calls s ++ [Queried (polls i)]) s));
      let go_on :=
        now ← gets rs_now;
        if deadline <=? now then (_ ← abandon_raw h; mret true)
        else if sleep_cancelled i then raise KCancelled
        else (_ ← modify (tick poll_s); track_loop fuel (S i) polls took sleep_cancelled h p target wall deadline cut seed_ok) in
      match polls i with
      | Raise KQuery => go_on
      | Raise (KVerify _) | Raise KKeyError => mret true
      | Raise x => raise x
      | Ok TS_READY => _ ← on_ready wall cut seed_ok p target; mret true
      | Ok FAILED => mret true
      | Ok _ => go_on
      end
  end.

Definition track (fuel : nat) (polls : nat -> poll) (took : nat -> Z) (sleep_cancelled : nat -> bool)
    (h : TaskHandle) (p : option Prefix) (target : option string) (wall timeout_s : Z) (cut seed_ok : bool) : R bool :=
  deadline ← gets (fun s => rs_now s + timeout_s);
  try_catch (track_loop fuel 0 polls took sleep_cancelled h p target wall deadline cut seed_ok)
    (fun x => if bool_decide (x = KCancelled)
              then (_ ← try_catch (abandon_raw h) (fun y => if bool_decide (y = KKeyError) then mret tt else raise y);
                    raise KCancelled)
              else raise x).

(** ** The gate is returned, the budget is kept *)

(** Time passes: no call takes a negative time and a room check takes some. *)
Record round_ok (r : round) : Prop := {
  ro_room : 1 <= r_room_took r;
  ro_sleep : 0 <= r_oversleep r;
  ro_gate : 0 <= r_gate_took r;
  ro_copy : 0 <= r_copy_took r;
  ro_polls : forall i, 0 <= r_polls_took r i;
  ro_flow : 0 <= r_flow_took r
}.

(** What running leaves of a prefetch that started at [s]. *)
Record frame (deadline : Z) (s s' : RunState) : Prop := {
  fr_held : rs_held s' = rs_held s;
  fr_budgets : rs_budgets s' = rs_budgets s;
  fr_time : rs_now s <= rs_now s';
  fr_copies : exists new, rs_copies s' = rs_copies s ++ new /\ Forall (fun left => 0 < left <= deadline - rs_now s) new;
  fr_keep : rs_keepalive s' = rs_keepalive s;
  fr_events : rs_events s' = rs_events s
}.

Definition saw_ready (s s' : RunState) : Prop :=
  exists pre, rs_calls s' = pre ++ [Queried (Ok TS_READY)].

Lemma frame_refl deadline s s' : rs_now s <= rs_now s' -> rs_held s' = rs_held s -> rs_budgets s' = rs_budgets s ->
  rs_copies s' = rs_copies s -> rs_keepalive s' = rs_keepalive s -> rs_events s' = rs_events s -> frame deadline s s'.
Proof. intros. split; try done. exists []. by rewrite app_nil_r. Qed.

Lemma frame_trans deadline s1 s2 s3 : frame deadline s1 s2 -> frame deadline s2 s3 -> frame deadline s1 s3.
Proof.
  intros [? ? ? (n1&E1&F1) ? ?] [? ? ? (n2&E2&F2) ? ?]. split; try congruence; [lia|].
  exists (n1 ++ n2). rewrite E2, E1, <- app_assoc. split; [done|]. apply Forall_app. split; [done|].
  eapply Forall_impl; [exact F2|]. simpl. lia.
Qed.

Context (poll_pos : 0 < poll_s).

Lemma flow_frame r left s s' o deadline : round_ok r -> flow r left s = (s', o) -> 0 < left ->
  frame deadline s s' /\ rs_copies s' = rs_copies s /\ o <> Ok false /\ (o = Ok true -> saw_ready s s').
Proof.
  intros Hr E Hl. unfold flow in E.
  destruct (Flow.run_after_exists _ _ _ _ _ _ _ _ _ _) as [tr o1] eqn:Ef. injection E as <- <-.
  assert (Hne : o1 <> Ok false).
  { pose proof (Flow.flow_ends ab (r_polls r) (r_polls_took r) (r_poll_cancelled r) poll_s (flow_fuel left) (r_copy r)
      (r_copy_took r) left (rs_calls s) poll_pos (ro_polls r Hr) (ro_copy r Hr)) as Hend. rewrite Ef in Hend.
    pose proof (Z.div_pos left poll_s ltac:(lia) poll_pos). pose proof (Z.mul_succ_div_gt left poll_s poll_pos).
    unfold flow_fuel in Hend. apply Hend; [rewrite Z2Nat.id by lia; nia|lia]. }
  split_and!; try done; [apply frame_refl; simpl; try done; destruct Hr; lia|].
  intros ->. destruct (Flow.flow_settled _ _ _ _ _ _ _ _ _ _ _ _ Ef Hne) as [Hs _].
  destruct (Hs eq_refl) as (ext&e&->&->). exists (rs_calls s ++ ext). simpl. by rewrite app_assoc.
Qed.

(** The post-condition of one round. *)
Definition round_post (deadline : Z) (s : RunState) (r : RunState * result kexn round_end) : Prop :=
  frame deadline s r.1 /\ (r.2 = Ok Finished -> saw_ready s r.1) /\ (r.2 = Ok Again -> rs_now s < rs_now r.1) /\
  r.2 <> Ok OutOfFuel.

Lemma inside_post r deadline s s' o : round_ok r -> inside r deadline s = (s', o) ->
  frame deadline s s' /\ (o = Ok Finished -> saw_ready s s') /\ o <> Ok OutOfFuel.
Proof.
  intros Hr E. unfold inside, try_catch, mbind, M_bind, remaining, gets in E.
  destruct (deadline - rs_now s <=? 0) eqn:El; zbool.
  { injection E as <- <-. split_and!; [by apply frame_refl|done|done]. }
  unfold modify in E. destruct (flow r (deadline - rs_now s) (add_copy (deadline - rs_now s) s)) as [s1 o1] eqn:Ef.
  destruct (flow_frame _ _ _ _ _ deadline Hr Ef ltac:(lia)) as (Hf&Hc&Hne&Hsaw).
  assert (Hf' : frame deadline s s1).
  { apply frame_trans with (s2 := add_copy (deadline - rs_now s) s); [|done]. split; try done. exists [deadline - rs_now s].
    split; [done|]. apply Forall_singleton. lia. }
  destruct o1 as [[]|x]; [injection E as <- <-; by split_and!; [|intros; apply Hsaw|]|done|].
  destruct x; unfold raise, mret, M_ret in E; injection E as <- <-; by split_and!.
Qed.

Lemma enter_gate_post r deadline s s' o : round_ok r -> enter_gate r deadline s = (s', o) ->
  frame deadline s s' /\ (o = Ok Finished -> saw_ready s s') /\ o <> Ok OutOfFuel.
Proof.
  intros Hr E. unfold enter_gate, mbind, M_bind, remaining, gets, modify in E.
  destruct (deadline - rs_now s <=? 0) eqn:El.
  { injection E as <- <-. split_and!; [by apply frame_refl|done|done]. }
  assert (Ht : frame deadline s (tick (r_gate_took r) s)) by (apply frame_refl; simpl; try done; destruct Hr; lia).
  destruct (r_gate r).
  - unfold try_finally in E. destruct (inside r deadline (hold 1 (tick (r_gate_took r) s))) as [s1 o1] eqn:Ei.
    apply inside_post in Ei as (Hf&Hs&Hn); [|done]. injection E as <- <-. split_and!; [|done|done].
    apply frame_trans with (s2 := tick (r_gate_took r) s); [done|]. destruct Hf as [? ? ? ? ? ?].
    split; simpl in *; try done. lia.
  - by injection E as <- <-.
  - by injection E as <- <-.
Qed.

Lemma wait_round_post r deadline s : round_ok r -> round_post deadline s (wait_round r deadline s).
Proof.
  intros Hr. unfold wait_round, mbind, M_bind, remaining, gets, modify.
  destruct (deadline - rs_now s <=? 0) eqn:El; [split_and!; [by apply frame_refl|done..]|].
  assert (Ht : frame deadline s (tick (r_room_took r) s)) by (apply frame_refl; simpl; try done; destruct Hr; lia).
  destruct (r_room r) as [[]|[]] eqn:Er; try (by split).
  - destruct (enter_gate r deadline (tick (r_room_took r) s)) as [s' o] eqn:Eg.
    apply enter_gate_post in Eg as (Hf&Hs&Hn); [|done]. split_and!; simpl; [by apply frame_trans with (s2 := tick (r_room_took r) s)|done| |done].
    intros _. destruct Hf, Hr. simpl in *. lia.
  - destruct (deadline - rs_now (tick (r_room_took r) s) <=? 0); by split.
  - destruct (deadline - rs_now (tick (r_room_took r) s) <=? 0) eqn:El2; [by split|]. zbool. simpl in El2.
    destruct (r_sleep_cancelled r); [by split|]. destruct Hr. split_and!; simpl; [|done|lia|done].
    apply frame_trans with (s2 := tick (r_room_took r) s); [done|]. apply frame_refl; simpl; try done. lia.
Qed.

Lemma wait_loop_post fuel rounds deadline : (forall i, round_ok (rounds i)) -> forall i s,
  let r := wait_loop fuel rounds i deadline s in
  frame deadline s r.1 /\ (r.2 = Ok true -> saw_ready s r.1) /\
  (deadline - rs_now s < Z.of_nat fuel -> (1 <= fuel)%nat -> r.2 <> Ok false).
Proof.
  intros Hr. induction fuel as [|fuel IH]; intros i s; simpl.
  { split_and!; [by apply frame_refl|done|lia]. }
  unfold mbind, M_bind. pose proof (wait_round_post (rounds i) deadline s (Hr i)) as (Hf&Hs&Ht&Hno).
  destruct (wait_round (rounds i) deadline s) as [s1 [[]|x]] eqn:Ew; simpl in *; [|split_and!; [done|by intros _; apply Hs|done]|done|by split_and!].
  specialize (Ht eq_refl). destruct (IH (S i) s1) as (Hf2&Hs2&Hn2). split_and!.
  - by apply frame_trans with (s2 := s1).
  - intros E. destruct (Hs2 E) as [pre Hpre]. by exists pre.
  - intros Hlt _. destruct fuel as [|fuel].
    + exfalso. unfold wait_round, mbind, M_bind, remaining, gets in Ew.
      destruct (deadline - rs_now s <=? 0) eqn:El; [done|]. zbool. lia.
    + apply Hn2; lia.
Qed.

Lemma wait_then_run_post fuel rounds timeout_s s : (forall i, round_ok (rounds i)) ->
  let r := wait_then_run fuel rounds timeout_s s in
  frame (rs_now s + timeout_s) s r.1 /\ (r.2 = Ok true -> saw_ready s r.1) /\
  (timeout_s < Z.of_nat fuel -> (1 <= fuel)%nat -> r.2 <> Ok false).
Proof.
  intros Hr. unfold wait_then_run, mbind, M_bind, gets, modify, try_finally.
  destruct (wait_loop_post fuel rounds (rs_now s + timeout_s) Hr 0 (budget 1 s)) as (Hf&Hs&Hn).
  destruct (wait_loop fuel rounds 0 (rs_now s + timeout_s) (budget 1 s)) as [s1 o]. simpl in *.
  split_and!; [|done|intros; apply Hn; lia]. destruct Hf as [? ? ? ? ? ?]. split; simpl in *; try done. lia.
Qed.

(** ** A whole prefetch *)

Lemma throttle_post limiter fuel i s : forall s' o, throttle limiter fuel i s = (s', o) ->
  frame 0 s s' /\ rs_copies s' = rs_copies s /\ exists b, o = Ok b.
Proof.
  assert (Hrefl : forall s, frame 0 s s) by (intros; by apply frame_refl).
  revert i s. induction fuel as [|fuel IH]; intros i s s' o; simpl.
  { destruct limiter; intros [= <- <-]; eauto. }
  destruct limiter as [f|]; [|intros [= <- <-]; eauto]. destruct (f i); [intros [= <- <-]; eauto|].
  unfold mbind, M_bind, modify. intros E. apply IH in E as (Hf&Hc&Ho). split_and!; [|done|done].
  apply frame_trans with (s2 := tick 500 s); [|done]. apply frame_refl; simpl; try done. lia.
Qed.

Lemma on_ready_post wall cut seed_ok p target s s' o : on_ready wall cut seed_ok (Some p) (Some target) s = (s', o) ->
  rs_held s' = rs_held s /\ rs_budgets s' = rs_budgets s /\ rs_copies s' = rs_copies s /\ rs_calls s' = rs_calls s /\
  (o = Raise KCancelled \/ o = Ok tt) /\
  (o = Ok tt -> forall k, rs_keepalive s = Some k -> exists k', rs_keepalive s' = Some k' /\
     if lg_closed (ks_ledger k) then ks_register_failures k' = ks_register_failures k + 1
     else (Db.has_keepalive p (ks_ledger k')).2 = Ok true).
Proof.
  intros E. unfold on_ready, mbind, M_bind in E.
  destruct (register_ready wall cut (Some p) s) as [s1 o1] eqn:Er.
  assert (H1 : rs_held s1 = rs_held s /\ rs_budgets s1 = rs_budgets s /\ rs_copies s1 = rs_copies s /\
    rs_calls s1 = rs_calls s /\ (o1 = Raise KCancelled \/ o1 = Ok tt) /\
    (o1 = Ok tt -> forall k, rs_keepalive s = Some k -> exists k', rs_keepalive s1 = Some k' /\
      if lg_closed (ks_ledger k) then ks_register_failures k' = ks_register_failures k + 1
      else (Db.has_keepalive p (ks_ledger k')).2 = Ok true)).
  { unfold register_ready in Er. destruct (rs_keepalive s) as [k|] eqn:Ek;
      [|injection Er as <- <-; split_and!; try done; by right].
    destruct (Loop.register_await wall cut p k) as [k' o2] eqn:El. injection Er as <- <-. simpl. split_and!; try done.
    - revert El. unfold Loop.register_await, try_catch. destruct cut; [intros [= <- <-]; by left|].
      destruct (Loop.ledger_call _ k) as [k1 [[]|x]]; [intros [= <- <-]; by right|].
      case_bool_decide; [subst; intros [= <- <-]; by left|intros [= <- <-]; by right].
    - intros -> k0 [= <-]. exists k'. split; [done|]. revert El. unfold Loop.register_await, try_catch. destruct cut; [done|].
      unfold Loop.ledger_call, Db.register_keepalive, Db.run. destruct (lg_closed (ks_ledger k)) eqn:Ec.
      + simpl. by intros [= <-].
      + simpl. intros [= <-]. unfold Db.has_keepalive, Db.run. simpl. rewrite Ec. simpl. unfold din. by rewrite dget_dset_eq. }
  destruct H1 as (Hh&Hb&Hc&Hl&Ho&Hk). destruct o1 as [[]|x].
  - unfold publish_ready in E. destruct (rs_events s1); injection E as <- <-; simpl; split_and!; try done; by right.
  - by injection E as <- <-; split_and!.
Qed.

(** C24. A prefetch gives back what it takes: however it ends (refused by the
    existence check, out of time while waiting for room, for the gate or inside
    it, stopped, cancelled, failed or ready), its gate place is returned and its
    segment budget closed; a copy is started only after the existence check
    passed and with some of the timeout left, never more than the whole of it.
    It succeeds only when its last query answered READY, and then the prefix is
    registered for keepalive, or the failed registration is counted. *)
Theorem prefetch_outcome tfuel fuel limiter present rounds timeout_s wall cut seed_ok p target s s' o :
  (forall i, round_ok (rounds i)) ->
  run_prefetch tfuel fuel limiter present rounds timeout_s wall cut seed_ok p target s = (s', o) ->
  rs_held s' = rs_held s /\ rs_budgets s' = rs_budgets s /\
  (exists new, rs_copies s' = rs_copies s ++ new /\ Forall (fun left => 0 < left <= timeout_s) new /\
     (present <> Ok true -> new = [])) /\
  (o = Ok true -> saw_ready s s' /\ forall k, rs_keepalive s = Some k -> exists k', rs_keepalive s' = Some k' /\
     if lg_closed (ks_ledger k) then ks_register_failures k' = ks_register_failures k + 1
     else (Db.has_keepalive p (ks_ledger k')).2 = Ok true).
Proof.
  intros Hr E. unfold run_prefetch, mbind, M_bind, lift in E.
  destruct (throttle limiter tfuel 0 s) as [s1 o1] eqn:Et.
  apply throttle_post in Et as ([Hh Hb _ _ Hk _]&Hc&b&->).
  match goal with |- ?G => assert (Hnone : s' = s1 -> o <> Ok true -> G) end.
  { intros -> Hno. split_and!; try done. exists []. by rewrite app_nil_r. }
  destruct b; [|by injection E as <- <-; apply Hnone].
  destruct present as [[]|x]; [|by injection E as <- <-; apply Hnone..]. simpl in E. clear Hnone.
  destruct (wait_then_run_post fuel rounds timeout_s s1 Hr) as ([Hh2 Hb2 _ (new&Hc2&Hn2) Hk2 _]&Hs2&_).
  destruct (wait_then_run fuel rounds timeout_s s1) as [s2 o2]. simpl in *.
  assert (Hcop : exists new, rs_copies s2 = rs_copies s ++ new /\ Forall (fun left => 0 < left <= timeout_s) new /\
    (Ok true <> Ok true :> result kexn bool -> new = [])).
  { exists new. rewrite Hc2, Hc. split_and!; [done| |done]. eapply Forall_impl; [exact Hn2|]. simpl. lia. }
  destruct o2 as [[]|x]; simpl in E; [|injection E as <- <-; split_and!; try done; congruence..].
  destruct (on_ready wall cut seed_ok (Some p) (Some target) s2) as [s3 o3] eqn:Eo.
  apply on_ready_post in Eo as (Hh3&Hb3&Hc3&Hl3&Ho3&Hk3).
  destruct o3 as [[]|x]; injection E as <- <-; rewrite Hh3, Hb3, Hc3; split_and!; try done; try congruence.
  intros _. split.
  - destruct (Hs2 eq_refl) as [pre Hpre]. exists pre. by rewrite Hl3.
  - rewrite <- Hk, <- Hk2. by apply Hk3.
Qed.

(** A prefetch whose queries never answer READY does not succeed. *)
Lemma prefetch_not_ready tfuel fuel limiter present rounds timeout_s wall cut seed_ok p target s :
  (forall i, round_ok (rounds i)) -> (forall i j, r_polls (rounds i) j <> Ok TS_READY) ->
  (run_prefetch tfuel fuel limiter present rounds timeout_s wall cut seed_ok p target s).2 <> Ok true.
Proof.
  intros Hr Hp.
  assert (Hin : forall i deadline s, (inside (rounds i) deadline s).2 <> Ok Finished).
  { intros i deadline s0. unfold inside, try_catch, mbind, M_bind, remaining, gets, modify.
    destruct (deadline - rs_now s0 <=? 0) eqn:El; [done|]. zbool.
    destruct (flow (rounds i) (deadline - rs_now s0) (add_copy (deadline - rs_now s0) s0)) as [s1 o] eqn:Ef.
    destruct (flow_frame _ _ _ _ _ deadline (Hr i) Ef ltac:(lia)) as (_&_&Hne&_).
    assert (Hnt : o <> Ok true).
    { unfold flow in Ef. pose proof (Flow.flow_not_ready ab (r_polls (rounds i)) (r_polls_took (rounds i)) (r_poll_cancelled (rounds i)) poll_s
        (flow_fuel (deadline - rs_now s0)) (r_copy (rounds i)) (r_copy_took (rounds i)) (deadline - rs_now s0)
        (rs_calls (add_copy (deadline - rs_now s0) s0)) (Hp i)) as Hf.
      destruct (Flow.run_after_exists _ _ _ _ _ _ _ _ _ _) as [tr o1]. by injection Ef as <- <-. }
    destruct o as [[]|x]; [done..|]. by destruct x. }
  assert (Hround : forall i deadline s, (wait_round (rounds i) deadline s).2 <> Ok Finished).
  { intros i deadline s0. unfold wait_round, enter_gate, mbind, M_bind, remaining, gets, modify, try_finally.
    destruct (_ <=? 0); [done|]. destruct (r_room (rounds i)) as [[]|[]]; try done.
    - destruct (_ <=? 0); [done|]. destruct (r_gate (rounds i)); [|done..].
      match goal with |- context [inside (rounds i) deadline ?x] => specialize (Hin i deadline x); destruct (inside (rounds i) deadline x) end.
      done.
    - by destruct (_ <=? 0).
    - destruct (_ <=? 0); [done|]. by destruct (r_sleep_cancelled (rounds i)). }
  assert (Hloop : forall fuel i deadline s, (wait_loop fuel rounds i deadline s).2 <> Ok true).
  { clear fuel. induction fuel as [|fuel IH]; intros i deadline s0; [done|]. simpl. unfold mbind, M_bind.
    specialize (Hround i deadline s0). destruct (wait_round (rounds i) deadline s0) as [s1 [[]|x]]; [apply IH|done..]. }
  unfold run_prefetch, wait_then_run, mbind, M_bind, lift, gets, modify, try_finally.
  destruct (throttle limiter tfuel 0 s) as [s1 [[]|x]]; [|done..]. simpl. destruct present as [[]|x]; [|done..]. simpl.
  specialize (Hloop fuel 0%nat (rs_now s1 + timeout_s) (budget 1 s1)).
  destruct (wait_loop fuel rounds 0 (rs_now s1 + timeout_s) (budget 1 s1)) as [s2 [[]|x]]; done.
Qed.

Lemma prefetch_ends tfuel fuel limiter n present rounds timeout_s wall cut seed_ok p target s :
  (forall i, round_ok (rounds i)) -> match limiter with Some f => f n = true | None => True end ->
  (n < tfuel)%nat -> timeout_s < Z.of_nat fuel -> (1 <= fuel)%nat ->
  (run_prefetch tfuel fuel limiter present rounds timeout_s wall cut seed_ok p target s).2 <> Ok false.
Proof.
  intros Hr Hlim Hn Hf Hf1. unfold run_prefetch, mbind, M_bind, lift.
  assert (Hth : forall tf i s, (i <= n)%nat -> (n < i + tf)%nat -> (throttle limiter tf i s).2 = Ok true).
  { induction tf as [|tf IH]; intros i s0 Hi Htf; [lia|]. simpl. destruct limiter as [f|]; [|done].
    destruct (f i) eqn:Efi; [done|]. unfold mbind, M_bind, modify. apply IH; [|lia].
    destruct (decide (i = n)) as [->|]; [congruence|lia]. }
  specialize (Hth tfuel 0%nat s ltac:(lia) Hn). destruct (throttle limiter tfuel 0 s) as [s1 o1]. simpl in Hth. subst o1.
  simpl. destruct present as [[]|x]; try done. simpl.
  destruct (wait_then_run_post fuel rounds timeout_s s1 Hr) as (_&_&Hw). specialize (Hw Hf Hf1).
  destruct (wait_then_run fuel rounds timeout_s s1) as [s2 [[]|x]]; try done. simpl.
  by destruct (on_ready _ _ _ _ _ s2) as [s3 [[]|x]].
Qed.

(** C25. A prefetch ends: when the limiter lets it through at some point and every room
    check takes at least a tick, it has ended after at most one round per tick
    of its timeout plus one, whatever the store, the gate and the copies do.
    Every polling loop inside it ends too, within one poll per interval of the
    time it was given plus two: a loop that outran those polls would make the
    prefetch answer [Ok false]. *)
Theorem prefetch_terminates tfuel fuel limiter n present rounds timeout_s wall cut seed_ok p target s :
  (forall i, round_ok (rounds i)) -> match limiter with Some f => f n = true | None => True end ->
  (n < tfuel)%nat -> timeout_s < Z.of_nat fuel -> (1 <= fuel)%nat ->
  (run_prefetch tfuel fuel limiter present rounds timeout_s wall cut seed_ok p target s).2 <> Ok false.
Proof. apply prefetch_ends. Qed.
End run.
End Run.

(** A round in which there is room, a place and a copy that is ready at once, and one
    in which there is no room yet. *)
Definition ready_round : round :=
  mkRound (Ok tt) 3 false 0 GAcquired 2 (CReturned wit_handle) 10 (fun _ => Ok TS_READY) (fun _ => 1) (fun _ => false) 20.
Definition full_round : round :=
  mkRound (Raise KAdmissionWait) 3 false 1 GAcquired 0 (CReturned wit_handle) 0 (fun _ => Ok RUNNING) (fun _ => 1) (fun _ => false) 0.
Definition wit_rounds (i : nat) : round := match i with O => full_round | _ => ready_round end.
Definition wit_run : Run.RunState := Run.mkRun (EH := Z) 0 0 0 [] [] None None.
Definition wit_prefetch (fuel : nat) : Run.RunState * result kexn bool :=
  let d : Digest := fun s => s in
  Run.run_prefetch (fun p l => default 7 p + zsum l) (fun x => x) (fun _ => Ok None) (fun _ => None) 500
    1 fuel None (Ok true) wit_rounds 1000 0 false true (mkPrefix "m" [1]) "t" wit_run.

Lemma wit_rounds_ok i : Run.round_ok (wit_rounds i).
Proof. destruct i; split; simpl; intros; lia. Qed.

Lemma prefetch_outcome_witness :
  Run.rs_held (wit_prefetch 2).1 = 0 /\ (wit_prefetch 2).2 = Ok true /\ Run.rs_copies (wit_prefetch 2).1 = [491].
Proof.
  split; [|split; vm_compute; reflexivity]. unfold wit_prefetch.
  exact (proj1 (Run.prefetch_outcome (H := fun s => s) (fun p l => default 7 p + zsum l) (fun x => x) (fun _ => Ok None) (fun _ => None) 500
    ltac:(lia) 1 2 None (Ok true) wit_rounds 1000 0 false true (mkPrefix "m" [1]) "t" wit_run _ _ wit_rounds_ok (surjective_pairing _))).
Defined.

Lemma prefetch_terminates_witness : (wit_prefetch 1001).2 <> Ok false.
Proof.
  unfold wit_prefetch. apply (Run.prefetch_terminates (H := fun s => s) (fun p l => default 7 p + zsum l) (fun x => x) (fun _ => Ok None) (fun _ => None) 500
    ltac:(lia) 1 1001 None 0); [apply wit_rounds_ok|exact I|lia|lia|lia].
Defined.
