(* ===== verification/Intents.v ===== *)
(** * kvcm: the intent table

    [kvcm/task_engine.py], [TaskEngine]: submission from any thread, admission on the
    event loop, the queue, the consumers, the receipts and the shutdown.

    Record objects have an identity that the code compares ([is]): they live in a
    store and the slot table maps an intent id to an index of it.  Calls handed to
    the event loop by [call_soon_threadsafe] wait in a backlog.  One event is what
    runs between two suspension points; how a prefetch ended is an argument of
    the event that ends it ([TaskEngine.Run] says how it can end). *)

From S2P Require Import Prelude PyDict PyStr KvcmTypes Ledger.

Inductive IntentStatus : Type := IPending | IReady | IFailed.
#[export] Instance IntentStatus_eq_dec : EqDecision IntentStatus.
Proof. solve_decision. Defined.

Record call : Type := mkCall {
  c_prefix : Prefix;
  c_target : string;
  c_poll_s : Z;
  c_timeout_s : Z
}.

Record IntentRecord : Type := mkRec {
  ir_id : string;
  ir_call : call;
  ir_status : IntentStatus;
  ir_detail : string;
  ir_queued : bool
}.

Record Finished : Type := mkFinished {
  fin_id : string;
  fin_status : IntentStatus;
  fin_detail : string
}.

(** The record objects, [_records] and [_finished]. *)
Record Tables : Type := mkTables {
  tb_store : list IntentRecord;
  tb_records : dict string nat;
  tb_finished : dict string Finished
}.

(** A consumer coroutine. *)
Inductive consumer : Type := CIdle | CBusy (r : nat) | CDone.
#[export] Instance consumer_eq_dec : EqDecision consumer.
Proof. solve_decision. Defined.

Record Engine : Type := mkEngine {
  en_tables : Tables;
  en_accepting : bool;
  en_programming_errors : Z;
  en_queue : list nat;
  (** [Queue._unfinished_tasks] *)
  en_unfinished : Z;
  en_backlog : list call;
  (** the coroutines, and the list [_consumers] of those that are registered *)
  en_tasks : list consumer;
  en_consumers : list nat;
  en_recover : list TaskHandle;
  en_started : bool;
  en_cancelling : bool;
  en_events_down : bool
}.

Module Intents.
Section intents.
Context `{Digest} (queue_size consumer_count finished_max : Z).

Definition intent_id_of (p : Prefix) (target : string) : string := prefix_key p +:+ "|" +:+ target.
Definition call_id (c : call) : string := intent_id_of (c_prefix c) (c_target c).
Definition new_record (c : call) : IntentRecord := mkRec (call_id c) c IPending EmptyString false.

(** [max(1, finished_max)] *)
Definition ring_max : Z := Z.max 1 finished_max.

Definition init : Engine :=
  mkEngine (mkTables [] [] []) true 0 [] 0 [] [] [] [] false false false.

Definition set_tables t (s : Engine) : Engine :=
  mkEngine t (en_accepting s) (en_programming_errors s) (en_queue s) (en_unfinished s) (en_backlog s) (en_tasks s)
    (en_consumers s) (en_recover s) (en_started s) (en_cancelling s) (en_events_down s).
Definition set_accepting a (s : Engine) : Engine :=
  mkEngine (en_tables s) a (en_programming_errors s) (en_queue s) (en_unfinished s) (en_backlog s) (en_tasks s)
    (en_consumers s) (en_recover s) (en_started s) (en_cancelling s) (en_events_down s).
Definition set_errors n (s : Engine) : Engine :=
  mkEngine (en_tables s) (en_accepting s) n (en_queue s) (en_unfinished s) (en_backlog s) (en_tasks s)
    (en_consumers s) (en_recover s) (en_started s) (en_cancelling s) (en_events_down s).
Definition set_queue q n (s : Engine) : Engine :=
  mkEngine (en_tables s) (en_accepting s) (en_programming_errors s) q n (en_backlog s) (en_tasks s)
    (en_consumers s) (en_recover s) (en_started s) (en_cancelling s) (en_events_down s).
Definition set_backlog b (s : Engine) : Engine :=
  mkEngine (en_tables s) (en_accepting s) (en_programming_errors s) (en_queue s) (en_unfinished s) b (en_tasks s)
    (en_consumers s) (en_recover s) (en_started s) (en_cancelling s) (en_events_down s).
Definition set_task c st (s : Engine) : Engine :=
  mkEngine (en_tables s) (en_accepting s) (en_programming_errors s) (en_queue s) (en_unfinished s) (en_backlog s)
    (<[c := st]> (en_tasks s)) (en_consumers s) (en_recover s) (en_started s) (en_cancelling s) (en_events_down s).

(** ** Closing a record *)

(** The four writes of [_finish], in its order. *)
Definition write_status (r : nat) (st : IntentStatus) (detail : string) (t : Tables) : Tables :=
  mkTables (alter (fun x => mkRec (ir_id x) (ir_call x) st detail (ir_queued x)) r (tb_store t)) (tb_records t) (tb_finished t).
Definition write_receipt (k : string) (st : IntentStatus) (detail : string) (t : Tables) : Tables :=
  mkTables (tb_store t) (tb_records t) (dmove_to_end k (dset k (mkFinished k st detail) (tb_finished t))).
(** [while len > max: popitem(last=False)] *)
Definition trim_ring (t : Tables) : Tables :=
  mkTables (tb_store t) (tb_records t) (drop (length (tb_finished t) - Z.to_nat ring_max) (tb_finished t)).
Definition free_slot (k : string) (t : Tables) : Tables :=
  mkTables (tb_store t) (ddel k (tb_records t)) (tb_finished t).

Definition owns (r : nat) (x : IntentRecord) (t : Tables) : bool :=
  bool_decide (dget (ir_id x) (tb_records t) = Some r).
Definition pending (x : IntentRecord) : bool := bool_decide (ir_status x = IPending).

Definition finish (r : nat) (st : IntentStatus) (detail : string) (t : Tables) : Tables :=
  match tb_store t !! r with
  | Some x =>
      if owns r x t then
        if pending x then free_slot (ir_id x) (trim_ring (write_receipt (ir_id x) st detail (write_status r st detail t)))
        else t
      else t
  | None => t
  end.

Definition finish_in (r : nat) (st : IntentStatus) (detail : string) : M Engine kexn unit :=
  modify (fun s => set_tables (finish r st detail (en_tables s)) s).

(** ** Submission and admission *)

Definition submit_check : M Engine kexn unit := fun s =>
  if negb (en_accepting s) then (s, Raise KRuntimeError)
  else if negb (en_started s) then (s, Raise KRuntimeError)
  else (s, Ok tt).

(** A new object, [setdefault], and the hand-over to the loop when it won the slot. *)
Definition alloc (c : call) (t : Tables) : Tables * bool :=
  let r := length (tb_store t) in
  let '(recs, owner) := dsetdefault (call_id c) r (tb_records t) in
  (mkTables (tb_store t ++ [new_record c]) recs (tb_finished t), bool_decide (owner = r)).

Definition submit_insert (c : call) : M Engine kexn string := fun s =>
  let '(t, won) := alloc c (en_tables s) in
  let s1 := set_tables t s in
  (if (won : bool) then set_backlog (en_backlog s ++ [c]) s1 else s1, Ok (call_id c)).

Definition submit_intent (c : call) : M Engine kexn string := _ ← submit_check; submit_insert c.

Definition never_started : string := "cancelled (shutdown, never started)".

Definition set_queued (r : nat) (t : Tables) : Tables :=
  mkTables (alter (fun x => mkRec (ir_id x) (ir_call x) (ir_status x) (ir_detail x) true) r (tb_store t))
    (tb_records t) (tb_finished t).

(** The slot's record, or a new one put there. *)
Definition slot_record (c : call) (t : Tables) : Tables * nat :=
  match dget (call_id c) (tb_records t) with
  | Some r => (t, r)
  | None => ((alloc c t).1, length (tb_store t))
  end.

Definition put_nowait (r : nat) : M Engine kexn bool := fun s =>
  if (0 <? queue_size) && (queue_size <=? zlen (en_queue s)) then (s, Ok false)
  else (set_queue (en_queue s ++ [r]) (en_unfinished s + 1) s, Ok true).

(** Only a record that is not queued yet is acted on: when the engine is closing it
    is failed, else queued, or failed when the queue is full. *)
Definition admit_call (c : call) : M Engine kexn unit := fun s =>
  let '(t, r) := slot_record c (en_tables s) in
  let s1 := set_tables t s in
  match tb_store t !! r with
  | None => (s1, Ok tt)
  | Some x =>
      if negb (en_accepting s) then
        if ir_queued x || negb (pending x) then (s1, Ok tt) else finish_in r IFailed never_started s1
      else if ir_queued x then (s1, Ok tt)
      else
        (put ← put_nowait r;
         if (put : bool) then mret tt else finish_in r IFailed "rejected (queue full)")
          (set_tables (set_queued r t) s1)
  end.

(** ** Consumers *)

(** [task_done] *)
Definition task_done : M Engine kexn unit := fun s =>
  if en_unfinished s <=? 0 then (s, Raise KValueError)
  else (set_queue (en_queue s) (en_unfinished s - 1) s, Ok tt).

Definition fail_one (r : nat) : M Engine kexn unit :=
  _ ← modify (fun s => set_queue (tail (en_queue s)) (en_unfinished s) s);
  _ ← finish_in r IFailed never_started;
  task_done.
Definition fail_never_started : M Engine kexn unit := fun s => for_each (en_queue s) fail_one s.

Definition others_done (c : nat) (s : Engine) : bool :=
  bool_decide (Forall (fun d => d = c \/ en_tasks s !! d = Some CDone) (en_consumers s)).

Definition take_next (c : nat) : M Engine kexn unit := fun s =>
  match en_tasks s !! c, en_queue s with
  | Some CIdle, r :: q => (set_task c (CBusy r) (set_queue q (en_unfinished s) s), Ok tt)
  | _, _ => (s, Ok tt)
  end.

(** What a consumer does with the end of a prefetch; the state it is left in. *)
Definition after_prefetch (c r : nat) (o : result kexn unit) (detail : string) : M Engine kexn consumer :=
  match o with
  | Ok _ => _ ← finish_in r IReady EmptyString; _ ← modify (set_errors 0); mret CIdle
  | Raise KCancelled => _ ← finish_in r IFailed "cancelled (shutdown)"; mret CDone
  | Raise KPrefetch | Raise KQuery | Raise KIntentInput =>
      _ ← modify (set_errors 0); _ ← finish_in r IFailed detail; mret CIdle
  | Raise _ =>
      _ ← finish_in r IFailed detail;
      _ ← modify (fun s => set_errors (en_programming_errors s + 1) s);
      stop ← gets (fun s => (3 <=? en_programming_errors s) || others_done c s);
      if (stop : bool) then (_ ← modify (set_accepting false); _ ← fail_never_started; mret CDone) else mret CDone
  end.

(** The end of the prefetch consumer [c] runs; [task_done] is in the [finally]. *)
Definition consume_end (c : nat) (o : result kexn unit) (detail : string) : M Engine kexn unit := fun s =>
  match en_tasks s !! c with
  | Some (CBusy r) => (st ← try_finally (after_prefetch c r o detail) task_done; modify (set_task c st)) s
  | _ => (s, Ok tt)
  end.

(** ** Life cycle *)

Definition start : M Engine kexn unit := modify (fun s =>
  let n := length (en_tasks s) in
  mkEngine (en_tables s) (en_accepting s) (en_programming_errors s) (en_queue s) (en_unfinished s) (en_backlog s)
    (en_tasks s ++ replicate (Z.to_nat consumer_count) CIdle) (en_consumers s ++ seq n (Z.to_nat consumer_count))
    (en_recover s) true (en_cancelling s) (en_events_down s)).

Definition track_in_background (h : TaskHandle) : M Engine kexn unit := modify (fun s =>
  mkEngine (en_tables s) (en_accepting s) (en_programming_errors s) (en_queue s) (en_unfinished s) (en_backlog s)
    (en_tasks s) (en_consumers s) (en_recover s ++ [h]) (en_started s) (en_cancelling s) (en_events_down s)).

(** [shutdown] up to its wait, and after it. *)
Definition shutdown_begin : M Engine kexn unit := modify (fun s =>
  mkEngine (en_tables s) false (en_programming_errors s) (en_queue s) (en_unfinished s) (en_backlog s) (en_tasks s)
    (en_consumers s) (en_recover s) (en_started s) true (en_events_down s)).

Definition clear_tasks (s : Engine) : Engine :=
  mkEngine (en_tables s) (en_accepting s) (en_programming_errors s) (en_queue s) (en_unfinished s) (en_backlog s)
    (en_tasks s) [] [] (en_started s) (en_cancelling s) (en_events_down s).

(** A record that was never admitted is failed. *)
Definition sweep_slot (r : nat) : M Engine kexn unit := fun s =>
  match tb_store (en_tables s) !! r with
  | Some x => if pending x && negb (ir_queued x) then finish_in r IFailed never_started s else (s, Ok tt)
  | None => (s, Ok tt)
  end.

Definition events_down (s : Engine) : Engine :=
  mkEngine (en_tables s) (en_accepting s) (en_programming_errors s) (en_queue s) (en_unfinished s) (en_backlog s)
    (en_tasks s) (en_consumers s) (en_recover s) (en_started s) (en_cancelling s) true.

Definition shutdown_end : M Engine kexn unit :=
  _ ← modify clear_tasks;
  _ ← fail_never_started;
  slots ← gets (fun s => dvals (tb_records (en_tables s)));
  _ ← for_each slots sweep_slot;
  modify events_down.

(** ** Receipts *)

Definition intent_status (k : string) (t : Tables) : option IntentStatus :=
  match dget k (tb_records t) with
  | Some r => ir_status <$> tb_store t !! r
  | None => fin_status <$> dget k (tb_finished t)
  end.

Definition intent_detail (k : string) (t : Tables) : string :=
  match dget k (tb_records t) with
  | Some r => match tb_store t !! r with Some x => ir_detail x | None => EmptyString end
  | None => match dget k (tb_finished t) with Some f => fin_detail f | None => EmptyString end
  end.

(** ** Histories *)

(** [ELate]: a submission whose check passed before the engine stopped accepting. *)
Inductive event : Type :=
| EStart
| ESubmit (c : call)
| ELate (c : call)
| EAdmit
| ETake (c : nat)
| EEnd (c : nat) (o : result kexn unit) (detail : string)
| ECancelIdle (c : nat)
| ETrack (h : TaskHandle)
| EShutdown
| EShutdownEnd.

(** Cancellations are delivered only once a shutdown asked for them. *)
Definition step (s : Engine) (e : event) : Engine :=
  match e with
  | EStart => (start s).1
  | ESubmit c => (submit_intent c s).1
  | ELate c => if en_started s then (submit_insert c s).1 else s
  | EAdmit => match en_backlog s with [] => s | c :: b => (admit_call c (set_backlog b s)).1 end
  | ETake c => (take_next c s).1
  | EEnd c (Raise KCancelled) d => if en_cancelling s then (consume_end c (Raise KCancelled) d s).1 else s
  | EEnd c o d => (consume_end c o d s).1
  | ECancelIdle c => if en_cancelling s && bool_decide (en_tasks s !! c = Some CIdle) then set_task c CDone s else s
  | ETrack h => (track_in_background h s).1
  | EShutdown => (shutdown_begin s).1
  | EShutdownEnd => if en_cancelling s then (shutdown_end s).1 else s
  end.

Definition run_events (es : list event) : Engine := foldl step init es.

(** ** The table is consistent *)

(** [F]: the records queued or being run.  [B]: the ids waiting for admission.  A slot
    holds a pending record, which is in flight when it was queued and waits for
    admission otherwise; a record in flight owns its slot. *)
Record core (F : list nat) (B : list string) (t : Tables) : Prop := {
  co_wf : dict_wf (tb_records t);
  co_fwf : dict_wf (tb_finished t);
  co_ring : zlen (tb_finished t) <= ring_max;
  co_slot : forall k r, dget k (tb_records t) = Some r -> exists x, tb_store t !! r = Some x /\ ir_id x = k /\
    ir_status x = IPending /\ if ir_queued x then r ∈ F else k ∈ B;
  co_flight : forall r, r ∈ F -> exists x, tb_store t !! r = Some x /\ ir_queued x = true /\
    dget (ir_id x) (tb_records t) = Some r;
  co_nodup : NoDup F
}.

Lemma core_proper F F' B B' t : core F B t -> NoDup F' -> (forall r, r ∈ F' <-> r ∈ F) -> (forall k, k ∈ B -> k ∈ B') ->
  core F' B' t.
Proof.
  intros [] Hnd HF HB. split; try done.
  - intros k r E. destruct (co_slot0 k r E) as (x&?&?&?&Hq). exists x. split_and!; try done.
    destruct (ir_queued x); [by apply HF|by apply HB].
  - intros r Hr%HF. by apply co_flight0.
Qed.

Lemma ring_max_pos : 1 <= ring_max.
Proof. unfold ring_max. lia. Qed.

Lemma dict_wf_drop {V} n (d : dict string V) : dict_wf d -> dict_wf (drop n d).
Proof. unfold dict_wf, dkeys. intros Hd. rewrite <- (take_drop n d), fmap_app in Hd. by apply NoDup_app in Hd as (_&_&?). Qed.

Lemma dmove_new {V} k (v : V) (d : dict string V) : dict_wf d -> dmove_to_end k (dset k v d) = ddel k (dset k v d) ++ [(k, v)].
Proof. intros. unfold dmove_to_end. by rewrite dget_dset_eq. Qed.

Lemma ring_wf k st detail t : dict_wf (tb_finished t) -> dict_wf (tb_finished (trim_ring (write_receipt k st detail t))).
Proof. intros Hw. simpl. apply dict_wf_drop. rewrite dmove_new by done. by apply dict_wf_replace, dict_wf_dset. Qed.

Lemma ring_bound t : zlen (tb_finished (trim_ring t)) <= ring_max.
Proof. simpl. rewrite length_drop. pose proof ring_max_pos. lia. Qed.

(** The tables after a record that owns its slot was closed. *)
Definition closed (r : nat) (x : IntentRecord) (st : IntentStatus) (detail : string) (t : Tables) : Tables :=
  free_slot (ir_id x) (trim_ring (write_receipt (ir_id x) st detail (write_status r st detail t))).

Lemma finish_cases r st detail t :
  finish r st detail t = t \/
  exists x, tb_store t !! r = Some x /\ dget (ir_id x) (tb_records t) = Some r /\ ir_status x = IPending /\
    finish r st detail t = closed r x st detail t.
Proof.
  unfold finish, owns, pending. destruct (tb_store t !! r) as [x|] eqn:E; [|by left]. repeat case_bool_decide; eauto 10.
Qed.

Lemma finish_owner r x st detail t : tb_store t !! r = Some x -> dget (ir_id x) (tb_records t) = Some r ->
  ir_status x = IPending -> finish r st detail t = closed r x st detail t.
Proof. intros E Ho Hp. unfold finish, owns, pending. rewrite E. by rewrite !bool_decide_eq_true_2. Qed.

Lemma closed_core F F' B r x st detail t : core F B t -> tb_store t !! r = Some x -> dget (ir_id x) (tb_records t) = Some r ->
  NoDup F' -> (forall r', r' ∈ F' <-> r' ∈ F /\ r' <> r) -> core F' B (closed r x st detail t).
Proof.
  intros [] Hx Ho Hnd HF. unfold closed. split.
  - by apply dict_wf_ddel.
  - by apply ring_wf.
  - apply ring_bound.
  - intros k r'. cbn [free_slot trim_ring write_receipt write_status tb_records tb_store].
    destruct (decide (k = ir_id x)) as [->|Hne]; [by rewrite dget_ddel_eq|]. rewrite dget_ddel_ne by done. intros E.
    destruct (co_slot0 _ _ E) as (y&Hy&Hk&Hp&Hq). assert (r' <> r) by congruence.
    rewrite list_lookup_alter_ne by done. exists y. split_and!; try done. destruct (ir_queued y); [by apply HF|done].
  - intros r' [Hr Hne]%HF. destruct (co_flight0 _ Hr) as (y&Hy&Hq&Hg).
    cbn [free_slot trim_ring write_receipt write_status tb_records tb_store].
    rewrite list_lookup_alter_ne by done. exists y. split_and!; try done. rewrite dget_ddel_ne; [done|]. congruence.
  - done.
Qed.

Lemma finish_core F F' B r st detail t : core F B t -> NoDup F' -> (forall r', r' ∈ F' <-> r' ∈ F /\ r' <> r) ->
  core F' B (finish r st detail t).
Proof.
  intros Hc Hnd HF. destruct (decide (r ∈ F)) as [Hr|Hr].
  - destruct (co_flight _ _ _ Hc _ Hr) as (x&Hx&_&Ho). destruct (co_slot _ _ _ Hc _ _ Ho) as (x'&Hx'&_&Hp&_).
    replace x' with x in * by congruence. rewrite (finish_owner r x) by done. by apply closed_core with (F := F).
  - destruct (finish_cases r st detail t) as [->|(x&Hx&Ho&_&->)]; [|by apply closed_core with (F := F)].
    apply core_proper with (F := F) (B := B); try done. intros r'. rewrite HF. split; [tauto|]. intros; split; congruence.
Qed.

Lemma alloc_spec c t : alloc c t =
  match dget (call_id c) (tb_records t) with
  | Some _ => (mkTables (tb_store t ++ [new_record c]) (tb_records t) (tb_finished t),
               bool_decide (dget (call_id c) (tb_records t) = Some (length (tb_store t))))
  | None => (mkTables (tb_store t ++ [new_record c]) (dset (call_id c) (length (tb_store t)) (tb_records t)) (tb_finished t), true)
  end.
Proof.
  unfold alloc, dsetdefault. destruct (dget (call_id c) (tb_records t)) as [r|]; [|by rewrite bool_decide_eq_true_2].
  f_equal. apply bool_decide_ext. split; congruence.
Qed.

Lemma store_grows (t : Tables) c r x : tb_store t !! r = Some x -> (tb_store t ++ [new_record c]) !! r = Some x.
Proof. apply lookup_app_l_Some. Qed.

Lemma alloc_core F B c t : core F B t ->
  core F (B ++ (if (alloc c t).2 then [call_id c] else [])) (alloc c t).1 /\
  (dget (call_id c) (tb_records t) = None -> (alloc c t).2 = true /\
     dget (call_id c) (tb_records (alloc c t).1) = Some (length (tb_store t)) /\ (length (tb_store t) ∉ F) /\
     tb_store (alloc c t).1 !! length (tb_store t) = Some (new_record c)) /\
  (is_Some (dget (call_id c) (tb_records t)) -> (alloc c t).2 = false).
Proof.
  intros Hc. pose proof Hc as []. rewrite alloc_spec. destruct (dget (call_id c) (tb_records t)) as [r|] eqn:E; simpl.
  - destruct (co_slot0 _ _ E) as (x&Hx&_).
    rewrite (bool_decide_eq_false_2 (Some r = _)) by (intros [= ->]; by rewrite lookup_ge_None_2 in Hx).
    rewrite app_nil_r. split_and!; try done. split; try done; simpl.
    + intros k r' E'. destruct (co_slot0 _ _ E') as (y&Hy&?). exists y. split; [by apply store_grows|done].
    + intros r' Hr. destruct (co_flight0 _ Hr) as (y&Hy&?). exists y. split; [by apply store_grows|done].
  - split_and!; [split; simpl; try done|..].
    + by apply dict_wf_dset.
    + intros k r'. destruct (decide (k = call_id c)) as [->|Hne].
      * rewrite dget_dset_eq. intros [= <-]. exists (new_record c). rewrite lookup_app_r, Nat.sub_diag by done.
        split_and!; try done. simpl. set_solver.
      * rewrite dget_dset_ne by done. intros E'. destruct (co_slot0 _ _ E') as (y&Hy&?&?&Hq). exists y.
        split; [by apply store_grows|]. split_and!; try done. destruct (ir_queued y); [done|set_solver].
    + intros r' Hr. destruct (co_flight0 _ Hr) as (y&Hy&Hq&Hg). exists y. split; [by apply store_grows|]. split; [done|].
      rewrite dget_dset_ne; [done|]. congruence.
    + intros _. split_and!; [done|by rewrite dget_dset_eq|..].
      * intros Hr. destruct (co_flight0 _ Hr) as (y&Hy&_). by rewrite lookup_ge_None_2 in Hy.
      * by rewrite lookup_app_r, Nat.sub_diag.
    + by intros [].
Qed.

Lemma core_admitted F B k t : core F (k :: B) t ->
  (forall r x, dget k (tb_records t) = Some r -> tb_store t !! r = Some x -> ir_queued x = true) -> core F B t.
Proof.
  intros [] Hk. split; try done. intros k' r E. destruct (co_slot0 _ _ E) as (x&Hx&He&Hp&Hq). exists x. split_and!; try done.
  destruct (ir_queued x) eqn:Eq; [done|]. apply elem_of_cons in Hq as [->|]; [|done].
  by rewrite (Hk r x E Hx) in Eq.
Qed.

Lemma set_queued_core F F' B k r t : core F B t -> dget k (tb_records t) = Some r -> NoDup F' ->
  (forall r', r' ∈ F' <-> r' = r \/ r' ∈ F) -> core F' B (set_queued r t).
Proof.
  intros [] Hk Hnd HF. split; try done.
  - intros k' r' E. destruct (co_slot0 _ _ E) as (x&Hx&He&Hp&Hq). simpl. destruct (decide (r' = r)) as [->|Hne].
    + rewrite list_lookup_alter_eq, Hx. eexists. split; [reflexivity|]. split_and!; try done. simpl. apply HF. by left.
    + rewrite list_lookup_alter_ne by done. exists x. split_and!; try done. destruct (ir_queued x); [|done]. apply HF. by right.
  - intros r' Hr%HF. simpl. destruct (decide (r' = r)) as [->|Hne].
    + destruct (co_slot0 _ _ Hk) as (x&Hx&He&_). rewrite list_lookup_alter_eq, Hx. eexists. split; [reflexivity|].
      split; [done|]. simpl. by rewrite He.
    + rewrite list_lookup_alter_ne by done. apply co_flight0. tauto.
Qed.

(** ** Consumers *)

Definition held (c : consumer) : option nat := match c with CBusy r => Some r | _ => None end.
Definition busy (l : list consumer) : list nat := omap held l.
Definition flight (s : Engine) : list nat := en_queue s ++ busy (en_tasks s).

Lemma busy_cons c l : busy (c :: l) = option_list (held c) ++ busy l.
Proof. by destruct c. Qed.

Lemma busy_split tasks c x : tasks !! c = Some x -> exists R, busy tasks ≡ₚ option_list (held x) ++ R /\
  forall st, busy (<[c := st]> tasks) ≡ₚ option_list (held st) ++ R.
Proof.
  intros E. exists (busy (take c tasks) ++ busy (drop (S c) tasks)).
  assert (Hgen : forall y, busy (take c tasks ++ y :: drop (S c) tasks) ≡ₚ
    option_list (held y) ++ busy (take c tasks) ++ busy (drop (S c) tasks)).
  { intros y. unfold busy at 1. rewrite omap_app. fold (busy (take c tasks)) (busy (y :: drop (S c) tasks)).
    rewrite busy_cons. by rewrite Permutation_app_swap_app. }
  split; [by rewrite <- (take_drop_middle tasks c x E) at 1|].
  intros st. rewrite insert_take_drop by (by eapply lookup_lt_Some). apply Hgen.
Qed.

(** ** The invariant of the engine *)

Record inv (s : Engine) : Prop := {
  iv_core : core (flight s) (call_id <$> en_backlog s) (en_tables s);
  iv_unfinished : en_unfinished s = zlen (flight s);
  iv_queue : 0 < queue_size -> zlen (en_queue s) <= queue_size;
  iv_tasks : forall c, c ∈ en_consumers s -> is_Some (en_tasks s !! c);
  iv_live : en_accepting s = true -> en_started s = true ->
    exists c, c ∈ en_consumers s /\ en_tasks s !! c <> Some CDone;
  iv_cancel : en_cancelling s = true -> en_accepting s = false;
  iv_down : en_events_down s = true -> en_queue s = [] /\ en_accepting s = false
}.

Lemma fail_one_step r s : 0 < en_unfinished s ->
  fail_one r s = (set_queue (tail (en_queue s)) (en_unfinished s - 1)
                    (set_tables (finish r IFailed never_started (en_tables s)) s), Ok tt).
Proof.
  intros Hu. unfold fail_one, mbind, M_bind, modify, finish_in, task_done. simpl.
  destruct (en_unfinished s <=? 0) eqn:E; zbool; [lia|]. by destruct s.
Qed.

Lemma fail_all_spec B F q : forall s m, en_queue s = q -> core (q ++ F) B (en_tables s) ->
  en_unfinished s = zlen q + m -> 0 <= m ->
  exists t, for_each q fail_one s = (set_queue [] m (set_tables t s), Ok tt) /\ core F B t.
Proof.
  induction q as [|r q IH]; intros s m Hq Hc Hu Hm.
  { exists (en_tables s). split; [|done]. replace m with (en_unfinished s) by (rewrite Hu; simpl; lia). cbn [for_each].
    rewrite <- Hq. by destruct s. }
  pose proof (co_nodup _ _ _ Hc) as Hnd. apply NoDup_cons in Hnd as [Hr Hnd]. simpl in Hu.
  cbn [for_each]. rewrite (bind_ok _ _ _ _ _ (fail_one_step r s ltac:(lia))), Hq.
  destruct (IH (set_queue q (en_unfinished s - 1) (set_tables (finish r IFailed never_started (en_tables s)) s)) m)
    as (t&Ef&Hct); simpl; [done| |lia|done|].
  - apply finish_core with (F := r :: q ++ F); [done|done|]. intros r'. rewrite elem_of_cons.
    split; [intros Hin; split; [by right|by intros ->]|tauto].
  - exists t. simpl. rewrite Ef. by split.
Qed.

(** The queued records are failed. *)
Lemma fail_never_started_spec B F m s : core (en_queue s ++ F) B (en_tables s) ->
  en_unfinished s = zlen (en_queue s) + m -> 0 <= m ->
  exists t, fail_never_started s = (set_queue [] m (set_tables t s), Ok tt) /\ core F B t.
Proof. intros. by apply fail_all_spec. Qed.

Lemma set_task_live c st s : en_tasks s !! c <> Some CDone -> st <> CDone ->
  forall d, en_tasks s !! d <> Some CDone -> en_tasks (set_task c st s) !! d <> Some CDone.
Proof.
  intros Hc Hst d Hd. simpl. destruct (decide (d = c)) as [->|Hne]; [|by rewrite list_lookup_insert_ne].
  destruct (decide (c < length (en_tasks s))%nat); [rewrite list_lookup_insert_eq by done; congruence|].
  by rewrite list_insert_ge by lia.
Qed.

Lemma set_task_some c st s d : is_Some (en_tasks s !! d) -> is_Some (en_tasks (set_task c st s) !! d).
Proof. rewrite !lookup_lt_is_Some. simpl. by rewrite length_insert. Qed.

Lemma inv_init : inv init.
Proof.
  split; try done; [|simpl; lia|by intros c Hc%elem_of_nil].
  split; try done; try apply NoDup_nil_2; simpl; [pose proof ring_max_pos; lia|by intros r Hr%elem_of_nil].
Qed.

Lemma inv_submit_insert c s : inv s -> inv (submit_insert c s).1.
Proof.
  intros []. unfold submit_insert. destruct (alloc_core _ _ c _ iv_core0) as (Hc&_&_).
  destruct (alloc c (en_tables s)) as [t []]; simpl in *; split; try done; simpl; [by rewrite fmap_app|by rewrite app_nil_r in Hc].
Qed.

Lemma inv_take c s : inv s -> inv (take_next c s).1.
Proof.
  intros Hi. unfold take_next. destruct (en_tasks s !! c) as [[]|] eqn:Ec; try done.
  destruct (en_queue s) as [|r q] eqn:Eq; [done|]. destruct Hi.
  destruct (busy_split _ _ _ Ec) as (R&HR&Hins). specialize (Hins (CBusy r)). simpl in HR, Hins.
  assert (Hp : flight (set_task c (CBusy r) (set_queue q (en_unfinished s) s)) ≡ₚ flight s).
  { unfold flight. simpl. rewrite Eq, HR, Hins. by rewrite <- Permutation_middle. }
  split; simpl; try done.
  - apply core_proper with (F := flight s) (B := call_id <$> en_backlog s); try done.
    + rewrite Hp. apply iv_core0.
    + intros r'. by rewrite Hp.
  - rewrite iv_unfinished0, <- Hp. done.
  - intros Hpos. specialize (iv_queue0 Hpos). rewrite Eq in iv_queue0. simpl in iv_queue0. lia.
  - intros d Hd. apply (set_task_some c (CBusy r) s d), iv_tasks0, Hd.
  - intros Ha Hs. destruct (iv_live0 Ha Hs) as (d&Hd&Hn). exists d. split; [done|].
    apply (set_task_live c (CBusy r) s); [by rewrite Ec|done|done].
  - intros Hd. destruct (iv_down0 Hd). congruence.
Qed.

Lemma slot_record_core F B c t : core F (call_id c :: B) t ->
  core F (call_id c :: B) (slot_record c t).1 /\
  dget (call_id c) (tb_records (slot_record c t).1) = Some (slot_record c t).2.
Proof.
  intros Hc. unfold slot_record. destruct (dget (call_id c) (tb_records t)) as [r|] eqn:E; [by split|].
  destruct (alloc_core _ _ c _ Hc) as (Hc'&Hn&_). destruct (Hn E) as (Hw&Hg&_&_). rewrite Hw in Hc'. simpl. split; [|done].
  apply core_proper with (F := F) (B := call_id c :: B ++ [call_id c]); [done|by destruct Hc|done|].
  intros k. rewrite !elem_of_cons, elem_of_app, list_elem_of_singleton. tauto.
Qed.

(** A slot that is emptied needs no admission. *)
Lemma finish_admits F B k r st detail t : core F (k :: B) t -> dget k (tb_records t) = Some r -> r ∉ F ->
  core F B (finish r st detail t).
Proof.
  intros Hc Hk Hr. pose proof (co_slot _ _ _ Hc _ _ Hk) as (x&Hx&He&Hp&_). subst k.
  apply core_admitted with (k := ir_id x).
  - apply finish_core with (F := F); [done|by destruct Hc|]. intros r'. split; [|tauto]. intros. split; congruence.
  - rewrite (finish_owner r x) by done. intros r' y. simpl. rewrite dget_ddel_eq by (by destruct Hc). done.
Qed.

Lemma admit_inv c s F B : core F (call_id c :: B) (en_tables s) -> F = flight s ->
  en_unfinished s = zlen F -> (0 < queue_size -> zlen (en_queue s) <= queue_size) ->
  (en_events_down s = true -> en_accepting s = false) ->
  let s' := (admit_call c s).1 in
  core (flight s') B (en_tables s') /\ en_unfinished s' = zlen (flight s') /\
  (0 < queue_size -> zlen (en_queue s') <= queue_size) /\
  (en_accepting s = false -> en_queue s' = en_queue s) /\ exists t q n, s' = set_queue q n (set_tables t s).
Proof.
  intros Hc -> Hu Hq Hd. unfold admit_call. destruct (slot_record_core _ _ _ _ Hc) as [Hc1 Hg].
  destruct (slot_record c (en_tables s)) as [t r]. simpl in Hc1, Hg.
  destruct (co_slot _ _ _ Hc1 _ _ Hg) as (x&Hx&He&Hp&Hqd). rewrite Hx.
  assert (Hsame : forall t', exists t0 q n, set_tables t' s = set_queue q n (set_tables t0 s)).
  { intros t'. exists t', (en_queue s), (en_unfinished s). by destruct s. }
  assert (Hqueued : ir_queued x = true -> core (flight s) B t).
  { intros Eq. apply core_admitted with (k := call_id c); [done|]. intros r' y E Ey. congruence. }
  assert (Hnot : ir_queued x = false -> r ∉ flight s).
  { intros Eq Hin. destruct (co_flight _ _ _ Hc1 _ Hin) as (y&Hy&Hyq&_). congruence. }
  destruct (ir_queued x) eqn:Eq.
  { simpl. destruct (en_accepting s); simpl; split_and!; auto. }
  specialize (Hnot eq_refl). unfold pending. rewrite Hp, bool_decide_eq_true_2 by done.
  destruct (en_accepting s) eqn:Ea; simpl.
  2:{ split_and!; auto; [by apply finish_admits with (k := call_id c)|]. apply (Hsame (finish r IFailed never_started t)). }
  assert (Hput : core (r :: flight s) (call_id c :: B) (set_queued r t)).
  { apply set_queued_core with (F := flight s) (k := call_id c); try done; [|intros r'; by rewrite elem_of_cons].
    apply NoDup_cons. split; [done|by destruct Hc]. }
  unfold mbind, M_bind, put_nowait, finish_in, modify. simpl.
  destruct ((0 <? queue_size) && (queue_size <=? zlen (en_queue s))) eqn:Ef; simpl.
  - split_and!; auto; [|apply (Hsame (finish r IFailed "rejected (queue full)" (set_queued r t)))].
    apply core_admitted with (k := call_id c).
    + apply finish_core with (F := r :: flight s); [done|by destruct Hc|]. intros r'. rewrite elem_of_cons.
      split; [|naive_solver]. intros Hin. split; [by right|by intros ->].
    + rewrite (finish_owner r (mkRec (ir_id x) (ir_call x) (ir_status x) (ir_detail x) true));
        [|simpl; by rewrite list_lookup_alter_eq, Hx|simpl; by rewrite He|done].
      intros r' y. simpl. rewrite He, dget_ddel_eq by (by destruct Hc1). done.
  - assert (Hperm : flight (set_queue (en_queue s ++ [r]) (en_unfinished s + 1) (set_tables (set_queued r t) s)) ≡ₚ r :: flight s).
    { unfold flight. simpl. rewrite <- app_assoc. symmetry. apply Permutation_middle. }
    split_and!; try done.
    + apply core_admitted with (k := call_id c).
      * apply core_proper with (F := r :: flight s) (B := call_id c :: B); [done| |intros r'; by rewrite Hperm|done].
        rewrite Hperm. by destruct Hput.
      * intros r' y. simpl. rewrite Hg. intros [= <-]. rewrite list_lookup_alter_eq, Hx. by intros [= <-].
    + rewrite Hperm. simpl. lia.
    + rewrite length_app. simpl. intros Hpos. apply andb_false_iff in Ef as [Ef|Ef]; zbool; lia.
    + eauto.
Qed.

(** What the consumer's code changes. *)
Definition turned (t : Tables) (a : bool) (e : Z) (q : list nat) (n : Z) (s : Engine) : Engine :=
  set_errors e (set_accepting a (set_queue q n (set_tables t s))).

Lemma after_prefetch_spec c r o detail s R B : core (r :: en_queue s ++ R) B (en_tables s) ->
  en_unfinished s = zlen (en_queue s) + (zlen R + 1) ->
  exists t a e q st, after_prefetch c r o detail s = (turned t a e q (zlen q + (zlen R + 1)) s, Ok st) /\
    held st = None /\ core (q ++ R) B t /\ (q = en_queue s \/ q = []) /\ (a = true -> en_accepting s = true) /\
    (st = CDone -> o = Raise KCancelled \/ a = false \/ others_done c s = false).
Proof.
  intros Hc Hu. pose proof (co_nodup _ _ _ Hc) as Hnd. apply NoDup_cons in Hnd as [Hr Hnd].
  assert (Hfin : forall st d, core (en_queue s ++ R) B (finish r st d (en_tables s))).
  { intros st d. apply finish_core with (F := r :: en_queue s ++ R); [done|done|]. intros r'. rewrite elem_of_cons.
    split; [intros Hin; split; [by right|by intros ->]|tauto]. }
  assert (Hsimple : forall st d e cst, held cst = None -> (cst = CDone -> o = Raise KCancelled \/ others_done c s = false) ->
    exists t a e' q st', (set_errors e (set_tables (finish r st d (en_tables s)) s), Ok cst) =
        ((turned t a e' q (zlen q + (zlen R + 1)) s, Ok st') : Engine * result kexn consumer) /\
      held st' = None /\ core (q ++ R) B t /\ (q = en_queue s \/ q = []) /\ (a = true -> en_accepting s = true) /\
      (st' = CDone -> o = Raise KCancelled \/ a = false \/ others_done c s = false)).
  { intros st d e cst Hh Hd. exists (finish r st d (en_tables s)), (en_accepting s), e, (en_queue s), cst.
    rewrite <- Hu. split_and!; auto. intros Hcd. destruct (Hd Hcd); auto. }
  assert (Hprog : exists t a e q st,
    (_ ← finish_in r IFailed detail;
     _ ← modify (fun s => set_errors (en_programming_errors s + 1) s);
     stop ← gets (fun s => (3 <=? en_programming_errors s) || others_done c s);
     if (stop : bool) then (_ ← modify (set_accepting false); _ ← fail_never_started; mret CDone) else mret CDone) s =
      (turned t a e q (zlen q + (zlen R + 1)) s, Ok st) /\
      held st = None /\ core (q ++ R) B t /\ (q = en_queue s \/ q = []) /\ (a = true -> en_accepting s = true) /\
      (st = CDone -> o = Raise KCancelled \/ a = false \/ others_done c s = false)).
  { unfold mbind, M_bind, finish_in, modify, gets. simpl.
    set (s1 := set_errors (en_programming_errors s + 1) (set_tables (finish r IFailed detail (en_tables s)) s)).
    change (others_done c s1) with (others_done c s). destruct ((3 <=? en_programming_errors s + 1) || others_done c s) eqn:E.
    - destruct (fail_never_started_spec B R (zlen R + 1) (set_accepting false s1)) as (t&Ef&Hct); [apply Hfin|done|lia|].
      rewrite Ef. exists t, false, (en_programming_errors s + 1), [], CDone. split_and!; auto; done.
    - apply orb_false_iff in E as [_ E]. exists (finish r IFailed detail (en_tables s)), (en_accepting s),
        (en_programming_errors s + 1), (en_queue s), CDone. rewrite <- Hu. split_and!; auto. }
  destruct o as [[]|x].
  - apply (Hsimple IReady EmptyString 0 CIdle); done.
  - destruct x; try (exact Hprog);
      try (apply (Hsimple IFailed detail 0 CIdle); done).
    destruct (Hsimple IFailed "cancelled (shutdown)" (en_programming_errors s) CDone) as (t&a&e&q&st&E&H'); [done|auto|].
    exists t, a, e, q, st. split; [|done]. rewrite <- E. by destruct s.
Qed.

Lemma inv_consume_end c o detail s : inv s -> (o = Raise KCancelled -> en_accepting s = false) ->
  inv (consume_end c o detail s).1.
Proof.
  intros Hi Ho. unfold consume_end. destruct (en_tasks s !! c) as [[|r|]|] eqn:Ec; try done. destruct Hi.
  destruct (busy_split _ _ _ Ec) as (R&HR&Hins). simpl in HR.
  assert (HF : flight s ≡ₚ r :: en_queue s ++ R) by (unfold flight; rewrite HR; by rewrite <- Permutation_middle).
  destruct (after_prefetch_spec c r o detail s R (call_id <$> en_backlog s)) as (t&a&e&q&st&E&Hh&Hct&Hq&Ha&Hst).
  { apply core_proper with (F := flight s) (B := call_id <$> en_backlog s); [done| |intros r'; by rewrite HF|done].
    rewrite <- HF. by destruct iv_core0. }
  { rewrite iv_unfinished0, HF. simpl. rewrite length_app. lia. }
  unfold mbind, M_bind, try_finally. rewrite E. unfold task_done, modify. simpl.
  destruct (zlen q + (zlen R + 1) <=? 0) eqn:Eu; zbool; [lia|]. simpl.
  assert (HF' : forall n, flight (set_task c st (set_queue q n (turned t a e q (zlen q + (zlen R + 1)) s))) ≡ₚ q ++ R).
  { intros n. unfold flight. simpl. rewrite (Hins st), Hh. done. }
  split; simpl.
  - apply core_proper with (F := q ++ R) (B := call_id <$> en_backlog s); [done| |intros r'; by rewrite HF'|done].
    rewrite HF'. by destruct Hct.
  - rewrite HF', length_app. lia.
  - intros Hpos. specialize (iv_queue0 Hpos). destruct Hq as [->| ->]; [done|]. simpl. lia.
  - intros d Hd. apply (set_task_some c st s d), iv_tasks0, Hd.
  - intros Hacc Hs. specialize (Ha Hacc). destruct (decide (st = CDone)) as [->|Hne].
    + destruct (Hst eq_refl) as [->|[->|Hod]]; [by rewrite Ho in Ha|done|].
      apply bool_decide_eq_false, not_Forall_Exists, Exists_exists in Hod as (d&Hin&Hd); [|apply _].
      exists d. split; [done|]. rewrite list_lookup_insert_ne by (intros <-; apply Hd; by left).
      intros Hdd. apply Hd. by right.
    + destruct (iv_live0 Ha Hs) as (d&Hd&Hn). exists d. split; [done|]. apply (set_task_live c st s); [by rewrite Ec|done|done].
  - intros Hc. specialize (iv_cancel0 Hc). destruct a; [by rewrite Ha in iv_cancel0|done].
  - intros Hd. destruct (iv_down0 Hd) as [Hqe Hacc]. split; [|destruct a; [by rewrite Ha in Hacc|done]].
    destruct Hq as [->| ->]; done.
Qed.

Lemma sweep_spec F B slots : forall s, core F B (en_tables s) ->
  exists t, for_each slots sweep_slot s = (set_tables t s, Ok tt) /\ core F B t.
Proof.
  induction slots as [|r slots IH]; intros s Hc; [exists (en_tables s); split; [by destruct s|done]|].
  assert (H1 : exists t, sweep_slot r s = (set_tables t s, Ok tt) /\ core F B t).
  { unfold sweep_slot. destruct (tb_store (en_tables s) !! r) as [x|] eqn:Ex; [|exists (en_tables s); split; [by destruct s|done]].
    destruct (pending x && negb (ir_queued x)) eqn:E; [|exists (en_tables s); split; [by destruct s|done]].
    eexists. split; [reflexivity|]. apply finish_core with (F := F); [done|by destruct Hc|].
    intros r'. split; [|tauto]. intros Hr. split; [done|]. intros ->.
    destruct (co_flight _ _ _ Hc _ Hr) as (y&Hy&Hq&_). apply andb_true_iff in E as [_ E]. replace y with x in Hq by congruence.
    by rewrite Hq in E. }
  destruct H1 as (t1&E1&Hc1). destruct (IH (set_tables t1 s) Hc1) as (t2&E2&Hc2).
  exists t2. split; [|done]. cbn [for_each]. rewrite (bind_ok _ _ _ _ _ E1), E2. by destruct s.
Qed.

Lemma inv_shutdown_end s : inv s -> en_cancelling s = true -> inv (shutdown_end s).1.
Proof.
  intros [] Hcan. specialize (iv_cancel0 Hcan). unfold shutdown_end, mbind, M_bind, modify, gets.
  destruct (fail_never_started_spec (call_id <$> en_backlog s) (busy (en_tasks s)) (zlen (busy (en_tasks s))) (clear_tasks s))
    as (t&Ef&Hct); [done|simpl; rewrite iv_unfinished0; unfold flight; rewrite length_app; lia|lia|]. rewrite Ef.
  destruct (sweep_spec _ _ (dvals (tb_records t)) (set_queue [] (zlen (busy (en_tasks s))) (set_tables t (clear_tasks s))) Hct)
    as (t2&Es&Hct2). simpl in Es |- *. rewrite Es.
  split; simpl; try done; [lia|by intros d Hd%elem_of_nil|congruence].
Qed.

Lemma busy_idle n : busy (replicate n CIdle) = [].
Proof. by induction n. Qed.

Context (consumers_pos : 0 < consumer_count).

Lemma inv_start s : inv s -> inv (start s).1.
Proof.
  intros []. unfold start, modify. simpl.
  assert (HF : busy (en_tasks s ++ replicate (Z.to_nat consumer_count) CIdle) = busy (en_tasks s)).
  { unfold busy. rewrite omap_app. fold (busy (replicate (Z.to_nat consumer_count) CIdle)). by rewrite busy_idle, app_nil_r. }
  split; simpl; try done; unfold flight; simpl; rewrite ?HF; try done.
  - intros c. rewrite elem_of_app, elem_of_seq, lookup_lt_is_Some, length_app, length_replicate.
    intros [Hc|Hc]; [apply iv_tasks0, lookup_lt_is_Some in Hc|]; lia.
  - intros _ _. exists (length (en_tasks s)). split; [rewrite elem_of_app, elem_of_seq; right; lia|].
    rewrite lookup_app_r, Nat.sub_diag by done. by destruct (Z.to_nat consumer_count) eqn:E; [lia|].
Qed.

Lemma inv_step s e : inv s -> inv (step s e).
Proof.
  intros Hi. destruct e as [| c | c | | c | c o d | c | h | |]; simpl.
  - by apply inv_start.
  - unfold submit_intent, mbind, M_bind, submit_check. destruct (negb (en_accepting s)); [done|].
    destruct (negb (en_started s)); [done|]. by apply inv_submit_insert.
  - destruct (en_started s); [by apply inv_submit_insert|done].
  - destruct (en_backlog s) as [|c b] eqn:Eb; [done|]. destruct Hi. rewrite Eb in iv_core0.
    destruct (admit_inv c (set_backlog b s) (flight s) (call_id <$> b)) as (Hc&Hu&Hq&Hqn&t&q&n&E);
      [done|done|done|done|by intros []%iv_down0|]. rewrite E in *. split; try done.
    intros Hd. destruct (iv_down0 Hd) as [Hq0 Ha]. split; [|done]. rewrite Hqn by done. done.
  - by apply inv_take.
  - assert (Hend : (o = Raise KCancelled -> en_accepting s = false) -> inv (consume_end c o d s).1) by (by apply inv_consume_end).
    destruct o as [|[]]; try (by apply Hend). destruct (en_cancelling s) eqn:E; [|done]. apply Hend. intros _. by apply Hi.
  - destruct (en_cancelling s && bool_decide (en_tasks s !! c = Some CIdle)) eqn:E; [|done].
    apply andb_true_iff in E as [Hcan Ec]. apply bool_decide_eq_true in Ec. destruct Hi.
    destruct (busy_split _ _ _ Ec) as (R&HR&Hins). specialize (Hins CDone). simpl in HR, Hins.
    assert (HF : flight (set_task c CDone s) ≡ₚ flight s) by (unfold flight; simpl; by rewrite HR, Hins).
    split; simpl; try done.
    + apply core_proper with (F := flight s) (B := call_id <$> en_backlog s); [done| |intros r'; by rewrite HF|done].
      rewrite HF. by destruct iv_core0.
    + by rewrite HF.
    + intros d Hd. apply (set_task_some c CDone s d), iv_tasks0, Hd.
    + intros Ha. by rewrite iv_cancel0 in Ha.
  - destruct Hi. by split.
  - destruct Hi. split; simpl; try done. intros Hd. by destruct (iv_down0 Hd).
  - destruct (en_cancelling s) eqn:E; [by apply inv_shutdown_end|done].
Qed.

Lemma inv_reachable es : inv (run_events es).
Proof.
  unfold run_events. induction es as [|e es IH] using rev_ind; [apply inv_init|]. rewrite foldl_app. by apply inv_step.
Qed.

(** The intent a record of the store belongs to. *)
Definition id_of (s : Engine) (r : nat) : option string := ir_id <$> tb_store (en_tables s) !! r.

(** C21. No intent runs twice at a time: in every reachable state (submissions from any
    thread, late ones included, admissions, consumers ending in any way, a
    shutdown at any point) the intents queued or being run are pairwise distinct
    and reported pending, a submission of an intent whose slot is taken returns
    its id and changes neither the slots nor the queue nor the calls handed to the
    loop, the queue's count of unfinished tasks is exact (so [task_done] never
    raises), the queue keeps its bound and the receipts theirs. *)
Theorem intents_run_once es :
  let s := run_events es in
  NoDup (id_of s <$> flight s) /\
  (forall r, r ∈ flight s -> exists k, id_of s r = Some k /\ intent_status k (en_tables s) = Some IPending) /\
  (forall c, is_Some (dget (call_id c) (tb_records (en_tables s))) ->
     let '(s', o) := submit_insert c s in
     o = Ok (call_id c) /\ tb_records (en_tables s') = tb_records (en_tables s) /\
     en_queue s' = en_queue s /\ en_backlog s' = en_backlog s) /\
  en_unfinished s = zlen (flight s) /\
  (0 < queue_size -> zlen (en_queue s) <= queue_size) /\
  zlen (tb_finished (en_tables s)) <= ring_max.
Proof.
  intros s. pose proof (inv_reachable es : inv s) as []. pose proof iv_core0 as []. split_and!; try done.
  - apply NoDup_fmap_2_strong; [|done]. intros r1 r2 (x1&Hx1&_&Ho1)%co_flight0 (x2&Hx2&_&Ho2)%co_flight0.
    unfold id_of. rewrite Hx1, Hx2. simpl. intros [= E]. congruence.
  - intros r (x&Hx&_&Ho)%co_flight0. exists (ir_id x). unfold id_of, intent_status. rewrite Hx, Ho, Hx. split; [done|].
    destruct (co_slot0 _ _ Ho) as (x'&Hx'&_&Hp&_). simpl. congruence.
  - intros c Hc. unfold submit_insert. destruct (alloc_core _ _ c _ iv_core0) as (_&_&Hw). specialize (Hw Hc).
    pose proof (alloc_spec c (en_tables s)) as Ha. destruct Hc as [r Hr]. rewrite Hr in Ha.
    destruct (alloc c (en_tables s)) as [t won]. simpl in Hw. subst won. injection Ha as -> _. done.
Qed.

(** C22. No intent is forgotten: in every reachable state, while the engine accepts
    intents a consumer is alive to run them; a pending intent is queued, being run
    or about to be admitted; and once a shutdown has finished, nobody is running
    and the calls handed to the loop have been made, no intent is pending. *)
Theorem intents_settle es :
  let s := run_events es in
  (en_accepting s = true -> en_started s = true -> exists c, c ∈ en_consumers s /\ en_tasks s !! c <> Some CDone) /\
  (forall k, intent_status k (en_tables s) = Some IPending -> dget k (tb_records (en_tables s)) <> None ->
     (exists r, r ∈ flight s /\ id_of s r = Some k) \/ k ∈ (call_id <$> en_backlog s)) /\
  (en_events_down s = true -> busy (en_tasks s) = [] -> en_backlog s = [] -> tb_records (en_tables s) = []).
Proof.
  intros s. pose proof (inv_reachable es : inv s) as []. pose proof iv_core0 as []. split_and!; [done|..].
  - intros k _ Hk. destruct (dget k (tb_records (en_tables s))) as [r|] eqn:E; [|done].
    destruct (co_slot0 _ _ E) as (x&Hx&He&_&Hq). destruct (ir_queued x); [left|by right].
    exists r. unfold id_of. rewrite Hx. simpl. by rewrite He.
  - intros Hd Hb Hl. destruct (iv_down0 Hd) as [Hq _]. destruct (tb_records (en_tables s)) as [|[k r] recs] eqn:E; [done|].
    destruct (co_slot0 k r) as (x&_&_&_&Hin); [simpl; by rewrite decide_True|].
    unfold flight in Hin. rewrite Hq, Hb, Hl in Hin. destruct (ir_queued x); by apply elem_of_nil in Hin.
Qed.

(** ** Receipts *)

(** The states of the tables while [_finish] closes a record. *)
Definition finish_states (r : nat) (k : string) (st : IntentStatus) (detail : string) (t : Tables) : list Tables :=
  let t1 := write_status r st detail t in
  let t2 := mkTables (tb_store t1) (tb_records t1) (dset k (mkFinished k st detail) (tb_finished t1)) in
  let t3 := mkTables (tb_store t2) (tb_records t2) (dmove_to_end k (tb_finished t2)) in
  [t; t1; t2; t3; trim_ring t3; free_slot k (trim_ring t3)].

(** [intent_status] on another thread: the slot is read in one state, the record or
    the receipt in a later one. *)
Definition read_status (k : string) (t1 t2 : Tables) : option IntentStatus :=
  match dget k (tb_records t1) with
  | Some r => ir_status <$> tb_store t2 !! r
  | None => fin_status <$> dget k (tb_finished t2)
  end.

Lemma trim_keeps_last (k : string) (v : Finished) l : dict_wf (l ++ [(k, v)]) ->
  dget k (drop (length (l ++ [(k, v)]) - Z.to_nat ring_max) (l ++ [(k, v)])) = Some v.
Proof.
  intros Hw. pose proof ring_max_pos. rewrite drop_app_le by (rewrite length_app; simpl; lia).
  rewrite dget_app. replace (dget k (drop _ l)) with (@None Finished); [simpl; by rewrite decide_True|].
  symmetry. apply dget_None. unfold dict_wf, dkeys in *. rewrite fmap_app in Hw. apply NoDup_app in Hw as (_&Hd&_).
  intros Hin. apply (Hd k); [|simpl; by left]. apply list_elem_of_fmap in Hin as (y&->&Hy).
  apply list_elem_of_fmap. exists y. split; [done|]. eapply subseteq_drop, Hy.
Qed.

(** C23. A receipt has no gap: while the event loop closes an intent in any reachable
    state, a status request on another thread (which reads the slot first and
    the record or the receipt later, with any of the closing writes in between)
    answers pending or the final status, never unknown, and the final status
    once the first write is visible at its start. *)
Theorem receipt_no_gap es r x st detail i j t1 t2 :
  let t := en_tables (run_events es) in
  tb_store t !! r = Some x -> dget (ir_id x) (tb_records t) = Some r -> (i <= j)%nat ->
  finish_states r (ir_id x) st detail t !! i = Some t1 -> finish_states r (ir_id x) st detail t !! j = Some t2 ->
  (read_status (ir_id x) t1 t2 = Some IPending \/ read_status (ir_id x) t1 t2 = Some st) /\
  ((1 <= i)%nat -> read_status (ir_id x) t1 t2 = Some st) /\
  last (finish_states r (ir_id x) st detail t) = Some (finish r st detail t).
Proof.
  intros t Hx Ho Hij Hi Hj. pose proof (iv_core _ (inv_reachable es)) as []. fold t in co_wf0, co_fwf0, co_slot0.
  destruct (co_slot0 _ _ Ho) as (x'&Hx'&_&Hp&_). replace x' with x in * by congruence.
  assert (Hlast : last (finish_states r (ir_id x) st detail t) = Some (finish r st detail t)).
  { by rewrite (finish_owner r x) by done. }
  assert (Hsome : alter (fun x => mkRec (ir_id x) (ir_call x) st detail (ir_queued x)) r (tb_store t) !! r =
    Some (mkRec (ir_id x) (ir_call x) st detail (ir_queued x))) by (by rewrite list_lookup_alter_eq, Hx).
  assert (Hafter : (1 <= j)%nat -> read_status (ir_id x) t1 t2 = Some st).
  { intros Hj1. unfold read_status. destruct (decide (i < 5)%nat) as [Hlt|Hge].
    - replace (dget (ir_id x) (tb_records t1)) with (Some r); [|do 5 (destruct i as [|i]; [by simplify_eq/=|]); lia].
      destruct j as [|j]; [lia|].
      replace (tb_store t2 !! r) with (Some (mkRec (ir_id x) (ir_call x) st detail (ir_queued x))); [done|].
      do 5 (destruct j as [|j]; [by simplify_eq/=|]). done.
    - assert (i = 5 /\ j = 5)%nat as [-> ->] by (apply lookup_lt_Some in Hj; simpl in Hj; lia).
      injection Hi as <-. injection Hj as <-. cbn [free_slot tb_records tb_finished trim_ring write_status].
      rewrite dget_ddel_eq by done. rewrite (dmove_new (ir_id x) (mkFinished (ir_id x) st detail)) by done.
      rewrite trim_keeps_last; [done|]. by apply dict_wf_replace, dict_wf_dset. }
  split_and!; [|intros; apply Hafter; lia|done].
  destruct j as [|j]; [|right; apply Hafter; lia]. left. replace i with 0%nat in * by lia.
  injection Hi as <-. injection Hj as <-. unfold read_status. rewrite Ho, Hx. simpl. by rewrite Hp.
Qed.

(** ** Receipts are kept *)

(** What one event does to the tables, for intents of [K]. *)
Inductive tstep (K : list string) : Tables -> Tables -> Prop :=
| ts_finish t r st detail : tstep K t (finish r st detail t)
| ts_alloc t c : call_id c ∈ K -> tstep K t (alloc c t).1
| ts_queued t r : tstep K t (set_queued r t).

Record table_of (K : list string) (t : Tables) : Prop := {
  to_store : forall r x, tb_store t !! r = Some x -> ir_id x ∈ K;
  to_finished : forall k, k ∈ dkeys (tb_finished t) -> k ∈ K;
  to_wf : dict_wf (tb_finished t);
  to_rwf : dict_wf (tb_records t);
  to_slot : forall k r, dget k (tb_records t) = Some r -> is_Some (tb_store t !! r)
}.
Definition known (k : string) (t : Tables) : Prop := k ∈ dkeys (tb_records t) \/ k ∈ dkeys (tb_finished t).

Lemma trim_noop K l : dict_wf l -> (forall k, k ∈ dkeys l -> k ∈ K) -> zlen K <= ring_max ->
  drop (length l - Z.to_nat ring_max) l = (l : dict string Finished).
Proof.
  intros Hw Hk HK. replace (length l - Z.to_nat ring_max)%nat with 0%nat; [done|].
  assert (length (dkeys l) <= length K)%nat by (apply submseteq_length, NoDup_submseteq; done).
  unfold dkeys in *. rewrite length_fmap in *. lia.
Qed.

Lemma alter_status_ids (f : IntentRecord -> IntentRecord) r (l : list IntentRecord) (K : list string) :
  (forall x, ir_id (f x) = ir_id x) -> (forall i x, l !! i = Some x -> ir_id x ∈ K) ->
  forall i x, alter f r l !! i = Some x -> ir_id x ∈ K.
Proof.
  intros Hf Hl i x. destruct (decide (i = r)) as [->|Hne].
  - rewrite list_lookup_alter_eq. intros (y&Hy&->)%fmap_Some. rewrite Hf. by eapply Hl.
  - rewrite list_lookup_alter_ne by done. apply Hl.
Qed.

Lemma tstep_keeps K k t t' : zlen K <= ring_max -> tstep K t t' -> table_of K t ->
  table_of K t' /\ (known k t -> known k t').
Proof.
  intros HK Hs Ht. pose proof Ht as []. destruct Hs as [t r st detail|t c Hc|t r].
  - destruct (finish_cases r st detail t) as [->|(x&Hx&Ho&_&->)]; [done|].
    assert (Hnew : forall k', k' ∈ dkeys (ddel (ir_id x) (dset (ir_id x) (mkFinished (ir_id x) st detail) (tb_finished t)) ++
        [(ir_id x, mkFinished (ir_id x) st detail)]) <-> k' = ir_id x \/ k' ∈ dkeys (tb_finished t)).
    { intros k'. unfold dkeys at 1. rewrite fmap_app, elem_of_app. fold (dkeys (ddel (ir_id x) (dset (ir_id x) (mkFinished (ir_id x) st detail) (tb_finished t)))).
      rewrite elem_of_dkeys_ddel by (by apply dict_wf_dset). rewrite elem_of_dkeys_dset. simpl. rewrite list_elem_of_singleton. destruct (decide (k' = ir_id x)); tauto. }
    unfold closed, free_slot, trim_ring, write_receipt, write_status. cbn [tb_store tb_records tb_finished].
    rewrite dmove_new by done. rewrite (trim_noop K); [|by apply dict_wf_replace, dict_wf_dset| |done].
    2:{ intros k'. rewrite Hnew. intros [->|Hin]; [by eapply to_store0|by apply to_finished0]. }
    split; [split; simpl|].
    + by apply alter_status_ids.
    + intros k'. rewrite Hnew. intros [->|Hin]; [by eapply to_store0|by apply to_finished0].
    + by apply dict_wf_replace, dict_wf_dset.
    + by apply dict_wf_ddel.
    + intros k' r' E. rewrite lookup_lt_is_Some, length_alter, <- lookup_lt_is_Some. apply (to_slot0 k').
      destruct (decide (k' = ir_id x)) as [->|]; [by rewrite dget_ddel_eq in E|by rewrite dget_ddel_ne in E].
    + unfold known. simpl. rewrite Hnew, elem_of_dkeys_ddel by done. destruct (decide (k = ir_id x)); tauto.
  - rewrite alloc_spec. destruct (dget (call_id c) (tb_records t)) as [r|] eqn:E; simpl; (split; [split; simpl; try done|]).
    + intros r' x. rewrite lookup_app_Some. intros [Hx|[_ Hx]]; [by eapply to_store0|].
      apply list_lookup_singleton_Some in Hx as [_ <-]. done.
    + intros k' r' E'. destruct (to_slot0 _ _ E'). eexists. by apply store_grows.
    + done.
    + intros r' x. rewrite lookup_app_Some. intros [Hx|[_ Hx]]; [by eapply to_store0|].
      apply list_lookup_singleton_Some in Hx as [_ <-]. done.
    + by apply dict_wf_dset.
    + intros k' r'. destruct (decide (k' = call_id c)) as [->|]; [rewrite dget_dset_eq; intros [= <-]|].
      * rewrite lookup_app_r, Nat.sub_diag by done. by eexists.
      * rewrite dget_dset_ne by done. intros E'. destruct (to_slot0 _ _ E'). eexists. by apply store_grows.
    + unfold known. simpl. rewrite elem_of_dkeys_dset. tauto.
  - split; [split; simpl; try done|done].
    + by apply alter_status_ids.
    + intros k' r' E'. rewrite lookup_lt_is_Some, length_alter, <- lookup_lt_is_Some. by apply (to_slot0 k').
Qed.

Lemma tsteps_keep K k t t' : zlen K <= ring_max -> rtc (tstep K) t t' -> table_of K t ->
  table_of K t' /\ (known k t -> known k t').
Proof.
  intros HK Hs. induction Hs as [|t1 t2 t3 H1 _ IH]; intros Ht; [done|].
  destruct (tstep_keeps K k _ _ HK H1 Ht) as [Ht2 Hk]. destruct (IH Ht2). split; auto.
Qed.

Section table_steps.
Context (K : list string).
Abbreviation tsteps := (rtc (tstep K)).

(** A computation only touches the tables by [tstep], and leaves the backlog alone. *)
Definition tame {A} (m : M Engine kexn A) : Prop := forall s,
  tsteps (en_tables s) (en_tables (m s).1) /\ en_backlog (m s).1 = en_backlog s.

Lemma tame_bind {A B} (m : M Engine kexn A) (k : A -> M Engine kexn B) : tame m -> (forall a, tame (k a)) -> tame (m ≫= k).
Proof.
  intros Hm Hk s. unfold mbind, M_bind. destruct (Hm s) as [H1 H2]. destruct (m s) as [s1 [a|x]]; [|done]. simpl in *.
  destruct (Hk a s1) as [H3 H4]. split; [by etrans|congruence].
Qed.
Lemma tame_ret {A} (a : A) : tame (mret a).
Proof. by intros s. Qed.
Lemma tame_modify f : (forall s, en_tables (f s) = en_tables s /\ en_backlog (f s) = en_backlog s) -> tame (modify f).
Proof. intros Hf s. simpl. destruct (Hf s) as [-> ->]. done. Qed.
Lemma tame_gets {A} (f : Engine -> A) : tame (gets f).
Proof. by intros s. Qed.
Lemma tame_finish r st detail : tame (finish_in r st detail).
Proof. intros s. simpl. split; [apply rtc_once; constructor|done]. Qed.
Lemma tame_for_each {A} (l : list A) body : (forall a, tame (body a)) -> tame (for_each l body).
Proof. intros Hb. induction l as [|x l IH]; [apply tame_ret|]. apply tame_bind; [done|]. intros _. exact IH. Qed.
Lemma tame_task_done : tame task_done.
Proof. intros s. unfold task_done. by destruct (_ <=? 0). Qed.

Lemma tame_fail_never_started : tame fail_never_started.
Proof.
  intros s. unfold fail_never_started. apply (tame_for_each (en_queue s) fail_one). intros r.
  apply tame_bind; [by apply tame_modify|]. intros _. apply tame_bind; [apply tame_finish|]. intros _. apply tame_task_done.
Qed.

Lemma tame_sweep_slot r : tame (sweep_slot r).
Proof.
  intros s. unfold sweep_slot. destruct (tb_store (en_tables s) !! r) as [x|]; [|done].
  destruct (pending x && negb (ir_queued x)); [apply tame_finish|done].
Qed.

#[local] Hint Resolve tame_bind tame_ret tame_gets tame_finish tame_task_done tame_fail_never_started tame_sweep_slot tame_for_each : core.
#[local] Hint Extern 1 (tame (modify _)) => apply tame_modify; intros; by split : core.

Lemma tame_after c r o detail : tame (after_prefetch c r o detail).
Proof.
  destruct o as [[]|[]]; simpl; auto 10;
    (apply tame_bind; [auto|]; intros _; apply tame_bind; [auto|]; intros _; apply tame_bind; [auto|]; intros []; auto 10).
Qed.

Lemma tame_consume_end c o detail : tame (consume_end c o detail).
Proof.
  intros s. unfold consume_end. destruct (en_tasks s !! c) as [[|r|]|]; try done.
  apply (tame_bind (try_finally (after_prefetch c r o detail) task_done) (fun st => modify (set_task c st))); [|auto].
  intros s0. unfold try_finally. destruct (tame_after c r o detail s0) as [H1 H2].
  destruct (after_prefetch c r o detail s0) as [s1 o1]. simpl in *. destruct (tame_task_done s1) as [H3 H4].
  destruct (task_done s1) as [s2 [[]|x]]; simpl in *; (split; [by etrans|congruence]).
Qed.

Lemma tame_shutdown_end : tame shutdown_end.
Proof. unfold shutdown_end. auto 10. Qed.

Lemma tame_admit c s : call_id c ∈ K ->
  tsteps (en_tables s) (en_tables (admit_call c s).1) /\ en_backlog (admit_call c s).1 = en_backlog s.
Proof.
  intros Hc. unfold admit_call. destruct (slot_record c (en_tables s)) as [t r] eqn:E.
  assert (Ht : tsteps (en_tables s) t).
  { revert E. unfold slot_record. destruct (dget _ _); intros [= <- _]; [done|]. apply rtc_once. by constructor. }
  destruct (tb_store t !! r) as [x|]; [|done]. destruct (negb (en_accepting s)).
  { destruct (ir_queued x || negb (pending x)); [done|]. simpl. split; [|done]. eapply rtc_r; [done|]. constructor. }
  destruct (ir_queued x); [done|]. unfold mbind, M_bind, put_nowait.
  assert (Hq : tsteps (en_tables s) (set_queued r t)) by (eapply rtc_r; [done|constructor]).
  destruct ((0 <? queue_size) && _); simpl; split; try done. eapply rtc_r; [done|]. constructor.
Qed.

(** The intents an event submits. *)
Definition event_in (e : event) : Prop :=
  match e with ESubmit c | ELate c => call_id c ∈ K | _ => True end.

Lemma submit_insert_tsteps c s : call_id c ∈ K -> (forall d, d ∈ en_backlog s -> call_id d ∈ K) ->
  let s' := (submit_insert c s).1 in
  tsteps (en_tables s) (en_tables s') /\ forall d, d ∈ en_backlog s' -> call_id d ∈ K.
Proof.
  intros Hc Hb. unfold submit_insert. pose proof (ts_alloc K (en_tables s) c Hc) as Ha.
  destruct (alloc c (en_tables s)) as [t []]; simpl in *; (split; [by apply rtc_once|]); [|done].
  intros d. rewrite elem_of_app, list_elem_of_singleton. intros [Hd| ->]; [by apply Hb|done].
Qed.

Lemma step_tsteps e s : event_in e -> (forall d, d ∈ en_backlog s -> call_id d ∈ K) ->
  tsteps (en_tables s) (en_tables (step s e)) /\ forall d, d ∈ en_backlog (step s e) -> call_id d ∈ K.
Proof.
  intros He Hb.
  assert (Htame : forall A (m : M Engine kexn A), tame m ->
    tsteps (en_tables s) (en_tables (m s).1) /\ forall d, d ∈ en_backlog (m s).1 -> call_id d ∈ K).
  { intros A m Hm. destruct (Hm s) as [H1 ->]. by split. }
  destruct e as [| c | c | | c | c o d | c | h | |]; cbn [step event_in] in *.
  - by apply (Htame _ start).
  - unfold submit_intent, mbind, M_bind, submit_check. destruct (negb (en_accepting s)); [by split|].
    destruct (negb (en_started s)); [by split|]. by apply submit_insert_tsteps.
  - destruct (en_started s); [by apply submit_insert_tsteps|by split].
  - destruct (en_backlog s) as [|c b] eqn:E; [split; [done|]; by rewrite E|].
    destruct (tame_admit c (set_backlog b s)) as [H1 H2]; [apply Hb; by left|]. rewrite H2. simpl in *. split; [done|].
    intros d Hd. apply Hb. by right.
  - unfold take_next. destruct (en_tasks s !! c) as [[]|]; try by split. destruct (en_queue s); by split.
  - pose proof (Htame _ _ (tame_consume_end c o d)) as Hend. destruct o as [|[]]; try exact Hend.
    destruct (en_cancelling s); [exact Hend|by split].
  - destruct (en_cancelling s && _); by split.
  - by apply (Htame _ (track_in_background h)).
  - by apply (Htame _ shutdown_begin).
  - destruct (en_cancelling s); [apply Htame, tame_shutdown_end|by split].
Qed.

Lemma run_keeps k es : zlen K <= ring_max -> Forall event_in es -> forall s,
  table_of K (en_tables s) -> (forall d, d ∈ en_backlog s -> call_id d ∈ K) ->
  let s' := foldl step s es in
  table_of K (en_tables s') /\ (forall d, d ∈ en_backlog s' -> call_id d ∈ K) /\
  (known k (en_tables s) -> known k (en_tables s')).
Proof.
  intros HK. induction 1 as [|e es He _ IH]; intros s Ht Hb; [done|]. simpl.
  destruct (step_tsteps e s He Hb) as [Hs Hb1]. destruct (tsteps_keep K k _ _ HK Hs Ht) as [Ht1 Hk1].
  destruct (IH (step s e) Ht1 Hb1) as (Ht2&Hb2&Hk2). split_and!; auto.
Qed.

Lemma known_status k t : table_of K t -> known k t -> intent_status k t <> None.
Proof.
  intros [] Hk. unfold intent_status. destruct (dget k (tb_records t)) as [r|] eqn:E.
  - destruct (to_slot0 _ _ E) as [x ->]. done.
  - destruct Hk as [Hk|Hk]; apply dget_is_Some in Hk as [y Hy]; [congruence|]. by rewrite Hy.
Qed.

End table_steps.

(** An accepted intent stays known: once [submit_intent] has returned an id, and
    as long as no more distinct intents have been submitted than receipts are
    kept, every later status request for it is answered, through admission,
    execution, errors, resubmission and shutdown. *)
Theorem accepted_stays_known K es1 c k es2 :
  zlen K <= ring_max -> Forall (event_in K) (es1 ++ ESubmit c :: es2) ->
  (submit_intent c (run_events es1)).2 = Ok k ->
  intent_status k (en_tables (run_events (es1 ++ ESubmit c :: es2))) <> None.
Proof.
  intros HK Hes Hk. apply Forall_app in Hes as [H1 H2]. apply Forall_cons in H2 as [Hc H2].
  assert (H0 : table_of K (en_tables init)).
  { split; simpl; try apply NoDup_nil_2; [by intros|by intros ? ?%elem_of_nil|by intros]. }
  destruct (run_keeps K k es1 HK H1 init H0) as (Ht1&Hb1&_); [by intros d Hd%elem_of_nil|].
  unfold run_events. rewrite foldl_app. simpl. fold (run_events es1) in *. set (s1 := run_events es1) in *.
  revert Hk. unfold submit_intent, mbind, M_bind, submit_check.
  destruct (negb (en_accepting s1)); [done|]. destruct (negb (en_started s1)); [done|]. intros Hk.
  destruct (submit_insert_tsteps K c s1 Hc Hb1) as [Hs Hb2].
  destruct (tsteps_keep K k _ _ HK Hs Ht1) as [Ht2 _].
  assert (Hkn : known k (en_tables (submit_insert c s1).1)).
  { revert Hk. unfold submit_insert. rewrite alloc_spec.
    destruct (dget (call_id c) (tb_records (en_tables s1))) as [r|] eqn:E; [destruct (bool_decide _)|];
      intros [= <-]; left; simpl; apply dget_is_Some; rewrite ?E, ?dget_dset_eq; by eexists. }
  destruct (run_keeps K k es2 HK H2 _ Ht2 Hb2) as (Ht3&_&Hk3). apply (known_status K); [done|by apply Hk3].
Qed.

End intents.
End Intents.

(** Two submissions of one intent, one of another, a failure and a shutdown. *)
#[local] Instance plain_digest : Digest := fun s => s.
Definition wit_call (n : Z) : call := mkCall (mkPrefix "m" [n]) "t" 500 1000.
Definition wit_events : list Intents.event :=
  [Intents.EStart; Intents.ESubmit (wit_call 1); Intents.ESubmit (wit_call 1); Intents.ESubmit (wit_call 2);
   Intents.EAdmit; Intents.ETake 0; Intents.EAdmit].
Definition wit_shutdown : list Intents.event :=
  wit_events ++ [Intents.EShutdown; Intents.EEnd 0 (Raise KCancelled) EmptyString; Intents.ECancelIdle 1; Intents.EShutdownEnd].

Lemma intents_run_once_witness :
  let s := Intents.run_events 0 2 10 wit_events in
  NoDup (Intents.id_of s <$> Intents.flight s) /\ Intents.flight s = [2; 0]%nat.
Proof. intros s. split; [|reflexivity]. exact (proj1 (Intents.intents_run_once 0 2 10 ltac:(lia) wit_events)). Defined.

Lemma intents_settle_witness :
  let s := Intents.run_events 0 2 10 wit_shutdown in
  tb_records (en_tables s) = [] /\ Intents.intent_status (Intents.call_id (wit_call 1)) (en_tables s) = Some IFailed.
Proof.
  intros s. split; [|reflexivity].
  apply (proj2 (proj2 (Intents.intents_settle 0 2 10 ltac:(lia) wit_shutdown))); reflexivity.
Defined.

Lemma receipt_no_gap_witness :
  let t := en_tables (Intents.run_events 0 2 10 wit_events) in
  let k := Intents.call_id (wit_call 1) in
  exists t1 t2, Intents.finish_states 10 0 k IReady EmptyString t !! 3%nat = Some t1 /\
    Intents.finish_states 10 0 k IReady EmptyString t !! 5%nat = Some t2 /\ Intents.read_status k t1 t2 = Some IReady.
Proof.
  intros t k. eexists _, _. split; [reflexivity|]. split; [reflexivity|].
  eapply (Intents.receipt_no_gap 0 2 10 ltac:(lia) wit_events 0
    (mkRec k (wit_call 1) IPending EmptyString true) IReady EmptyString 3 5);
    [vm_compute; reflexivity|vm_compute; reflexivity|lia|reflexivity|reflexivity|lia].
Defined.

Lemma accepted_stays_known_witness :
  let K := [Intents.call_id (wit_call 1); Intents.call_id (wit_call 2)] in
  Intents.intent_status (Intents.call_id (wit_call 1)) (en_tables (Intents.run_events 0 2 10 wit_shutdown)) <> None.
Proof.
  intros K. apply (Intents.accepted_stays_known 0 2 10 K [Intents.EStart] (wit_call 1) _
    (drop 2 wit_shutdown)); [vm_compute; discriminate| |reflexivity].
  repeat constructor; vm_compute; by repeat constructor.
Defined.
