(* ===== verification/Json.v ===== *)
(** * JSON text

    [json.loads], as the admin clients use it: objects (the last of two equal keys
    wins, in the place of the first), arrays, strings with escapes, integers and
    the literals.  Text is UTF-8 bytes; a float keeps its literal.  Three things go
    wrong: the text is no JSON ([JSONDecodeError]), an integer has more digits than
    [int] converts ([ValueError]), or the nesting outruns the stack
    ([RecursionError]); how deep the stack still is is a parameter.  The decoder
    recurses on fuel, two units per character and two more; [loads_fuel_enough] says
    that this is enough. *)

From S2P Require Import Prelude PyDict PyStr.
From Stdlib Require Import Ascii.
Local Open Scope Z_scope.

#[local] Arguments String.append !_ _ /.

Inductive json : Type :=
| JNull
| JBool (b : bool)
| JInt (z : Z)
| JFloat (literal : string)
| JStr (s : string)
| JArr (l : list json)
| JObj (d : dict string json).

(** [json.JSONDecodeError], [ValueError] of [int], [RecursionError] *)
Inductive jerr : Type := JSyntax | JDigits | JDepth.
Abbreviation jres := (result jerr).

(** [sys.get_int_max_str_digits()] *)
Definition INT_MAX_STR_DIGITS : nat := 4300.

Definition char_of (z : Z) : ascii := Ascii.ascii_of_N (Z.to_N z).
Definition code_of (c : ascii) : Z := Z.of_N (Ascii.N_of_ascii c).

(** ** Strings *)

Definition hex_val (c : ascii) : option Z :=
  let n := code_of c in
  if (48 <=? n) && (n <=? 57) then Some (n - 48)
  else if (65 <=? n) && (n <=? 70) then Some (n - 55)
  else if (97 <=? n) && (n <=? 102) then Some (n - 87)
  else None.

Definition hex4 (s : string) : option (Z * string) :=
  match s with
  | String a (String b (String c (String d r))) =>
      match hex_val a, hex_val b, hex_val c, hex_val d with
      | Some a, Some b, Some c, Some d => Some (((a * 16 + b) * 16 + c) * 16 + d, r)
      | _, _, _, _ => None
      end
  | _ => None
  end.

Definition utf8 (cp : Z) : string :=
  if cp <? 128 then String (char_of cp) EmptyString
  else if cp <? 2048 then
    String (char_of (192 + Z.shiftr cp 6)) (String (char_of (128 + Z.land cp 63)) EmptyString)
  else if cp <? 65536 then
    String (char_of (224 + Z.shiftr cp 12))
      (String (char_of (128 + Z.land (Z.shiftr cp 6) 63)) (String (char_of (128 + Z.land cp 63)) EmptyString))
  else
    String (char_of (240 + Z.shiftr cp 18))
      (String (char_of (128 + Z.land (Z.shiftr cp 12) 63))
        (String (char_of (128 + Z.land (Z.shiftr cp 6) 63)) (String (char_of (128 + Z.land cp 63)) EmptyString))).

(** The text after [\u]: a code point, joining a surrogate pair. *)
Definition unicode_escape (s : string) : option (Z * string) :=
  match hex4 s with
  | None => None
  | Some (hi, r) =>
      if (55296 <=? hi) && (hi <=? 56319) then
        match r with
        | String b (String u r') =>
            if bool_decide (b = "\"%char) && bool_decide (u = "u"%char) then
              match hex4 r' with
              | Some (lo, r'') =>
                  if (56320 <=? lo) && (lo <=? 57343) then Some (65536 + (hi - 55296) * 1024 + (lo - 56320), r'')
                  else Some (hi, r)
              | None => None
              end
            else Some (hi, r)
        | _ => Some (hi, r)
        end
      else Some (hi, r)
  end.

Definition simple_escape (c : ascii) : option ascii :=
  if bool_decide (c = "034"%char) then Some "034"%char
  else if bool_decide (c = "\"%char) then Some "\"%char
  else if bool_decide (c = "/"%char) then Some "/"%char
  else if bool_decide (c = "b"%char) then Some "008"%char
  else if bool_decide (c = "f"%char) then Some "012"%char
  else if bool_decide (c = "n"%char) then Some "010"%char
  else if bool_decide (c = "r"%char) then Some "013"%char
  else if bool_decide (c = "t"%char) then Some "009"%char
  else None.

(** The text after the opening quote, up to the closing one; control characters are
    refused. *)
Fixpoint jstring (fuel : nat) (s : string) : option (string * string) :=
  match fuel with
  | O => None
  | S fuel =>
      match s with
      | EmptyString => None
      | String c r =>
          if bool_decide (c = "034"%char) then Some (EmptyString, r)
          else if bool_decide (c = "\"%char) then
            match r with
            | EmptyString => None
            | String e r' =>
                if bool_decide (e = "u"%char) then
                  match unicode_escape r' with
                  | Some (cp, r'') => match jstring fuel r'' with Some (t, q) => Some (utf8 cp +:+ t, q) | None => None end
                  | None => None
                  end
                else
                  match simple_escape e with
                  | Some x => match jstring fuel r' with Some (t, q) => Some (String x t, q) | None => None end
                  | None => None
                  end
            end
          else if code_of c <? 32 then None
          else match jstring fuel r with Some (t, q) => Some (String c t, q) | None => None end
      end
  end.

(** ** Numbers *)

Fixpoint span_digits (s : string) : string * string :=
  match s with
  | String c r => if is_digit c then let '(a, b) := span_digits r in (String c a, b) else (EmptyString, s)
  | EmptyString => (EmptyString, EmptyString)
  end.

(** [0] or a digit sequence that does not start with [0]. *)
Definition int_part (s : string) : option (string * string) :=
  match s with
  | String c r =>
      if bool_decide (c = "0"%char) then Some ("0", r)
      else if is_digit c then Some (span_digits s) else None
  | EmptyString => None
  end.

Definition frac_part (s : string) : string * string :=
  match s with
  | String c r =>
      if bool_decide (c = "."%char) then
        let '(a, b) := span_digits r in if bool_decide (a = EmptyString) then (EmptyString, s) else (String c a, b)
      else (EmptyString, s)
  | EmptyString => (EmptyString, s)
  end.

Definition exp_part (s : string) : string * string :=
  match s with
  | String c r =>
      if bool_decide (c = "e"%char) || bool_decide (c = "E"%char) then
        let '(sg, r1) := match r with
                         | String d r' => if bool_decide (d = "+"%char) || bool_decide (d = "-"%char)
                                          then (String d EmptyString, r') else (EmptyString, r)
                         | EmptyString => (EmptyString, r)
                         end in
        let '(a, b) := span_digits r1 in
        if bool_decide (a = EmptyString) then (EmptyString, s) else (String c (sg +:+ a), b)
      else (EmptyString, s)
  | EmptyString => (EmptyString, s)
  end.

Definition jnumber (s : string) : jres (json * string) :=
  let '(neg, s1) := match s with
                    | String c r => if bool_decide (c = "-"%char) then (true, r) else (false, s)
                    | EmptyString => (false, s)
                    end in
  match int_part s1 with
  | None => Raise JSyntax
  | Some (i, r1) =>
      let '(f, r2) := frac_part r1 in
      let '(e, r3) := exp_part r2 in
      let sign := if (neg : bool) then "-" else EmptyString in
      if bool_decide (f +:+ e = EmptyString) then
        if (INT_MAX_STR_DIGITS <? String.length i)%nat then Raise JDigits
        else let n := Z.of_N (scan_digits 0 i).1 in Ok (JInt (if (neg : bool) then - n else n), r3)
      else Ok (JFloat (sign +:+ i +:+ f +:+ e), r3)
  end.

(** ** Values *)

(** [Some rest] when [s] starts with [w]. *)
Fixpoint after (w s : string) : option string :=
  match w, s with
  | EmptyString, _ => Some s
  | String a w', String b s' => if bool_decide (a = b) then after w' s' else None
  | _, _ => None
  end.

Definition literals : list (string * json) :=
  [("null", JNull); ("true", JBool true); ("false", JBool false); ("NaN", JFloat "NaN");
   ("Infinity", JFloat "Infinity"); ("-Infinity", JFloat "-Infinity")].

Fixpoint jliteral (l : list (string * json)) (s : string) : option (json * string) :=
  match l with
  | [] => None
  | (w, v) :: l => match after w s with Some r => Some (v, r) | None => jliteral l s end
  end.

(** [jvalue] reads a value; [jitems] and [jfields] what follows the opening bracket of
    a list or object, from an element on.  [depth]: how many more lists and objects the
    stack has room for. *)
Fixpoint jvalue (fuel depth : nat) (s : string) : jres (json * string) :=
  match fuel with
  | O => Raise JSyntax
  | S fuel =>
      match skip_ws s with
      | EmptyString => Raise JSyntax
      | String c r =>
          if bool_decide (c = "034"%char) then
            match jstring (S (String.length r)) r with Some (t, q) => Ok (JStr t, q) | None => Raise JSyntax end
          else if bool_decide (c = "["%char) then
            match depth with
            | O => Raise JDepth
            | S depth =>
                match skip_ws r with
                | String d q => if bool_decide (d = "]"%char) then Ok (JArr [], q)
                                else match jitems fuel depth r with Ok (l, q) => Ok (JArr l, q) | Raise e => Raise e end
                | EmptyString => Raise JSyntax
                end
            end
          else if bool_decide (c = "{"%char) then
            match depth with
            | O => Raise JDepth
            | S depth =>
                match skip_ws r with
                | String d q => if bool_decide (d = "}"%char) then Ok (JObj [], q)
                                else match jfields fuel depth r [] with Ok (o, q) => Ok (JObj o, q) | Raise e => Raise e end
                | EmptyString => Raise JSyntax
                end
            end
          else match jliteral literals (String c r) with
               | Some x => Ok x
               | None => jnumber (String c r)
               end
      end
  end
with jitems (fuel depth : nat) (s : string) : jres (list json * string) :=
  match fuel with
  | O => Raise JSyntax
  | S fuel =>
      match jvalue fuel depth s with
      | Raise e => Raise e
      | Ok (v, r) =>
          match skip_ws r with
          | String c q =>
              if bool_decide (c = ","%char) then
                match jitems fuel depth q with Ok (l, q') => Ok (v :: l, q') | Raise e => Raise e end
              else if bool_decide (c = "]"%char) then Ok ([v], q) else Raise JSyntax
          | EmptyString => Raise JSyntax
          end
      end
  end
with jfields (fuel depth : nat) (s : string) (o : dict string json) : jres (dict string json * string) :=
  match fuel with
  | O => Raise JSyntax
  | S fuel =>
      match skip_ws s with
      | String q0 r0 =>
          if bool_decide (q0 = "034"%char) then
            match jstring (S (String.length r0)) r0 with
            | None => Raise JSyntax
            | Some (k, r) =>
                match skip_ws r with
                | String colon r1 =>
                    if bool_decide (colon = ":"%char) then
                      match jvalue fuel depth r1 with
                      | Raise e => Raise e
                      | Ok (v, r2) =>
                          match skip_ws r2 with
                          | String c q =>
                              if bool_decide (c = ","%char) then jfields fuel depth q (dset k v o)
                              else if bool_decide (c = "}"%char) then Ok (dset k v o, q) else Raise JSyntax
                          | EmptyString => Raise JSyntax
                          end
                      end
                    else Raise JSyntax
                | EmptyString => Raise JSyntax
                end
            end
          else Raise JSyntax
      | EmptyString => Raise JSyntax
      end
  end.

(** The whole text is one value, white space around it apart. *)
Definition whole (r : jres (json * string)) : jres json :=
  match r with
  | Ok (v, r) => if bool_decide (skip_ws r = EmptyString) then Ok v else Raise JSyntax
  | Raise e => Raise e
  end.
Definition loads (depth : nat) (s : string) : jres json := whole (jvalue (2 * String.length s + 2) depth s).

Definition jget (k : string) (o : dict string json) : json := default JNull (dget k o).

(** ** The fuel of [loads] is enough

    Every reader that succeeds consumes at least one character, so a decoder given
    more fuel than [loads] gives it answers the same. *)

Lemma skip_ws_len s : (String.length (skip_ws s) <= String.length s)%nat.
Proof. induction s as [|c s IH]; simpl; [lia|]. repeat case_match; simpl; lia. Qed.

Lemma hex4_len s z q : hex4 s = Some (z, q) -> (String.length q < String.length s)%nat.
Proof. unfold hex4. intros H. repeat case_match; simplify_eq/=; lia. Qed.

Lemma unicode_escape_len s z q : unicode_escape s = Some (z, q) -> (String.length q < String.length s)%nat.
Proof.
  unfold unicode_escape. intros H.
  repeat (case_match; simplify_eq/=);
    repeat match goal with E : hex4 _ = _ |- _ => apply hex4_len in E; simpl in E end; lia.
Qed.

Lemma jstring_len f : forall s t q, jstring f s = Some (t, q) -> (String.length q < String.length s)%nat.
Proof.
  induction f as [|f IH]; intros s t q H; [done|]. simpl in H.
  repeat (case_match; simplify_eq/=);
    repeat match goal with
           | E : jstring _ _ = _ |- _ => apply IH in E
           | E : unicode_escape _ = _ |- _ => apply unicode_escape_len in E
           end; lia.
Qed.

Lemma span_digits_len s : (String.length (span_digits s).2 <= String.length s)%nat.
Proof. induction s as [|c s IH]; simpl; [lia|]. case_match; [destruct (span_digits s)|]; simpl in *; lia. Qed.

Lemma after_len w : forall s q, after w s = Some q -> (String.length w + String.length q = String.length s)%nat.
Proof.
  induction w as [|a w IH]; intros s q H; simpl in *; [congruence|].
  repeat case_match; simplify_eq/=. by rewrite (IH _ _ H).
Qed.

Lemma frac_part_len s : (String.length (frac_part s).2 <= String.length s)%nat.
Proof.
  destruct s as [|c s]; simpl; [lia|]. pose proof (span_digits_len s).
  destruct (span_digits s). repeat (case_bool_decide; simpl in * ); lia.
Qed.

Lemma exp_part_len s : (String.length (exp_part s).2 <= String.length s)%nat.
Proof.
  destruct s as [|c s]; [done|]. unfold exp_part. destruct (_ || _); [|done].
  destruct s as [|d s]; [done|]. destruct (bool_decide (d = "+"%char) || bool_decide (d = "-"%char)).
  - pose proof (span_digits_len s). destruct (span_digits s) as [a b]. destruct (bool_decide (a = _)); simpl in *; lia.
  - pose proof (span_digits_len (String d s)). destruct (span_digits (String d s)) as [a b].
    destruct (bool_decide (a = _)); simpl in *; lia.
Qed.

Lemma int_part_len s i q : int_part s = Some (i, q) -> (String.length q < String.length s)%nat.
Proof.
  destruct s as [|c s]; simpl; [done|]. case_bool_decide; [intros [= _ <-]; lia|].
  destruct (is_digit c) eqn:Hd; [|done]. pose proof (span_digits_len s).
  destruct (span_digits s). intros [= _ <-]. simpl in *. lia.
Qed.

Lemma jnumber_len s v q : jnumber s = Ok (v, q) -> (String.length q < String.length s)%nat.
Proof.
  unfold jnumber.
  set (st := match s with
             | String c r => if bool_decide (c = "-"%char) then (true, r) else (false, s)
             | EmptyString => (false, s)
             end).
  assert (String.length st.2 <= String.length s)%nat as Hst.
  { unfold st. repeat case_match; simpl; lia. }
  destruct st as [neg s1]. destruct (int_part s1) as [[i r1]|] eqn:Hi; [|done].
  apply int_part_len in Hi. pose proof (frac_part_len r1) as Hf. destruct (frac_part r1) as [fr r2].
  pose proof (exp_part_len r2) as He. destruct (exp_part r2) as [ex r3].
  simpl in *. case_bool_decide; [destruct (_ <? _)%nat; [done|]|]; intros [= _ <-]; lia.
Qed.

Lemma jliteral_len s v q : jliteral literals s = Some (v, q) -> (String.length q < String.length s)%nat.
Proof.
  assert (Forall (fun p => (0 < String.length p.1)%nat) literals) as Hl.
  { unfold literals. repeat (constructor; [simpl; lia|]). constructor. }
  induction Hl as [|[w x] l Hw _ IH]; simpl; [done|].
  destruct (after w s) eqn:Ha; [|done]. intros [= _ <-]. apply after_len in Ha. simpl in Hw. lia.
Qed.

#[local] Arguments jliteral : simpl never.
#[local] Arguments jnumber : simpl never.
#[local] Arguments jstring : simpl never.
#[local] Arguments skip_ws : simpl never.

(** [r] is some value with a rest shorter than [s], or nothing. *)
Definition consumes {A} (s : string) (r : jres (A * string)) : Prop :=
  match r with Ok (_, q) => (String.length q < String.length s)%nat | Raise _ => True end.

Ltac json_len :=
  repeat match goal with
  | E : jstring _ _ = Some _ |- _ => apply jstring_len in E
  | E : jliteral _ _ = Some _ |- _ => apply jliteral_len in E
  | E : jnumber _ = Ok _ |- _ => apply jnumber_len in E
  | E : skip_ws ?r = String _ ?q |- _ =>
      let H := fresh "Hl" in
      assert (S (String.length q) <= String.length r)%nat as H
        by (pose proof (skip_ws_len r) as H; rewrite E in H; exact H); clear E
  end; simpl in *; try lia.

Lemma jvalue_consumes f : forall n,
  (forall s, consumes s (jvalue f n s)) /\ (forall s, consumes s (jitems f n s)) /\
  (forall s o, consumes s (jfields f n s o)).
Proof.
  induction f as [|f IH]; [done|]. intros n.
  split; [|split]; intros s; simpl.
  - destruct (skip_ws s) as [|c r] eqn:Hs; [done|]. destruct n as [|n].
    + unfold consumes. repeat (case_match; simplify_eq/=); json_len.
    + pose proof (proj1 (proj2 (IH n)) r) as Hi. pose proof (proj2 (proj2 (IH n)) r []) as Hf. unfold consumes in *.
      repeat (case_match; simplify_eq/=); json_len.
  - pose proof (proj1 (IH n) s) as Hv. destruct (jvalue f n s) as [[v r]|]; [|done].
    destruct (skip_ws r) as [|c q] eqn:Hr; [done|].
    pose proof (proj1 (proj2 (IH n)) q) as Hi. unfold consumes in *. repeat (case_match; simplify_eq/=); json_len.
  - intros o. destruct (skip_ws s) as [|c r] eqn:Hs; [done|].
    case_bool_decide; [|done]. destruct (jstring _ r) as [[k r1]|] eqn:Hk; [|done].
    destruct (skip_ws r1) as [|d r2] eqn:Hr1; [done|]. case_bool_decide; [|done].
    pose proof (proj1 (IH n) r2) as Hv. destruct (jvalue f n r2) as [[v r3]|]; [|done].
    destruct (skip_ws r3) as [|e q] eqn:Hr3; [done|].
    pose proof (proj2 (proj2 (IH n)) q (dset k v o)) as Hf. unfold consumes in *.
    repeat (case_match; simplify_eq/=); json_len.
Qed.

Lemma jvalue_fuel f : forall g n s,
  ((2 * String.length s < f)%nat -> (2 * String.length s < g)%nat -> jvalue f n s = jvalue g n s) /\
  ((2 * String.length s + 1 < f)%nat -> (2 * String.length s + 1 < g)%nat -> jitems f n s = jitems g n s) /\
  (forall o, (2 * String.length s < f)%nat -> (2 * String.length s < g)%nat -> jfields f n s o = jfields g n s o).
Proof.
  induction f as [|f IH]; intros g n s; [split_and!; intros; lia|].
  destruct g as [|g]; [split_and!; intros; lia|].
  split; [|split]; simpl.
  - intros Hf Hg. destruct (skip_ws s) as [|c r] eqn:Hs; [done|]. json_len. destruct n as [|n]; [done|].
    destruct (IH g n r) as (_ & IHi & IHf). rewrite IHi, (IHf []) by lia. done.
  - intros Hf Hg. rewrite (proj1 (IH g n s)) by lia.
    pose proof (proj1 (jvalue_consumes g n) s) as Hv. destruct (jvalue g n s) as [[v r]|]; [|done].
    destruct (skip_ws r) as [|c q] eqn:Hr; [done|]. json_len.
    rewrite (proj1 (proj2 (IH g n q))) by lia. done.
  - intros o Hf Hg. destruct (skip_ws s) as [|c r] eqn:Hs; [done|].
    case_bool_decide; [|done]. destruct (jstring _ r) as [[k r1]|] eqn:Hk; [|done].
    destruct (skip_ws r1) as [|d r2] eqn:Hr1; [done|]. case_bool_decide; [|done].
    apply jstring_len in Hk. json_len.
    rewrite (proj1 (IH g n r2)) by lia.
    pose proof (proj1 (jvalue_consumes g n) r2) as Hv. destruct (jvalue g n r2) as [[v r3]|]; [|done].
    destruct (skip_ws r3) as [|e q] eqn:Hr3; [done|]. json_len.
    rewrite (proj2 (proj2 (IH g n q)) (dset k v o)) by lia. done.
Qed.

(** The fuel [loads] computes from the text is as good as any larger one: a text
    is refused for its shape, its integers or its depth, never for its size. *)
Theorem loads_fuel_enough f n s : (2 * String.length s + 2 <= f)%nat -> loads n s = whole (jvalue f n s).
Proof. intros Hf. unfold loads. by rewrite (proj1 (jvalue_fuel (2 * String.length s + 2) f n s)) by lia. Qed.
