(* ===== verification/Smoke.v ===== *)
(** * kvcm: the smoke tests

    [kvcm/demo/tools/e14_mooncake_smoke.py] and
    [kvcm/demo/tools/admission_real_smoke.py]: two scripts that start two helper
    processes with a segment each, warm a fresh prompt through the engine, run one
    prefetch to the helpers' segments with the code of the daemon, and compare what
    they observe with what they expect.

    The store, the engine, the helpers, the admin port and the event socket are other
    programs: an operation of [SmokeOps] is a function of their common state [W] that
    answers or raises.  A log keeps what the script did and what it was answered.
    Sleeping, printing and the
    environment variables of the devices are left out.  The prefetch of the first script is the task
    engine of [TaskEngine] over the answers of [Backend]. *)

From S2P Require Import Prelude PyDict PyStr KvcmTypes Ledger Keys Instances RankTopology Json Backend Prefetch TaskEngine.
From Stdlib Require Import Ascii.
Local Open Scope Z_scope.
Import Mooncake.

#[local] Arguments String.append !_ _ /.

Inductive sexn : Type :=
| SSystemExit
| SValueError
| STypeError
| SAgain                            (* [zmq.Again] *)
| SPrefetch (before_submit : bool)  (* [PrefetchError], by its text *)
| SKvcm (x : kexn)                  (* what the daemon's code raises *)
| SOther.

(** What the script did. *)
Inductive sevent : Type :=
| EvStart (i : Z)
| EvStop (i : Z)
| EvJoin (i seconds : Z)
| EvConnect
| EvPresent (l : list bool)
| EvWarm
| EvPlaced (d : dict string (list string))
| EvSized (d : dict string (list ReplicaRow))
| EvSegment (used capacity : Z)
| EvSubscribe
| EvRan (copies : Z)
| EvRefused (copies : Z)
| EvGot (obj : json)
| EvEventsDown
| EvClose.

(** ** What both scripts share *)

(** The constants at the head of a script. *)
Record Conf : Type := mkConf {
  c_host : string;
  c_master : string;
  c_admin : string;
  c_model_path : string;
  c_model_name : string;
  c_served : string;
  c_warm_url : string;
  c_synth_want : list string;
  c_block_size : Z;
  c_tp : Z;
  c_target : string;
  c_coord_device : Z;
  c_coord_port : Z;
  c_ledger : string;
  c_seg_bytes : Z }.

Section conf.
Context (getenv : string -> option string).

Definition env_text (name dflt : string) : string := default dflt (getenv name).
Definition env_number (name dflt : string) : result sexn Z :=
  match py_int 10 (env_text name dflt) with Some z => Ok z | None => Raise SValueError end.
Definition synth_want (name : string) : list string := strip_names (split_all "," (env_text name "6,7")).

Definition e14_conf : result sexn (Conf * Z) :=
  let host := env_text "E14_HOST" "7.242.104.45" in
  bs ← env_number "E14_BLOCK_SIZE" "1536";
  tp ← env_number "E14_TP" "2";
  event_port ← env_number "E14_EVENT_PORT" "19574";
  device ← env_number "E14_COORD_DEVICE" "2";
  port ← env_number "E14_COORD_PORT" "13035";
  Ok (mkConf host (env_text "E14_MASTER" (host +:+ ":50088")) (env_text "E14_ADMIN" "http://127.0.0.1:9003")
        (env_text "E14_MODEL_PATH" "/data/models/Qwen3.8-27B") (env_text "E14_MODEL_NAME" "Qwen3.8-27B")
        (env_text "E14_SERVED" "qwen38-27b") (env_text "E14_WARM_URL" "http://127.0.0.1:8001/v1/completions")
        (synth_want "E14_SYNTH_DEVICES") bs tp (env_text "E14_TARGET" "inst-synth") device port
        (env_text "E14_LEDGER" "/tmp/kvcm_e14_smoke_ledger5.sqlite") (2 * 1024 * 1024 * 1024), event_port).

Definition admit_conf : result sexn Conf :=
  let host := env_text "ADMIT_HOST" "7.242.104.45" in
  bs ← env_number "ADMIT_BLOCK_SIZE" "1536";
  tp ← env_number "ADMIT_TP" "2";
  device ← env_number "ADMIT_COORD_DEVICE" "2";
  port ← env_number "ADMIT_COORD_PORT" "13037";
  seg_bytes ← env_number "ADMIT_SEG_BYTES" (py_str (16 * 1024 * 1024));
  Ok (mkConf host (env_text "ADMIT_MASTER" (host +:+ ":50088")) (env_text "ADMIT_ADMIN" "http://127.0.0.1:9003")
        (env_text "ADMIT_MODEL_PATH" "/data/models/Qwen3.8-27B") (env_text "ADMIT_MODEL_NAME" "Qwen3.8-27B")
        (env_text "ADMIT_SERVED" "qwen38-27b") (env_text "ADMIT_WARM_URL" "http://127.0.0.1:8001/v1/completions")
        (synth_want "ADMIT_SYNTH_DEVICES") bs tp (env_text "ADMIT_TARGET" "inst-admit-real") device port
        (env_text "ADMIT_LEDGER" "/tmp/kvcm_admit_real_ledger.sqlite") seg_bytes).
End conf.

(** Card, base port and port range of a helper. *)
Definition Spec : Type := (string * string * string)%type.
Definition SYNTH_SPEC : list Spec := [("6", "23000", "28300-28334"); ("7", "23100", "28400-28434")].

Fixpoint pick_specs (want : list string) : result sexn (list Spec) :=
  match want with
  | [] => Ok []
  | phys :: want =>
      match List.find (fun s : Spec => bool_decide (s.1.1 = phys)) SYNTH_SPEC with
      | None => Raise SSystemExit
      | Some s => rest ← pick_specs want; Ok (s :: rest)
      end
  end.
Definition synth_specs (want : list string) : result sexn (list Spec) :=
  out ← pick_specs want;
  if negb (zlen out =? 2) then Raise SSystemExit else Ok out.

(** ** A helper process

    [he_port]: the port of the transfer engine, after the imports and the device; the
    answers of [setup], with the engine and without; that of [close]. *)
Inductive message : Type := HReady (seg : string) | HFailed.
Record HelperEnv : Type := mkHelperEnv {
  he_port : result sexn Z;
  he_setup : bool -> string -> Z -> Z -> string -> result sexn Z;
  he_close : result sexn unit }.

(** What it puts into the queue until it ends; it waits for the stop event before it
    closes its store. *)
Definition helper_main (buffer : Z) (c : Conf) (hostname : string) (he : HelperEnv) : list message :=
  let size := Z.min (c_seg_bytes c) buffer in
  match he_port he with
  | Raise _ => [HFailed]
  | Ok port =>
      let seg := c_host c +:+ ":" +:+ py_str port in
      let '(rc, used) := match he_setup he true seg (c_seg_bytes c) size (c_master c) with
                         | Raise STypeError => (he_setup he false hostname (c_seg_bytes c) size (c_master c), hostname)
                         | r => (r, seg)
                         end in
      match rc with
      | Raise _ => [HFailed]
      | Ok z => if negb (z =? 0) then [HFailed]
                else HReady used :: match he_close he with Ok _ => [] | Raise _ => [HFailed] end
      end
  end.
Definition e14_helper_main := helper_main (64 * 1024 * 1024).
Definition admit_helper_main := helper_main (4 * 1024 * 1024).

(** ** The environment of a script *)

Record SmokeOps (W : Type) : Type := mkSmokeOps {
  new_uid : W -> W * result sexn string;
  clock : W -> W * result sexn Z;                          (* whole seconds *)
  start_process : string -> Spec -> W -> W * result sexn unit;
  first_message : Z -> W -> W * result sexn message;       (* [q.get(timeout=180)] *)
  all_segments : W -> W * result sexn string;              (* GET /get_all_segments *)
  connect : string -> string -> W -> W * result sexn unit;
  is_exist : list string -> W -> W * result sexn (list bool);
  warm : string -> string -> string -> W -> W * result sexn unit;
  replica_endpoints : list string -> W -> W * result sexn (dict string (list string));
  replica_sizes : list string -> W -> W * result sexn (dict string (list ReplicaRow));
  query_segment : string -> W -> W * result sexn (Z * Z);
  new_ledger : string -> W -> W * result sexn unit;        (* remove the file, open it *)
  subscribe : string -> Z -> W -> W * result sexn unit;    (* bind the publisher, connect the socket *)
  receive : W -> W * result sexn json;                     (* the payload of a message, decoded *)
  close : W -> W * result sexn unit }.
Arguments new_uid {W} _.
Arguments clock {W} _.
Arguments start_process {W} _.
Arguments first_message {W} _.
Arguments all_segments {W} _.
Arguments connect {W} _.
Arguments is_exist {W} _.
Arguments warm {W} _.
Arguments replica_endpoints {W} _.
Arguments replica_sizes {W} _.
Arguments query_segment {W} _.
Arguments new_ledger {W} _.
Arguments subscribe {W} _.
Arguments receive {W} _.
Arguments close {W} _.

Record Smoke (W : Type) : Type := mkSmoke { sm_world : W; sm_log : list sevent }.
Arguments mkSmoke {W} _ _.
Arguments sm_world {W} _.
Arguments sm_log {W} _.

Section shared.
Context {W : Type} (ops : SmokeOps W) (c : Conf) (encode : string -> list Z).
Abbreviation SM := (M (Smoke W) sexn).

Definition mark (e : sevent) : SM unit := modify (fun s => mkSmoke (sm_world s) (sm_log s ++ [e])).
Definition ask {A} (f : W -> W * result sexn A) : SM A := fun s =>
  let '(w, r) := f (sm_world s) in (mkSmoke w (sm_log s), r).
(** A call whose answer is kept. *)
Definition note {A} (e : A -> sevent) (f : W -> W * result sexn A) : SM A := a ← ask f; _ ← mark (e a); mret a.

(** [prompt += base] until the tokenizer gives 2000 tokens; [None]: out of fuel. *)
Fixpoint grow (fuel : nat) (base prompt : string) : option (string * list Z) :=
  match fuel with
  | O => None
  | S fuel => let ids := encode prompt in
              if 2000 <=? zlen ids then Some (prompt, ids) else grow fuel base (prompt +:+ base)
  end.

(** At most [n] looks at the list of segments. *)
Fixpoint wait_mounted (n : nat) (seg : string) : SM unit :=
  match n with
  | O => mret tt
  | S n => text ← ask (all_segments ops);
           if bool_decide (seg ∈ splitlines (strip text)) then mret tt else wait_mounted n seg
  end.

Definition start_helper (i : Z) (spec : Spec) (port_hint : Z) : SM string :=
  let hostname := c_host c +:+ ":" +:+ py_str port_hint in
  _ ← ask (start_process ops hostname spec);
  _ ← mark (EvStart i);
  msg ← ask (first_message ops i);
  match msg with
  | HFailed => _ ← mark (EvStop i); _ ← mark (EvJoin i 10); raise SOther
  | HReady seg => _ ← wait_mounted 50 seg; mret seg
  end.

Fixpoint start_helpers (i port : Z) (specs : list Spec) : SM (list string) :=
  match specs with
  | [] => mret []
  | spec :: specs =>
      seg ← start_helper i spec (port + i * 100);
      segs ← start_helpers (i + 1) port specs;
      mret (seg :: segs)
  end.

(** [s0.set(); s1.set(); p0.join(t); p1.join(t)] *)
Definition stop_all (t : Z) : SM unit :=
  _ ← mark (EvStop 0); _ ← mark (EvStop 1); _ ← mark (EvJoin 0 t); mark (EvJoin 1 t).
Definition close_client : SM unit := _ ← mark EvClose; ask (close ops).
Definition fail_with (code : Z) : SM Z := _ ← stop_all 5; _ ← close_client; mret code.

Definition of_kvcm {A} (r : result kexn A) : result sexn A := match r with Ok a => Ok a | Raise x => Raise (SKvcm x) end.

(** Keys with a replica on one of the targets, and all keys. *)
Definition hit_on (placement : dict string (list string)) (targets : list string) : Z * Z :=
  (zlen (filter (fun kv => existsb (fun e => bool_decide (e ∈ targets)) kv.2 = true) placement), zlen placement).

(** The key computer and the backend of a script; its directory answers [synth] to
    everyone. *)
Context {BH : Type} (hash_block_tokens : option BH -> list Z -> BH) (block_hash_to_str : BH -> string) (up : upstream_keys) (seed_ok : bool).
Definition key_computer : KeyComputer := mkKeyComputer (c_model_name c) (c_block_size c) (c_tp c) (Some (c_tp c)) 1.
Definition plan_keys_for (ids : list Z) : result kexn (list string) :=
  keys_for_tokens hash_block_tokens block_hash_to_str up seed_ok key_computer ids.
Definition backend_config (admin : bool) (synth : list string) : Config :=
  mkConfig plan_keys_for key_computer [(strip (c_target c), synth)] admin 4 10000.

(** The two helpers of a script, then what it does with them. *)
Definition with_helpers (fuel : nat) (tag : string) (first_port : Z)
    (session : string -> list Z -> Z -> list string -> SM Z) : SM (option Z) :=
  uid ← ask (new_uid ops);
  let base := tag +:+ uid +:+ "- " in
  match grow fuel base base with
  | None => mret None
  | Some (prompt, ids) =>
      if c_block_size c =? 0 then raise SOther
      else
        let n_full := zlen ids / c_block_size c in
        if n_full <? 1 then mret (Some 2)
        else
          specs ← lift (synth_specs (c_synth_want c));
          now ← ask (clock ops);
          synth ← start_helpers 0 (first_port + now mod 10000) specs;
          code ← session prompt ids n_full synth;
          mret (Some code)
  end.
End shared.

(** ** Copy and event: [e14_mooncake_smoke.py] *)

Section e14.
Context {W : Type} (ops : SmokeOps W) (c : Conf) (event_port : Z) (encode : string -> list Z).
Context `{Digest} {BH EH : Type} (hash_block_tokens : option BH -> list Z -> BH) (block_hash_to_str : BH -> string)
  (up : upstream_keys) (seed_ok : bool).
Context (convert : BH -> EH) (make_publisher : string -> result kexn (option Z)) (ab : TaskHandle -> option kexn).
Abbreviation SM := (M (Smoke W) sexn).

(** What the store and the admin port answer to one [query_task], and the state of the
    backend it meets. *)
Record PollInput : Type := mkPollInput {
  pi_now : Z;
  pi_handle : TaskHandle;
  pi_meanwhile : Backend -> Backend;
  pi_resps : result kexn (list QueryResp);
  pi_rows : result kexn (dict string AdminRow);
  pi_backend : Backend }.

(** The same for one round of waiting, with the milliseconds each call takes; a check
    of the room takes one more than [ri_room_took]. *)
Record RoundInput : Type := mkRoundInput {
  ri_slot : Admission;
  ri_layout : result kexn (dict string (list ReplicaRow));
  ri_query : result kexn (Z * Z);
  ri_room_took : N;
  ri_sleep_cancelled : bool;
  ri_oversleep : N;
  ri_gate : gate_end;
  ri_gate_took : N;
  ri_copy : copy_end;
  ri_copy_took : N;
  ri_polls : nat -> PollInput;
  ri_polls_took : nat -> N;
  ri_poll_cancelled : nat -> bool;
  ri_flow_took : N }.

(** And for the whole prefetch, with the number of its [create_copy_task] calls. *)
Record PrefetchInput : Type := mkPrefetchInput {
  pf_state : Run.RunState (EH := EH);
  pf_present : result kexn bool;
  pf_rounds : nat -> RoundInput;
  pf_wall : Z;
  pf_cut : bool;
  pf_copies : Z }.

Definition poll_of (cf : Config) (x : PollInput) : poll :=
  (query_task cf (pi_now x) (pi_handle x) (pi_meanwhile x) (pi_resps x) (pi_rows x) (pi_backend x)).2.
Definition round_of (cf : Config) (p : Prefix) (target : string) (r : RoundInput) : round :=
  mkRound (check_segment_room cf p target (ri_slot r) (ri_layout r) (ri_query r)).2 (1 + Z.of_N (ri_room_took r)) (ri_sleep_cancelled r)
    (Z.of_N (ri_oversleep r)) (ri_gate r) (Z.of_N (ri_gate_took r)) (ri_copy r) (Z.of_N (ri_copy_took r)) (fun j => poll_of cf (ri_polls r j))
    (fun j => Z.of_N (ri_polls_took r j)) (ri_poll_cancelled r) (Z.of_N (ri_flow_took r)).

Definition poll_ms : Z := 500.
Definition timeout_ms : Z := 180000.
Definition run_once (cf : Config) (p : Prefix) (i : PrefetchInput) : result kexn bool :=
  (Run.run_prefetch hash_block_tokens convert make_publisher ab poll_ms 1 (Z.to_nat (timeout_ms + 1)) None (pf_present i)
     (fun k => round_of cf p (c_target c) (pf_rounds i k)) timeout_ms (pf_wall i) (pf_cut i) seed_ok p (c_target c) (pf_state i)).2.

(** [ev.get(k)] *)
Definition text_is (k v : string) (d : dict string json) : bool :=
  match dget k d with Some (JStr s) => bool_decide (s = v) | _ => false end.

(** [len(x or [])] *)
Fixpoint zero_literal (s : string) : bool :=
  match s with
  | EmptyString => true
  | String a s => if bool_decide (a = "e"%char) || bool_decide (a = "E"%char) then true
                  else (bool_decide (a = "0"%char) || bool_decide (a = "."%char) || bool_decide (a = "-"%char)) && zero_literal s
  end.
Definition len_or_empty (v : option json) : result sexn Z :=
  match v with
  | None | Some JNull | Some (JBool false) => Ok 0
  | Some (JInt z) => if z =? 0 then Ok 0 else Raise STypeError
  | Some (JFloat s) => if zero_literal s then Ok 0 else Raise STypeError
  | Some (JBool true) => Raise STypeError
  | Some (JStr s) => Ok (Z.of_nat (String.length s))
  | Some (JArr l) => Ok (zlen l)
  | Some (JObj d) => Ok (zlen d)
  end.

(** The first event of the batch, and whether it is the one expected. *)
Definition first_event (obj : json) : result sexn json :=
  match obj with
  | JArr l => match l !! 1%nat with
              | Some (JArr (e :: _)) => Ok e
              | _ => Raise SOther
              end
  | _ => Ok obj
  end.
Definition event_ok (n_full : Z) (obj : json) : result sexn bool :=
  ev ← first_event obj;
  match ev with
  | JObj d =>
      n ← len_or_empty (dget "block_hashes" d);
      Ok (text_is "type" "BlockStored" d && text_is "medium" "CPU" d && text_is "kv_cache_spec_kind" "full_attention" d && (n =? n_full))
  | _ => Raise SOther
  end.

(** After the event socket is open, a failure also shuts the publisher down. *)
Definition fail_events (code : Z) : SM Z := _ ← mark EvEventsDown; fail_with ops code.

Context (prefetch : W -> W * PrefetchInput).

(** From the connection to the verdict; [cf] is the backend's configuration. *)
Definition e14_session (cf : Config) (prompt : string) (ids : list Z) (n_full : Z) (synth : list string) : SM Z :=
  _ ← ask (connect ops (c_host c +:+ ":" +:+ py_str (c_coord_port c)) (c_master c));
  _ ← mark EvConnect;
  plan_keys ← lift (of_kvcm (plan_keys_for c hash_block_tokens block_hash_to_str up seed_ok ids));
  pre ← note EvPresent (is_exist ops plan_keys);
  if existsb id pre then fail_with ops 10 else
  _ ← ask (warm ops (c_warm_url c) (c_served c) prompt);
  _ ← mark EvWarm;
  exist ← note EvPresent (is_exist ops plan_keys);
  if negb (forallb id exist) then fail_with ops 9 else
  place0 ← note EvPlaced (replica_endpoints ops plan_keys);
  if 0 <? (hit_on place0 synth).1 then fail_with ops 6 else
  _ ← ask (new_ledger ops (c_ledger c));
  _ ← ask (subscribe ops (c_target c) event_port);
  _ ← mark EvSubscribe;
  let p := mkPrefix (c_model_name c) ids in
  input ← ask (fun w => let '(w, i) := prefetch w in (w, Ok i));
  match run_once cf p input with
  | Raise KCancelled => raise (SKvcm KCancelled)
  | Raise _ => fail_events 3
  | Ok false => raise SOther            (* out of fuel *)
  | Ok true =>
      _ ← mark (EvRan (pf_copies input));
      if pf_copies input <? 1 then fail_events 7 else
      place1 ← note EvPlaced (replica_endpoints ops plan_keys);
      let '(hit1, n1) := hit_on place1 synth in
      if hit1 <? n1 then fail_events 8 else
      got ← try_catch (a ← ask (receive ops); mret (Some a)) (fun x => match x with SAgain => mret None | _ => raise x end);
      match got with
      | None => fail_events 4
      | Some obj =>
          _ ← mark (EvGot obj);
          ok ← lift (event_ok n_full obj);
          _ ← mark EvEventsDown;
          _ ← stop_all 10;
          _ ← try_catch (close_client ops) (fun _ => mret tt);
          mret (if (ok : bool) then 0 else 5)
      end
  end.

(** The script builds its backend without an admin client. *)
Definition e14_main (fuel : nat) : SM (option Z) :=
  with_helpers ops c encode fuel "e14fresh-" 19000 (fun prompt ids n_full synth =>
    e14_session (backend_config c hash_block_tokens block_hash_to_str up seed_ok false synth) prompt ids n_full synth).
End e14.

(** ** No room, no copy: [admission_real_smoke.py] *)

Section admission.
Context {W : Type} (ops : SmokeOps W) (c : Conf) (encode : string -> list Z).
Context {BH : Type} (hash_block_tokens : option BH -> list Z -> BH) (block_hash_to_str : BH -> string)
  (up : upstream_keys) (seed_ok : bool).
Abbreviation SM := (M (Smoke W) sexn).

(** [next((sz for _ep, sz, _a in rows if sz), None)], nothing counting as no bytes *)
Fixpoint first_size (rows : list ReplicaRow) : Z :=
  match rows with
  | [] => 0
  | r :: rows => match rr_size r with
                 | Some z => if z =? 0 then first_size rows else z
                 | None => first_size rows
                 end
  end.

(** The bytes that are planned to the first segment. *)
Definition need_bytes (sizes : dict string (list ReplicaRow)) (plan : list (string * string)) (first_seg : string) : Z :=
  zsum ((fun ks : string * string => first_size (default [] (dget ks.1 sizes))) <$> filter (fun ks => ks.2 = first_seg) plan).

(** [run_once]: the calls of [create_copy_task] it made and how it ended. *)
Context (run_once : Prefix -> W -> W * (Z * result sexn unit)).

Fixpoint look_at (segs : list string) : SM unit :=
  match segs with
  | [] => mret tt
  | seg :: segs => _ ← ask (query_segment ops seg); look_at segs
  end.

Definition admit_session (prompt : string) (ids : list Z) (n_full : Z) (synth : list string) : SM Z :=
  _ ← look_at synth;
  _ ← ask (connect ops (c_host c +:+ ":" +:+ py_str (c_coord_port c)) (c_master c));
  _ ← mark EvConnect;
  plan_keys ← lift (of_kvcm (plan_keys_for c hash_block_tokens block_hash_to_str up seed_ok ids));
  pre ← note EvPresent (is_exist ops plan_keys);
  if existsb id pre then fail_with ops 10 else
  _ ← ask (warm ops (c_warm_url c) (c_served c) prompt);
  _ ← mark EvWarm;
  exist ← note EvPresent (is_exist ops plan_keys);
  if negb (forallb id exist) then fail_with ops 9 else
  sizes ← note EvSized (replica_sizes ops plan_keys);
  let first_seg := default EmptyString (head synth) in
  _ ← ask (new_ledger ops (c_ledger c));
  let cf := backend_config c hash_block_tokens block_hash_to_str up seed_ok true synth in
  let p := mkPrefix (c_model_name c) ids in
  plan ← lift (of_kvcm (copy_plan cf p (c_target c)));
  let need := need_bytes sizes plan first_seg in
  uc ← note (fun uc => EvSegment uc.1 uc.2) (query_segment ops first_seg);
  if need <=? uc.2 - uc.1 then fail_with ops 8 else
  ran ← ask (fun w => let '(w, r) := run_once p w in (w, Ok r));
  match ran.2 with
  | Ok _ => fail_with ops 4
  | Raise (SPrefetch before_submit) =>
      if negb before_submit then fail_with ops 5
      else
        _ ← mark (EvRefused ran.1);
        if negb (ran.1 =? 0) then fail_with ops 7 else
        _ ← note EvPlaced (replica_endpoints ops plan_keys);
        _ ← stop_all 10;
        _ ← close_client ops;
        mret 0
  | Raise x => raise x
  end.

Definition admit_main (fuel : nat) : SM (option Z) := with_helpers ops c encode fuel "admitreal-" 19200 admit_session.
End admission.

(** ** Both scripts end *)

Lemma string_app_nil_r s : s +:+ EmptyString = s.
Proof. induction s as [|a s IH]; [done|]. simpl. by rewrite IH. Qed.

(** A tokenizer that gives at least one token for every repetition of the text reaches
    2000 of them. *)
Lemma grow_enough encode base : (forall n prompt, (n <= length (encode (prompt +:+ foldr String.append EmptyString (replicate n base))))%nat) ->
  grow encode 2001 base base <> None.
Proof.
  intros Henc.
  assert (Hg : forall fuel k prompt, 2000 <= Z.of_nat (k + fuel) ->
    (forall n, (k + n <= length (encode (prompt +:+ foldr String.append EmptyString (replicate n base))))%nat) ->
    grow encode (S fuel) base prompt <> None).
  { induction fuel as [|fuel IH]; intros k prompt Hk Hp; cbn [grow].
    - specialize (Hp 0%nat). simpl in Hp. rewrite string_app_nil_r in Hp. destruct (2000 <=? zlen (encode prompt)) eqn:Hz; [done|]. 
      apply Z.leb_gt in Hz. change (Z.of_nat (length (encode prompt)) < 2000) in Hz. lia.
    - case_match; [done|]. apply (IH (k + 1)%nat); [lia|]. intros n. specialize (Hp (S n)). simpl in Hp.
      rewrite string_app_assoc. lia. }
  apply (Hg 2000%nat 0%nat); [lia|]. intros n. by apply Henc.
Qed.

(** ** What a script leaves behind *)

Section trace.
Context {W : Type}.
Abbreviation SM := (M (Smoke W) sexn).

(** A normal end adds events [l] with [P l] to the log. *)
Definition adds {A} (P : list sevent -> A -> Prop) (m : SM A) : Prop :=
  forall s s' a, m s = (s', Ok a) -> exists l, sm_log s' = sm_log s ++ l /\ P l a.

Lemma adds_bind {A B} (P : list sevent -> A -> Prop) (Q : list sevent -> B -> Prop) (m : SM A) (k : A -> SM B) :
  adds P m -> (forall a, adds (fun l b => forall l0, P l0 a -> Q (l0 ++ l) b) (k a)) -> adds Q (m ≫= k).
Proof.
  intros Hm Hk s s' b (s1 & a & H1 & H2)%bind_ok_inv. destruct (Hm _ _ _ H1) as (l1 & E1 & P1).
  destruct (Hk a _ _ _ H2) as (l2 & E2 & Q2). exists (l1 ++ l2). split; [by rewrite E2, E1, app_assoc|by apply Q2].
Qed.

Lemma adds_weaken {A} (P Q : list sevent -> A -> Prop) (m : SM A) : (forall l a, P l a -> Q l a) -> adds P m -> adds Q m.
Proof. intros HPQ Hm s s' a H. destruct (Hm _ _ _ H) as (l & E & HP). exists l. by auto. Qed.

Lemma adds_ret {A} (P : list sevent -> A -> Prop) a : P [] a -> adds P (mret a).
Proof. intros HP s s' b [= <- <-]. exists []. by rewrite app_nil_r. Qed.
Lemma adds_raise {A} (P : list sevent -> A -> Prop) x : adds P (raise x).
Proof. intros s s' a [=]. Qed.
Lemma adds_lift {A} (P : list sevent -> A -> Prop) r : (forall a, r = Ok a -> P [] a) -> adds P (lift r).
Proof. intros HP s s' a [= <- ->]. exists []. rewrite app_nil_r. by split; [|apply HP]. Qed.
Lemma adds_mark e : adds (fun l _ => l = [e]) (mark e : SM unit).
Proof. intros s s' a [= <- <-]. by exists [e]. Qed.
Lemma adds_ask {A} (f : W -> W * result sexn A) : adds (fun l _ => l = []) (ask f).
Proof.
  intros s s' a. unfold ask. destruct (f (sm_world s)) as [w r]. intros [= <- ->]. exists []. by rewrite app_nil_r.
Qed.
Lemma adds_note {A} (e : A -> sevent) (f : W -> W * result sexn A) : adds (fun l a => l = [e a]) (note e f).
Proof.
  unfold note. eapply adds_bind; [apply adds_ask|]. intros a. eapply adds_bind; [apply adds_mark|]. intros [].
  apply adds_ret. by intros l1 -> l0 ->.
Qed.
Lemma adds_handle {A} (P : list sevent -> A -> Prop) (m : SM A) h :
  (forall s, exists l, sm_log (m s).1 = sm_log s ++ l /\ match (m s).2 with Ok a => P l a | Raise x => adds (fun l2 a => P (l ++ l2) a) (h x) end) ->
  adds P (try_catch m h).
Proof.
  intros Hm s s' a. unfold try_catch. specialize (Hm s) as (l & E & Hm). destruct (m s) as [s1 [b|x]]; simpl in *.
  - intros [= <- <-]. by exists l.
  - intros (l2 & E2 & HP)%Hm. exists (l ++ l2). by rewrite E2, E, app_assoc.
Qed.

(** A step that adds exactly [e a]. *)
Lemma adds_step {A B} (e : A -> list sevent) (Q : list sevent -> B -> Prop) (m : SM A) (k : A -> SM B) :
  adds (fun l a => l = e a) m -> (forall a, adds (fun l b => Q (e a ++ l) b) (k a)) -> adds Q (m ≫= k).
Proof.
  intros Hm Hk. eapply adds_bind; [exact Hm|]. intros a. eapply adds_weaken; [|apply Hk]. by intros l b HQ l0 ->.
Qed.

Definition stops (t : Z) : list sevent := [EvStop 0; EvStop 1; EvJoin 0 t; EvJoin 1 t].
Lemma adds_stop_all t : adds (fun l _ => l = stops t) (stop_all t : SM unit).
Proof.
  unfold stop_all. eapply adds_bind; [apply adds_mark|]. intros []. eapply adds_bind; [apply adds_mark|]. intros [].
  eapply adds_bind; [apply adds_mark|]. intros []. eapply adds_weaken; [|apply adds_mark]. by intros l [] -> l0 -> l1 -> l2 ->.
Qed.
Lemma adds_close (ops : SmokeOps W) : adds (fun l _ => l = [EvClose]) (close_client ops).
Proof.
  unfold close_client. eapply adds_bind; [apply adds_mark|]. intros []. eapply adds_weaken; [|apply adds_ask]. by intros l [] -> l0 ->.
Qed.
Lemma adds_fail (ops : SmokeOps W) code : adds (fun l n => l = stops 5 ++ [EvClose] /\ n = code) (fail_with ops code).
Proof.
  unfold fail_with. eapply adds_bind; [apply adds_stop_all|]. intros []. eapply adds_bind; [apply adds_close|]. intros [].
  apply adds_ret. by intros l1 -> l0 ->.
Qed.

Lemma step_ask {A B} (f : W -> W * result sexn A) (Q : list sevent -> B -> Prop) k : (forall a, adds Q (k a)) -> adds Q (ask f ≫= k).
Proof. intros Hk. by eapply (adds_step (fun _ => [])); [apply adds_ask|]. Qed.
Lemma step_mark {B} e (Q : list sevent -> B -> Prop) (k : unit -> SM B) : adds (fun l b => Q (e :: l) b) (k tt) -> adds Q (mark e ≫= k).
Proof. intros Hk. eapply (adds_step (fun _ => [e])); [apply adds_mark|]. by intros []. Qed.
Lemma step_note {A B} (e : A -> sevent) (f : W -> W * result sexn A) (Q : list sevent -> B -> Prop) k :
  (forall a, adds (fun l b => Q (e a :: l) b) (k a)) -> adds Q (note e f ≫= k).
Proof. intros Hk. by eapply (adds_step (fun a => [e a])); [apply adds_note|]. Qed.
Lemma step_lift {A B} r (Q : list sevent -> B -> Prop) (k : A -> SM B) : (forall a, r = Ok a -> adds Q (k a)) -> adds Q (lift r ≫= k).
Proof. intros Hk s s' b. destruct r as [a|x]; [|done]. by apply (Hk a). Qed.

(** The status is not [0]. *)
Lemma adds_not_zero (ops : SmokeOps W) code (Q : list sevent -> Z -> Prop) : (forall l, Q l code) -> adds Q (fail_with ops code).
Proof. intros HQ. eapply adds_weaken; [|apply adds_fail]. intros l n [_ ->]. apply HQ. Qed.
Lemma adds_not_zero_events (ops : SmokeOps W) code (Q : list sevent -> Z -> Prop) : (forall l, Q l code) -> adds Q (fail_events ops code).
Proof.
  intros HQ. unfold fail_events. eapply (adds_step (fun _ => [EvEventsDown])); [apply adds_mark|]. intros _. by apply adds_not_zero.
Qed.
End trace.

Ltac smoke_ask := apply step_ask.
Ltac smoke_mark := apply step_mark; simpl app.
Ltac smoke_note := apply step_note; simpl app.

Section e14_trace.
Context {W : Type} (ops : SmokeOps W) (c : Conf) (event_port : Z).
Context `{Digest} {BH EH : Type} (hash_block_tokens : option BH -> list Z -> BH) (block_hash_to_str : BH -> string)
  (up : upstream_keys) (seed_ok : bool).
Context (convert : BH -> EH) (make_publisher : string -> result kexn (option Z)) (ab : TaskHandle -> option kexn).
Context (prefetch : W -> W * PrefetchInput (EH := EH)).
Abbreviation session := (e14_session ops c event_port hash_block_tokens block_hash_to_str up seed_ok convert make_publisher ab prefetch).

(** The verdict of the script, over any backend: it passes only after this sequence, in
    which the keys were absent before the warm-up and all present after it, no helper
    had one of them, a copy was made, then every key had a replica on a helper, and the
    event names as many blocks as the prompt has. *)
Theorem e14_pass_means cf prompt ids n_full synth s s' :
  session cf prompt ids n_full synth s = (s', Ok 0) ->
  exists pre exist place0 place1 copies obj,
    sm_log s' = sm_log s ++ [EvConnect; EvPresent pre; EvWarm; EvPresent exist; EvPlaced place0; EvSubscribe; EvRan copies;
      EvPlaced place1; EvGot obj; EvEventsDown; EvStop 0; EvStop 1; EvJoin 0 10; EvJoin 1 10; EvClose] /\
    existsb id pre = false /\ forallb id exist = true /\ (hit_on place0 synth).1 <= 0 /\ 1 <= copies /\
    (hit_on place1 synth).2 <= (hit_on place1 synth).1 /\ event_ok n_full obj = Ok true.
Proof.
  enough (Ha : adds (fun l code => code = 0 -> exists pre exist place0 place1 copies obj,
    l = [EvConnect; EvPresent pre; EvWarm; EvPresent exist; EvPlaced place0; EvSubscribe; EvRan copies;
      EvPlaced place1; EvGot obj; EvEventsDown; EvStop 0; EvStop 1; EvJoin 0 10; EvJoin 1 10; EvClose] /\
    existsb id pre = false /\ forallb id exist = true /\ (hit_on place0 synth).1 <= 0 /\ 1 <= copies /\
    (hit_on place1 synth).2 <= (hit_on place1 synth).1 /\ event_ok n_full obj = Ok true) (session cf prompt ids n_full synth)).
  { intros E. destruct (Ha _ _ _ E) as (l & -> & Hl). destruct (Hl eq_refl) as (pre & exist & place0 & place1 & copies & obj & -> & Hr).
    by exists pre, exist, place0, place1, copies, obj. }
  unfold e14_session. smoke_ask. intros _. smoke_mark. apply step_lift. intros keys _. smoke_note. intros pre.
  destruct (existsb id pre) eqn:Hpre; [by apply adds_not_zero|]. smoke_ask. intros _. smoke_mark. smoke_note. intros exist.
  destruct (forallb id exist) eqn:Hex; [cbn [negb]|by apply adds_not_zero]. smoke_note. intros place0.
  destruct (Z.ltb_spec 0 (hit_on place0 synth).1) as [_|H0]; [by apply adds_not_zero|].
  smoke_ask. intros _. smoke_ask. intros _. smoke_mark. smoke_ask. intros input.
  destruct (run_once _ _ _ _ _ _ _ _ _) as [[]|x]; [|apply adds_raise|destruct x; first [by apply adds_not_zero_events|apply adds_raise]].
  smoke_mark. destruct (Z.ltb_spec (pf_copies input) 1) as [_|Hc]; [by apply adds_not_zero_events|].
  smoke_note. intros place1. destruct (hit_on place1 synth) as [hit1 n1] eqn:Hh. destruct (Z.ltb_spec hit1 n1) as [_|H1]; [by apply adds_not_zero_events|].
  eapply (adds_step (fun _ => [])).
  { apply adds_handle. intros s0. unfold mbind, M_bind, ask. destruct (receive ops (sm_world s0)) as [w [a|x]]; simpl.
    - exists []. by rewrite app_nil_r.
    - exists []. rewrite app_nil_r. split; [done|]. destruct x; first [by apply adds_ret|apply adds_raise]. }
  intros [obj|]; [|by apply adds_not_zero_events]. smoke_mark.
  apply step_lift. intros ok Hok.
  smoke_mark. eapply (adds_step (fun _ => stops 10)); [apply adds_stop_all|]. intros _.
  eapply (adds_step (fun _ => [EvClose])).
  { apply adds_handle. intros s0. exists [EvClose]. unfold close_client, mbind, M_bind, ask. simpl.
    destruct (close ops (sm_world s0)) as [w [[]|x]]; simpl; split; try done. by apply adds_ret. }
  intros _. apply adds_ret. destruct ok; [intros _|done].
  exists pre, exist, place0, place1, (pf_copies input), obj. rewrite Hh. simpl. by split_and!.
Qed.

(** The times of a prefetch are possible ones. *)
Lemma round_of_ok cf p target r : Run.round_ok (round_of cf p target r).
Proof. split; simpl; intros; lia. Qed.

Lemma run_once_ends cf p i : run_once c hash_block_tokens seed_ok convert make_publisher ab cf p i <> Ok false.
Proof.
  apply (Run.prefetch_ends hash_block_tokens convert make_publisher ab poll_ms ltac:(done) 1 _ None 0);
    [intros; apply round_of_ok|done|lia|unfold timeout_ms; lia|unfold timeout_ms; lia].
Qed.

Lemma run_once_no_admin cf p i : cf_admin cf = false -> run_once c hash_block_tokens seed_ok convert make_publisher ab cf p i <> Ok true.
Proof.
  intros Ha. apply (Run.prefetch_not_ready hash_block_tokens convert make_publisher ab poll_ms ltac:(done)); [intros; apply round_of_ok|].
  intros k j. by apply no_admin_not_ready.
Qed.

(** C39. Defect: the test of copies and events cannot pass.  Its backend has no admin
    client, without which no replica is ever verified, so the prefetch never ends READY:
    whatever the store, the engine and the master answer, the script does not end with
    status 0. *)
Theorem e14_cannot_pass encode fuel s :
  (e14_main ops c event_port encode hash_block_tokens block_hash_to_str up seed_ok convert make_publisher ab prefetch fuel s).2 <> Ok (Some 0).
Proof.
  enough (Hs : forall prompt ids n synth, adds (fun _ code => code <> 0)
    (session (backend_config c hash_block_tokens block_hash_to_str up seed_ok false synth) prompt ids n synth)).
  { intros E. destruct (e14_main _ _ _ _ _ _ _ _ _ _ _ _ _ s) as [s' o] eqn:Em. simpl in E. subst o.
    unfold e14_main, with_helpers in Em. apply bind_ok_inv in Em as (s1 & uid & _ & Em).
    destruct (grow _ _ _ _) as [[prompt ids]|]; [|done]. destruct (_ =? 0); [done|]. destruct (_ <? 1); [done|].
    apply bind_ok_inv in Em as (s2 & specs & _ & Em). apply bind_ok_inv in Em as (s3 & now & _ & Em).
    apply bind_ok_inv in Em as (s4 & synth & _ & Em). apply bind_ok_inv in Em as (s5 & code & Em & [= <- ->]).
    by destruct (Hs _ _ _ _ _ _ _ Em) as (l & _ & Hz). }
  intros prompt ids n synth. unfold e14_session. smoke_ask. intros _. smoke_mark. apply step_lift. intros keys _. smoke_note. intros pre.
  destruct (existsb id pre); [by apply adds_not_zero|]. smoke_ask. intros _. smoke_mark. smoke_note. intros exist.
  destruct (forallb id exist); [cbn [negb]|by apply adds_not_zero]. smoke_note. intros place0.
  destruct (0 <? _); [by apply adds_not_zero|]. smoke_ask. intros _. smoke_ask. intros _. smoke_mark. smoke_ask. intros input.
  pose proof (run_once_no_admin (backend_config c hash_block_tokens block_hash_to_str up seed_ok false synth)
    (mkPrefix (c_model_name c) ids) input eq_refl) as Hn.
  destruct (run_once _ _ _ _ _ _ _ _ _) as [[]|x]; [done|apply adds_raise|destruct x; first [by apply adds_not_zero_events|apply adds_raise]].
Qed.
End e14_trace.

(** ** The admission test *)

Section admission_trace.
Context {W : Type} (ops : SmokeOps W) (c : Conf).
Context {BH : Type} (hash_block_tokens : option BH -> list Z -> BH) (block_hash_to_str : BH -> string)
  (up : upstream_keys) (seed_ok : bool) (run_once : Prefix -> W -> W * (Z * result sexn unit)).
Abbreviation config := (backend_config c hash_block_tokens block_hash_to_str up seed_ok true).
Abbreviation session := (admit_session ops c hash_block_tokens block_hash_to_str up seed_ok run_once).

Lemma adds_look segs : adds (fun l _ => l = []) (look_at ops segs).
Proof. induction segs as [|seg segs IH]; [by apply adds_ret|]. by apply step_ask. Qed.

(** Every key planned to the segment has a replica of known size, and the known sizes of
    its replicas are positive. *)
Definition sized (sizes : dict string (list ReplicaRow)) (plan : list (string * string)) (seg : string) : Prop :=
  forall k, (k, seg) ∈ plan -> exists rows, dget k sizes = Some rows /\ (exists r, r ∈ rows /\ rr_size r <> None) /\
    forall r z, r ∈ rows -> rr_size r = Some z -> 0 < z.

(** The bytes planned to the segment that are there already. *)
Definition placed_bytes (sizes : dict string (list ReplicaRow)) (plan : list (string * string)) (seg : string) : Z :=
  zsum ((fun ks : string * string => first_size (default [] (dget ks.1 sizes))) <$>
    filter (fun ks => ks.2 = seg /\ seg ∈ (key_layout (default [] (dget ks.1 sizes))).1) plan).

(** The size a key counts with in the script is that of the backend. *)
Lemma first_size_known rows : (forall r z, r ∈ rows -> rr_size r = Some z -> 0 < z) ->
  first_size rows = default 0 (key_layout rows).2.
Proof.
  unfold key_layout. simpl. intros Hp. induction rows as [|r rows IH]; [done|]. simpl. unfold usable_size at 2.
  assert (Hsome : forall (l : list ReplicaRow) x,
    foldl (fun size r => match size with Some s => Some s | None => usable_size r end) (Some x) l = Some x) by (intros l x; by induction l).
  destruct (rr_size r) as [z|] eqn:Ez.
  - pose proof (Hp r z (list_elem_of_here _ _) Ez). destruct (Z.eqb_spec z 0); [lia|]. destruct (Z.ltb_spec z 0); [lia|]. by rewrite Hsome.
  - apply IH. intros r' z' Hr'. apply Hp. by right.
Qed.

Lemma known_nonneg rows z : (key_layout rows).2 = Some z -> 0 <= z.
Proof.
  unfold key_layout. simpl.
  assert (Hg : forall (l : list ReplicaRow) o, (forall x, o = Some x -> 0 <= x) ->
    foldl (fun size r => match size with Some s => Some s | None => usable_size r end) o l = Some z -> 0 <= z).
  { induction l as [|r l IH]; intros o Ho; simpl; [apply Ho|]. apply IH. intros x. destruct o as [y|]; [apply Ho|].
    unfold usable_size. destruct (rr_size r) as [y|]; [|done]. destruct (Z.ltb_spec y 0); [done|]. intros [= <-]. done. }
  by apply Hg.
Qed.

Lemma known_some rows : (exists r, r ∈ rows /\ rr_size r <> None) -> (forall r z, r ∈ rows -> rr_size r = Some z -> 0 < z) ->
  exists z, (key_layout rows).2 = Some z.
Proof.
  unfold key_layout. simpl. intros (r & Hr & Hsz) Hp. induction rows as [|x rows IH]; [by apply elem_of_nil in Hr|]. simpl.
  assert (Hsome : forall (l : list ReplicaRow) z,
    foldl (fun size r => match size with Some s => Some s | None => usable_size r end) (Some z) l = Some z) by (intros l z; by induction l).
  destruct (rr_size x) as [z|] eqn:Ez; unfold usable_size at 2; rewrite Ez.
  - pose proof (Hp x z (list_elem_of_here _ _) Ez). destruct (Z.ltb_spec z 0); [lia|]. rewrite Hsome. by exists z.
  - apply IH; [apply elem_of_cons in Hr as [->|Hr]; [done|done]|]. intros r' z' Hr'. apply Hp. by right.
Qed.

(** What the backend's loop adds up, over keys not seen before. *)
Lemma need_loop_exact sizes sample seg plan : sized sizes plan seg ->
  forall seen total, NoDup plan.*1 -> (forall ks, ks ∈ plan -> ks.1 ∉ seen) ->
  need_loop sizes sample seg plan (seen, total) = Ok (total + (need_bytes sizes plan seg - placed_bytes sizes plan seg)).
Proof.
  induction plan as [|[k g] plan IH]; intros Hz seen total Hnd Hin; [simpl; unfold need_bytes, placed_bytes; simpl; f_equal; lia|].
  rewrite fmap_cons in Hnd. apply NoDup_cons in Hnd as [Hk Hnd]. cbn [fst] in Hk. cbn [need_loop]. unfold add_need.
  assert (Hz2 : sized sizes plan seg) by (intros k' Hk'; apply Hz; by right).
  assert (Hin2 : forall ks, ks ∈ plan -> ks.1 ∉ k :: seen).
  { intros ks Hks [He|?]%elem_of_cons; [|by apply (Hin ks); [right|]]. apply Hk. rewrite <- He. apply list_elem_of_fmap. by exists ks. }
  specialize (Hin (k, g) (list_elem_of_here _ _)) as Hseen. simpl in Hseen.
  rewrite (bool_decide_eq_false_2 (k ∈ seen)), orb_false_r by done. unfold need_bytes, placed_bytes. rewrite !filter_cons. cbn [fst snd].
  destruct (decide (g = seg)) as [->|Hg].
  2: { rewrite bool_decide_eq_false_2 by done. rewrite (decide_False (P := g = seg /\ _)) by tauto.
       cbn [negb]. apply IH; [done|done|]. intros ks Hks Hs. apply (Hin2 ks Hks). by right. }
  rewrite bool_decide_eq_true_2 by done. cbn [negb].
  destruct (Hz k (list_elem_of_here _ _)) as (rows & Er & Hex & Hpos). rewrite Er. cbn [default from_option id].
  destruct (known_some rows Hex Hpos) as [z Ekn]. pose proof (first_size_known rows Hpos) as Hfs. rewrite Ekn in Hfs. cbn [default from_option id] in Hfs.
  destruct (key_layout rows) as [pl known] eqn:Ekl. cbn [fst snd] in *. subst known.
  rewrite fmap_cons, zsum_cons. cbn [fst]. rewrite Er. cbn [default from_option id]. rewrite Hfs.
  case_bool_decide as Hpl.
  - rewrite decide_True by done. rewrite fmap_cons, zsum_cons. cbn [fst]. rewrite Er. cbn [default from_option id]. rewrite Hfs.
    rewrite IH by done. unfold need_bytes, placed_bytes. f_equal. lia.
  - rewrite decide_False by tauto. rewrite IH by done. unfold need_bytes, placed_bytes. f_equal. lia.
Qed.

Lemma placed_le sizes plan seg : sized sizes plan seg -> 0 <= need_bytes sizes plan seg - placed_bytes sizes plan seg.
Proof.
  intros Hz. unfold need_bytes, placed_bytes. induction plan as [|[k g] plan IH]; [done|].
  assert (Hz2 : sized sizes plan seg) by (intros k' Hk'; apply Hz; by right). specialize (IH Hz2). rewrite !filter_cons. cbn [fst snd].
  destruct (decide (g = seg)) as [->|Hg]; [|by rewrite decide_False by tauto]. rewrite fmap_cons, zsum_cons. cbn [fst].
  destruct (decide (seg = seg /\ _)); [rewrite fmap_cons, zsum_cons; cbn [fst]; lia|].
  destruct (Hz k (list_elem_of_here _ _)) as (rows & Er & Hex & Hpos). rewrite Er. cbn [default from_option id].
  destruct (known_some rows Hex Hpos) as [z Ekn]. rewrite (first_size_known rows Hpos), Ekn. cbn [default from_option id].
  pose proof (known_nonneg rows z Ekn). lia.
Qed.

(** The verdict of the script: it passes only after this sequence, in which the keys were
    absent before the warm-up and all present after it, more bytes are planned to the
    first segment than it has room for, and the prefetch stopped before any copy. *)
Lemma admit_pass_means prompt ids n_full synth s s' :
  session prompt ids n_full synth s = (s', Ok 0) ->
  exists pre exist sizes used capacity plan place,
    sm_log s' = sm_log s ++ [EvConnect; EvPresent pre; EvWarm; EvPresent exist; EvSized sizes; EvSegment used capacity; EvRefused 0;
      EvPlaced place; EvStop 0; EvStop 1; EvJoin 0 10; EvJoin 1 10; EvClose] /\
    existsb id pre = false /\ forallb id exist = true /\
    copy_plan (config synth) (mkPrefix (c_model_name c) ids) (c_target c) = Ok plan /\
    capacity - used < need_bytes sizes plan (default EmptyString (head synth)).
Proof.
  enough (Ha : adds (fun l code => code = 0 -> exists pre exist sizes used capacity plan place,
    l = [EvConnect; EvPresent pre; EvWarm; EvPresent exist; EvSized sizes; EvSegment used capacity; EvRefused 0;
      EvPlaced place; EvStop 0; EvStop 1; EvJoin 0 10; EvJoin 1 10; EvClose] /\
    existsb id pre = false /\ forallb id exist = true /\
    copy_plan (config synth) (mkPrefix (c_model_name c) ids) (c_target c) = Ok plan /\
    capacity - used < need_bytes sizes plan (default EmptyString (head synth))) (session prompt ids n_full synth)).
  { intros E. destruct (Ha _ _ _ E) as (l & -> & Hl). destruct (Hl eq_refl) as (pre & exist & sizes & used & cap & plan & place & -> & Hr).
    by exists pre, exist, sizes, used, cap, plan, place. }
  unfold admit_session. eapply (adds_step (fun _ => [])); [apply adds_look|]. intros _.
  smoke_ask. intros _. smoke_mark. apply step_lift. intros keys _. smoke_note. intros pre.
  destruct (existsb id pre) eqn:Hpre; [by apply adds_not_zero|]. smoke_ask. intros _. smoke_mark. smoke_note. intros exist.
  destruct (forallb id exist) eqn:Hex; [cbn [negb]|by apply adds_not_zero]. smoke_note. intros sizes. cbv zeta.
  smoke_ask. intros _. apply step_lift. intros plan Hplan. smoke_note. intros [used cap]. cbn [fst snd].
  destruct (Z.leb_spec (need_bytes sizes plan (default EmptyString (head synth))) (cap - used)) as [_|Hneed]; [by apply adds_not_zero|].
  smoke_ask. intros [copies r]. cbn [fst snd].
  destruct r as [[]|[| | | |[]| |]]; first [by apply adds_not_zero|apply adds_raise|idtac]. cbn [negb]. smoke_mark.
  destruct (Z.eqb_spec copies 0) as [->|_]; [cbn [negb]|by apply adds_not_zero]. smoke_note. intros place.
  eapply (adds_step (fun _ => stops 10)); [apply adds_stop_all|]. intros _.
  eapply (adds_step (fun _ => [EvClose])); [apply adds_close|]. intros _. apply adds_ret. intros _.
  exists pre, exist, sizes, used, cap, plan, place. unfold of_kvcm in Hplan.
  destruct (copy_plan _ _ _) as [plan'|x]; [|done]. injection Hplan as ->. by split_and!.
Qed.

(** C40. The admission test and the backend on the same plan, sizes and room.  Where every
    key planned to the first segment has a replica of known size, no key is planned
    twice and the segment reports what it has room for, the backend asks to wait
    exactly when the bytes planned to the segment, less those that are on it already,
    exceed the room.  So when nothing planned is there yet, which the script does not
    check, it is the script's test; otherwise the script may expect a refusal of a
    copy that the backend admits. *)
Theorem admission_expected synth seg ids plan sizes used capacity :
  copy_plan (config synth) (mkPrefix (c_model_name c) ids) (c_target c) = Ok plan ->
  head plan.*2 = Some seg -> NoDup plan.*1 -> sized sizes plan seg -> 0 < capacity -> used <= capacity ->
  (check_segment_room (config synth) (mkPrefix (c_model_name c) ids) (c_target c) open_segment_budget
    (Ok sizes) (Ok (used, capacity))).2 =
      (if capacity - used <? need_bytes sizes plan seg - placed_bytes sizes plan seg then Raise KAdmissionWait else Ok tt) /\
  ((forall k rows r, (k, seg) ∈ plan -> dget k sizes = Some rows -> r ∈ rows -> rr_endpoint r <> seg) ->
   placed_bytes sizes plan seg = 0).
Proof.
  intros Hplan Hseg Hnd Hsz Hcap Hused. split.
  - unfold check_segment_room. rewrite Hplan. destruct plan as [|[k g] plan]; [done|]. simpl in Hseg. injection Hseg as ->.
    set (pl := (k, seg) :: plan) in *. set (n := need_bytes sizes pl seg - placed_bytes sizes pl seg).
    pose proof (placed_le sizes pl seg Hsz) as Hn0. fold n in Hn0.
    assert (Hn : new_bytes_by_segment pl (Ok sizes) = Ok (if n <=? 0 then None else Some (seg, n))).
    { unfold new_bytes_by_segment, pl. cbn [as_query_error]. fold pl.
      rewrite (need_loop_exact _ _ _ _ Hsz) by (done || (intros; apply not_elem_of_nil)). by rewrite Z.add_0_l. }
    unfold admit_new_bytes, open_segment_budget, pl. fold pl. rewrite Hn. destruct (Z.leb_spec n 0); simpl.
    + destruct (Z.ltb_spec (capacity - used) n); [lia|done].
    + unfold check_segment. simpl. destruct (Z.eqb_spec capacity 0); [lia|]. by destruct (capacity - used <? n).
  - intros Hfresh. unfold placed_bytes. destruct (filter _ plan) as [|[k g] l] eqn:Ef; [done|exfalso].
    assert ((k, g) ∈ (k, g) :: l) as Hin by left. rewrite <- Ef in Hin. apply list_elem_of_filter in Hin as [[E Hp] Hin].
    simpl in E. subst g. unfold key_layout in Hp. cbn [fst] in Hp. apply list_elem_of_filter in Hp as [_ (r & Er & Hr)%list_elem_of_fmap].
    destruct (dget k sizes) as [rows|] eqn:Ek; [|by apply elem_of_nil in Hr]. by eapply (Hfresh k rows r).
Qed.
End admission_trace.

(** ** The helpers *)

Section helpers.
Context {W : Type} (ops : SmokeOps W) (c : Conf).

(** Both helpers were told to stop and waited for, and the client was closed. *)
Definition shut (l : list sevent) : Prop := exists l0 t l1, l = l0 ++ stops t ++ EvClose :: l1.
Lemma shut_cons e l : shut l -> shut (e :: l).
Proof. intros (l0 & t & l1 & ->). by exists (e :: l0), t, l1. Qed.

Lemma shut_fail code (Q : list sevent -> Z -> Prop) : (forall l n, shut l -> Q l n) -> adds Q (fail_with ops code).
Proof. intros HQ. eapply adds_weaken; [|apply adds_fail]. intros l n [-> _]. apply HQ. by exists [], 5, []. Qed.
Lemma shut_fail_events code (Q : list sevent -> Z -> Prop) : (forall l n, shut l -> Q l n) -> adds Q (fail_events ops code).
Proof. intros HQ. unfold fail_events. apply step_mark. apply shut_fail. intros l n Hl. apply HQ. by apply shut_cons. Qed.

Lemma adds_mounted n seg : adds (fun l _ => l = []) (wait_mounted ops n seg).
Proof. induction n as [|n IH]; [by apply adds_ret|]. apply step_ask. intros text. case_bool_decide; [by apply adds_ret|done]. Qed.

Lemma adds_helper i spec port : adds (fun l _ => l = [EvStart i]) (start_helper ops c i spec port).
Proof.
  unfold start_helper. apply step_ask. intros _. apply step_mark. apply step_ask. intros [seg|].
  - eapply (adds_step (fun _ => [])); [apply adds_mounted|]. intros _. by apply adds_ret.
  - do 2 apply step_mark. apply adds_raise.
Qed.

Lemma adds_helpers specs : forall i port, adds (fun l segs => l = EvStart <$> zseq i (length specs) /\ length segs = length specs)
  (start_helpers ops c i port specs).
Proof.
  induction specs as [|spec specs IH]; intros i port; [by apply adds_ret|]. cbn [start_helpers].
  eapply (adds_step (fun _ => [EvStart i])); [apply adds_helper|]. intros seg.
  eapply adds_bind; [apply IH|]. intros segs. apply adds_ret. intros l0 [-> Hl]. rewrite app_nil_r. simpl length.
  rewrite zseq_S. simpl. by rewrite Hl.
Qed.

Lemma synth_specs_two want specs : synth_specs want = Ok specs -> length specs = 2%nat.
Proof.
  unfold synth_specs. destruct (pick_specs want) as [l|]; [|done]. simpl. destruct (Z.eqb_spec (zlen l) 2); [|done].
  intros [= <-]. lia.
Qed.

(** A script that returns started no helper, or two, and told both to stop. *)
Lemma helpers_cleaned encode fuel tag port session s s' n :
  (forall prompt ids k synth, adds (fun l _ => shut l) (session prompt ids k synth)) ->
  with_helpers ops c encode fuel tag port session s = (s', Ok n) ->
  exists l, sm_log s' = sm_log s ++ l /\ ((forall i, EvStart i ∉ l) \/ exists l', l = EvStart 0 :: EvStart 1 :: l' /\ shut l').
Proof.
  intros Hs. enough (Ha : adds (fun l _ => (forall i, EvStart i ∉ l) \/ exists l', l = EvStart 0 :: EvStart 1 :: l' /\ shut l')
    (with_helpers ops c encode fuel tag port session)) by apply Ha.
  assert (Hnil : forall i, EvStart i ∉ []) by (intros; apply not_elem_of_nil).
  unfold with_helpers. apply step_ask. intros uid. destruct (grow _ _ _ _) as [[prompt ids]|]; [|apply adds_ret; by left].
  destruct (_ =? 0); [apply adds_raise|]. destruct (_ <? 1); [apply adds_ret; by left|]. apply step_lift. intros specs Hsp.
  apply step_ask. intros now. eapply adds_bind; [apply adds_helpers|]. intros synth.
  eapply adds_bind; [apply Hs|]. intros code. apply adds_ret. intros l1 Hl1 l0 [-> _]. right. exists l1.
  rewrite (synth_specs_two _ _ Hsp), app_nil_r. by split.
Qed.
End helpers.

Section clean.
Context {W : Type} (ops : SmokeOps W) (c : Conf).
Context {BH : Type} (hash_block_tokens : option BH -> list Z -> BH) (block_hash_to_str : BH -> string)
  (up : upstream_keys) (seed_ok : bool).

Lemma admit_clean run_once prompt ids k synth :
  adds (fun l _ => shut l) (admit_session ops c hash_block_tokens block_hash_to_str up seed_ok run_once prompt ids k synth).
Proof.
  unfold admit_session. eapply (adds_step (fun _ => [])); [apply adds_look|]. intros _.
  smoke_ask. intros _. smoke_mark. apply step_lift. intros keys _. smoke_note. intros pre.
  destruct (existsb id pre); [apply shut_fail; auto using shut_cons|]. smoke_ask. intros _. smoke_mark. smoke_note. intros exist.
  destruct (negb _); [apply shut_fail; auto using shut_cons|]. smoke_note. intros sizes. cbv zeta.
  smoke_ask. intros _. apply step_lift. intros plan _. smoke_note. intros [used cap].
  destruct (_ <=? _); [apply shut_fail; auto 10 using shut_cons|]. smoke_ask. intros [copies r]. cbn [fst snd].
  destruct r as [[]|[| | | |[]| |]]; first [by apply shut_fail; auto 10 using shut_cons|apply adds_raise|idtac]. cbn [negb]. smoke_mark.
  destruct (negb _); [apply shut_fail; auto 10 using shut_cons|]. smoke_note. intros place.
  eapply (adds_step (fun _ => stops 10)); [apply adds_stop_all|]. intros _.
  eapply (adds_step (fun _ => [EvClose])); [apply adds_close|]. intros _. apply adds_ret.
  do 8 apply shut_cons. by exists [], 10, [].
Qed.

Lemma e14_clean `{Digest} {EH} (convert : BH -> EH) make_publisher ab event_port prefetch cf prompt ids k synth :
  adds (fun l _ => shut l) (e14_session ops c event_port hash_block_tokens block_hash_to_str up seed_ok convert make_publisher ab
    prefetch cf prompt ids k synth).
Proof.
  unfold e14_session. smoke_ask. intros _. smoke_mark. apply step_lift. intros keys _. smoke_note. intros pre.
  destruct (existsb id pre); [apply shut_fail; auto using shut_cons|]. smoke_ask. intros _. smoke_mark. smoke_note. intros exist.
  destruct (negb _); [apply shut_fail; auto using shut_cons|]. smoke_note. intros place0.
  destruct (0 <? _); [apply shut_fail; auto 10 using shut_cons|]. smoke_ask. intros _. smoke_ask. intros _. smoke_mark. smoke_ask. intros input.
  destruct (run_once _ _ _ _ _ _ _ _ _) as [[]|x]; [|apply adds_raise
    |destruct x; first [by apply shut_fail_events; auto 10 using shut_cons|apply adds_raise]].
  smoke_mark. destruct (_ <? 1); [apply shut_fail_events; auto 10 using shut_cons|]. smoke_note. intros place1.
  destruct (hit_on place1 synth) as [hit1 n1]. destruct (_ <? _); [apply shut_fail_events; auto 12 using shut_cons|].
  eapply (adds_step (fun _ => [])).
  { apply adds_handle. intros s0. unfold mbind, M_bind, ask. destruct (receive ops (sm_world s0)) as [w [a|x]]; simpl.
    - exists []. by rewrite app_nil_r.
    - exists []. rewrite app_nil_r. split; [done|]. destruct x; first [by apply adds_ret|apply adds_raise]. }
  intros [obj|]; [|apply shut_fail_events; auto 12 using shut_cons]. smoke_mark. apply step_lift. intros ok _.
  smoke_mark. eapply (adds_step (fun _ => stops 10)); [apply adds_stop_all|]. intros _.
  eapply (adds_step (fun _ => [EvClose])).
  { apply adds_handle. intros s0. exists [EvClose]. unfold close_client, mbind, M_bind, ask. simpl.
    destruct (close ops (sm_world s0)) as [w [[]|x]]; simpl; split; try done. by apply adds_ret. }
  intros _. apply adds_ret. do 10 apply shut_cons. by exists [], 10, [].
Qed.
End clean.

(** ** A run

    The keys are absent before the warm-up and present after it (the world counts the
    questions); the helper of card 7 may fail. *)
Definition demo_ops (second : message) : SmokeOps nat := {|
  new_uid w := (w, Ok "u");
  clock w := (w, Ok 20005);
  start_process _ _ w := (w, Ok tt);
  first_message i w := (w, Ok (if i =? 0 then HReady "h:1" else second));
  all_segments w := (w, Ok ("h:1" +:+ String (Ascii.ascii_of_nat 10) "h:2"));
  connect _ _ w := (w, Ok tt);
  is_exist keys w := (S w, Ok ((fun _ => match w with O => false | _ => true end) <$> keys));
  warm _ _ _ w := (w, Ok tt);
  replica_endpoints keys w := (S w, Ok ((fun k => (k, if (w <=? 2)%nat then ["a:1"] else ["h:1"; "h:2"])) <$> keys));
  replica_sizes keys w := (w, Ok ((fun k => (k, [mkReplicaRow "a:1" (Some 25)])) <$> keys));
  query_segment _ w := (w, Ok (0, 16));
  new_ledger _ w := (w, Ok tt);
  subscribe _ _ w := (w, Ok tt);
  receive w := (w, Ok (JArr [JInt 0; JArr [JObj [("type", JStr "BlockStored"); ("medium", JStr "CPU");
                 ("kv_cache_spec_kind", JStr "full_attention"); ("block_hashes", JArr [JStr "h"])]]]));
  close w := (w, Ok tt) |}.

Definition demo_conf : Conf :=
  match e14_conf (fun _ => None) with Ok (c, _) => c | Raise _ => mkConf "" "" "" "" "" "" "" [] 0 0 "" 0 0 "" 0 end.
Definition demo_ids : list Z := zseq 0 2000.
Definition demo_keys : list string :=
  match plan_keys_for demo_conf (fun _ _ => "ab") id None true demo_ids with Ok l => l | Raise _ => [] end.
Definition demo_prefix : Prefix := mkPrefix (c_model_name demo_conf) demo_ids.
Definition demo_plan : list (string * string) := zip demo_keys ["h:1"; "h:2"].

(** A prefetch with room, whose copy is done at the first query. *)
Definition demo_round : RoundInput :=
  mkRoundInput open_segment_budget (Ok ((fun k => (k, [mkReplicaRow "a:1" (Some 25)])) <$> demo_keys)) (Ok (0, 100)) 0 false 0 GAcquired 0 (CReturned wit_handle) 0
    (fun _ => mkPollInput 0 wit_handle id (Ok [mkResp S_SUCCESS EmptyString])
                (Ok ((fun ks : string * string => (ks.1, mkAdminRow true [ks.2])) <$> demo_plan))
                (mkBackend [(wit_handle, mkEntry demo_prefix "inst-synth" demo_plan "u")] [] None))
    (fun _ => 0%N) (fun _ => false) 0.
Definition demo_prefetch : PrefetchInput (EH := string) :=
  mkPrefetchInput (Run.mkRun 0 0 0 [] [] None None) (Ok true) (fun _ => demo_round) 0 false 2.

#[local] Instance demo_digest : Digest := fun s => s.
Definition demo_session (admin : bool) : Smoke nat * result sexn Z :=
  e14_session (demo_ops (HReady "h:2")) demo_conf 19574 (fun _ _ => "ab") id None true id (fun _ => Ok None) (fun _ => None)
    (fun w => (w, demo_prefetch)) (backend_config demo_conf (fun _ _ => "ab") id None true admin ["h:1"; "h:2"]) "p" demo_ids 1 ["h:1"; "h:2"]
    (mkSmoke 0%nat []).
Definition demo_e14 (second : message) : Smoke nat * result sexn (option Z) :=
  e14_main (demo_ops second) demo_conf 19574 (fun _ => demo_ids) (fun _ _ => "ab") id None true id (fun _ => Ok None) (fun _ => None)
    (fun w => (w, demo_prefetch)) 2001 (mkSmoke 0%nat []).

(** With an admin client the session passes, with the script's backend the same answers
    end in status 3. *)
Example admin_matters : (demo_session true).2 = Ok 0 /\ (demo_session false).2 = Ok 3 /\ (demo_e14 (HReady "h:2")).2 = Ok (Some 3).
Proof. split_and!; vm_compute; reflexivity. Qed.

(** Defect: when the second helper does not come up, the script ends with an exception
    and the first one was never told to stop; it is not a daemon process, so the
    interpreter waits for it on its way out. *)
Lemma failed_helper_strands_first : demo_e14 HFailed =
  (mkSmoke 0%nat [EvStart 0; EvStart 1; EvStop 1; EvJoin 1 10], Raise SOther).
Proof. vm_compute. reflexivity. Qed.

(** 50 bytes for two helpers of 16: one key of 25 on each. *)
Definition demo_sizes : dict string (list ReplicaRow) := (fun k => (k, [mkReplicaRow "a:1" (Some 25)])) <$> demo_keys.
Lemma dget_const {V} (v w : V) k l : dget k ((fun k : string => (k, v)) <$> l) = Some w -> w = v.
Proof. induction l as [|x l IH]; [done|]. simpl. case_match; [by intros [= ->]|done]. Qed.
Lemma demo_sizes_row k rows r : dget k demo_sizes = Some rows -> r ∈ rows -> r = mkReplicaRow "a:1" (Some 25).
Proof. intros ->%dget_const. by intros ?%list_elem_of_singleton. Qed.

Lemma demo_sized (w : string) : sized ((fun k => (k, [mkReplicaRow w (Some 25)])) <$> demo_keys) demo_plan "h:1".
Proof.
  intros k Hk. exists [mkReplicaRow w (Some 25)]. split; [|split].
  - assert (k ∈ demo_keys) as Hin.
    { assert (incl : forall x, x ∈ demo_plan.*1 -> x ∈ demo_keys) by (apply Forall_forall, (bool_decide_unpack _); by vm_compute).
      apply incl, list_elem_of_fmap. by exists (k, "h:1"). }
    revert Hin. generalize demo_keys. induction l as [|x l IH]; [by intros ?%elem_of_nil|]. simpl. case_decide; [done|].
    intros [->|?]%elem_of_cons; [done|auto].
  - eexists. split; [left|done].
  - by intros r z ->%list_elem_of_singleton [= <-].
Qed.

Lemma admission_expected_witness :
  (check_segment_room (backend_config demo_conf (fun _ _ => "ab") id None true true ["h:1"; "h:2"]) demo_prefix "inst-synth"
    open_segment_budget (Ok demo_sizes) (Ok (0, 16))).2 = Raise KAdmissionWait.
Proof.
  refine (eq_trans (proj1 (admission_expected demo_conf (fun _ _ => "ab") id None true ["h:1"; "h:2"] "h:1" demo_ids demo_plan demo_sizes 0 16 _ _ _ _ _ _)) _);
    [vm_compute; reflexivity|vm_compute; reflexivity|apply (bool_decide_eq_true_1 (NoDup demo_plan.*1)); vm_compute; reflexivity
    |apply demo_sized|lia|lia|vm_compute; reflexivity].
Defined.

(** Defect of the script: its comment counts the keys that have no replica on the segment
    yet, its code counts all.  With the key there already it finds too little room and
    expects a refusal; the backend has nothing to copy and admits. *)
Lemma script_counts_placed_keys :
  let sizes := (fun k => (k, [mkReplicaRow "h:1" (Some 25)])) <$> demo_keys in
  16 - 0 < need_bytes sizes demo_plan "h:1" /\
  (check_segment_room (backend_config demo_conf (fun _ _ => "ab") id None true true ["h:1"; "h:2"]) demo_prefix "inst-synth"
    open_segment_budget (Ok sizes) (Ok (0, 16))).2 = Ok tt.
Proof. vm_compute. split; reflexivity. Qed.

Example demo_admission : (admit_main (demo_ops (HReady "h:2")) demo_conf (fun _ => demo_ids) (fun _ _ => "ab") id None true
  (fun _ w => (w, (0, Raise (SPrefetch true)))) 2001 (mkSmoke 0%nat [])).2 = Ok (Some 0).
Proof. vm_compute. reflexivity. Qed.
