(* ===== verification/KeyFiles.v ===== *)
(** * kvcm: files of keys

    [load_keys_file] of [kvcm/engines/vllm/keys.py] (the same text as
    [_load_keys_file] of [demo/precopy/keys.py]) and the two forms in which the
    command line tool writes its keys: one per line, or as a JSON array.  Reading
    gives back what was written. *)

From S2P Require Import Prelude PyDict PyStr Keys Instances RankTopology Json.
From Stdlib Require Import Ascii.
Local Open Scope Z_scope.

#[local] Arguments String.append !_ _ /.

(** ** Reading *)

(** The lines of a file opened as text: [\r], [\n] and [\r\n] end a line. *)
Fixpoint file_lines_of (cur : string) (s : string) : list string :=
  match s with
  | EmptyString => if bool_decide (cur = EmptyString) then [] else [cur]
  | String c r =>
      if bool_decide (c = newline) then cur :: file_lines_of EmptyString r
      else if bool_decide (c = "013"%char) then
        match r with
        | String d r' =>
            if bool_decide (d = newline) then cur :: file_lines_of EmptyString r' else cur :: file_lines_of EmptyString r
        | EmptyString => [cur]
        end
      else file_lines_of (cur +:+ String c EmptyString) r
  end.
Definition file_lines (s : string) : list string := file_lines_of EmptyString s.

Fixpoint load_lines (lns : list string) : list string :=
  match lns with
  | [] => []
  | ln :: lns =>
      let line := strip ln in
      if negb (bool_decide (line = EmptyString)) && negb (startswith "#" line) then line :: load_lines lns
      else load_lines lns
  end.

(** [text]: what the file holds. *)
Definition load_keys_file (text : string) : list string := load_lines (file_lines text).

(** ** Writing *)

(** ["\n".join(keys) + ("\n" if keys else "")] *)
Definition lines_text (keys : list string) : string :=
  String.concat (String newline EmptyString) keys +:+
  match keys with [] => EmptyString | _ => String newline EmptyString end.

(** [json.dumps] of one string with [ensure_ascii=False]. *)
Definition hex_char (z : Z) : ascii := char_of (if z <? 10 then 48 + z else 87 + z).
Definition bslash : ascii := "\"%char.
Definition escaped (c : ascii) : string :=
  if bool_decide (c = "034"%char) then String bslash (String "034" EmptyString)
  else if bool_decide (c = bslash) then String bslash (String bslash EmptyString)
  else if bool_decide (c = "010"%char) then String bslash "n"
  else if bool_decide (c = "013"%char) then String bslash "r"
  else if bool_decide (c = "009"%char) then String bslash "t"
  else if bool_decide (c = "008"%char) then String bslash "b"
  else if bool_decide (c = "012"%char) then String bslash "f"
  else if code_of c <? 32 then
    String bslash (String "u" (String "0" (String "0" (String (hex_char (code_of c / 16)) (String (hex_char (code_of c mod 16)) EmptyString)))))
  else String c EmptyString.

Fixpoint quoted_rest (s : string) : string :=
  match s with
  | EmptyString => String "034" EmptyString
  | String c r => escaped c +:+ quoted_rest r
  end.
Definition quoted (s : string) : string := String "034" (quoted_rest s).

(** [json.dumps(keys, ensure_ascii=False, indent=2)] *)
Fixpoint array_items (keys : list string) : string :=
  match keys with
  | [] => EmptyString
  | [k] => quoted k +:+ String newline "]"
  | k :: keys => quoted k +:+ String "," (String newline ("  " +:+ array_items keys))
  end.
Definition dumps_keys (keys : list string) : string :=
  match keys with [] => "[]" | _ => String "[" (String newline ("  " +:+ array_items keys)) end.

(** [text] of [main] *)
Definition keys_text (as_json : bool) (keys : list string) : string :=
  if as_json then dumps_keys keys else lines_text keys.

(** ** What was written is read back *)

(** A key as the tools make them: no white space at its ends, no end of line inside,
    no comment. *)
Definition key_line (k : string) : bool :=
  bool_decide (strip k = k) && negb (bool_decide (k = EmptyString)) && negb (startswith "#" k)
  && lacks newline k && lacks "013" k.

Lemma file_lines_step k : forall cur s, lacks newline k = true -> lacks "013" k = true ->
  file_lines_of cur (k +:+ s) = file_lines_of (cur +:+ k) s.
Proof.
  induction k as [|c k IH]; intros cur s Hn Hr; [by rewrite string_app_nil|]. simpl in *.
  apply andb_true_iff in Hn as [Hc Hn], Hr as [Hc' Hr]. apply negb_true_iff in Hc, Hc'. rewrite Hc, Hc'.
  rewrite IH by done. by rewrite string_app_assoc.
Qed.

Lemma file_lines_keys keys : Forall (fun k => key_line k = true) keys -> file_lines (lines_text keys) = keys.
Proof.
  unfold lines_text, file_lines. induction 1 as [|k keys Hk _ IH]; [done|].
  unfold key_line in Hk. zbool. destruct_and?. destruct keys as [|k' keys].
  - simpl. rewrite file_lines_step by done. done.
  - change (String.concat (String newline EmptyString) (k :: k' :: keys))
      with (k +:+ String newline (String.concat (String newline EmptyString) (k' :: keys))).
    rewrite string_app_assoc, file_lines_step by done. simpl. by rewrite <- IH.
Qed.

Lemma load_lines_keys keys : Forall (fun k => key_line k = true) keys -> load_lines keys = keys.
Proof.
  induction 1 as [|k keys Hk _ IH]; [done|]. simpl. unfold key_line in Hk.
  repeat (apply andb_true_iff in Hk as [Hk ?]). apply bool_decide_eq_true in Hk. rewrite Hk.
  repeat match goal with H : negb _ = true |- _ => rewrite H end. simpl. by rewrite IH.
Qed.

(** One character of the written string is one step of the decoder. *)
Lemma jstring_escaped f c r :
  jstring (S f) (escaped c +:+ r) = match jstring f r with Some (t, q) => Some (String c t, q) | None => None end.
Proof. destruct c as [[] [] [] [] [] [] [] []]; reflexivity. Qed.

Lemma jstring_quoted s : forall f r, (String.length s < f)%nat -> jstring f (quoted_rest s +:+ r) = Some (s, r).
Proof.
  induction s as [|c s IH]; intros [|f] r Hf; simpl in Hf; try lia; [done|].
  cbn [quoted_rest]. rewrite string_app_assoc, jstring_escaped, IH by lia. done.
Qed.

Lemma quoted_rest_len s : (String.length s < String.length (quoted_rest s))%nat.
Proof.
  induction s as [|c s IH]; simpl; [lia|]. rewrite strlen_app.
  assert (1 <= String.length (escaped c))%nat by (unfold escaped; repeat case_match; simpl; lia). lia.
Qed.

Lemma jvalue_quoted f n s r : (0 < f)%nat -> jvalue f n (quoted s +:+ r) = Ok (JStr s, r).
Proof.
  intros Hf. destruct f as [|f]; [lia|]. cbn [jvalue].
  change (skip_ws (quoted s +:+ r)) with (String "034" (quoted_rest s +:+ r)). cbv iota beta.
  rewrite bool_decide_eq_true_2 by done.
  rewrite jstring_quoted; [done|]. rewrite strlen_app. pose proof (quoted_rest_len s). lia.
Qed.

(** Values and lists may be preceded by white space. *)
Lemma jvalue_skip f n s t : skip_ws s = skip_ws t -> jvalue f n s = jvalue f n t.
Proof. intros H. destruct f; [done|]. cbn [jvalue]. by rewrite H. Qed.
Lemma jitems_skip f n s t : skip_ws s = skip_ws t -> jitems f n s = jitems f n t.
Proof. intros H. destruct f; [done|]. cbn [jitems]. by rewrite (jvalue_skip f n s t). Qed.

Lemma jitems_array n keys : forall k f r, (length keys < f)%nat ->
  jitems (S f) n (array_items (k :: keys) +:+ r) = Ok (JStr <$> k :: keys, r).
Proof.
  induction keys as [|k' keys IH]; intros k f r Hf; cbn [jitems].
  - cbn [array_items]. rewrite string_app_assoc, jvalue_quoted by lia. done.
  - change (array_items (k :: k' :: keys)) with (quoted k +:+ String "," (String newline ("  " +:+ array_items (k' :: keys)))).
    rewrite string_app_assoc, jvalue_quoted by lia. destruct f as [|f]; [simpl in Hf; lia|].
    change (skip_ws (String "," (String newline ("  " +:+ array_items (k' :: keys))) +:+ r))
      with (String "," (String newline ("  " +:+ (array_items (k' :: keys) +:+ r)))).
    cbv iota beta. rewrite bool_decide_eq_true_2 by done.
    rewrite (jitems_skip _ _ _ (array_items (k' :: keys) +:+ r)) by done. rewrite IH by (simpl in Hf; lia). done.
Qed.

Lemma array_head k keys : exists t, array_items (k :: keys) = String "034" t.
Proof. destruct keys; by eexists. Qed.

(** What the tool writes can be read again: the lines written for keys without
    white space around them, line ends inside or a leading [#] are read back by
    [load_keys_file] as exactly those keys, and the JSON array written for any keys
    decodes to exactly those strings (with room on the stack for one list). *)
Theorem keys_text_roundtrip depth keys : (0 < depth)%nat ->
  (Forall (fun k => key_line k = true) keys -> load_keys_file (keys_text false keys) = keys) /\
  loads depth (keys_text true keys) = Ok (JArr (JStr <$> keys)).
Proof.
  intros Hd. destruct depth as [|depth]; [lia|]. split.
  - intros H. unfold load_keys_file, keys_text. rewrite file_lines_keys by done. by apply load_lines_keys.
  - destruct keys as [|k keys]; [done|].
    rewrite (loads_fuel_enough (S (S (S (2 * String.length (keys_text true (k :: keys)) + length keys))))) by lia.
    set (n := (2 * _ + length keys)%nat). assert (Hi := jitems_array depth keys k (S n) EmptyString ltac:(lia)).
    destruct (array_head k keys) as [t E]. rewrite string_app_nil, E in Hi.
    change (keys_text true (k :: keys)) with (String "[" (String newline ("  " +:+ array_items (k :: keys)))).
    rewrite E. set (items := String "034" t) in *.
    assert (Hv : jvalue (S (S (S n))) (S depth) (String "[" (String newline ("  " +:+ items))) =
      match jitems (S (S n)) depth (String newline ("  " +:+ items)) with Ok (l, q) => Ok (JArr l, q) | Raise e => Raise e end) by done.
    rewrite Hv, (jitems_skip _ _ _ items) by done. rewrite Hi. done.
Qed.

Lemma keys_text_roundtrip_witness :
  load_keys_file (keys_text false ["m@pcp:0@ab"; "m@pcp:0@cd"]) = ["m@pcp:0@ab"; "m@pcp:0@cd"].
Proof. apply (keys_text_roundtrip 1); [lia|]. repeat constructor. Defined.
