(* ===== verification/Precopy.v ===== *)
(** * kvcm: the precopy tool

    [kvcm/demo/precopy/]: the command line tool that copies the keys of a prompt to
    the segments of a worker ([precopy.py]), with its store helpers ([common.py]),
    its key computation ([keys.py]) and its segment resolution ([resolve.py]).

    The store client, the clock, the files, the environment and the remote host are
    other programs: an operation of [Ops] is a function of their common state [W]
    that answers or raises.  The tokenizer, the block hash and the key classes of the
    engine are parameters, as in [Keys].  Functions whose text is that of
    [kvcm/engines/vllm] use the definitions of [Keys] and [RankTopology]. Arguments
    are given as parsed; what is printed for a reader is not modelled. *)

From S2P Require Import Prelude PyDict PyStr KvcmTypes Ledger Keys Instances RankTopology KeyFiles.
From Stdlib Require Import Ascii.
Local Open Scope Z_scope.

#[local] Arguments String.append !_ _ /.

Module Precopy.

Inductive pexn : Type :=
| PSystemExit               (* [SystemExit] with a message *)
| PRuntimeError
| PTimeoutError
| PAssertionError
| PValueError
| PZeroDivision
| PIndexError
| PResolve                  (* [ResolveError] *)
| PProbe (code : Z)         (* [ProbeError] *)
| POther.                   (* what a call outside this program raises *)
#[export] Instance pexn_eq_dec : EqDecision pexn.
Proof. solve_decision. Defined.

Inductive TaskStatus : Type := T_PENDING | T_PROCESSING | T_SUCCESS | T_FAILED.
#[export] Instance TaskStatus_eq_dec : EqDecision TaskStatus.
Proof. solve_decision. Defined.

(** [desc.is_memory_replica] may be absent, a method or an attribute. *)
Inductive MemoryAttr : Type := NoAttr | AsMethod (answer : bool) | AsAttribute (value : bool).
Record Desc : Type := mkDesc { is_memory_replica : MemoryAttr; transport_endpoint : string }.

(** [batch_get_replica_desc] answers a dict or a list. *)
Inductive Descs : Type := DescDict (d : dict string (option (list Desc))) | DescList (l : list (option (list Desc))).

Record Ops (W : Type) : Type := mkOps {
  read_file : string -> M W pexn string;
  write_file : string -> string -> M W pexn unit;
  write_stdout : string -> M W pexn unit;
  set_device : Z -> M W pexn unit;                   (* torch.npu.set_device *)
  monotonic : M W pexn Z;                          (* milliseconds *)
  sleep : Z -> M W pexn unit;
  (* hostname, metadata server, segment and buffer size, protocol, device, master *)
  setup : string -> string -> Z -> Z -> string -> string -> string -> M W pexn Z;
  batch_is_exist : list string -> M W pexn (list Z);
  get_replica_desc : string -> M W pexn (list Desc);
  batch_get_replica_desc : list string -> M W pexn Descs;
  create_copy_task : string -> list string -> M W pexn (Z * Z);
  query_task : Z -> M W pexn (TaskStatus * Z);
  close : M W pexn unit }.
Arguments read_file {W} _.
Arguments write_file {W} _.
Arguments write_stdout {W} _.
Arguments set_device {W} _.
Arguments monotonic {W} _.
Arguments sleep {W} _.
Arguments setup {W} _.
Arguments batch_is_exist {W} _.
Arguments get_replica_desc {W} _.
Arguments batch_get_replica_desc {W} _.
Arguments create_copy_task {W} _.
Arguments query_task {W} _.
Arguments close {W} _.

(** ** common.py *)

Section common.
Context {W : Type} (ops : Ops W).

Definition setup_store (hostname master : string) (global_segment_size local_buffer_size : Z) (protocol device_name : string) :
    M W pexn unit :=
  rc ← setup ops hostname "P2PHANDSHAKE" global_segment_size local_buffer_size protocol device_name master;
  if negb (rc =? 0) then raise PRuntimeError else mret tt.

Definition POLL_MS : Z := 500.

(** The loop; [None]: out of fuel. *)
Fixpoint query_loop (fuel : nat) (task_id deadline : Z) : M W pexn (option TaskStatus) :=
  match fuel with
  | O => mret None
  | S fuel =>
      re ← query_task ops task_id;
      if negb (re.2 =? 0) then raise PRuntimeError
      else if bool_decide (re.1 = T_SUCCESS) || bool_decide (re.1 = T_FAILED) then mret (Some re.1)
      else
        now ← monotonic ops;
        if deadline <=? now then raise PTimeoutError
        else _ ← sleep ops POLL_MS; query_loop fuel task_id deadline
  end.

Definition query_task_until_complete (fuel : nat) (task_id timeout_ms : Z) : M W pexn (option TaskStatus) :=
  now ← monotonic ops; query_loop fuel task_id (now + timeout_ms).

(** Entries are integers; [True] is one. *)
Definition entry_exists (e : Z) : bool := (e =? 1) || (0 <? e).

Definition is_memory (d : Desc) : bool :=
  match is_memory_replica d with NoAttr => false | AsMethod b => b | AsAttribute b => b end.

Definition memory_endpoints (l : list Desc) : list string :=
  transport_endpoint <$> filter (fun d => is_memory d = true) l.

Definition memory_replica_endpoints (key : string) : M W pexn (list string) :=
  l ← get_replica_desc ops key; mret (memory_endpoints l).

(** [for key, replicas in items: out[str(key)] = eps] *)
Fixpoint place_all (items : list (string * option (list Desc))) (out : dict string (list string)) : dict string (list string) :=
  match items with
  | [] => out
  | (k, l) :: items => place_all items (dset k (memory_endpoints (default [] l)) out)
  end.

(** [{k: [] for k in keys}] *)
Fixpoint no_endpoints (keys : list string) (out : dict string (list string)) : dict string (list string) :=
  match keys with [] => out | k :: keys => no_endpoints keys (dset k [] out) end.

Definition batch_memory_replica_endpoints (keys : list string) : M W pexn (dict string (list string)) :=
  descs ← batch_get_replica_desc ops keys;
  let items := match descs with DescDict d => d | DescList l => zip keys l end in
  mret (place_all items (no_endpoints keys [])).

Definition create_copy_and_wait (fuel : nat) (key : string) (targets : list string) (timeout_ms : Z) : M W pexn (option TaskStatus) :=
  te ← create_copy_task ops key targets;
  if negb (te.2 =? 0) then raise PRuntimeError
  else
    resp ← query_task_until_complete fuel te.1 timeout_ms;
    match resp with
    | Some T_SUCCESS => mret (Some T_SUCCESS)
    | Some _ => raise PRuntimeError
    | None => mret None
    end.

Definition targets_missing (placement : dict string (list string)) (keys targets : list string) : list (string * string) :=
  key ← keys;
  t ← targets;
  if bool_decide (t ∈ default [] (dget key placement)) then [] else [(key, t)].

Definition assert_targets_have_replicas (keys targets : list string) : M W pexn (dict string (list string)) :=
  placement ← batch_memory_replica_endpoints keys;
  match targets_missing placement keys targets with
  | [] => mret placement
  | _ => raise PAssertionError
  end.
End common.

(** ** keys.py

    The functions whose text is that of [kvcm/engines/vllm/keys.py]. *)

(** An exception of the functions shared with [Keys]. *)
Definition of_kexn (e : kexn) : pexn := match e with KValueError => PValueError | _ => PIndexError end.
Definition lift_k {A} (r : result kexn A) : result pexn A :=
  match r with Ok a => Ok a | Raise e => Raise (of_kexn e) end.

Definition parse_head_or_tp_rank (key : string) : result pexn Z := lift_k (parse_key_rank key).
Definition group_keys_by_rank (keys : list string) : result pexn (dict Z (list string)) :=
  lift_k (Keys.group_keys_by_rank keys).
Definition expand_store_keys (up : upstream_keys) (a : expand_args) : result pexn (list string) :=
  lift_k (Keys.expand_store_keys up a).

(** [s.rstrip("/")] *)
Fixpoint rstrip_slash (s : string) : string :=
  match s with
  | EmptyString => EmptyString
  | String c r =>
      match rstrip_slash r with
      | EmptyString => if bool_decide (c = "/"%char) then EmptyString else String c EmptyString
      | r' => String c r'
      end
  end.

(** [os.path.basename] *)
Definition basename (s : string) : string := default s (after_last "/" s).

(** [a or b] on strings *)
Definition or_else (a b : string) : string := if bool_decide (a = EmptyString) then b else a.

(** [s * n] *)
Definition repeat_str (s : string) (n : Z) : string := foldr String.append EmptyString (replicate (Z.to_nat n) s).

Record KeyInfo : Type := mkKeyInfo {
  i_n_tokens : Z; i_n_full_blocks : Z; i_effective_tp : Z; i_model_name : string; i_upstream : bool }.

Section keys.
Context {BH : Type} (hash_block_tokens : string -> option BH -> list Z -> BH) (block_hash_to_str : BH -> string).
Context (encode : string -> string -> list Z) (up : upstream_keys) (getenv : string -> option string).

Definition hash_prompt (model_path prefix : string) (bs : Z) (algo : string) : result pexn (list string * Z) :=
  if negb (bool_decide (getenv "PYTHONHASHSEED" = Some "0")) then Raise PSystemExit
  else
    let ids := encode model_path prefix in
    if bs =? 0 then Raise PZeroDivision
    else
      let n_full := (zlen ids / bs) * bs in
      Ok (block_hash_to_str <$> hash_loop (hash_block_tokens algo) (py_range_step n_full bs) bs ids None [], zlen ids).

Definition collect_keys (model_path prefix model_name : string) (bs tp : Z) (peer : option Z) (put : Z) (algo : string) :
    result pexn (list string * KeyInfo) :=
  let name := or_else model_name (basename (rstrip_slash model_path)) in
  '(hexes, n) ← hash_prompt model_path prefix bs algo;
  let eff := match truthy peer with
             | Some p => if p =? tp then tp else Z.max tp p
             | None => tp
             end in
  keys ← expand_store_keys up (default_args name hexes eff put);
  Ok (keys, mkKeyInfo n (zlen hexes) eff name (match up with Some _ => true | None => false end)).

Record KeysArgs : Type := mkKeysArgs {
  k_chunk_hashes : string; k_model : string; k_keys_file : string; k_prefix : string; k_prefix_repeat : Z;
  k_block_size : Z; k_hash_algo : string; k_expand : expand_args; k_peer_tp_size : option Z;
  k_out : string; k_json : bool; k_check_master : string; k_protocol : string; k_coord_hostname : string; k_device : Z }.

Context {W : Type} (ops : Ops W).

(** [os.environ.get(a) or os.environ.get(b) or d] *)
Definition env_or (a b d : string) : string :=
  or_else (default EmptyString (getenv a)) (or_else (default EmptyString (getenv b)) d).

(** The entries in step with the keys; how many exist. *)
Fixpoint check_loop (kes : list (string * Z)) (n_ok : Z) : M W pexn Z :=
  match kes with
  | [] => mret n_ok
  | (k, e) :: kes =>
      _ ← (if entry_exists e then memory_replica_endpoints ops k else mret []);
      check_loop kes (n_ok + (if entry_exists e then 1 else 0))
  end.

Definition check_master (keys : list string) (a : KeysArgs) : M W pexn Z :=
  _ ← (if bool_decide (k_protocol a = "ascend") then set_device ops (k_device a) else mret tt);
  let host := or_else (k_coord_hostname a) (env_or "LOCAL_IP" "HCCL_IF_IP" "127.0.0.1" +:+ ":13021") in
  _ ← setup_store ops host (k_check_master a) 0 (32 * 1024 * 1024) (k_protocol a) EmptyString;
  try_finally
    (ex ← batch_is_exist ops keys;
     n_ok ← check_loop (zip keys ex) 0;
     if negb (n_ok =? zlen keys) then mret 2 else mret 0)
    (close ops).

Definition truth (s : string) : bool := negb (bool_decide (s = EmptyString)).
Definition b2z (b : bool) : Z := if b then 1 else 0.

(** The keys of the chosen mode, or an exit status. *)
Definition keys_of_mode (a : KeysArgs) (model_name : string) : M W pexn (Z + list string) :=
  if truth (k_model a) then
    '(keys, _) ← lift (collect_keys (k_model a) (repeat_str (k_prefix a) (k_prefix_repeat a)) model_name (k_block_size a)
                         (ea_tp_size (k_expand a)) (k_peer_tp_size a) (ea_put_step (k_expand a)) (k_hash_algo a));
    mret (inr keys)
  else if truth (k_keys_file a) then
    text ← read_file ops (k_keys_file a);
    match load_keys_file text with [] => mret (inl 2) | keys => mret (inr keys) end
  else
    let e := k_expand a in
    keys ← lift (expand_store_keys up (mkExpandArgs model_name (strip_names (split_all "," (k_chunk_hashes a)))
      (ea_tp_size e) (ea_put_step e) (ea_pcp_size e) (ea_dcp_size e) (ea_pp_size e) (ea_include_layers e)
      (ea_num_layers e) (ea_kv_cache_group_id e) (ea_cache_family e) (ea_prefer_upstream e)));
    mret (inr keys).

Definition keys_main (a : KeysArgs) : M W pexn Z :=
  let prompt_mode := truth (k_model a) in
  let file_mode := truth (k_keys_file a) in
  if negb (b2z prompt_mode + b2z (truth (k_chunk_hashes a)) + b2z file_mode =? 1) then mret 2
  else
    let name0 := ea_model_name (k_expand a) in
    let name := if prompt_mode && negb (truth name0) then basename (rstrip_slash (k_model a)) else name0 in
    if negb file_mode && negb (truth name) then mret 2
    else
      r ← keys_of_mode a name;
      match r with
      | inl rc => mret rc
      | inr keys =>
          _ ← lift (group_keys_by_rank keys);
          let text := keys_text (k_json a) keys in
          _ ← (if truth (k_out a) then write_file ops (k_out a) text else write_stdout ops text);
          if truth (k_check_master a) then check_master keys a else mret 0
      end.
End keys.

(** ** resolve.py *)

(** [s.rsplit(c, 1)[0]] when [c] occurs in [s]. *)
Fixpoint before_last (c : ascii) (s : string) : option string :=
  match s with
  | EmptyString => None
  | String d r =>
      match before_last c r with
      | Some t => Some (String d t)
      | None => if bool_decide (d = c) then Some EmptyString else None
      end
  end.

(** [os.path.join] of a directory and a file name *)
Definition path_join (dir name : string) : string :=
  if bool_decide (dir = EmptyString) then name
  else if bool_decide (after_last "/" dir = Some EmptyString) then dir +:+ name
  else dir +:+ "/" +:+ name.

Section resolve.
Context (h : Host) (remote : ssh_answer).

(** As [RankTopology.pid_children_map], but a failing [ps] is not handled. *)
Definition pid_children_map : res (dict Z (list Z)) :=
  cn ← stat_loop h (default [] (proc_names h)) [] 0;
  let '(children, n_stat) := cn in
  if negb (n_stat =? 0) then Ok children
  else match ps_out h with
       | None => Raise TOther
       | Some out => ps_loop (splitlines out) children
       end.

Definition process_tree (root_pid : Z) : res (list Z) :=
  children ← pid_children_map;
  match walk (walk_fuel children) children [] [root_pid] with
  | Some seen => Ok seen
  | None => Raise TOther
  end.

(** The same text as in [RankTopology]. *)
Definition proc_listen_ports : res (dict Z (list Z)) := listen_ports_by_pid_proc h.
Definition process_alive (pid : Z) : res bool := pid_alive h pid.
Definition intersect (segs : list string) (rows : list row) (tp : Z) (target_ip : string) : res (list string) :=
  intersect_rank_seg segs rows tp target_ip.

(** [ss] runs without a time limit: it never times out. *)
Definition listen_ports_by_pid : res (dict Z (list Z)) :=
  match ss_out h with
  | SsMissing => proc_listen_ports
  | SsOut out => Ok (ss_loop (splitlines out) [])
  | SsTimeout => Raise TOther
  end.

Definition probe_local (pidfile : string) : res (list row) :=
  match pid_file h pidfile with
  | None => Raise (TProbe PROBE_MISSING)
  | Some text =>
      let root := strip text in
      if bool_decide (root = EmptyString) then Raise (TProbe PROBE_MISSING)
      else match py_int 10 root with
           | None => Raise (TProbe PROBE_MISSING)
           | Some root_pid =>
               alive ← process_alive root_pid;
               if negb alive then Raise (TProbe PROBE_STALE)
               else tree ← process_tree root_pid;
                    ports_by_pid ← listen_ports_by_pid;
                    Ok (probe_rows h tree ports_by_pid)
           end
  end.

(** The remote shell, too, runs without a time limit. *)
Definition probe_ssh : res (list row) :=
  match remote with
  | SshRaises | SshTimeout => Raise TOther
  | SshExit rc out => if negb (rc =? 0) then Raise (TProbe rc) else read_rows (splitlines out)
  end.

(** [http url]: the body, [None] when the request raises. *)
Context (http : string -> option string).

Definition fetch_segments (admin : string) : res (list string) :=
  match http (admin +:+ "/get_all_segments") with
  | None => Raise TResolve
  | Some body =>
      match strip_names (splitlines body) with
      | [] => Raise TResolve
      | segs => Ok segs
      end
  end.

Record ResolveArgs : Type := mkResolveArgs {
  r_role : string; r_tp : Z; r_target_ip : string; r_master : string; r_admin : string; r_admin_port : Z;
  r_pidfile : string; r_ssh : string; r_logdir : string }.

(** The directory [logs] beside the checkout. *)
Context (checkout_logs : string).

Definition admin_url (a : ResolveArgs) : string :=
  if truth (r_admin a) then r_admin a
  else "http://" +:+ default (r_master a) (before_last ":" (r_master a)) +:+ ":" +:+ py_str (r_admin_port a).

Definition pidfile_of (a : ResolveArgs) : res string :=
  if truth (r_pidfile a) then Ok (r_pidfile a)
  else if truth (r_ssh a) then Raise TResolve
  else Ok (path_join (or_else (r_logdir a) checkout_logs) ("worker_" +:+ r_role a +:+ ".pid")).

Record ResolveInfo : Type := mkResolveInfo {
  ri_admin : string; ri_pidfile : string; ri_probe : probe_kind; ri_rank_seg : dict Z string }.

Definition resolve_segments (a : ResolveArgs) : res (list string * ResolveInfo) :=
  let admin := admin_url a in
  pidfile ← pidfile_of a;
  segs ← fetch_segments admin;
  match (if truth (r_ssh a) then probe_ssh else probe_local pidfile) with
  | Raise (TProbe code) =>
      match degraded segs (r_tp a) code (r_target_ip a) with
      | Some s => Ok ([s], mkResolveInfo admin pidfile SingleSegDegraded [(0, s)])
      | None => Raise TResolve
      end
  | Raise e => Raise e
  | Ok [] => Raise TResolve
  | Ok rows =>
      targets ← intersect segs rows (r_tp a) (r_target_ip a);
      Ok (targets, mkResolveInfo admin pidfile (ByProbe (or_else (r_ssh a) "local")) (rank_seg_of targets))
  end.

(** [main]: the exit status and what is printed last; [local_probe] is the pid file
    of [--local-probe]. *)
Definition resolve_main (local_probe : string) (a : ResolveArgs) : res (Z * string) :=
  if truth local_probe then
    match probe_local local_probe with
    | Ok rows => Ok (0, rows_text rows)
    | Raise (TProbe code) => Ok (code, EmptyString)
    | Raise e => Raise e
    end
  else
    match resolve_segments a with
    | Ok (targets, _) => Ok (0, "TARGET_SEGMENTS=" +:+ String.concat "," targets)
    | Raise TResolve => Ok (1, EmptyString)
    | Raise e => Raise e
    end.
End resolve.

(** ** precopy.py *)

Record Args : Type := mkArgs {
  a_master : string; a_protocol : string; a_device_name : string; a_target : string; a_targets : string;
  a_resolve : ResolveArgs;                 (* role, tp_size, target_ip, admin, admin_port, pidfile, ssh *)
  a_keys : string; a_keys_file : string; a_prefix : string; a_prefix_repeat : Z; a_model : string;
  a_model_name : string; a_block_size : Z; a_peer_tp_size : option Z; a_put_step : Z; a_hash_algo : string;
  a_dump_keys : string; a_skip_exist_check : bool; a_coord_hostname : string; a_device : Z; a_timeout_ms : Z;
  a_dry_show_before : bool }.
Definition a_tp_size (a : Args) : Z := r_tp (a_resolve a).

(** What the parser gives when no option is given: environment variables and constants. *)
Section defaults.
Context (getenv : string -> option string).
Definition env_str (name d : string) : string := default d (getenv name).
Definition env_int (name d : string) : result pexn Z :=
  match py_int 10 (env_str name d) with Some z => Ok z | None => Raise PValueError end.
(** [x or None] *)
Definition or_none (z : Z) : option Z := if z =? 0 then None else Some z.

Definition parser_defaults : result pexn Args :=
  admin_port ← env_int "MC_ADMIN_PORT" "9003";
  prefix_repeat ← env_int "PREFIX_REPEAT" "1";
  block_size ← env_int "BLOCK_SIZE" "128";
  tp_size ← env_int "TP_SIZE" (env_str "TP" "1");
  peer ← env_int "PEER_TP_SIZE" "0";
  put_step ← env_int "PUT_STEP" "1";
  device ← env_int "PRECOPY_DEVICE" "0";
  Ok (mkArgs (env_str "MC_MASTER_ADDRESS" "127.0.0.1:50088") (env_str "MOONCAKE_PROTOCOL" "ascend")
        (env_str "MOONCAKE_DEVICE" EmptyString) EmptyString (env_str "TARGET_SEGMENTS" EmptyString)
        (mkResolveArgs (env_str "ROLE" "B") tp_size (env_str "RESOLVE_TARGET_IP" EmptyString) EmptyString
           (env_str "MC_ADMIN" EmptyString) admin_port (env_str "RESOLVE_PIDFILE" EmptyString)
           (env_str "RESOLVE_SSH" EmptyString) EmptyString)
        EmptyString EmptyString (env_str "PREFIX" EmptyString) prefix_repeat (env_str "MODEL" EmptyString)
        (env_str "MODEL_NAME" EmptyString) block_size (or_none peer) put_step
        (env_str "PREFIX_CACHING_HASH_ALGO" "sha256") EmptyString false EmptyString device 120000 false).

Definition keys_parser_defaults : result pexn KeysArgs :=
  tp_size ← env_int "TP" "1";
  peer ← env_int "PEER_TP_SIZE" "0";
  Ok (mkKeysArgs EmptyString EmptyString EmptyString "kvcm shared prefix for store warmup. " 80 128
        (env_str "PREFIX_CACHING_HASH_ALGO" "sha256")
        (mkExpandArgs EmptyString [] tp_size 1 1 1 1 false 0 0 "default" true) (or_none peer)
        EmptyString false EmptyString (env_str "MOONCAKE_PROTOCOL" "ascend") EmptyString 0).

Definition resolve_parser_defaults : result pexn ResolveArgs :=
  tp ← env_int "TP" "1";
  admin_port ← env_int "MC_ADMIN_PORT" "9003";
  Ok (mkResolveArgs (env_str "ROLE" "B") tp (env_str "RESOLVE_TARGET_IP" EmptyString) (env_str "MC_MASTER" "127.0.0.1:50088")
        (env_str "MC_ADMIN" EmptyString) admin_port (env_str "RESOLVE_PIDFILE" EmptyString) (env_str "RESOLVE_SSH" EmptyString) EmptyString).
End defaults.

(** The keys without later duplicates. *)
Fixpoint dedup (seen : list string) (keys : list string) : list string :=
  match keys with
  | [] => []
  | k :: keys => if bool_decide (k ∈ seen) then dedup seen keys else k :: dedup (k :: seen) keys
  end.

Section precopy.
Context {BH : Type} (hash_block_tokens : string -> option BH -> list Z -> BH) (block_hash_to_str : BH -> string).
Context (encode : string -> string -> list Z) (up : upstream_keys) (getenv : string -> option string).
Context (h : Host) (remote : ssh_answer) (http : string -> option string) (checkout_logs : string).
Context {W : Type} (ops : Ops W).

Definition load_keys (a : Args) : M W pexn (list string) :=
  let given := if truth (a_keys a) then strip_names (split_all "," (a_keys a)) else [] in
  from_file ← (if truth (a_keys_file a) then text ← read_file ops (a_keys_file a); mret (load_keys_file text) else mret []);
  mret (dedup [] (given ++ from_file)).

Definition of_texn (e : texn) : pexn :=
  match e with
  | TProbe c => PProbe c
  | TResolve => PSystemExit
  | TValue => PValueError
  | TIndex => PIndexError
  | TOther => POther
  end.

Definition parse_targets (a : Args) (master : string) : result pexn (list string) :=
  if truth (a_targets a) then
    match strip_names (split_all "," (a_targets a)) with
    | [] => Raise PSystemExit
    | targets => Ok targets
    end
  else if truth (a_target a) then Ok [a_target a]
  else
    let r := a_resolve a in
    match resolve_segments h remote http checkout_logs
            (mkResolveArgs (r_role r) (r_tp r) (r_target_ip r) master (r_admin r) (r_admin_port r) (r_pidfile r) (r_ssh r) EmptyString) with
    | Ok (targets, _) => Ok targets
    | Raise e => Raise (of_texn e)
    end.

(** The segment list, spread when the source has more ranks than the target;
    [None]: refused. *)
Definition spread (tp : Z) (peer : option Z) (max_rank : Z) (targets : list string) : result pexn (option (list string)) :=
  if max_rank <? zlen targets then Ok (Some targets)
  else
    let eff := Z.max tp (default 0 (truthy peer)) in
    let n_sub := if tp =? 0 then 1 else eff / tp in
    match truthy peer with
    | None => Ok None
    | Some p =>
        if (tp <? p) && (0 <? tp) && (eff mod tp =? 0) && (zlen targets =? tp) && (max_rank =? eff - 1)
        then match Db.collect (fun i => seg_at targets (i / n_sub)) (py_range eff) with
             | Ok l => Ok (Some l)
             | Raise e => Raise (of_kexn e)
             end
        else Ok None
    end.

(** Each key with its target; [None]: exit status 2. *)
Definition plan_by_rank (tp : Z) (peer : option Z) (max_rank : Z) (ranks : list Z) (keys targets : list string) :
    result pexn (option (list (string * string))) :=
  spreaded ← spread tp peer max_rank targets;
  match spreaded with
  | None => Ok None
  | Some targets =>
      if existsb (fun r => (r <? 0) || (zlen targets <=? r)) ranks then Ok None
      else plan ← lift_k (Db.collect (assign targets) keys); Ok (Some plan)
  end.

Definition plan_for (tp : Z) (peer : option Z) (keys targets : list string) : result pexn (option (list (string * string))) :=
  by_rank ← group_keys_by_rank keys;
  let max_rank := foldr Z.max (-1) (dkeys by_rank) in
  match targets, max_rank <=? 0 with
  | [t], true => Ok (Some ((fun k => (k, t)) <$> keys))
  | _, _ => plan_by_rank tp peer max_rank (dkeys by_rank) keys targets
  end.

(** The copies, one after the other; [false]: out of fuel. *)
Fixpoint copy_all (fuel : nat) (timeout_ms : Z) (plan : list (string * string)) : M W pexn bool :=
  match plan with
  | [] => mret true
  | (key, target) :: plan =>
      r ← create_copy_and_wait ops fuel key [target] timeout_ms;
      match r with None => mret false | Some _ => copy_all fuel timeout_ms plan end
  end.

Definition verify_all (plan : list (string * string)) : M W pexn unit :=
  for_each plan (fun kt =>
    _ ← assert_targets_have_replicas ops [kt.1] [kt.2];
    _ ← memory_replica_endpoints ops kt.1;
    mret tt).

(** What is done while the store client is open; [None]: out of fuel. *)
Definition copy_session (fuel : nat) (a : Args) (computed : bool) (keys : list string) (plan : list (string * string)) :
    M W pexn (option Z) :=
  n_ok ← (if computed && negb (a_skip_exist_check a)
          then ex ← batch_is_exist ops keys; mret (zlen (filter (fun e => entry_exists e = true) ex))
          else mret (zlen keys));
  if negb (n_ok =? zlen keys) then mret (Some 2)
  else
    _ ← (if a_dry_show_before a then for_each keys (fun k => _ ← memory_replica_endpoints ops k; mret tt) else mret tt);
    finished ← copy_all fuel (a_timeout_ms a) plan;
    if (finished : bool) then _ ← verify_all plan; mret (Some 0) else mret None.

(** The keys the copy is for. *)
Definition keys_for (a : Args) (computed : bool) : M W pexn (list string) :=
  if computed then
    '(keys, _) ← lift (collect_keys hash_block_tokens block_hash_to_str encode up getenv (a_model a)
                         (repeat_str (a_prefix a) (a_prefix_repeat a)) (a_model_name a) (a_block_size a)
                         (a_tp_size a) (a_peer_tp_size a) (a_put_step a) (a_hash_algo a));
    _ ← (if truth (a_dump_keys a)
         then write_file ops (a_dump_keys a) (String.concat (String newline EmptyString) keys +:+ String newline EmptyString)
         else mret tt);
    mret keys
  else load_keys a.

(** [master.count(":") == 0] *)
Definition master_of (a : Args) : string :=
  if lacks ":" (a_master a) then a_master a +:+ ":50088" else a_master a.

Definition coord_of (a : Args) : string :=
  let ip := env_or getenv "LOCAL_IP" "HCCL_IF_IP" EmptyString in
  or_else (a_coord_hostname a) (if truth ip then ip +:+ ":13021" else "kvcm:0").

Definition precopy_main (fuel : nat) (a : Args) : M W pexn (option Z) :=
  let master := master_of a in
  let computed := truth (a_prefix a) && truth (a_model a) in
  if computed && (truth (a_keys a) || truth (a_keys_file a)) then mret (Some 2)
  else
    targets ← lift (parse_targets a master);
    keys ← keys_for a computed;
    match keys with
    | [] => mret (Some 2)
    | _ =>
        plan ← lift (plan_for (a_tp_size a) (a_peer_tp_size a) keys targets);
        match plan with
        | None => mret (Some 2)
        | Some plan =>
            _ ← (if bool_decide (a_protocol a = "ascend") then set_device ops (a_device a) else mret tt);
            _ ← setup_store ops (coord_of a) master 0 (32 * 1024 * 1024) (a_protocol a) (a_device_name a);
            try_finally (copy_session fuel a computed keys plan) (close ops)
        end
    end.
End precopy.

(** ** The plan *)

Lemma group_nil keys : Keys.group_keys_by_rank keys = Ok [] -> keys = [].
Proof.
  unfold Keys.group_keys_by_rank. destruct (group_loop keys []) as [d|e] eqn:E; [|done]. intros [= Hs].
  destruct keys as [|k keys]; [done|]. exfalso.
  assert (Hd : d = []) by (apply Permutation_nil; rewrite <- (sort_ranks_perm d), Hs; done). subst d. clear Hs.
  revert E. simpl. destruct (parse_key_rank k) as [r|]; [|done].
  assert (Hgen : forall ks out, out <> [] -> group_loop ks out <> Ok []).
  { induction ks as [|k' ks IH]; intros out Hne; simpl; [congruence|].
    destruct (parse_key_rank k') as [r'|]; [|done]. apply IH. intros H%(f_equal dkeys).
    assert (Hin : r' ∈ dkeys (dset r' (default [] (dget r' out) ++ [k']) out)) by (apply elem_of_dkeys_dset; by left).
    rewrite H in Hin. by apply elem_of_nil in Hin. }
  apply Hgen. done.
Qed.

(** The tool and the daemon agree on placement: whatever keys and segments the
    daemon's [build_plan] accepts, the tool plans exactly the same copies. *)
Theorem plan_agrees kc keys targets plan :
  keys <> [] -> build_plan kc keys targets = Ok plan ->
  plan_for (kc_tp_size kc) (kc_peer_tp_size kc) keys targets = Ok (Some plan).
Proof.
  intros Hne. unfold build_plan, plan_for, group_keys_by_rank. destruct (Keys.group_keys_by_rank keys) as [by_rank|e] eqn:Hg; [|done].
  simpl. set (mx := foldr Z.max (-1) (dkeys by_rank)).
  destruct (mx <=? 0) eqn:Hmx.
  { destruct by_rank; [by apply group_nil in Hg|]. destruct targets as [|t []]; [done| |done]. by intros [= <-]. }
  intros Hp. assert (Hs : exists ts, spread (kc_tp_size kc) (kc_peer_tp_size kc) mx targets = Ok (Some ts) /\
    plan_exact mx (dkeys by_rank) ts keys = Ok plan).
  { unfold spread. destruct (zlen targets <=? mx) eqn:Hle.
    - rewrite (proj2 (Z.ltb_ge _ _)) by (apply Z.leb_le in Hle; lia).
      destruct (spread_targets kc mx targets) as [ts|] eqn:Hst; [|done]. exists ts. split; [|done].
      revert Hst. unfold spread_targets. destruct (truthy (kc_peer_tp_size kc)) as [p|]; [|done]. simpl.
      destruct (_ && _ && _ && _ && _); [|done]. by destruct (Db.collect _ _) as [l|]; [intros [= <-]|].
    - exists targets. apply Z.leb_gt in Hle. by rewrite (proj2 (Z.ltb_lt _ _)) by lia. }
  destruct Hs as (ts & Es & Hx). revert Hx. unfold plan_exact. destruct (existsb _ _) eqn:Ex; [done|].
  destruct (mx + 1 <? zlen ts); [done|]. intros Hc.
  assert (Hb : plan_by_rank (kc_tp_size kc) (kc_peer_tp_size kc) mx (dkeys by_rank) keys targets = Ok (Some plan)).
  { unfold plan_by_rank. rewrite Es. simpl. by rewrite Ex, Hc. }
  by destruct targets as [|t [|]].
Qed.

Definition demo_kc : KeyComputer := mkKeyComputer "m" 128 2 (Some 4) 1.
Definition demo_keys : list string := key_of demo_kc "ab" <$> [0; 1; 2; 3].

Lemma plan_agrees_witness :
  plan_for 2 (Some 4) demo_keys ["b:1"; "b:2"] = Ok (Some (zip demo_keys ["b:1"; "b:1"; "b:2"; "b:2"])).
Proof. apply (plan_agrees demo_kc demo_keys ["b:1"; "b:2"]); [discriminate|vm_compute; reflexivity]. Defined.

(** The planned keys are the keys, each with the segment its rank selects from the
    (spread) list of targets. *)
Definition goes_to (targets : list string) (kt : string * string) : Prop :=
  exists r, parse_key_rank kt.1 = Ok r /\ seg_at targets r = Ok kt.2.

Lemma collect_assign targets keys plan : Db.collect (assign targets) keys = Ok plan ->
  plan.*1 = keys /\ Forall (goes_to targets) plan.
Proof.
  revert plan. induction keys as [|k keys IH]; intros plan; simpl; [by intros [= <-]|].
  unfold assign at 1. destruct (parse_key_rank k) as [r|] eqn:Er; [|done].
  destruct (seg_at targets r) as [t|] eqn:Et; [|done].
  destruct (Db.collect _ keys) as [l|]; [|done]. intros [= <-]. destruct (IH l eq_refl) as [H1 H2].
  split; [by rewrite fmap_cons, H1|]. constructor; [by exists r|done].
Qed.

Lemma plan_for_keys tp peer keys targets plan : plan_for tp peer keys targets = Ok (Some plan) ->
  plan.*1 = keys /\
  ((exists t, targets = [t] /\ plan = (fun k => (k, t)) <$> keys) \/
   exists mx ts, spread tp peer mx targets = Ok (Some ts) /\ Forall (goes_to ts) plan).
Proof.
  unfold plan_for. destruct (group_keys_by_rank keys) as [by_rank|e]; [|done]. simpl.
  set (mx := foldr Z.max (-1) (dkeys by_rank)).
  intros H.
  assert (Hr : plan_by_rank tp peer mx (dkeys by_rank) keys targets = Ok (Some plan) \/
    exists t, targets = [t] /\ plan = (fun k => (k, t)) <$> keys).
  { destruct targets as [|t [|]]; [by left| |by left]. destruct (mx <=? 0); [|by left].
    injection H as <-. right. by exists t. }
  clear H. destruct Hr as [H|(t & -> & ->)].
  - revert H. unfold plan_by_rank. destruct (spread tp peer mx targets) as [[ts|]|] eqn:Es; [|done..]. simpl.
    destruct (existsb _ _); [done|]. destruct (Db.collect (assign ts) keys) as [l|] eqn:Ec; [|done].
    intros [= <-]. destruct (collect_assign _ _ _ Ec). split; [done|]. right. by exists mx, ts.
  - rewrite <- list_fmap_compose, list_fmap_id. split; [done|]. left. by exists t.
Qed.

(** ** The tool's resolution is the daemon's

    The tool's copy of the probe handles fewer failures; where it answers, or reports a
    probe failure, the daemon's does the same. *)

Section resolution.
Context (h : Host) (remote : ssh_answer) (http : string -> option string) (checkout_logs : string).

(** [r] is the answer [r'] unless a failure escaped. *)
Definition refines {A} (r r' : res A) : Prop := r = Raise TOther \/ r = r'.

Lemma refines_bind {A B} (r r' : res A) (k k' : A -> res B) :
  refines r r' -> (forall a, refines (k a) (k' a)) -> refines (r ≫= k) (r' ≫= k').
Proof. intros [->| ->] Hk; [by left|]. destruct r' as [a|e]; [apply Hk|by right]. Qed.

Lemma children_refines : refines (pid_children_map h) (RankTopology.pid_children_map h).
Proof.
  apply refines_bind; [by right|]. intros [children n]. case_match; [by right|].
  destruct (ps_out h); [by right|by left].
Qed.

Lemma probe_local_refines pidfile : refines (probe_local h pidfile) (RankTopology.probe_local h pidfile).
Proof.
  unfold probe_local, RankTopology.probe_local. destruct (pid_file h pidfile) as [text|]; [|by right].
  case_bool_decide; [by right|]. destruct (py_int 10 (strip text)) as [root|]; [|by right].
  apply refines_bind; [by right|]. intros []; [|by right]. simpl.
  apply refines_bind; [apply refines_bind; [apply children_refines|by right]|]. intros tree.
  apply refines_bind; [|by right]. unfold listen_ports_by_pid, RankTopology.listen_ports_by_pid.
  destruct (ss_out h); [by right|by left|by right].
Qed.

Lemma probe_ssh_refines : refines (probe_ssh remote) (RankTopology.probe_ssh remote).
Proof. destruct remote; [by left|by left|by right]. Qed.

Theorem resolve_agrees a targets info :
  resolve_segments h remote http checkout_logs a = Ok (targets, info) ->
  exists segs pidfile info', fetch_segments http (admin_url a) = Ok segs /\ pidfile_of checkout_logs a = Ok pidfile /\
    RankTopology.resolve_segments h remote segs (r_tp a) pidfile (r_ssh a) (r_target_ip a) = Ok (targets, info').
Proof.
  unfold resolve_segments. destruct (pidfile_of checkout_logs a) as [pidfile|e] eqn:Hpf; [|done]. simpl.
  destruct (fetch_segments http (admin_url a)) as [segs|e] eqn:Hf; [|done]. simpl. intros H.
  exists segs, pidfile. unfold RankTopology.resolve_segments. fold (truth (r_ssh a)).
  set (p := if truth (r_ssh a) then _ else _) in H. set (p' := if truth (r_ssh a) then _ else RankTopology.probe_local h pidfile).
  assert (Hp : refines p p') by (unfold p, p'; destruct (truth (r_ssh a)); [apply probe_ssh_refines|apply probe_local_refines]).
  assert (Hne : truth (r_ssh a) && bool_decide (pidfile = EmptyString) = false).
  { destruct (truth (r_ssh a)) eqn:Hs; [|done]. revert Hpf. unfold pidfile_of. rewrite Hs.
    unfold truth at 1. case_bool_decide as He; [done|]. intros [= <-]. simpl. by apply bool_decide_eq_false_2. }
  rewrite Hne. destruct Hp as [Hp|Hp]; rewrite Hp in H; [done|]. destruct p' as [[|r rows]|[]]; try done.
  - unfold intersect in H. destruct (intersect_rank_seg segs (r :: rows) (r_tp a) (r_target_ip a)) as [ts|]; [|done].
    simpl in *. injection H as <- _. eauto.
  - destruct (degraded _ _ _ _); [|done]. injection H as <- _. eauto.
Qed.
End resolution.

(** ** What the store promises

    Its observable state: the memory replicas (key and endpoint), and whether this
    client is open.  Reading changes neither, and a descriptor that is answered is a
    replica that is there. *)

Class StoreContract {W : Type} (ops : Ops W) : Type := {
  placed : W -> gset (string * string);
  opened : W -> bool;
  view : W -> gset (string * string) * bool := fun w => (placed w, opened w);
  c_read_file : forall p, keeps view (read_file ops p);
  c_write_file : forall p t, keeps view (write_file ops p t);
  c_set_device : forall d, keeps view (set_device ops d);
  c_monotonic : keeps view (monotonic ops);
  c_sleep : forall d, keeps opened (sleep ops d);
  c_exist : forall ks, keeps view (batch_is_exist ops ks);
  c_get : forall k, keeps view (get_replica_desc ops k);
  c_batch : forall ks, keeps view (batch_get_replica_desc ops ks);
  c_batch_true : forall ks w w' descs k l t,
    batch_get_replica_desc ops ks w = (w', Ok descs) ->
    (k, Some l) ∈ (match descs with DescDict d => d | DescList ls => zip ks ls end) ->
    t ∈ memory_endpoints l -> (k, t) ∈ placed w;
  c_create : forall k ts, keeps opened (create_copy_task ops k ts);
  c_query : forall t, keeps opened (query_task ops t);
  c_setup : forall hn md gs bs p d m w,
    match setup ops hn md gs bs p d m w with
    | (w', Ok rc) => placed w' = placed w /\ opened w' = (rc =? 0) || opened w
    | (w', Raise _) => placed w' = placed w /\ opened w' = opened w
    end;
  c_close : forall w, placed (close ops w).1 = placed w /\ opened (close ops w).1 = false }.

Section contract.
Context {W : Type} (ops : Ops W) {C : StoreContract ops}.

Lemma keeps_opened {A} (c : M W pexn A) : keeps view c -> keeps opened c.
Proof. intros H w. specialize (H w). unfold view in H. congruence. Qed.
Lemma keeps_placed {A} (c : M W pexn A) : keeps view c -> keeps placed c.
Proof. intros H w. specialize (H w). unfold view in H. congruence. Qed.

(** Placement as the batch query reports it. *)
Lemma place_all_get items : forall out k, dget k (place_all items out) = dget k out \/
  exists l, (k, l) ∈ items /\ dget k (place_all items out) = Some (memory_endpoints (default [] l)).
Proof.
  induction items as [|[k' l] items IH]; intros out k; [by left|]. simpl.
  destruct (IH (dset k' (memory_endpoints (default [] l)) out) k) as [H|(l' & Hin & H)].
  - rewrite H. destruct (decide (k' = k)) as [->|Hne].
    + right. exists l. split; [left|]. by rewrite dget_dset_eq.
    + left. by rewrite dget_dset_ne.
  - right. exists l'. split; [by right|done].
Qed.

Lemma missing_none pl key ts t : targets_missing pl [key] ts = [] -> t ∈ ts -> t ∈ default [] (dget key pl).
Proof.
  unfold targets_missing. cbn [mbind list_bind]. rewrite app_nil_r. induction ts as [|t' ts IH]; intros E Ht; [by apply elem_of_nil in Ht|].
  cbn [mbind list_bind] in E. apply app_eq_nil in E as [E1 E2]. apply elem_of_cons in Ht as [->|Ht]; [|by apply IH].
  case_bool_decide as H; [done|discriminate].
Qed.

Lemma assert_placed key ts w w' p :
  assert_targets_have_replicas ops [key] ts w = (w', Ok p) -> view w' = view w /\ forall t, t ∈ ts -> (key, t) ∈ placed w.
Proof.
  unfold assert_targets_have_replicas, batch_memory_replica_endpoints.
  intros (w1 & pl & H1 & H2)%bind_ok_inv. apply bind_ok_inv in H1 as (w2 & descs & Hd & H1).
  assert (Hk := keeps_run _ _ _ _ _ (c_batch [key]) Hd). injection H1 as <- <-.
  destruct (targets_missing _ _ _) eqn:Hm; [|done]. injection H2 as <- _. split; [done|]. intros t Ht.
  pose proof (missing_none _ _ _ _ Hm Ht) as Hb.
  set (items := match descs with DescDict d => d | DescList ls => zip [key] ls end) in *.
  change (t ∈ default [] (dget key (place_all items (no_endpoints [key] [])))) in Hb.
  destruct (place_all_get items (no_endpoints [key] []) key) as [H|(l & Hin & H)]; rewrite H in Hb.
  - cbn [no_endpoints] in Hb. rewrite dget_dset_eq in Hb. by apply elem_of_nil in Hb.
  - destruct l as [l|]; [|by apply elem_of_nil in Hb]. eapply c_batch_true; [exact Hd|exact Hin|done].
Qed.

Lemma keeps_memory_endpoints k : keeps view (memory_replica_endpoints ops k).
Proof. apply keeps_bind; [apply c_get|done]. Qed.

Lemma verify_placed plan : forall w w', verify_all ops plan w = (w', Ok tt) ->
  view w' = view w /\ forall kt, kt ∈ plan -> kt ∈ placed w.
Proof.
  unfold verify_all. induction plan as [|[k t] plan IH]; intros w w' H; simpl in H.
  { injection H as <-. split; [done|]. by intros kt ?%elem_of_nil. }
  apply bind_ok_inv in H as (w1 & [] & Hb & H). apply bind_ok_inv in Hb as (w2 & p & Ha & Hb).
  destruct (assert_placed _ _ _ _ _ Ha) as [Hv Hin]. apply bind_ok_inv in Hb as (w3 & eps & He & Hb).
  injection Hb as ->. assert (Hv3 := keeps_run _ _ _ _ _ (keeps_memory_endpoints k) He).
  destruct (IH _ _ H) as [Hv' Hall]. assert (Hp : placed w1 = placed w) by (unfold view in *; congruence).
  split; [congruence|]. intros kt [->|Hkt]%elem_of_cons; [by apply Hin, list_elem_of_here|]. rewrite <- Hp. auto.
Qed.

(** The session keeps the client open, however it ends. *)
Lemma keeps_query_loop fuel : forall task deadline, keeps opened (query_loop ops fuel task deadline).
Proof.
  induction fuel as [|fuel IH]; intros task deadline; [done|]. simpl. apply keeps_bind; [apply c_query|]. intros [st err].
  simpl. repeat (case_match; [done|]). apply keeps_bind; [apply keeps_opened, c_monotonic|]. intros now.
  case_match; [done|]. apply keeps_bind; [apply c_sleep|]. intros _. apply IH.
Qed.

Lemma keeps_copy_all fuel timeout plan : keeps opened (copy_all ops fuel timeout plan).
Proof.
  induction plan as [|[k t] plan IH]; [done|]. simpl. apply keeps_bind; [|intros [r|]; [apply IH|done]].
  unfold create_copy_and_wait. apply keeps_bind; [apply c_create|]. intros [task err]. case_match; [done|].
  apply keeps_bind.
  - apply keeps_bind; [apply keeps_opened, c_monotonic|]. intros now. apply keeps_query_loop.
  - intros [[]|]; done.
Qed.

Lemma keeps_verify plan : keeps opened (verify_all ops plan).
Proof.
  apply keeps_for_each. intros [k t]. apply keeps_bind.
  - unfold assert_targets_have_replicas, batch_memory_replica_endpoints. apply keeps_bind.
    + apply keeps_bind; [apply keeps_opened, c_batch|done].
    + intros p. by destruct (targets_missing _ _ _).
  - intros _. apply keeps_bind; [apply keeps_opened, keeps_memory_endpoints|done].
Qed.

Lemma keeps_session fuel a computed keys plan : keeps opened (copy_session ops fuel a computed keys plan).
Proof.
  unfold copy_session. apply keeps_bind.
  { case_match; [|done]. apply keeps_bind; [apply keeps_opened, c_exist|done]. }
  intros n. case_match; [done|]. apply keeps_bind.
  { case_match; [|done]. apply keeps_for_each. intros k. apply keeps_bind; [apply keeps_opened, keeps_memory_endpoints|done]. }
  intros _. apply keeps_bind; [apply keeps_copy_all|]. intros []; [|done].
  apply keeps_bind; [apply keeps_verify|done].
Qed.

Lemma session_ready fuel a computed keys plan w w' :
  copy_session ops fuel a computed keys plan w = (w', Ok (Some 0)) -> forall kt, kt ∈ plan -> kt ∈ placed w'.
Proof.
  unfold copy_session. intros (w1 & n & _ & H)%bind_ok_inv. case_match; [done|].
  apply bind_ok_inv in H as (w2 & [] & _ & H). apply bind_ok_inv in H as (w3 & fin & _ & H).
  destruct fin; [|done]. apply bind_ok_inv in H as (w4 & [] & Hv & H). injection H as <-.
  destruct (verify_placed _ _ _ Hv) as [Hw Hall]. unfold view in Hw. intros kt Hkt.
  assert (placed w4 = placed w3) as -> by congruence. auto.
Qed.

Context {BH : Type} (hash_block_tokens : string -> option BH -> list Z -> BH) (block_hash_to_str : BH -> string).
Context (encode : string -> string -> list Z) (up : upstream_keys) (getenv : string -> option string).
Context (h : Host) (remote : ssh_answer) (http : string -> option string) (checkout_logs : string).
Abbreviation main := (precopy_main hash_block_tokens block_hash_to_str encode up getenv h remote http checkout_logs ops).
Abbreviation keys_for := (keys_for hash_block_tokens block_hash_to_str encode up getenv ops).

Lemma keeps_keys_for a computed : keeps view (keys_for a computed).
Proof.
  unfold Precopy.keys_for. case_match.
  - apply keeps_bind; [done|]. intros [keys info]. apply keeps_bind; [|done].
    case_match; [apply c_write_file|done].
  - unfold load_keys. apply keeps_bind; [|done]. case_match; [|done]. apply keeps_bind; [apply c_read_file|done].
Qed.

(** C34. READY means ready: when the tool ends with status 0, it had keys, every one of
    them was planned to a segment, and each has a memory replica on the segment it was
    planned to; and the store client is closed. *)
Theorem precopy_ready_placed fuel a w w' :
  main fuel a w = (w', Ok (Some 0)) ->
  exists keys targets plan w1,
    parse_targets h remote http checkout_logs a (master_of a) = Ok targets /\
    keys_for a (truth (a_prefix a) && truth (a_model a)) w = (w1, Ok keys) /\ keys <> [] /\
    plan_for (a_tp_size a) (a_peer_tp_size a) keys targets = Ok (Some plan) /\ plan.*1 = keys /\
    (forall kt, kt ∈ plan -> kt ∈ placed w') /\ opened w' = false.
Proof.
  unfold precopy_main. set (computed := truth (a_prefix a) && truth (a_model a)).
  destruct (computed && _); [done|]. intros (w1 & targets & Ht & H)%bind_ok_inv. injection Ht as <- Ht.
  apply bind_ok_inv in H as (w2 & keys & Hk & H). destruct keys as [|k0 keys]; [done|]. set (ks := k0 :: keys) in *.
  apply bind_ok_inv in H as (w3 & plan & Hp & H). injection Hp as <- Hp. destruct plan as [plan|]; [|done].
  apply bind_ok_inv in H as (w4 & [] & _ & H). apply bind_ok_inv in H as (w5 & [] & _ & H).
  exists ks, targets, plan, w2. unfold try_finally in H.
  destruct (copy_session ops fuel a computed ks plan w5) as [w6 r] eqn:Hs. pose proof (c_close w6) as [Hc1 Hc2].
  destruct (close ops w6) as [w7 [[]|e]]; [|done]. injection H as <- ->. simpl in *.
  destruct (plan_for_keys _ _ _ _ _ Hp) as [Hks _]. split_and!; try done.
  intros kt Hkt. rewrite Hc1. by eapply session_ready.
Qed.

(** The client is closed again on every way out. *)
Theorem precopy_closes fuel a w : opened w = false -> opened (main fuel a w).1 = false.
Proof.
  intros Ho. unfold precopy_main. set (computed := truth (a_prefix a) && truth (a_model a)).
  destruct (computed && _); [exact Ho|]. unfold mbind, M_bind, lift.
  destruct (parse_targets _ _ _ _ _ _) as [targets|e]; [|exact Ho]. cbv beta iota.
  pose proof (keeps_opened _ (keeps_keys_for a computed) w) as Hk. rewrite Ho in Hk.
  destruct (keys_for a computed w) as [w2 [keys|e]]; [|exact Hk]. simpl in Hk. destruct keys as [|k0 keys]; [exact Hk|].
  destruct (plan_for _ _ _ _) as [[plan|]|e]; [|exact Hk..]. cbv beta iota.
  set (dev := if bool_decide (a_protocol a = "ascend") then set_device ops (a_device a) else mret tt).
  assert (Hd : keeps opened dev) by (unfold dev; case_match; [apply keeps_opened, c_set_device|done]).
  specialize (Hd w2). destruct (dev w2) as [w3 [[]|e]]; simpl in Hd; [|simpl; congruence].
  unfold setup_store, mbind, M_bind. pose proof (c_setup (coord_of getenv a) "P2PHANDSHAKE" 0 (32 * 1024 * 1024) (a_protocol a) (a_device_name a) (master_of a) w3) as Hs.
  destruct (setup ops _ _ _ _ _ _ _ w3) as [w4 [rc|e]]; [|simpl; destruct Hs; congruence].
  destruct (rc =? 0); simpl.
  - unfold try_finally. destruct (copy_session ops fuel a computed _ plan w4) as [w5 r].
    pose proof (c_close w5) as [_ Hc]. by destruct (close ops w5) as [w6 [[]|e]].
  - destruct Hs as [_ Hs]. simpl in Hs. congruence.
Qed.
End contract.

(** ** Termination *)

(** The clock does not run backwards, and a sleep takes its time. *)
Class ClockContract {W : Type} (ops : Ops W) : Type := {
  now : W -> Z;
  k_monotonic : forall w w' t, monotonic ops w = (w', Ok t) -> now w <= t <= now w';
  k_sleep : forall d w w', sleep ops d w = (w', Ok tt) -> now w + d <= now w';
  k_query : forall task w, now w <= now (query_task ops task w).1 }.

Section termination.
Context {W : Type} (ops : Ops W) {K : ClockContract ops}.

(** [c] never answers [x]. *)
Definition never {A} (x : A) (c : M W pexn A) : Prop := forall w, (c w).2 <> Ok x.
Lemma never_bind {A B} (x : B) (c : M W pexn A) (k : A -> M W pexn B) : (forall a, never x (k a)) -> never x (c ≫= k).
Proof. intros Hk w. unfold mbind, M_bind. destruct (c w) as [w1 [a|e]]; [apply Hk|done]. Qed.
Lemma never_finally {A} (x : A) (c : M W pexn A) f : never x c -> never x (try_finally c f).
Proof. intros Hc w. unfold try_finally. specialize (Hc w). destruct (c w) as [w1 r]. by destruct (f w1) as [w2 [|]]. Qed.

Lemma query_loop_ends fuel : forall task deadline w,
  deadline - now w <= POLL_MS * (Z.of_nat fuel - 1) -> (0 < fuel)%nat -> (query_loop ops fuel task deadline w).2 <> Ok None.
Proof.
  induction fuel as [|fuel IH]; intros task deadline w Hd Hf; [lia|]. simpl. unfold mbind, M_bind.
  pose proof (k_query task w) as Hq. destruct (query_task ops task w) as [w1 [[st err]|e]]; [|done]. simpl in Hq.
  simpl. destruct (negb (err =? 0)); [done|]. destruct (_ || _); [done|].
  destruct (monotonic ops w1) as [w2 [t|e]] eqn:Em; [|done]. apply k_monotonic in Em.
  destruct (deadline <=? t) eqn:Ht; [done|]. apply Z.leb_gt in Ht.
  destruct (sleep ops POLL_MS w2) as [w3 [[]|e]] eqn:Es; [|done]. apply k_sleep in Es.
  unfold POLL_MS in *. apply IH; lia.
Qed.

Lemma until_complete_ends fuel task timeout w : timeout <= POLL_MS * (Z.of_nat fuel - 1) -> (0 < fuel)%nat ->
  (query_task_until_complete ops fuel task timeout w).2 <> Ok None.
Proof.
  intros Ht Hf. unfold query_task_until_complete, mbind, M_bind.
  destruct (monotonic ops w) as [w1 [t|e]] eqn:Em; [|done]. apply k_monotonic in Em.
  apply query_loop_ends; [lia|done].
Qed.

Lemma copy_all_ends fuel timeout plan : timeout <= POLL_MS * (Z.of_nat fuel - 1) -> (0 < fuel)%nat ->
  forall w, (copy_all ops fuel timeout plan w).2 <> Ok false.
Proof.
  intros Ht Hf. induction plan as [|[k t] plan IH]; intros w; [done|]. simpl.
  unfold create_copy_and_wait, mbind, M_bind. destruct (create_copy_task ops k [t] w) as [w1 [[task err]|e]]; [|done].
  simpl. destruct (negb (err =? 0)); [done|]. pose proof (until_complete_ends fuel task timeout w1 Ht Hf) as Hq.
  destruct (query_task_until_complete ops fuel task timeout w1) as [w2 [[[]|]|e]]; try done. apply IH.
Qed.

(** The tool ends: with a clock that runs, a copy is waited for in at most one round
    per poll interval of the timeout, so that with that fuel the tool never runs out of
    it, whatever the store answers. *)
Theorem precopy_terminates {BH} (hash : string -> option BH -> list Z -> BH) to_str encode up getenv h remote http logs fuel a w :
  a_timeout_ms a <= POLL_MS * (Z.of_nat fuel - 1) -> (0 < fuel)%nat ->
  (precopy_main hash to_str encode up getenv h remote http logs ops fuel a w).2 <> Ok None.
Proof.
  intros Ht Hf. revert w. fold (never (@None Z) (precopy_main hash to_str encode up getenv h remote http logs ops fuel a)).
  unfold precopy_main. destruct (_ && (_ || _)); [done|]. do 2 (apply never_bind; intros ?). case_match; [done|].
  apply never_bind. intros [plan|]; [|done]. do 2 (apply never_bind; intros _). apply never_finally.
  unfold copy_session. apply never_bind. intros n. case_match; [done|]. apply never_bind. intros _ w.
  unfold mbind, M_bind. pose proof (copy_all_ends fuel (a_timeout_ms a) plan Ht Hf w) as Hc.
  destruct (copy_all ops fuel (a_timeout_ms a) plan w) as [w1 [[]|e]]; [|done..].
  by destruct (verify_all ops plan w1) as [w2 [[]|e]].
Qed.
End termination.

(** ** A store that keeps its promises *)

Record PlainWorld : Type := mkPlain { pw_placed : gset (string * string); pw_open : bool; pw_now : Z; pw_task : TaskStatus }.

Definition plain_descs (w : PlainWorld) (k : string) : list Desc :=
  (fun kt => mkDesc (AsMethod true) kt.2) <$> filter (fun kt => kt.1 = k) (elements (pw_placed w)).

(** A copy is done when it is asked for the second time. *)
Definition plain : Ops PlainWorld := mkOps PlainWorld
  (fun _ => raise POther)
  (fun _ _ => mret tt)
  (fun _ => mret tt)
  (fun _ => mret tt)
  (gets pw_now)
  (fun d => modify (fun w => mkPlain (pw_placed w) (pw_open w) (pw_now w + Z.max 0 d) T_SUCCESS))
  (fun _ _ _ _ _ _ _ w => (mkPlain (pw_placed w) true (pw_now w) (pw_task w), Ok 0))
  (fun ks => mret ((fun _ => 1) <$> ks))
  (fun k => gets (fun w => plain_descs w k))
  (fun ks => gets (fun w => DescList ((fun k => Some (plain_descs w k)) <$> ks)))
  (fun k ts w => (mkPlain (list_to_set ((fun t => (k, t)) <$> ts) ∪ pw_placed w) (pw_open w) (pw_now w) T_PROCESSING, Ok (7, 0)))
  (fun _ => gets (fun w => (pw_task w, 0)))
  (modify (fun w => mkPlain (pw_placed w) false (pw_now w) (pw_task w))).

#[export] Instance plain_contract : StoreContract plain.
Proof.
  refine {| placed := pw_placed; opened := pw_open |}; try done.
  - intros ks w w' descs k l t. simpl. intros [= <- <-]. rewrite zip_with_fmap_r, zip_with_diag.
    intros (k' & [= -> ->] & _)%list_elem_of_fmap. unfold memory_endpoints, plain_descs.
    intros (d & -> & Hd)%list_elem_of_fmap. apply list_elem_of_filter in Hd as [_ Hd].
    apply list_elem_of_fmap in Hd as ([k2 t2] & -> & Hin). apply list_elem_of_filter in Hin as [Hk Hin]. simpl in *. subst.
    by apply elem_of_elements.
Defined.

#[export] Instance plain_clock : ClockContract plain.
Proof.
  refine {| now := pw_now |}; try done.
  - intros w w' t. simpl. unfold gets. intros [= <- <-]. lia.
  - intros d w w'. simpl. unfold modify. intros [= <-]. simpl. lia.
Defined.

(** Four ranks, two segments, keys and segments given. *)
Definition demo_args : Args :=
  mkArgs "master" "tcp" EmptyString EmptyString "b:1, b:2" (mkResolveArgs "B" 2 EmptyString EmptyString EmptyString 9003 EmptyString EmptyString EmptyString)
    (String.concat "," demo_keys) EmptyString EmptyString 1 EmptyString EmptyString 128 (Some 4) 1 "sha256" EmptyString false EmptyString 0 2000 true.
Definition run_demo (fuel : nat) : PlainWorld * result pexn (option Z) :=
  precopy_main (BH := string) (fun _ _ _ => "h") id (fun _ _ => []) None (fun _ => None) demo_host (SshExit 1 EmptyString)
    (fun _ => None) "/logs" plain fuel demo_args (mkPlain ∅ false 0 T_PENDING).

Example demo_exit : (run_demo 5).2 = Ok (Some 0) /\
  bool_decide ((key_of demo_kc "ab" 3, "b:2") ∈ pw_placed (run_demo 5).1) = true.
Proof. split; vm_compute; reflexivity. Qed.

Lemma precopy_ready_placed_witness :
  exists keys plan, keys <> [] /\ plan.*1 = keys /\ (forall kt, kt ∈ plan -> kt ∈ placed (run_demo 5).1).
Proof.
  destruct (precopy_ready_placed plain (BH := string) (fun _ _ _ => "h") id (fun _ _ => []) None (fun _ => None) demo_host (SshExit 1 EmptyString)
    (fun _ => None) "/logs" 5 demo_args (mkPlain ∅ false 0 T_PENDING) (run_demo 5).1) as (keys & targets & plan & w1 & _ & _ & Hne & _ & Hks & Hall & _).
  - fold (run_demo 5). rewrite (surjective_pairing (run_demo 5)) at 1. by rewrite (proj1 demo_exit).
  - exists keys, plan. split; [exact Hne|]. split; [exact Hks|exact Hall].
Defined.

Lemma precopy_terminates_witness : (run_demo 5).2 <> Ok None.
Proof.
  unfold run_demo. refine (precopy_terminates plain _ _ _ _ _ _ _ _ _ 5 demo_args _ _ _).
  - simpl. unfold POLL_MS. lia.
  - lia.
Defined.

End Precopy.
