(* ===== verification/StoreDemo.v ===== *)
(** * kvcm: the demonstration without an engine

    [kvcm/demo/tools/store_demo.py]: two client processes with a segment each, a
    coordinator that puts an object on the first, has it copied to the second and
    checks both replicas.  The store helpers are those of [Precopy]; command lines are
    read as in [ArgParse].  What the network, the processes and the random source
    answer are operations of [DemoOps].  What is printed is not modelled. *)

From S2P Require Import Prelude PyDict PyStr KvcmTypes Instances RankTopology ArgParse Precopy.
From Stdlib Require Import Ascii.
Local Open Scope Z_scope.
Import Precopy.

#[local] Arguments String.append !_ _ /.

(** [os.environ.get("HOST_IP")], the address of a connected datagram socket ([None]: an
    [OSError]), the addresses of the host name. *)
Definition loopback (ip : string) : bool := startswith "127." ip.
Definition host_ip (env : option string) (udp : option string) (addresses : result pexn (list string)) : result pexn string :=
  let e := strip (default EmptyString env) in
  if truth e then Ok e
  else
    let direct := match udp with Some ip => if truth ip && negb (loopback ip) then Some ip else None | None => None end in
    match direct with
    | Some ip => Ok ip
    | None =>
        l ← addresses;
        Ok (default "127.0.0.1" (List.find (fun ip => negb (loopback ip)) l))
    end.

(** What a segment client reports. *)
Record Info : Type := mkInfo { in_hostname : string; in_ok : bool }.

(** The arguments of a segment client. *)
Record ClientArgs : Type := mkClientArgs {
  ca_hostname : string;
  ca_master : string;
  ca_protocol : string;
  ca_device_name : string;
  ca_segment_size : Z;
  ca_visible : option string;
  ca_ports : option string }.

Record DemoOps (W : Type) : Type := mkDemoOps {
  d_store : Ops W;
  set_env : string -> string -> M W pexn unit;
  put : string -> list Z -> Z -> string -> M W pexn Z;   (* key, payload, replicas, preferred segment *)
  urandom : Z -> M W pexn (list Z);
  fresh_key : M W pexn string;                           (* [uuid.uuid4().hex[:12]] *)
  spawn : ClientArgs -> M W pexn unit;
  ready_get : M W pexn (option Info);                    (* [None]: nothing for 120 seconds *)
  ready_put : Info -> M W pexn unit;
  stop_set : M W pexn unit;
  stop_is_set : M W pexn bool;
  join : string -> Z -> M W pexn unit }.
Arguments d_store {W} _.
Arguments set_env {W} _.
Arguments put {W} _.
Arguments urandom {W} _.
Arguments fresh_key {W} _.
Arguments spawn {W} _.
Arguments ready_get {W} _.
Arguments ready_put {W} _.
Arguments stop_set {W} _.
Arguments stop_is_set {W} _.
Arguments join {W} _.

Section demo.
Context {W : Type} (ops : DemoOps W).
Abbreviation DM := (M W pexn).

Definition bind_npu (visible ports : option string) : DM unit :=
  match visible with
  | None | Some EmptyString => mret tt
  | Some v =>
      _ ← set_env ops "ASCEND_RT_VISIBLE_DEVICES" v;
      _ ← (match ports with
           | None | Some EmptyString => mret tt
           | Some p => set_env ops "HCCL_NPU_SOCKET_PORT_RANGE" p
           end);
      set_device (d_store ops) 0
  end.

(** [while not stop_ev.is_set(): time.sleep(0.5)]; [false]: out of fuel. *)
Fixpoint wait_stop (fuel : nat) : DM bool :=
  match fuel with
  | O => mret false
  | S fuel =>
      stop ← stop_is_set ops;
      if (stop : bool) then mret true else (_ ← sleep (d_store ops) 500; wait_stop fuel)
  end.

Definition client_main (fuel : nat) (a : ClientArgs) : DM bool :=
  try_catch
    (_ ← bind_npu (ca_visible a) (ca_ports a);
     _ ← setup_store (d_store ops) (ca_hostname a) (ca_master a) (ca_segment_size a) (ca_segment_size a * 2) (ca_protocol a) (ca_device_name a);
     _ ← ready_put ops (mkInfo (ca_hostname a) true);
     stopped ← wait_stop fuel;
     if negb stopped then mret false else (_ ← close (d_store ops); mret true))
    (fun x => if bool_decide (x = PSystemExit) then raise x else (_ ← ready_put ops (mkInfo (ca_hostname a) false); mret true)).

(** ** The command line *)

Context (getenv : string -> option string).
Definition env_or (name dflt : string) : string := default dflt (getenv name).

Record Args : Type := mkArgs {
  g_master : string;
  g_protocol : string;
  g_device_name : string;
  g_segment_size : Z;
  g_source : string;
  g_target : string;
  g_coord : string;
  g_source_device : string;
  g_target_device : string;
  g_coord_device : string;
  g_payload_bytes : Z;
  g_key : string }.

Abbreviation option_ := (@opt Empty_set).
Definition text_option (name dest dflt : string) : option_ := mkOpt name dest StoreStr (VStr dflt) false None.
Definition demo_options (ip : string) : list option_ :=
  [mkOpt "-h" "help" Help VNone false None; mkOpt "--help" "help" Help VNone false None;
   text_option "--master" "master" (env_or "MC_MASTER_ADDRESS" "127.0.0.1:50088");
   text_option "--protocol" "protocol" (env_or "MOONCAKE_PROTOCOL" "tcp");
   text_option "--device-name" "device_name" (env_or "MOONCAKE_DEVICE" "");
   mkOpt "--segment-size" "segment_size" StoreInt (VInt (16 * 1024 * 1024)) false None;
   text_option "--source-segment" "source_segment" (env_or "SOURCE_SEGMENT" (ip +:+ ":10001"));
   text_option "--target-segment" "target_segment" (env_or "TARGET_SEGMENT" (ip +:+ ":10002"));
   text_option "--coord-hostname" "coord_hostname" (env_or "COORD_HOSTNAME" (ip +:+ ":12001"));
   text_option "--source-device" "source_device" (env_or "SOURCE_DEVICE" "");
   text_option "--target-device" "target_device" (env_or "TARGET_DEVICE" "");
   text_option "--coord-device" "coord_device" (env_or "COORD_DEVICE" "");
   mkOpt "--payload-bytes" "payload_bytes" StoreInt (VInt (2 * 1024 * 1024)) false None;
   text_option "--key" "key" ""].

Definition text_of (d : @Namespace Empty_set) (k : string) : string := match dget k d with Some (VStr s) => s | _ => EmptyString end.
Definition number_of (d : @Namespace Empty_set) (k : string) : Z := match dget k d with Some (VInt z) => z | _ => 0 end.
Definition args_of (d : @Namespace Empty_set) : Args :=
  mkArgs (text_of d "master") (text_of d "protocol") (text_of d "device_name") (number_of d "segment_size") (text_of d "source_segment")
    (text_of d "target_segment") (text_of d "coord_hostname") (text_of d "source_device") (text_of d "target_device") (text_of d "coord_device")
    (number_of d "payload_bytes") (text_of d "key").

(** ** The demonstration *)

Definition with_port (master : string) : string := if lacks ":" master then master +:+ ":50088" else master.

(** Device and port range of a process. *)
Definition npu_of (a : Args) (device device_env device_default ports_env ports_default : string) : option string * option string :=
  if bool_decide (g_protocol a = "ascend")
  then (Some (or_else device (env_or device_env device_default)), Some (env_or ports_env ports_default))
  else (if truth device then Some device else None, None).

Definition join_both (source target : string) (t : Z) : DM unit := _ ← join ops source t; join ops target t.
Definition stop_and_fail (source target : string) : DM (option (list string)) :=
  _ ← stop_set ops; _ ← join_both source target 5; mret None.

(** The two reports; [None]: the demonstration ends with status 1. *)
Fixpoint await_ready (n : nat) (source target : string) (ready : list string) : DM (option (list string)) :=
  match n with
  | O => mret (Some ready)
  | S n =>
      info ← ready_get ops;
      match info with
      | None => stop_and_fail source target
      | Some i => if negb (in_ok i) then stop_and_fail source target else await_ready n source target (ready ++ [in_hostname i])
      end
  end.

(** The coordinator; [None]: out of fuel. *)
Definition coordinate (fuel : nat) (a : Args) (master key : string) (npu : option string * option string) : DM (option Z) :=
  let source := g_source a in
  let target := g_target a in
  _ ← bind_npu npu.1 npu.2;
  _ ← setup_store (d_store ops) (g_coord a) master 0 (g_segment_size a * 2) (g_protocol a) (g_device_name a);
  payload ← urandom ops (g_payload_bytes a);
  rc ← put ops key payload 1 source;
  if negb (rc =? 0) then (_ ← stop_set ops; mret (Some 1)) else
  before ← memory_replica_endpoints (d_store ops) key;
  if negb (bool_decide (source ∈ before)) then (_ ← stop_set ops; mret (Some 1)) else
  resp ← create_copy_and_wait (d_store ops) fuel key [target] 120000;
  match resp with
  | None => mret None
  | Some _ =>
      _ ← assert_targets_have_replicas (d_store ops) [key] [source; target];
      _ ← stop_set ops;
      _ ← join_both source target 10;
      _ ← try_catch (close (d_store ops)) (fun x => if bool_decide (x = PSystemExit) then raise x else mret tt);
      mret (Some 0)
  end.

Definition store_demo (fuel : nat) (a : Args) : DM (option Z) :=
  let master := with_port (g_master a) in
  key ← (if truth (g_key a) then mret (g_key a) else (u ← fresh_key ops; mret ("kvcm-" +:+ u)));
  let source := g_source a in
  let target := g_target a in
  if bool_decide (source = target) then mret (Some 2) else
  let src := npu_of a (g_source_device a) "SOURCE_DEVICE" "4" "SOURCE_HCCL_PORTS" "26000-26034" in
  let tgt := npu_of a (g_target_device a) "TARGET_DEVICE" "5" "TARGET_HCCL_PORTS" "26035-26069" in
  let coord := npu_of a (g_coord_device a) "COORD_DEVICE" "6" "COORD_HCCL_PORTS" "26070-26104" in
  let client (h : string) (npu : option string * option string) :=
    mkClientArgs h master (g_protocol a) (g_device_name a) (g_segment_size a) npu.1 npu.2 in
  _ ← spawn ops (client source src);
  _ ← spawn ops (client target tgt);
  ready ← await_ready 2 source target [];
  match ready with
  | None => mret (Some 1)
  | Some ready =>
      if bool_decide (list_to_set ready =@{gset string} {[source; target]}) then coordinate fuel a master key coord
      else (_ ← stop_and_fail source target; mret (Some 1))
  end.

Definition main (fuel : nat) (udp : option string) (addresses : result pexn (list string)) (argv : list string) : DM (option Z) :=
  ip ← lift (host_ip (getenv "HOST_IP") udp addresses);
  match parse_args (fun _ => None) (demo_options ip) argv with
  | Exit code => mret (Some code)
  | Parsed d => store_demo fuel (args_of d)
  end.
End demo.

(** ** Status 0 means two replicas *)

(** Telling processes to stop, waiting for them and the other local operations change
    nothing in the store. *)
Class DemoContract {W : Type} (ops : DemoOps W) `{C : !StoreContract (d_store ops)} : Type := {
  k_stop : keeps placed (stop_set ops);
  k_join : forall h t, keeps placed (join ops h t) }.

Section contract.
Context {W : Type} (ops : DemoOps W) `{C : !StoreContract (d_store ops)} {D : DemoContract ops}.

Lemma coordinate_placed fuel a master key npu w w' : coordinate ops fuel a master key npu w = (w', Ok (Some 0)) ->
  (key, g_source a) ∈ placed w' /\ (key, g_target a) ∈ placed w' /\ opened w' = false.
Proof.
  unfold coordinate. intros (w1 & [] & _ & H)%bind_ok_inv. apply bind_ok_inv in H as (w2 & [] & _ & H).
  apply bind_ok_inv in H as (w3 & payload & _ & H). apply bind_ok_inv in H as (w4 & rc & _ & H).
  destruct (negb _); [by apply bind_ok_inv in H as (? & [] & _ & [=])|]. apply bind_ok_inv in H as (w5 & before & _ & H).
  destruct (negb _); [by apply bind_ok_inv in H as (? & [] & _ & [=])|]. apply bind_ok_inv in H as (w6 & resp & _ & H).
  destruct resp as [st|]; [|done]. apply bind_ok_inv in H as (w7 & pl & Ha & H).
  destruct (assert_placed _ _ _ _ _ _ Ha) as [Hv Hin]. apply bind_ok_inv in H as (w8 & [] & Hs & H).
  apply bind_ok_inv in H as (w9 & [] & Hj & H). apply bind_ok_inv in H as (w10 & [] & Hc & [= <-]).
  apply bind_ok_inv in Hj as (w11 & [] & Hj1 & Hj2).
  assert (Hw : placed w10 = placed w9 /\ opened w10 = false).
  { pose proof (c_close w9) as Hcl. unfold try_catch in Hc. destruct (close (d_store ops) w9) as [w12 [[]|x]]; simpl in Hcl;
      [by injection Hc as <-|]. case_bool_decide; [done|]. by injection Hc as <-. }
  destruct Hw as [-> ->]. rewrite (keeps_run _ _ _ _ _ (k_join _ _) Hj2), (keeps_run _ _ _ _ _ (k_join _ _) Hj1), (keeps_run _ _ _ _ _ k_stop Hs).
  assert (placed w7 = placed w6) as -> by (unfold view in Hv; congruence). split_and!; [apply Hin; set_solver..|done].
Qed.

(** The demonstration ends with status 0 only when the object has a memory replica on
    the source and one on the target segment, which are different, and its client is
    closed. *)
Theorem demo_passes_placed getenv fuel udp addresses argv w w' :
  main ops getenv fuel udp addresses argv w = (w', Ok (Some 0)) ->
  (exists ip, host_ip (getenv "HOST_IP") udp addresses = Ok ip /\ parse_args (fun _ => None) (demo_options getenv ip) argv = Exit 0) \/
  exists ip d key, host_ip (getenv "HOST_IP") udp addresses = Ok ip /\
    parse_args (fun _ => None) (demo_options getenv ip) argv = Parsed d /\
    g_source (args_of d) <> g_target (args_of d) /\ (truth (g_key (args_of d)) = true -> key = g_key (args_of d)) /\
    (key, g_source (args_of d)) ∈ placed w' /\ (key, g_target (args_of d)) ∈ placed w' /\ opened w' = false.
Proof.
  unfold main. intros (w1 & ip & Hip & H)%bind_ok_inv. injection Hip as <- Hip.
  destruct (parse_args (fun _ => None) (demo_options getenv ip) argv) as [d|code] eqn:Hp.
  2: { injection H as <- ->. left. by exists ip. }
  right. unfold store_demo in H. apply bind_ok_inv in H as (w2 & key & Hk & H). case_bool_decide as Hne; [done|].
  exists ip, d, key. do 3 (split; [done|]). split.
  { destruct (truth _); [|done]. intros _. by injection Hk as _ <-. }
  apply bind_ok_inv in H as (w3 & [] & _ & H). apply bind_ok_inv in H as (w4 & [] & _ & H). apply bind_ok_inv in H as (w5 & ready & _ & H).
  destruct ready as [ready|]; [|done]. case_bool_decide; [by eapply coordinate_placed|].
  by apply bind_ok_inv in H as (? & ? & _ & [=]).
Qed.
End contract.

(** The demonstration ends: 241 polls cover its two minutes. *)
Lemma demo_ends {W} (ops : DemoOps W) `{K : !ClockContract (d_store ops)} getenv fuel udp addresses argv w :
  (241 <= fuel)%nat -> (main ops getenv fuel udp addresses argv w).2 <> Ok None.
Proof.
  intros Hf. assert (Hz : 241 <= Z.of_nat fuel) by lia. revert w. fold (never (@None Z) (main ops getenv fuel udp addresses argv)).
  unfold main. apply never_bind. intros ip. destruct (parse_args _ _ _) as [d|code]; [|done]. unfold store_demo.
  apply never_bind. intros key. case_bool_decide; [done|]. do 2 (apply never_bind; intros _). apply never_bind. intros [ready|]; [|done].
  case_bool_decide; [|by apply never_bind]. unfold coordinate. do 2 (apply never_bind; intros _). do 2 (apply never_bind; intros ?).
  destruct (negb _); [by apply never_bind|]. apply never_bind. intros before. destruct (negb _); [by apply never_bind|].
  assert (Hcopy : never None (create_copy_and_wait (d_store ops) fuel key [g_target (args_of d)] 120000)).
  { unfold create_copy_and_wait. apply never_bind. intros [task err]. simpl. destruct (negb _); [done|].
    intros w. unfold mbind, M_bind. pose proof (until_complete_ends (d_store ops) fuel task 120000 w ltac:(unfold POLL_MS; lia) ltac:(lia)) as Hq.
    by destruct (query_task_until_complete _ _ _ _ w) as [w1 [[[]|]|e]]. }
  intros w. unfold mbind, M_bind. specialize (Hcopy w).
  destruct (create_copy_and_wait _ _ _ _ _ w) as [w1 [[st|]|e]]; [|done..].
  destruct (assert_targets_have_replicas _ _ _ w1) as [w2 [pl|e]]; [|done]. destruct (stop_set ops w2) as [w3 [[]|e]]; [|done].
  destruct (join_both _ _ _ _ w3) as [w4 [[]|e]]; [|done]. by destruct (try_catch _ _ w4) as [w5 [[]|e]].
Qed.

(** ** A run over a store that keeps its promises *)

Definition plain_demo : DemoOps PlainWorld := mkDemoOps PlainWorld plain
  (fun _ _ => mret tt)
  (fun k _ _ seg w => (mkPlain ({[(k, seg)]} ∪ pw_placed w) (pw_open w) (pw_now w) (pw_task w), Ok 0))
  (fun n => mret (replicate (Z.to_nat n) 0))
  (mret "0123456789ab")
  (fun _ => mret tt)
  (fun w => (mkPlain (pw_placed w) (pw_open w) (pw_now w + 1) (pw_task w),
             Ok (Some (mkInfo (if pw_now w =? 0 then "10.0.0.1:10002" else "10.0.0.1:10001") true))))
  (fun _ => mret tt)
  (mret tt)
  (mret true)
  (fun _ _ => mret tt).
#[local] Instance plain_demo_contract : DemoContract plain_demo.
Proof. by split. Qed.

Definition run_demo : PlainWorld * result pexn (option Z) :=
  main plain_demo (fun _ => None) 241 (Some "10.0.0.1") (Ok []) ["--payload-bytes=4"; "--key"; "k"] (mkPlain ∅ false 0 T_PENDING).

Lemma demo_passes_placed_witness : ("k", "10.0.0.1:10002") ∈ pw_placed run_demo.1.
Proof.
  destruct (demo_passes_placed plain_demo (fun _ => None) 241 (Some "10.0.0.1") (Ok []) ["--payload-bytes=4"; "--key"; "k"]
    (mkPlain ∅ false 0 T_PENDING) run_demo.1) as [(ip & Hip & Hp)|(ip & d & key & Hip & Hp & _ & Hk & _ & Ht & _)].
  - vm_compute. reflexivity.
  - injection Hip as <-. vm_compute in Hp. discriminate.
  - injection Hip as <-. vm_compute in Hp. injection Hp as <-. rewrite (Hk eq_refl : key = "k") in Ht. exact Ht.
Defined.

(** A client that was told to stop closes its store. *)
Example stopped_client : client_main plain_demo 3 (mkClientArgs "h:1" "m:1" "tcp" "" 16 None None) (mkPlain ∅ false 0 T_PENDING)
  = (mkPlain ∅ false 0 T_PENDING, Ok true).
Proof. vm_compute. reflexivity. Qed.
