(* ===== verification/Admin.v ===== *)
(** * kvcm: the HTTP admin endpoints

    [kvcm/backends/mooncake/admin_main.py], [http_admin.py] and [topology.py]: building
    the requests, splitting long key lists over several of them, and decoding
    what the master answers.  The transport is a parameter: the body a GET of a
    path returns, or the exception it raises.  How a float literal compares with
    zero and how Python prints a value that is not a string are parameters. *)

From S2P Require Import Prelude PyDict PyStr KvcmTypes Json Instances Ledger Backend.
From Stdlib Require Import Ascii.
From stdpp Require Import pretty.
Local Open Scope Z_scope.

#[local] Arguments String.append !_ _ /.

(** ** Decoding *)

Record MemoryReplicaView : Type := mkView {
  mv_endpoint : string;
  mv_size : option Z;
  mv_protocol : option string;
  mv_address : option Z
}.

Record KeyReplicaQuery : Type := mkQuery {
  kq_key : string;
  kq_ok : bool;
  kq_error : option string;
  kq_memory : list MemoryReplicaView;
  kq_nof : list MemoryReplicaView;
  kq_disk : Z;
  kq_local_disk : Z;
  kq_local_endpoints : list string
}.

Record TenantQuotaSnapshot : Type := mkQuota {
  tq_tenant : string;
  tq_requested : Z;
  tq_effective : Z;
  tq_charged : Z;
  tq_closed : bool;
  tq_over : bool;
  tq_explicit : bool
}.

Record SegmentDetail : Type := mkDetail {
  sd_name : string;
  sd_endpoint : string;
  sd_protocol : string;
  sd_status : string
}.

Section decode.
(** [depth]: how many nested lists and objects the stack has room for. *)
Context (depth : nat) (float_zero : string -> bool) (py_repr : json -> string).

Abbreviation res := (result kexn).

(** [except json.JSONDecodeError]: the other two exceptions of the decoder pass.
    ([RecursionError] is a [RuntimeError].) *)
Definition load_object (body : string) : res (dict string json) :=
  match loads depth body with
  | Ok (JObj o) => Ok o
  | Ok _ => Raise KAdminMain
  | Raise JSyntax => Raise KAdminMain
  | Raise JDigits => Raise KValueError
  | Raise JDepth => Raise KRuntimeError
  end.

Definition require_success (o : dict string json) : res unit :=
  match jget "success" o with JBool true => Ok tt | _ => Raise KAdminMain end.

(** [bool(value)] *)
Definition truthy (v : json) : bool :=
  match v with
  | JNull => false
  | JBool b => b
  | JInt z => negb (z =? 0)
  | JFloat l => negb (float_zero l)
  | JStr s => negb (bool_decide (s = EmptyString))
  | JArr l => match l with [] => false | _ => true end
  | JObj o => match o with [] => false | _ => true end
  end.

Definition as_int (v : json) : option Z := match v with JInt z => Some z | _ => None end.
Definition as_str (v : json) : option string := match v with JStr s => Some s | _ => None end.

Fixpoint memory_views_of (l : list json) : res (list MemoryReplicaView) :=
  match l with
  | [] => Ok []
  | JObj d :: l =>
      match jget "transport_endpoint_" d with
      | JStr e =>
          if bool_decide (e = EmptyString) then Raise KAdminMain
          else vs ← memory_views_of l;
               Ok (mkView e (as_int (jget "size_" d)) (as_str (jget "protocol_" d)) (as_int (jget "buffer_address_" d)) :: vs)
      | _ => Raise KAdminMain
      end
  | _ :: _ => Raise KAdminMain
  end.
Definition memory_views (v : json) : res (list MemoryReplicaView) :=
  match v with JNull => Ok [] | JArr l => memory_views_of l | _ => Raise KAdminMain end.

Definition replica_count (v : json) : res Z :=
  match v with JNull => Ok 0 | JArr l => Ok (zlen l) | _ => Raise KAdminMain end.

(** The endpoint field has two spellings. *)
Definition disk_endpoint (d : dict string json) : json :=
  match jget "transport_endpoint" d with JNull => jget "transport_endpoint_" d | v => v end.

Fixpoint local_disk_of (l : list json) : res (list string) :=
  match l with
  | [] => Ok []
  | JObj d :: l =>
      found ← local_disk_of l;
      Ok (match disk_endpoint d with
          | JStr e => if bool_decide (e = EmptyString) then found else e :: found
          | _ => found
          end)
  | _ :: _ => Raise KAdminMain
  end.
Definition local_disk_endpoints (v : json) : res (list string) :=
  match v with JNull => Ok [] | JArr l => local_disk_of l | _ => Raise KAdminMain end.

Definition error_text (v : json) : res (option string) :=
  match v with JNull => Ok None | JStr s => Ok (Some s) | _ => Raise KAdminMain end.

Definition key_result (key : string) (item : json) : res KeyReplicaQuery :=
  match item with
  | JObj d =>
      let ok := truthy (jget "ok" d) in
      err ← error_text (jget "error" d);
      if ok then
        memory ← memory_views (jget "values" d);
        nof ← memory_views (jget "nof_values" d);
        locals ← replica_count (jget "local_disk_values" d);
        disks ← replica_count (jget "disk_values" d);
        eps ← local_disk_endpoints (jget "local_disk_values" d);
        Ok (mkQuery key true err memory nof (disks + locals) locals eps)
      else Ok (mkQuery key false err [] [] 0 0 [])
  | _ => Raise KAdminMain
  end.

Fixpoint key_results (data : dict string json) (out : dict string KeyReplicaQuery) : res (dict string KeyReplicaQuery) :=
  match data with
  | [] => Ok out
  | (k, item) :: data => q ← key_result k item; key_results data (dset k q out)
  end.

Definition parse_batch_query_keys (body : string) : res (dict string KeyReplicaQuery) :=
  o ← load_object body;
  _ ← require_success o;
  match jget "data" o with
  | JObj data => key_results data []
  | _ => Raise KAdminMain
  end.

(** A string with something besides white space. *)
Definition named (v : json) : res string :=
  match v with
  | JStr s => if bool_decide (strip s = EmptyString) then Raise KAdminMain else Ok (strip s)
  | _ => Raise KAdminMain
  end.

Fixpoint segment_rows (rows : list json) : res (list SegmentDetail) :=
  match rows with
  | [] => Ok []
  | JObj r :: rows =>
      name ← named (jget "segment_name" r);
      endpoint ← named (jget "te_endpoint" r);
      ds ← segment_rows rows;
      Ok (mkDetail name endpoint (default EmptyString (as_str (jget "protocol" r)))
            (default EmptyString (as_str (jget "status" r))) :: ds)
  | _ :: _ => Raise KAdminMain
  end.

Definition parse_segments_detail (body : string) : res (list SegmentDetail) :=
  o ← load_object body;
  match jget "segments" o with
  | JArr rows => segment_rows rows
  | _ => Raise KAdminMain
  end.

Definition u64 (v : json) : res Z :=
  match v with JInt z => if z <? 0 then Raise KAdminMain else Ok z | _ => Raise KAdminMain end.

(** [row[k]]; a missing key is reported like a bad field. *)
Definition field (k : string) (r : dict string json) : res json :=
  match dget k r with Some v => Ok v | None => Raise KAdminMain end.

Definition py_text (v : json) : string := match v with JStr s => s | JInt z => py_str z | _ => py_repr v end.

Definition quota (row : json) : res TenantQuotaSnapshot :=
  match row with
  | JObj r =>
      tenant ← field "tenant_id" r;
      rq ← field "requested_quota_bytes" r; requested ← u64 rq;
      ef ← field "effective_quota_bytes" r; effective ← u64 ef;
      ch ← field "charged_bytes" r; charged ← u64 ch;
      closed ← field "admission_closed" r;
      over ← field "over_quota" r;
      explicit ← field "has_explicit_policy" r;
      Ok (mkQuota (py_text tenant) requested effective charged (truthy closed) (truthy over) (truthy explicit))
  | _ => Raise KAdminMain
  end.

Definition parse_tenant_quotas (body : string) : res (list TenantQuotaSnapshot) :=
  o ← load_object body;
  _ ← require_success o;
  match jget "data" o with
  | JObj d => Db.collect quota [JObj d]
  | JArr rows => Db.collect quota rows
  | _ => Raise KAdminMain
  end.

(** ** Checking the configured segments *)

(** [{d.segment_name: d for d in details}] *)
Definition by_name (details : list SegmentDetail) : dict string SegmentDetail :=
  foldl (fun m d => dset (sd_name d) d m) [] details.

(** The configured names without a segment, and those whose endpoint differs. *)
Fixpoint check_segs (configured : list string) (seen : list string) (m : dict string SegmentDetail) :
    list string * list string :=
  match configured with
  | [] => ([], [])
  | raw :: configured =>
      let seg := strip raw in
      if bool_decide (seg = EmptyString) || bool_decide (seg ∈ seen) then check_segs configured seen m
      else
        let '(missing, mismatched) := check_segs configured (seg :: seen) m in
        match dget seg m with
        | None => (seg :: missing, mismatched)
        | Some row => if bool_decide (sd_endpoint row = seg) then (missing, mismatched) else (missing, seg :: mismatched)
        end
  end.

Definition validate_configured_segs (configured : list string) (details : list SegmentDetail) : res unit :=
  match check_segs configured [] (by_name details) with
  | ([], []) => Ok tt
  | _ => Raise KAdminMain
  end.

(** ** Requests *)

(** [urllib.parse.quote]: unreserved characters and those of [safe] stay. *)
Definition unreserved (c : ascii) : bool :=
  let n := code_of c in
  ((65 <=? n) && (n <=? 90)) || ((97 <=? n) && (n <=? 122)) || ((48 <=? n) && (n <=? 57)) ||
  bool_decide (c = "_"%char) || bool_decide (c = "."%char) || bool_decide (c = "-"%char) || bool_decide (c = "~"%char).

Definition hex_digit (n : Z) : ascii := char_of (if n <? 10 then 48 + n else 55 + n).

Fixpoint quote (safe : ascii -> bool) (s : string) : string :=
  match s with
  | EmptyString => EmptyString
  | String c r =>
      if unreserved c || safe c then String c (quote safe r)
      else String "%" (String (hex_digit (code_of c / 16)) (String (hex_digit (code_of c mod 16)) (quote safe r)))
  end.

Definition no_safe (c : ascii) : bool := false.

Definition batch_query_path (keys : list string) : string :=
  "/batch_query_keys?keys=" +:+ String.concat "," (quote no_safe <$> keys).

Definition MAX_BATCH_QUERY_REQUEST_BYTES : Z := 8192.

Definition request_line_len (keys : list string) : Z :=
  4 + Z.of_nat (String.length (batch_query_path keys)) + 9.

(** The transport: [MainlineAdmin._get]. *)
Context (get : string -> res string).

Definition fetch_batch_query (keys : list string) : res (dict string KeyReplicaQuery) :=
  body ← get (batch_query_path keys); parse_batch_query_keys body.

(** [dict.update] *)
Definition dupdate {V} (m d : dict string V) : dict string V := foldl (fun m kv => dset kv.1 kv.2 m) m d.

(** The loop over the keys: the batch in hand and what was merged so far. *)
Fixpoint batch_loop (keys batch : list string) (merged : dict string KeyReplicaQuery) : res (dict string KeyReplicaQuery) :=
  match keys with
  | [] => d ← fetch_batch_query batch; Ok (dupdate merged d)
  | k :: keys =>
      let candidate := batch ++ [k] in
      match batch with
      | [] => batch_loop keys candidate merged
      | _ :: _ =>
          if MAX_BATCH_QUERY_REQUEST_BYTES <? request_line_len candidate then
            (d ← fetch_batch_query batch; batch_loop keys [k] (dupdate merged d))
          else batch_loop keys candidate merged
      end
  end.

Definition batch_query_keys (keys : list string) : res (dict string KeyReplicaQuery) :=
  match keys with [] => Raise KAdminMain | _ => batch_loop keys [] [] end.

Definition get_tenant_quotas (tenant : option string) : res (list TenantQuotaSnapshot) :=
  match tenant with
  | None => body ← get "/api/v1/tenant_quotas"; parse_tenant_quotas body
  | Some t =>
      if bool_decide (t = EmptyString) then Raise KAdminMain
      else body ← get ("/api/v1/tenant_quotas?tenant_id=" +:+ quote no_safe t); parse_tenant_quotas body
  end.

Definition get_segments_detail : res (list SegmentDetail) :=
  body ← get "/get_segments_detail"; parse_segments_detail body.

(** ** Segment capacity *)

Definition is_ws (c : ascii) : bool := is_space c.

(** [\s*$] in multi-line mode: white space up to the end of a line. *)
Fixpoint line_end (s : string) : bool :=
  match s with
  | EmptyString => true
  | String c r => bool_decide (c = "010"%char) || (is_ws c && line_end r)
  end.

Fixpoint skip_space (s : string) : string :=
  match s with
  | String c r => if is_ws c then skip_space r else s
  | EmptyString => EmptyString
  end.

(** [label \s* : \s* (\d+) \s* $] at the start of [s]; [gap]: white space is allowed
    before the colon. *)
Definition match_field (label : string) (gap : bool) (s : string) : option Z :=
  match after label s with
  | None => None
  | Some r =>
      match (if gap then skip_space r else r) with
      | String c r1 =>
          if bool_decide (c = ":"%char) then
            match scan_nat (skip_space r1) with
            | Some (n, r2) => if line_end r2 then Some (Z.of_N n) else None
            | None => None
            end
          else None
      | EmptyString => None
      end
  end.

(** [re.search] with [^] in multi-line mode: the first line that matches. *)
Fixpoint search_field (label : string) (gap at_start : bool) (s : string) : option Z :=
  match (if at_start then match_field label gap s else None) with
  | Some n => Some n
  | None =>
      match s with
      | EmptyString => None
      | String c r => search_field label gap (bool_decide (c = "010"%char)) r
      end
  end.

(** The numbers are read whatever their length ([int] refuses more than 4300 digits). *)
Definition parse_query_segment (body : string) : option (Z * Z) :=
  match search_field "Used(bytes)" false true body, search_field "Capacity(bytes)" true true body with
  | Some u, Some c => Some (u, c)
  | _, _ => None
  end.

Definition NOT_FOUND_BODY : string := "Failed to query segment".
Definition segment_safe (c : ascii) : bool :=
  bool_decide (c = ":"%char) || bool_decide (c = "/"%char) || bool_decide (c = "["%char) || bool_decide (c = "]"%char).

(** [_read]: status and body, or the exception when there is no connection. *)
Context (read : string -> res (Z * string)).

Definition query_segment (segment : string) : res (Z * Z) :=
  sb ← read ("/query_segment?segment=" +:+ quote segment_safe segment);
  let '(status, body) := sb in
  if bool_decide (strip body = NOT_FOUND_BODY) || (status =? 404) then Raise KSegmentNotFound
  else if 500 <=? status then Raise (KAdmin (Some status))
  else match parse_query_segment body with
       | None => Raise (KAdmin (Some status))
       | Some uc => Ok uc
       end.

(** The separators of [str.splitlines] in ASCII. *)
Definition line_break (c : ascii) : bool :=
  let n := code_of c in ((10 <=? n) && (n <=? 13)) || ((28 <=? n) && (n <=? 30)).

(** [SegTopology.segments]: the non-blank lines of the answer. *)
Fixpoint split_lines (s : string) : list string :=
  match s with
  | EmptyString => [EmptyString]
  | String c r =>
      if line_break c then EmptyString :: split_lines r
      else match split_lines r with a :: l => String c a :: l | [] => [String c EmptyString] end
  end.
Definition segments (get_text : string -> res string) : res (list string) :=
  body ← get_text "/get_all_segments";
  match filter (fun l => l <> EmptyString) (strip <$> split_lines body) with
  | [] => Raise KRuntimeError
  | l => Ok l
  end.

(** ** The requests of a long key list *)

(** The batches the loop sends. *)
Fixpoint split_batches (keys batch : list string) : list (list string) :=
  match keys with
  | [] => [batch]
  | k :: keys =>
      match batch with
      | [] => split_batches keys [k]
      | _ :: _ =>
          if MAX_BATCH_QUERY_REQUEST_BYTES <? request_line_len (batch ++ [k]) then batch :: split_batches keys [k]
          else split_batches keys (batch ++ [k])
      end
  end.

(** One request after the other, merging the answers. *)
Fixpoint fetch_all (bs : list (list string)) (merged : dict string KeyReplicaQuery) : res (dict string KeyReplicaQuery) :=
  match bs with
  | [] => Ok merged
  | b :: bs => d ← fetch_batch_query b; fetch_all bs (dupdate merged d)
  end.

Lemma batch_loop_split keys : forall batch merged, batch_loop keys batch merged = fetch_all (split_batches keys batch) merged.
Proof.
  induction keys as [|k keys IH]; intros batch merged; [done|]. cbn [batch_loop split_batches].
  destruct batch as [|b batch]; [apply IH|]. destruct (_ <? _); [|apply IH].
  cbn [fetch_all]. unfold mbind, result_bind. destruct (fetch_batch_query (b :: batch)); [apply IH|done].
Qed.

(** A request that is short enough or cannot be split. *)
Definition request_ok (b : list string) : Prop :=
  b <> [] /\ (request_line_len b <= MAX_BATCH_QUERY_REQUEST_BYTES \/ exists k, b = [k]).

Lemma split_batches_ok keys : forall batch, request_ok batch \/ (batch = [] /\ keys <> []) ->
  concat (split_batches keys batch) = batch ++ keys /\ Forall request_ok (split_batches keys batch).
Proof.
  induction keys as [|k keys IH]; intros batch Hb.
  { destruct Hb as [Hb|[_ ?]]; [|done]. simpl. rewrite !app_nil_r. split; [done|]. by constructor. }
  cbn [split_batches]. assert (Hk : request_ok [k]) by (split; [done|right; eauto]).
  destruct batch as [|b batch]; [by apply IH; left|]. destruct Hb as [Hb|[? _]]; [|done].
  destruct (MAX_BATCH_QUERY_REQUEST_BYTES <? request_line_len ((b :: batch) ++ [k])) eqn:E; zbool.
  - destruct (IH [k] (or_introl Hk)) as [Hc Hf]. cbn [concat]. rewrite Hc. split; [done|]. by constructor.
  - destruct (IH ((b :: batch) ++ [k])) as [Hc Hf]; [left; split; [done|by left]|]. split; [|done].
    by rewrite Hc, <- app_assoc.
Qed.

(** [urllib.parse.unquote] of what [quote] writes. *)
Fixpoint unquote (s : string) : option string :=
  match s with
  | EmptyString => Some EmptyString
  | String c r =>
      if bool_decide (c = "%"%char) then
        match r with
        | String a (String b r') =>
            match hex_val a, hex_val b, unquote r' with
            | Some x, Some y, Some t => Some (String (char_of (x * 16 + y)) t)
            | _, _, _ => None
            end
        | _ => None
        end
      else match unquote r with Some t => Some (String c t) | None => None end
  end.

Lemma code_bounds c : 0 <= code_of c < 256.
Proof. unfold code_of. pose proof (N_ascii_bounded c). lia. Qed.

Lemma char_of_code c : char_of (code_of c) = c.
Proof. unfold char_of, code_of. by rewrite N2Z.id, ascii_N_embedding. Qed.

Lemma code_of_char n : 0 <= n < 256 -> code_of (char_of n) = n.
Proof. intros Hn. unfold char_of, code_of. rewrite N_ascii_embedding by lia. lia. Qed.

Lemma hex_val_digit n : 0 <= n < 16 -> hex_val (hex_digit n) = Some n.
Proof.
  intros Hn. unfold hex_digit, hex_val. destruct (n <? 10) eqn:E; zbool; rewrite code_of_char by lia.
  - rewrite (proj2 (Z.leb_le 48 _)), (proj2 (Z.leb_le _ 57)) by lia. simpl. f_equal. lia.
  - rewrite (proj2 (Z.leb_gt _ 57)) by lia. rewrite andb_false_r.
    rewrite (proj2 (Z.leb_le 65 _)), (proj2 (Z.leb_le _ 70)) by lia. simpl. f_equal. lia.
Qed.

Lemma unquote_quote s : unquote (quote no_safe s) = Some s.
Proof.
  induction s as [|c s IH]; [done|]. cbn [quote]. destruct (unreserved c || no_safe c) eqn:E.
  - cbn [unquote]. rewrite bool_decide_eq_false_2 by (intros ->; done). by rewrite IH.
  - cbn [unquote]. rewrite bool_decide_eq_true_2 by done. pose proof (code_bounds c) as Hc.
    rewrite !hex_val_digit, IH by (split; [apply Z.div_pos || apply Z.mod_pos_bound|apply Z.div_lt_upper_bound || apply Z.mod_pos_bound]; lia).
    rewrite (Z.mul_comm (code_of c / 16)), <- Z_div_mod_eq_full, char_of_code. done.
Qed.

Lemma quote_lacks_comma s : lacks "," (quote no_safe s) = true.
Proof.
  induction s as [|c s IH]; [done|]. cbn [quote]. destruct (unreserved c || no_safe c) eqn:E; cbn [lacks].
  - rewrite IH, bool_decide_eq_false_2 by (intros ->; done). done.
  - rewrite IH, !bool_decide_eq_false_2; [done|..]; try done.
    + intros Hd. assert (Hn : code_of (hex_digit (code_of c mod 16)) = 44) by (by rewrite Hd).
      pose proof (Z.mod_pos_bound (code_of c) 16 ltac:(lia)). unfold hex_digit in Hn.
      destruct (_ <? 10) eqn:E2; zbool; rewrite code_of_char in Hn by lia; lia.
    + intros Hd. assert (Hn : code_of (hex_digit (code_of c / 16)) = 44) by (by rewrite Hd).
      pose proof (code_bounds c). assert (0 <= code_of c / 16 < 16) by (split; [apply Z.div_pos|apply Z.div_lt_upper_bound]; lia).
      unfold hex_digit in Hn. destruct (_ <? 10) eqn:E2; zbool; rewrite code_of_char in Hn by lia; lia.
Qed.

Fixpoint unquote_all (l : list string) : option (list string) :=
  match l with
  | [] => Some []
  | s :: l => match unquote s, unquote_all l with Some t, Some ts => Some (t :: ts) | _, _ => None end
  end.
(** What the server reads from the request. *)
Definition keys_of_path (path : string) : option (list string) :=
  match after "/batch_query_keys?keys=" path with
  | Some q => unquote_all (split_all "," q)
  | None => None
  end.

Lemma path_roundtrip keys : keys <> [] -> keys_of_path (batch_query_path keys) = Some keys.
Proof.
  intros Hk. unfold keys_of_path, batch_query_path. cbn [after String.append]. rewrite !bool_decide_eq_true_2 by done.
  change (after EmptyString ?q) with (Some q). cbv beta iota. rewrite split_concat.
  - clear Hk. induction keys as [|k keys IH]; [done|]. cbn [fmap list_fmap unquote_all]. by rewrite unquote_quote, IH.
  - by destruct keys.
  - apply Forall_fmap, Forall_true. intros k. apply quote_lacks_comma.
Qed.

(** C27. Long key lists: a query of any non-empty list of keys is sent as requests that
    together name exactly those keys, in order, each request line within 8192
    bytes unless it holds a single key; the server decodes from each path the
    keys that were put into it, and the answers are merged in that order, the
    first failing request failing the query. *)
Theorem batch_query_bounded keys : keys <> [] ->
  exists bs, concat bs = keys /\ Forall request_ok bs /\ batch_query_keys keys = fetch_all bs [] /\
    Forall (fun b => keys_of_path (batch_query_path b) = Some b) bs.
Proof.
  intros Hk. exists (split_batches keys []). destruct (split_batches_ok keys [] (or_intror (conj eq_refl Hk))) as [Hc Hf].
  split_and!; [done|done| |].
  - unfold batch_query_keys. destruct keys; [done|]. apply batch_loop_split.
  - eapply Forall_impl; [exact Hf|]. intros b [Hb _]. by apply path_roundtrip.
Qed.

(** ** Decoded answers are well formed *)

Record query_wf (k : string) (q : KeyReplicaQuery) : Prop := {
  qw_key : kq_key q = k;
  qw_failed : kq_ok q = false -> kq_memory q = [] /\ kq_nof q = [] /\ kq_disk q = 0 /\ kq_local_endpoints q = [];
  qw_memory : Forall (fun v => mv_endpoint v <> EmptyString) (kq_memory q ++ kq_nof q);
  qw_disks : zlen (kq_local_endpoints q) <= kq_local_disk q <= kq_disk q;
  qw_locals : Forall (fun e => e <> EmptyString) (kq_local_endpoints q)
}.

Lemma memory_views_typed v : match memory_views v with
  | Ok vs => Forall (fun v => mv_endpoint v <> EmptyString) vs
  | Raise x => x = KAdminMain
  end.
Proof.
  destruct v as [| | | | |l|]; try done; [by constructor|]. cbn [memory_views].
  induction l as [|x l IH]; [by constructor|]. cbn [memory_views_of].
  destruct x as [| | | | | |d]; try done. destruct (jget "transport_endpoint_" d); try done.
  case_bool_decide; [done|]. unfold mbind, result_bind. destruct (memory_views_of l); [by constructor|done].
Qed.

Lemma replica_count_typed v : match replica_count v with
  | Ok n => 0 <= n
  | Raise x => x = KAdminMain
  end.
Proof. destruct v; try done. simpl. lia. Qed.

Lemma local_disk_typed v : match local_disk_endpoints v with
  | Ok es => Forall (fun e => e <> EmptyString) es /\ exists n, replica_count v = Ok n /\ zlen es <= n
  | Raise x => x = KAdminMain
  end.
Proof.
  destruct v as [| | | | |l|]; try done; [by split; [constructor|exists 0]|]. cbn [local_disk_endpoints replica_count].
  induction l as [|x l IH]; [by split; [constructor|exists 0]|]. cbn [local_disk_of]. destruct x as [| | | | | |d]; try done.
  unfold mbind, result_bind. destruct (local_disk_of l) as [es|y]; [|done]. destruct IH as (Hf&n&[= <-]&Hn).
  assert (Hskip : Forall (fun e => e <> EmptyString) es /\ exists n, Ok (zlen (JObj d :: l)) = Ok n :> res Z /\ zlen es <= n)
    by (split; [done|]; eexists; split; [done|]; simpl; lia).
  destruct (disk_endpoint d); try done. case_bool_decide; [done|]. split; [by constructor|]. eexists. split; [done|]. simpl. lia.
Qed.

Lemma key_result_typed k item : match key_result k item with
  | Ok q => query_wf k q
  | Raise x => x = KAdminMain
  end.
Proof.
  destruct item as [| | | | | |d]; try done. cbn [key_result]. unfold mbind, result_bind.
  destruct (error_text (jget "error" d)) as [err|x] eqn:Ee; [|by destruct (jget "error" d); simplify_eq/=].
  destruct (truthy (jget "ok" d)); [|by split; simpl].
  pose proof (memory_views_typed (jget "values" d)) as H1. destruct (memory_views _) as [mem|]; [|done].
  pose proof (memory_views_typed (jget "nof_values" d)) as H2. destruct (memory_views (jget "nof_values" d)) as [nof|]; [|done].
  pose proof (replica_count_typed (jget "local_disk_values" d)) as H3.
  pose proof (replica_count_typed (jget "disk_values" d)) as H4.
  pose proof (local_disk_typed (jget "local_disk_values" d)) as H5.
  destruct (replica_count (jget "local_disk_values" d)) as [n|]; [|done]. destruct (replica_count (jget "disk_values" d)) as [m|]; [|done].
  destruct (local_disk_endpoints _) as [es|]; [|done]. destruct H5 as (Hf&n'&[= <-]&Hn).
  split; simpl; try done; [by apply Forall_app|lia].
Qed.

(** The exceptions of [json.loads] that [_load_object] does not translate. *)
Definition escapes (body : string) (x : kexn) : Prop :=
  (x = KValueError /\ loads depth body = Raise JDigits) \/ (x = KRuntimeError /\ loads depth body = Raise JDepth).


(** ** Configured segments *)

Definition seg_ok (m : dict string SegmentDetail) (seg : string) : Prop :=
  exists d, dget seg m = Some d /\ sd_endpoint d = seg.

Lemma check_segs_spec m configured : forall seen, (forall s, s ∈ seen -> seg_ok m s) ->
  check_segs configured seen m = ([], []) <->
  forall raw, raw ∈ configured -> strip raw <> EmptyString -> seg_ok m (strip raw).
Proof.
  induction configured as [|raw configured IH]; intros seen Hseen; [split; [by intros _ ? ?%elem_of_nil|done]|].
  cbn [check_segs]. destruct (bool_decide (strip raw = EmptyString) || bool_decide (strip raw ∈ seen)) eqn:E.
  - rewrite IH by done. split; intros Hall raw' Hin Hne; [|by apply Hall; [right|]].
    apply elem_of_cons in Hin as [->|Hin]; [|by apply Hall]. apply orb_true_iff in E as [E|E]; apply bool_decide_eq_true in E; [done|].
    by apply Hseen.
  - apply orb_false_iff in E as [Ene _]. apply bool_decide_eq_false in Ene. split.
    + destruct (check_segs configured (strip raw :: seen) m) as [mis mm] eqn:Ec.
      destruct (dget (strip raw) m) as [row|] eqn:Er; [|done]. case_bool_decide as Heq; [|done]. intros [= -> ->].
      assert (Hs : seg_ok m (strip raw)) by (by exists row).
      intros raw' [->|Hin]%elem_of_cons Hne; [done|]. apply (IH (strip raw :: seen)); try done.
      intros s [->|Hs']%elem_of_cons; [done|by apply Hseen].
    + intros Hall. destruct (Hall raw (list_elem_of_here _ _) Ene) as (row&Er&Heq).
      assert (Ec : check_segs configured (strip raw :: seen) m = ([], [])).
      { apply IH; [|intros; apply Hall; [by right|done]]. intros s [->|Hs']%elem_of_cons; [by exists row|by apply Hseen]. }
      rewrite Ec, Er. by rewrite bool_decide_eq_true_2.
Qed.

(** The start-up check accepts exactly the configurations whose every segment is
    mounted under its own transport endpoint, which is what verification of
    replicas compares with; otherwise it raises [AdminMainError]. *)
Theorem validate_segs_iff configured details :
  (validate_configured_segs configured details = Ok tt <->
   forall raw, raw ∈ configured -> strip raw <> EmptyString -> seg_ok (by_name details) (strip raw)) /\
  (validate_configured_segs configured details = Ok tt \/ validate_configured_segs configured details = Raise KAdminMain).
Proof.
  pose proof (check_segs_spec (by_name details) configured [] ltac:(by intros s Hs%elem_of_nil)) as Hc.
  unfold validate_configured_segs. destruct (check_segs configured [] (by_name details)) as [[|] [|]]; split;
    try (by left); try (by right); rewrite <- Hc; split; congruence.
Qed.

(** ** The capacity text *)

Lemma scan_space_number n t : 0 <= n -> no_digit t -> scan_nat (skip_space (String " " (py_str n +:+ t))) = Some (Z.to_N n, t).
Proof.
  intros Hn Ht. rewrite pretty_Z_nonneg by done. destruct (pretty_N_head (Z.to_N n)) as (c&r&E&Hd).
  assert (skip_space (String " " (pretty (Z.to_N n) +:+ t)) = pretty (Z.to_N n) +:+ t) as ->.
  { rewrite E. change (skip_space (String " " (String c r +:+ t))) with (if is_ws c then skip_space (r +:+ t) else String c (r +:+ t)).
    destruct (is_ws c) eqn:Ew; [|done]. exfalso. revert Hd Ew. unfold is_ws, is_space, is_digit, digit_val.
    destruct c as [[] [] [] [] [] [] [] []]; vm_compute; congruence. }
  by apply scan_pretty_N.
Qed.

(** The two lines the master writes. *)
Definition segment_text (used capacity : Z) : string :=
  "Used(bytes): " +:+ py_str used +:+ String "010" ("Capacity(bytes) : " +:+ py_str capacity +:+ String "010" EmptyString).

Lemma search_skips label gap s : forall u, lacks "010" u = true ->
  (forall v, match_field label gap (String "010" v) = None) ->
  search_field label gap false (u +:+ String "010" s) = search_field label gap true s.
Proof.
  induction u as [|c u IH]; intros Hu Hn; [done|]. cbn [lacks] in Hu. apply andb_true_iff in Hu as [Hc Hu]. apply negb_true_iff in Hc.
  simpl. rewrite Hc. by apply IH.
Qed.

Lemma search_first_line label gap s n : match_field label gap s = Some n -> search_field label gap true s = Some n.
Proof. intros E. destruct s; cbn [search_field]; by rewrite E. Qed.

Theorem segment_text_roundtrip used capacity : 0 <= used -> 0 <= capacity ->
  parse_query_segment (segment_text used capacity) = Some (used, capacity).
Proof.
  intros Hu Hc. unfold parse_query_segment, segment_text.
  assert (E1 : search_field "Used(bytes)" false true ("Used(bytes): " +:+ py_str used +:+
    String "010" ("Capacity(bytes) : " +:+ py_str capacity +:+ String "010" EmptyString)) = Some used).
  { apply search_first_line. unfold match_field.
    change (after "Used(bytes)" ("Used(bytes): " +:+ ?r)) with (Some (String ":" (String " " r))). cbv beta iota.
    rewrite bool_decide_eq_true_2 by done. rewrite scan_space_number by done. simpl. by rewrite Z2N.id. }
  rewrite E1.
  assert (E2 : search_field "Capacity(bytes)" true true ("Used(bytes): " +:+ py_str used +:+
    String "010" ("Capacity(bytes) : " +:+ py_str capacity +:+ String "010" EmptyString)) = Some capacity).
  { change ("Used(bytes): " +:+ ?r) with (String "U" ("sed(bytes): " +:+ r)). cbn [search_field].
    change (match_field "Capacity(bytes)" true (String "U" ?r)) with (@None Z). cbv beta iota.
    change (bool_decide ("U"%char = "010"%char)) with false.
    rewrite <- string_app_assoc. rewrite search_skips.
    - apply search_first_line. unfold match_field.
      change (after "Capacity(bytes)" ("Capacity(bytes) : " +:+ ?r)) with (Some (String " " (String ":" (String " " r)))).
      cbv beta iota. change (skip_space (String " " (String ":" ?r))) with (String ":" r). cbv beta iota.
      rewrite bool_decide_eq_true_2 by done. rewrite scan_space_number by done. simpl. by rewrite Z2N.id.
    - rewrite lacks_app, lacks_py_str by done. done.
    - done. }
  by rewrite E2.
Qed.

End decode.

Lemma batch_query_bounded_witness :
  let get := fun _ : string => Ok ("{" +:+ String "034" ("success" +:+ String "034" (":false}"))) in
  exists bs, concat bs = ["a,b"; "c"] /\ batch_query_keys 990 (fun _ => false) get ["a,b"; "c"] = fetch_all 990 (fun _ => false) get bs [].
Proof.
  intros get. destruct (batch_query_bounded 990 (fun _ => false) get ["a,b"; "c"]) as (bs&Hc&_&Hb&_); [discriminate|].
  by exists bs.
Defined.

(** Defect: an answer with an integer of 4301 digits raises [ValueError] out of the
    decoder, one nested deeper than the stack [RecursionError]; neither is the
    [AdminMainError] that callers handle. *)
Definition digits_body : string :=
  "{" +:+ String "034" ("n" +:+ String "034" (":" +:+ String.concat EmptyString (replicate 4301 "1") +:+ "}")).
Definition nested_body (n : nat) : string :=
  "{" +:+ String "034" ("n" +:+ String "034" (":" +:+ String.concat EmptyString (replicate n "["))).
Theorem decoder_errors_escape :
  parse_batch_query_keys 990 (fun _ => false) digits_body = Raise KValueError /\
  parse_batch_query_keys 990 (fun _ => false) (nested_body 990) = Raise KRuntimeError /\
  parse_batch_query_keys 990 (fun _ => false) (nested_body 989) = Raise KAdminMain.
Proof. vm_compute. done. Qed.

(** ** The transport of [AdminClient]

    What [urllib.request.urlopen] does with an URL: an answer, an answer with an error
    status, or any other exception (no connection, a body that is not UTF-8). *)

Inductive http_answer : Type := HAnswer (status : Z) (body : string) | HError (code : Z) (body : string) | HDown.

Fixpoint lstrip_slash (s : string) : string :=
  match s with String "/" s => lstrip_slash s | _ => s end.

Section transport.
Context (urlopen : string -> http_answer) (base : string).

Definition get_text (path : string) : result kexn string :=
  match urlopen (base +:+ "/" +:+ lstrip_slash path) with
  | HAnswer _ body => Ok body
  | HError _ _ | HDown => Raise (KAdmin None)
  end.
Definition read (path : string) : result kexn (Z * string) :=
  match urlopen (base +:+ "/" +:+ lstrip_slash path) with
  | HAnswer status body => Ok (status, body)
  | HError code body => Ok (code, body)
  | HDown => Raise (KAdmin None)
  end.

(** The room of a segment over HTTP: without a connection the error has no status, which
    the backend takes for a temporary failure; an answer gives the room, says that there
    is no such segment, or is an error with its status. *)
Lemma query_segment_http segment :
  match urlopen (base +:+ "/" +:+ lstrip_slash ("/query_segment?segment=" +:+ quote segment_safe segment)) with
  | HDown => query_segment read segment = Raise (KAdmin None)
  | HAnswer st body | HError st body =>
      match query_segment read segment with
      | Ok uc => parse_query_segment body = Some uc /\ st < 500
      | Raise KSegmentNotFound => strip body = NOT_FOUND_BODY \/ st = 404
      | Raise x => x = KAdmin (Some st)
      end
  end.
Proof.
  unfold query_segment, read. destruct (urlopen _) as [st body|st body|]; [..|done]; cbn [mbind result_bind];
    (destruct (_ || _) eqn:E; [apply orb_true_iff in E as [E|E]; [left; by apply bool_decide_eq_true in E|right; by apply Z.eqb_eq]|];
     destruct (Z.leb_spec 500 st); [done|]; by destruct (parse_query_segment body)).
Qed.
End transport.
