(* ===== verification/StoreClient.v ===== *)
(** * kvcm: the store client and the intent service

    [kvcm/backends/mooncake/client.py]: what the bindings return, checked and turned
    into plain values.  The bindings are third-party code: their answers are
    arguments.  [kvcm/api/grpc_server.py]: the two calls of the intent service,
    over the task engine. *)

From S2P Require Import Prelude PyDict PyStr KvcmTypes Ledger Keys Backend Intents.

(** A code of [batch_is_exist]. *)
Inductive ecode : Type := EBool (b : bool) | EInt (z : Z).

(** The attribute [is_memory_replica] of a descriptor: absent, a value, or a method
    with what it returns or raises. *)
Inductive pred_attr : Type := PAbsent | PValue (b : bool) | PMethod (r : result kexn bool).

(** An attribute of a buffer descriptor. *)
Inductive attr : Type := AInt (z : Z) | ABoolean (b : bool) | ACallable | AOther.

Record Buffer : Type := mkBuffer {
  buf_endpoint : string;
  buf_attrs : dict string attr
}.
Record Descriptor : Type := mkDescriptor {
  desc_memory : pred_attr;
  desc_buffer : Buffer
}.

(** What [batch_get_replica_desc] returns: a mapping or a list in key order; a key
    may have no list. *)
Inductive replica_descs : Type :=
| DMap (d : dict string (option (list Descriptor)))
| DList (l : list (option (list Descriptor))).

Module Client.

(** ** Life cycle: whether the client holds a connected store *)

(** [rc]: what [setup] returns. *)
Definition connect (rc : Z) : M bool kexn unit := fun connected =>
  if connected then (connected, Raise KStoreClient)
  else if rc =? 0 then (true, Ok tt) else (connected, Raise KStoreClient).
Definition close : M bool kexn unit := modify (fun _ => false).

(** [_s()] *)
Definition store (connected : bool) : result kexn unit := if connected then Ok tt else Raise KStoreClient.

(** ** Existence *)

Definition entry_exists (e : ecode) : result kexn bool :=
  match e with
  | EBool b => Ok b
  | EInt z => if z =? 1 then Ok true else if z =? 0 then Ok false else Raise KStoreClient
  end.

Definition is_code (e : ecode) : bool :=
  match e with EBool _ => true | EInt z => (z =? 0) || (z =? 1) end.

Definition is_exist (connected : bool) (raw : list string -> list ecode) (keys : list string) : result kexn (list bool) :=
  _ ← store connected;
  let r := raw keys in
  match filter (fun ke : string * ecode => is_code ke.2 = false) (zip keys r) with
  | _ :: _ => Raise KStoreClient
  | [] => Db.collect entry_exists r
  end.

(** ** Tasks *)

Definition create_copy_task (connected : bool) (answer : TaskId * Z) : result kexn TaskId :=
  _ ← store connected; if answer.2 =? 0 then Ok answer.1 else Raise KStoreClient.
Definition create_move_task (connected : bool) (answer : TaskId * Z) : result kexn TaskId :=
  _ ← store connected; if answer.2 =? 0 then Ok answer.1 else Raise KStoreClient.
Definition query_task {R} (connected : bool) (answer : R * Z) : result kexn R :=
  _ ← store connected; if answer.2 =? 0 then Ok answer.1 else Raise KStoreClient.

(** ** Removal *)

Definition batch_remove (connected : bool) (raw : list string -> list Z) (keys : list string) : result kexn (list Z) :=
  _ ← store connected;
  let r := raw keys in
  if negb (zlen r =? zlen keys) then Raise KStoreClient
  else match filter (fun krc : string * Z => krc.2 <> 0) (zip keys r) with
       | _ :: _ => Raise KStoreClient
       | [] => Ok r
       end.

(** ** Replica descriptors *)

Definition is_memory_replica (d : Descriptor) : result kexn bool :=
  match desc_memory d with PAbsent => Raise KStoreClient | PValue b => Ok b | PMethod r => r end.

(** The lenient variant: anything unreadable is no memory replica. *)
Definition is_memory_replica' (d : Descriptor) : bool :=
  match desc_memory d with PValue b | PMethod (Ok b) => b | _ => false end.

Definition byte_count (a : option attr) : option Z :=
  match a with Some (AInt z) => if z <? 0 then None else Some z | _ => None end.
Definition buffer_size (b : Buffer) : option Z :=
  match byte_count (dget "size" (buf_attrs b)) with
  | Some z => Some z
  | None => byte_count (dget "size_" (buf_attrs b))
  end.

(** [descs.items() if isinstance(descs, dict) else zip(keys, descs)] *)
Definition desc_items (keys : list string) (ds : replica_descs) : list (string * option (list Descriptor)) :=
  match ds with DMap d => d | DList l => zip keys l end.

Definition empty_rows {A} (keys : list string) : dict string (list A) := foldl (fun d k => dset k [] d) [] keys.

(** Endpoints of the memory replicas of one key. *)
Fixpoint memory_endpoints (l : list Descriptor) : result kexn (list string) :=
  match l with
  | [] => Ok []
  | d :: l => b ← is_memory_replica d; es ← memory_endpoints l; Ok (if (b : bool) then buf_endpoint (desc_buffer d) :: es else es)
  end.

Fixpoint endpoint_rows (items : list (string * option (list Descriptor))) (out : dict string (list string)) :
    result kexn (dict string (list string)) :=
  match items with
  | [] => Ok out
  | (k, rs) :: items => es ← memory_endpoints (default [] rs); endpoint_rows items (dset k es out)
  end.

Definition batch_memory_replica_endpoints (connected : bool) (ds : list string -> replica_descs) (keys : list string) :
    result kexn (dict string (list string)) :=
  _ ← store connected; endpoint_rows (desc_items keys (ds keys)) (empty_rows keys).

Definition size_row (d : Descriptor) : option ReplicaRow :=
  if is_memory_replica' d then Some (mkReplicaRow (buf_endpoint (desc_buffer d)) (buffer_size (desc_buffer d))) else None.

Definition batch_memory_replica_sizes (connected : bool) (ds : list string -> replica_descs) (keys : list string) :
    result kexn (dict string (list ReplicaRow)) :=
  _ ← store connected;
  Ok (foldl (fun out kr => dset kr.1 (omap size_row (default [] kr.2)) out) (empty_rows keys) (desc_items keys (ds keys))).

(** ** A failed query is never an answer *)

Lemma collect_exists r : Forall (fun e => is_code e = true) r -> exists bs, Db.collect entry_exists r = Ok bs /\ length bs = length r /\
  Forall2 (fun e b => entry_exists e = Ok b) r bs.
Proof.
  induction 1 as [|e r He _ IH]; [exists []; by split_and!|]. destruct IH as (bs&E&Hl&Hf). cbn [Db.collect]. rewrite E.
  assert (Hb : exists b, entry_exists e = Ok b).
  { destruct e as [b|z]; [by exists b|]. simpl in *. destruct (z =? 1); [by exists true|]. destruct (z =? 0); [by exists false|done]. }
  destruct Hb as [b Hb]. rewrite Hb. exists (b :: bs). split_and!; [done|simpl; lia|by constructor].
Qed.

Lemma filter_codes (keys : list string) r : length keys = length r ->
  filter (fun ke : string * ecode => is_code ke.2 = false) (zip keys r) = [] <-> Forall (fun e => is_code e = true) r.
Proof.
  revert r. induction keys as [|k keys IH]; intros [|e r] Hl; [by split; [constructor|]|done|done|]. cbn [zip zip_with].
  injection Hl as Hl. specialize (IH r Hl). rewrite filter_cons. simpl. destruct (is_code e) eqn:E.
  - rewrite decide_False by done. rewrite IH. split; [by constructor|by intros ?%Forall_inv_tail].
  - rewrite decide_True by done. split; [done|]. intros Hf%Forall_inv. congruence.
Qed.

(** A query that failed is never taken for absence: with a store that answers one
    code per key, the existence check of the backend through the client answers
    true exactly when every key of a non-empty expansion has a success code and
    is present, false only when every code is a success code and some key is
    absent (or the prefix has no key at all), and raises [QueryError] whenever
    any code is an error or the client is not connected. *)
Theorem existence_never_guessed cf p keys raw connected :
  cf_keys_for_tokens cf (token_ids p) = Ok keys -> keys <> [] -> length (raw keys) = length keys ->
  match Mooncake.exists_ cf p (is_exist connected raw) with
  | Ok b => connected = true /\ Forall (fun e => is_code e = true) (raw keys) /\
      (b = true <-> Forall (fun e => entry_exists e = Ok true) (raw keys))
  | Raise x => x = KQuery /\ (connected = false \/ ~ Forall (fun e => is_code e = true) (raw keys))
  end.
Proof.
  intros Hk Hne Hlen. unfold Mooncake.exists_. rewrite Hk. destruct keys as [|k keys]; [done|]. set (ks := k :: keys) in *.
  unfold is_exist, mbind, result_bind. destruct connected; [|by split; [|left]]. cbn [store].
  destruct (filter _ (zip ks (raw ks))) as [|kr krs] eqn:Ef.
  - apply filter_codes in Ef; [|done]. destruct (collect_exists _ Ef) as (bs&->&Hl&Hf). simpl.
    rewrite Hl, Hlen, Z.eqb_refl. split_and!; [done|done|]. clear -Hf. induction Hf as [|e b r bs He Hf IH]; [by split; [constructor|]|].
    simpl. rewrite andb_true_iff. rewrite IH, Forall_cons, He. split; [intros [-> ?]; done|intros [[= ->] ?]; done].
  - simpl. split; [done|]. right. intros Hf. apply (filter_codes ks) in Hf; [|done]. by rewrite Hf in Ef.
Qed.

(** Removal succeeds only when every key was removed. *)
Theorem remove_all_or_error connected raw keys : 
  match batch_remove connected raw keys with
  | Ok r => connected = true /\ length r = length keys /\ Forall (fun rc => rc = 0) r
  | Raise x => x = KStoreClient
  end.
Proof.
  unfold batch_remove, mbind, result_bind. destruct connected; [|done]. cbn [store].
  destruct (zlen (raw keys) =? zlen keys) eqn:El; [|done]. zbool. simpl.
  destruct (filter _ (zip keys (raw keys))) eqn:Ef; [|done]. split_and!; [done|lia|].
  assert (Hl : length keys = length (raw keys)) by lia. clear El. revert Ef Hl. generalize (raw keys).
  induction keys as [|k keys IH]; intros [|rc r]; try done. cbn [zip zip_with]. rewrite filter_cons.
  destruct (decide ((k, rc).2 <> 0)) as [|Hz]; [done|]. intros Ef [= Hl]. constructor; [|by apply IH].
  simpl in Hz. destruct (decide (rc = 0)); [done|]. by destruct Hz.
Qed.

End Client.

(** ** The intent service *)

Module Service.
Inductive grpc_status : Type := INVALID_ARGUMENT | UNAVAILABLE.
Inductive task_status : Type := STATUS_UNKNOWN | T_PENDING | T_READY | T_FAILED.

Section service.
Context `{Digest} (queue_size consumer_count finished_max : Z).

(** [SubmitIntent]: the intent id, or the status the call is aborted with; poll
    interval and timeout are the engine's defaults, in milliseconds. *)
Definition SubmitIntent (model : string) (tokens : list Z) (target : string) : M Engine kexn (string + grpc_status) := fun s =>
  if bool_decide (model = EmptyString) || bool_decide (tokens = []) || bool_decide (target = EmptyString)
  then (s, Ok (inr INVALID_ARGUMENT))
  else match Intents.submit_intent (mkCall (mkPrefix model tokens) target 500 120000) s with
       | (s', Ok k) => (s', Ok (inl k))
       | (s', Raise KRuntimeError) => (s', Ok (inr UNAVAILABLE))
       | (s', Raise x) => (s', Raise x)
       end.

Definition status_map (st : IntentStatus) : task_status :=
  match st with IPending => T_PENDING | IReady => T_READY | IFailed => T_FAILED end.

Definition GetTask (k : string) (s : Engine) : task_status * string :=
  match Intents.intent_status k (en_tables s) with
  | None => (STATUS_UNKNOWN, EmptyString)
  | Some st => (status_map st, Intents.intent_detail k (en_tables s))
  end.

(** A submission answers an id, with the intent pending or finished, or an abort
    that leaves the engine as it was; no exception leaves the service. *)
Theorem submit_intent_answers es model tokens target : 0 < consumer_count ->
  let s := Intents.run_events queue_size consumer_count finished_max es in
  match SubmitIntent model tokens target s with
  | (s', Ok (inl k)) => k = Intents.intent_id_of (mkPrefix model tokens) target /\ (GetTask k s').1 = T_PENDING
  | (s', Ok (inr _)) => s' = s
  | (_, Raise _) => False
  end.
Proof.
  intros Hc s. unfold SubmitIntent. destruct (_ || _ || _); [done|].
  set (c := mkCall (mkPrefix model tokens) target 500 120000).
  unfold Intents.submit_intent, mbind, M_bind, Intents.submit_check.
  destruct (negb (en_accepting s)); [done|]. destruct (negb (en_started s)); [done|].
  pose proof (Intents.inv_reachable queue_size consumer_count finished_max Hc es) as Hi. fold s in Hi. destruct Hi.
  destruct (Intents.alloc_core _ _ _ c _ iv_core) as (Hc'&_&_).
  pose proof (Intents.alloc_spec c (en_tables s)) as Ea. unfold Intents.submit_insert.
  destruct (Intents.alloc c (en_tables s)) as [t won]. simpl in Hc'.
  assert (Hg : is_Some (dget (Intents.call_id c) (tb_records t))).
  { destruct (dget (Intents.call_id c) (tb_records (en_tables s))) eqn:E; injection Ea as -> _; simpl;
      [rewrite E|rewrite dget_dset_eq]; by eexists. }
  assert (Hp : Intents.intent_status (Intents.call_id c) t = Some IPending).
  { destruct Hg as [r Hr]. destruct (Intents.co_slot _ _ _ _ Hc' _ _ Hr) as (x&Hx&_&Hp&_).
    unfold Intents.intent_status. rewrite Hr, Hx. simpl. by rewrite Hp. }
  split; [done|]. unfold GetTask. destruct won; simpl; by rewrite Hp.
Qed.

End service.

(** ** [IntentGrpcServer]

    The port that was bound, whether calls are accepted, and whether the thread pool is
    open.  The pool belongs to the server object, [grpc.server] only borrows it. *)
Record IntentGrpcServer : Type := mkServer { gs_port : Z; gs_serving : bool; gs_pool_open : bool }.

(** [bound]: what [add_insecure_port] answers; the state is that of the object, also
    when the constructor raises. *)
Definition server_init (bound : Z) : IntentGrpcServer * result kexn unit :=
  if bound =? 0 then (mkServer 0 false false, Raise KRuntimeError) else (mkServer bound false true, Ok tt).
Definition server_address (v : IntentGrpcServer) : string * Z := (EmptyString, gs_port v).
Definition server_start : M IntentGrpcServer kexn unit := modify (fun v => mkServer (gs_port v) true (gs_pool_open v)).
Definition server_stop : M IntentGrpcServer kexn unit :=
  _ ← modify (fun v => mkServer (gs_port v) false (gs_pool_open v));
  modify (fun v => mkServer (gs_port v) (gs_serving v) false).

(** No thread pool outlives its server: a server that could not be bound has closed its
    pool, and one that was started and stopped has too. *)
Lemma server_pool_closed bound :
  match server_init bound with
  | (v, Raise _) => bound = 0 /\ gs_pool_open v = false
  | (v, Ok _) => gs_port v = bound /\ gs_pool_open v = true /\
      (_ ← server_start; server_stop) v = (mkServer bound false false, Ok tt)
  end.
Proof. unfold server_init. by destruct (Z.eqb_spec bound 0). Qed.
End Service.

(** ** Entry points that are not connected yet: [api/intents.py] and [api/watcher.py]

    Handlers are kept; [start] is not implemented. *)
Module Placeholders.
Section handlers.
Context {P D : Type}.
Record IntentReceiver : Type := mkReceiver { on_prefetch_handler : option P; on_session_end_handler : option D }.
Definition new_receiver : IntentReceiver := mkReceiver None None.
Definition on_prefetch (h : P) (r : IntentReceiver) : IntentReceiver := mkReceiver (Some h) (on_session_end_handler r).
Definition on_session_end (h : D) (r : IntentReceiver) : IntentReceiver := mkReceiver (on_prefetch_handler r) (Some h).
Definition receiver_start : M IntentReceiver kexn unit := raise KNotImplemented.

Record InstanceWatcher : Type := mkWatcher { up_handler : option P; down_handler : option P }.
Definition new_watcher : InstanceWatcher := mkWatcher None None.
Definition on_instance_up (h : P) (r : InstanceWatcher) : InstanceWatcher := mkWatcher (Some h) (down_handler r).
Definition on_instance_down (h : P) (r : InstanceWatcher) : InstanceWatcher := mkWatcher (up_handler r) (Some h).
Definition watcher_start : M InstanceWatcher kexn unit := raise KNotImplemented.
End handlers.
End Placeholders.

(** Two keys, the query of the second failed. *)
Definition wit_config : Config := mkConfig (fun _ => Ok ["k0"; "k1"]) (mkKeyComputer "m" 2 2 None 1) [] true 1 1.

Lemma existence_never_guessed_witness :
  let raw := fun _ : list string => [EInt 1; EInt (-900)] in
  Mooncake.exists_ wit_config (mkPrefix "m" [1]) (Client.is_exist true raw) = Raise KQuery /\
  ~ Forall (fun e => Client.is_code e = true) (raw ["k0"; "k1"]).
Proof.
  intros raw. split; [reflexivity|].
  pose proof (Client.existence_never_guessed wit_config (mkPrefix "m" [1]) ["k0"; "k1"] raw true eq_refl ltac:(discriminate) eq_refl) as H.
  destruct H as [_ [H|H]]; [discriminate|exact H].
Defined.
