(* ===== verification/Daemon.v ===== *)
(** * kvcm: the daemon

    [kvcm/daemon.py]: assembling the backend from the arguments, the start-up check of
    the segments, and [_serve], from opening the ledger to the end of the process.
    What an awaited call answers is an argument ([Answers]): it returns, raises, is
    overtaken by the exit signal or by its timeout.  The state is what the local
    variables of [_serve] say and the log of the calls it made; [os._exit] ends the
    run without its [finally].  Durations are milliseconds. *)

From S2P Require Import Prelude PyDict PyStr KvcmTypes Keys Instances Admin Events RankTopology.
From Stdlib Require Import Ascii.
Local Open Scope Z_scope.

#[local] Arguments String.append !_ _ /.

(** ** Arguments *)

Record Args : Type := mkArgs {
  a_keys : KeyComputer;
  a_instance_segs : list string;
  a_capability : string;
  a_admin : option string;
  a_master : string;
  a_local_hostname : string;
  a_protocol : string;
  a_device : Z;
  a_hash_algo : string;
  a_ledger : string;
  a_connect_timeout : Z;
  a_rpc_timeout : Z;
  a_shutdown_timeout : Z;
  a_copy_submit_concurrency : Z;
  a_lease_ttl : Z;
  a_keepalive_interval : Z;
  a_keepalive_window : Z;
  a_max_concurrent : Z;
  a_kv_event_endpoint : list string;
  a_listen : string }.

(** [s.rsplit(c, 1)[0]] *)
Fixpoint before_last (c : ascii) (s : string) : string :=
  match s with
  | EmptyString => EmptyString
  | String d r =>
      match after_last c r with
      | Some _ => String d (before_last c r)
      | None => if bool_decide (d = c) then EmptyString else String d (before_last c r)
      end
  end.

Inductive version : Type := MooncakeMain | MooncakeV0311.

(** What [MooncakeBackend] is built from; [bc_hash_algo] belongs to the key computer. *)
Record BackendConf : Type := mkBackendConf {
  bc_keys : KeyComputer;
  bc_hash_algo : string;
  bc_directory : InstanceDirectory;
  bc_version : version;
  bc_submit_concurrency : Z;
  bc_rpc_timeout : Z;
  bc_lease_ttl : Z;
  bc_admin_base : string }.

Definition admin_base (args : Args) : string :=
  match a_admin args with
  | Some a => if bool_decide (a = EmptyString) then "http://" +:+ before_last ":" (a_master args) +:+ ":9003" else a
  | None => "http://" +:+ before_last ":" (a_master args) +:+ ":9003"
  end.

Definition build_backend (args : Args) : result kexn BackendConf :=
  directory ← directory_from_specs (a_instance_segs args);
  let v := if bool_decide (a_capability args = "main") then MooncakeMain else MooncakeV0311 in
  if a_copy_submit_concurrency args <=? 0 then Raise KValueError
  else if a_lease_ttl args <? 0 then Raise KValueError
  else Ok (mkBackendConf (a_keys args) (a_hash_algo args) directory v (a_copy_submit_concurrency args) (a_rpc_timeout args)
             (a_lease_ttl args) (admin_base args)).

(** All configured segments, in the order of the arguments. *)
Fixpoint configured_segs (specs : list string) : result kexn (list string) :=
  match specs with
  | [] => Ok []
  | spec :: specs => is_ ← parse_instance_segs spec; l ← configured_segs specs; Ok (is_.2 ++ l)
  end.

(** [get]: what the admin port answers to a GET of a path; [depth]: how deep a body
    may nest before the decoder gives up. *)
Definition check_instance_segs_against_admin (depth : nat) (get : string -> result kexn string) (args : Args) : result kexn unit :=
  configured ← configured_segs (a_instance_segs args);
  details ← get_segments_detail depth get;
  validate_configured_segs configured details.

(** ** Start-up, service, shutdown *)

Inductive op : Type :=
| ConnectRpc | CheckSegsRpc | RebuildRpc | GcRpc                        (* run in the RPC pool *)
| TrackHandle (h : TaskHandle) | StartKeepalive | StartEngine | StartGrpc
| StopGrpc | ShutdownEngine | StopKeepalive | DrainPool
| CloseKeepalive | CloseBackend | CloseClient | CloseLedger.

(** A call returned, raised, or was left running; the process was ended. *)
Inductive event : Type := Did (o : op) | Failed (o : op) | LeftRunning (o : op) | Exited.

(** How [asyncio.wait] on a call and the exit signal ended.  [WTimeoutError]: the call
    itself raised that exception. *)
Inductive waited (A : Type) : Type := WDone (r : result kexn A) | WTimeoutError | WStop | WSlow.
Arguments WDone {A} r.
Arguments WTimeoutError {A}.
Arguments WStop {A}.
Arguments WSlow {A}.

(** What [client.connect] is called with. *)
Record Connect : Type := mkConnect {
  c_local_hostname : string;
  c_master : string;
  c_protocol : string;
  c_device : Z }.

(** The answers, by what the call is given: a path, the peers, a timeout. *)
Record Answers : Type := mkAnswers {
  w_open : string -> result kexn unit;      (* [Ledger(path)] *)
  w_connect : Connect -> Z -> waited unit;
  w_depth : nat;                            (* of the bodies the JSON decoder can read *)
  w_get : string -> result kexn string;
  w_rebuild : Z -> waited (list TaskHandle);
  w_gc : result kexn Z;
  w_keepalive_start : result kexn unit;
  w_engine_start : result kexn unit;
  w_grpc_start : result kexn unit;          (* binding the port, starting the server *)
  w_grpc_stop : result kexn unit;
  w_shutdown : Z -> result kexn unit;       (* [engine.shutdown] after the signal *)
  w_stop : Z -> result kexn unit;           (* [keepalive.stop] after the signal *)
  w_shutdown' : Z -> result kexn unit;      (* the same two in [finally] *)
  w_stop' : Z -> result kexn unit;
  w_drained : Z -> bool;                    (* the pool's threads ended in time *)
  w_close : op -> result kexn unit }.

(** The local variables of [_serve] that its [finally] reads. *)
Record Serve : Type := mkServe {
  log : list event;
  keepalive_built : bool;
  keepalive_started : bool;
  engine_built : bool;
  engine_shutdown_done : bool;
  backend_built : bool }.

Definition set_log l s := mkServe l (keepalive_built s) (keepalive_started s) (engine_built s) (engine_shutdown_done s) (backend_built s).
Definition set_keepalive_built s := mkServe (log s) true (keepalive_started s) (engine_built s) (engine_shutdown_done s) (backend_built s).
Definition set_keepalive_started s := mkServe (log s) (keepalive_built s) true (engine_built s) (engine_shutdown_done s) (backend_built s).
Definition set_engine_built s := mkServe (log s) (keepalive_built s) (keepalive_started s) true (engine_shutdown_done s) (backend_built s).
Definition set_engine_shutdown_done s := mkServe (log s) (keepalive_built s) (keepalive_started s) (engine_built s) true (backend_built s).
Definition set_backend_built s := mkServe (log s) (keepalive_built s) (keepalive_started s) (engine_built s) (engine_shutdown_done s) true.

(** [DExit]: [os._exit(1)], which no handler sees. *)
Inductive dexn : Type := DExit | DRaise (e : kexn).

Definition serve_m := M Serve dexn.

Definition emit (e : event) : serve_m unit := modify (fun s => set_log (log s ++ [e]) s).

Definition call {A} (o : op) (r : result kexn A) : serve_m A :=
  match r with
  | Ok a => _ ← emit (Did o); mret a
  | Raise e => _ ← emit (Failed o); raise (DRaise e)
  end.

(** A constructor or a parser that runs on the event loop. *)
Definition lift_k {A} (r : result kexn A) : serve_m A :=
  match r with Ok a => mret a | Raise e => raise (DRaise e) end.

Definition hard_exit {A} : serve_m A := _ ← emit Exited; raise DExit.

Section serve.
Context (args : Args) (w : Answers).

Definition connect_args : Connect := mkConnect (a_local_hostname args) (a_master args) (a_protocol args) (a_device args).

Definition connect : serve_m unit :=
  match w_connect w connect_args (a_connect_timeout args) with
  | WDone r => call ConnectRpc r
  | WTimeoutError | WStop | WSlow => _ ← emit (LeftRunning ConnectRpc); hard_exit
  end.

Definition rebuild : serve_m (list TaskHandle) :=
  match w_rebuild w (a_connect_timeout args) with
  | WDone r => call RebuildRpc r
  | WTimeoutError => call RebuildRpc (Raise KOther)
  | WStop | WSlow => _ ← emit (LeftRunning RebuildRpc); hard_exit
  end.

Definition build_keepalive : result kexn unit :=
  if a_keepalive_interval args <=? 0 then Raise KValueError
  else if a_keepalive_window args <=? 0 then Raise KValueError else Ok tt.

Definition build_engine : result kexn unit := if a_max_concurrent args <=? 0 then Raise KValueError else Ok tt.

(** [host, _, port = args.listen.rpartition(":")], and the server on it. *)
Definition listen_port : string := default (a_listen args) (after_last ":" (a_listen args)).

Definition start_grpc : serve_m bool :=
  if bool_decide (a_listen args = EmptyString) then mret false
  else
    _ ← lift_k (match py_int 10 listen_port with Some p => Ok p | None => Raise KValueError end);
    _ ← call StartGrpc (w_grpc_start w);
    mret true.

Definition startup : serve_m bool :=
  _ ← connect;
  _ ← lift_k (build_backend args);
  _ ← modify set_backend_built;
  _ ← call CheckSegsRpc (check_instance_segs_against_admin (w_depth w) (w_get w) args);
  _ ← lift_k build_keepalive;
  _ ← modify set_keepalive_built;
  _ ← lift_k (parse_kv_event_endpoints (a_kv_event_endpoint args));
  _ ← lift_k build_engine;
  _ ← modify set_engine_built;
  restored ← rebuild;
  _ ← for_each restored (fun h => call (TrackHandle h) (Ok tt));
  _ ← call GcRpc (w_gc w);
  _ ← call StartKeepalive (w_keepalive_start w);
  _ ← modify set_keepalive_started;
  _ ← call StartEngine (w_engine_start w);
  start_grpc.

(** After the exit signal. *)
Definition graceful (grpc_server : bool) : serve_m Z :=
  _ ← (if grpc_server then call StopGrpc (w_grpc_stop w) else mret tt);
  _ ← call ShutdownEngine (w_shutdown w (a_shutdown_timeout args));
  _ ← modify set_engine_shutdown_done;
  _ ← call StopKeepalive (w_stop w (a_shutdown_timeout args));
  mret 0.

(** [_wait_executor] *)
Definition wait_executor : serve_m bool :=
  if w_drained w (a_shutdown_timeout args) then _ ← emit (Did DrainPool); mret true else _ ← emit (LeftRunning DrainPool); mret false.

Definition finalize : serve_m unit :=
  s ← gets id;
  _ ← (if engine_built s && negb (engine_shutdown_done s)
       then _ ← call ShutdownEngine (w_shutdown' w (a_shutdown_timeout args)); modify set_engine_shutdown_done else mret tt);
  _ ← (if keepalive_built s && keepalive_started s then call StopKeepalive (w_stop' w (a_shutdown_timeout args)) else mret tt);
  drained ← wait_executor;
  _ ← (if keepalive_built s then call CloseKeepalive (w_close w CloseKeepalive) else mret tt);
  if negb drained then hard_exit
  else
    _ ← (if backend_built s then call CloseBackend (w_close w CloseBackend) else mret tt);
    _ ← call CloseClient (w_close w CloseClient);
    call CloseLedger (w_close w CloseLedger).

(** [try: body finally: finalize]; the end of the process skips the rest. *)
Definition with_finally {A} (body : serve_m A) : serve_m A := fun s =>
  match body s with
  | (s1, Raise DExit) => (s1, Raise DExit)
  | (s1, r) => match finalize s1 with (s2, Ok _) => (s2, r) | (s2, Raise e) => (s2, Raise e) end
  end.

Definition init_serve : Serve := mkServe [] false false false false false.

(** The ledger is opened before the [try]. *)
Definition serve : serve_m Z :=
  _ ← lift_k (w_open w (a_ledger args));
  with_finally (grpc_server ← startup; graceful grpc_server).

(** [run]: the arguments that are refused before anything starts.  [None]: nothing was
    started and the exit code is 1. *)
Definition admin_text : string := strip (default EmptyString (a_admin args)).
Definition run_refuses : bool :=
  bool_decide (admin_text = EmptyString)
  || negb (startswith "http://" admin_text || startswith "https://" admin_text)
  || bool_decide (a_capability args = "v0311").
Definition run : option (Serve * result dexn Z) := if run_refuses then None else Some (serve init_serve).
End serve.

(** ** The protocol a run must follow

    The abstract view of the process: what is live, whether threads may still be
    inside the store client ([pool_open]), whether one is known to hang ([stuck]),
    whether stopping the server raised, which leaves it serving ([stop_raised]).
    [next] refuses an event that would break the order the start-up and shutdown
    rely on. *)

Record Phase : Type := mkPhase {
  engine_live : bool;
  sweep_live : bool;
  serving : bool;
  stop_raised : bool;
  pool_open : bool;
  client_open : bool;
  ledger_open : bool;
  stuck : bool;
  gone : bool }.

Definition phase0 : Phase := mkPhase false false false false true true true false false.

(** Calls into the store are possible and none hangs. *)
Definition calm (p : Phase) : bool := pool_open p && client_open p && ledger_open p && negb (stuck p).
(** No thread is inside the store client, and none can enter it. *)
Definition quiet (p : Phase) : bool := negb (pool_open p) && negb (stuck p).
Definition idle (p : Phase) : bool := negb (engine_live p) && negb (sweep_live p).
(** The server does not accept, or refused to stop. *)
Definition halted (p : Phase) : bool := negb (serving p) || stop_raised p.

Definition engine_to b p := mkPhase b (sweep_live p) (serving p) (stop_raised p) (pool_open p) (client_open p) (ledger_open p) (stuck p) (gone p).
Definition sweep_to b p := mkPhase (engine_live p) b (serving p) (stop_raised p) (pool_open p) (client_open p) (ledger_open p) (stuck p) (gone p).
Definition serving_to b p := mkPhase (engine_live p) (sweep_live p) b (stop_raised p) (pool_open p) (client_open p) (ledger_open p) (stuck p) (gone p).
Definition stop_failed p := mkPhase (engine_live p) (sweep_live p) (serving p) true (pool_open p) (client_open p) (ledger_open p) (stuck p) (gone p).
Definition pool_closed p := mkPhase (engine_live p) (sweep_live p) (serving p) (stop_raised p) false (client_open p) (ledger_open p) (stuck p) (gone p).
Definition client_closed p := mkPhase (engine_live p) (sweep_live p) (serving p) (stop_raised p) (pool_open p) false (ledger_open p) (stuck p) (gone p).
Definition ledger_closed p := mkPhase (engine_live p) (sweep_live p) (serving p) (stop_raised p) (pool_open p) (client_open p) false (stuck p) (gone p).
Definition now_stuck p := mkPhase (engine_live p) (sweep_live p) (serving p) (stop_raised p) (pool_open p) (client_open p) (ledger_open p) true (gone p).
Definition now_gone p := mkPhase (engine_live p) (sweep_live p) (serving p) (stop_raised p) (pool_open p) (client_open p) (ledger_open p) (stuck p) true.

Definition allow (b : bool) (p : Phase) : option Phase := if b then Some p else None.

(** What the call changes when it returns, and when it may be made. *)
Definition on_did (o : op) (p : Phase) : Phase :=
  match o with
  | TrackHandle _ | StartEngine => engine_to true p
  | StartKeepalive => sweep_to true p
  | StartGrpc => serving_to true p
  | StopGrpc => serving_to false p
  | ShutdownEngine => engine_to false p
  | StopKeepalive => sweep_to false p
  | DrainPool => pool_closed p
  | CloseClient => client_closed p
  | CloseLedger => ledger_closed p
  | _ => p
  end.

Definition may (o : op) (p : Phase) : bool :=
  match o with
  | ConnectRpc | CheckSegsRpc | RebuildRpc | GcRpc | TrackHandle _ | StartKeepalive | StartEngine => calm p
  | StartGrpc => calm p && engine_live p
  | StopGrpc => calm p
  | ShutdownEngine => calm p && halted p
  | StopKeepalive => calm p
  | DrainPool => calm p && idle p
  | CloseKeepalive => negb (sweep_live p)
  | CloseBackend | CloseClient => quiet p && client_open p
  | CloseLedger => quiet p && negb (client_open p)
  end.

Definition next (p : Phase) (e : event) : option Phase :=
  if gone p then None
  else match e with
       | Did o => allow (may o p) (on_did o p)
       | Failed StopGrpc => allow (may StopGrpc p) (stop_failed p)
       | Failed o => allow (may o p) p
       | LeftRunning o => allow (calm p && may o p) (now_stuck p)
       | Exited => allow (stuck p) (now_gone p)
       end.

Definition follow (po : option Phase) (e : event) : option Phase :=
  match po with Some p => next p e | None => None end.
Definition phase_of (l : list event) : option Phase :=
  foldl follow (Some phase0) l.

Lemma phase_snoc l e p : phase_of l = Some p -> phase_of (l ++ [e]) = next p e.
Proof. intros H. unfold phase_of in *. by rewrite foldl_snoc, H. Qed.

(** ** Every run follows the protocol *)

Section protocol.
Context (args : Args) (w : Answers).

(** While the program is up: the phase agrees with the local variables. *)
Definition up (b : bool) (s : Serve) : Prop :=
  exists p, phase_of (log s) = Some p /\ calm p = true /\ gone p = false /\ (if b then serving p else halted p) = true /\
    (engine_live p = true -> engine_built s = true /\ engine_shutdown_done s = false) /\
    (sweep_live p = true -> keepalive_built s = true /\ keepalive_started s = true).

(** How a run may have been interrupted: by an exception, with everything still up,
    or by the end of the process. *)
Definition cut (e : dexn) (s : Serve) : Prop :=
  match e with
  | DRaise _ => up false s
  | DExit => exists p, phase_of (log s) = Some p /\ gone p = true
  end.

Lemma hoare_call {A} o (r : result kexn A) (P Q : Serve -> Prop) (X : dexn -> Serve -> Prop) :
  (forall s, P s -> Q (set_log (log s ++ [Did o]) s)) ->
  (forall s e, P s -> X (DRaise e) (set_log (log s ++ [Failed o]) s)) ->
  hoare P (call o r) (fun _ => Q) X.
Proof. intros HQ HX s Hs. destruct r; simpl; [by apply HQ|by apply HX]. Qed.

Lemma hoare_lift {A} (r : result kexn A) b : hoare (up b) (lift_k r) (fun _ => up b) (fun _ => up b).
Proof. intros s Hs. by destruct r. Qed.

(** The phase after one more event. *)
Ltac phase :=
  intros;
  match goal with
  | H : up _ _ |- _ =>
      destruct H as (p & Hp & Hc & Hg & Hs & He & Hw); eexists; split;
        [cbn [log set_log]; rewrite (phase_snoc _ _ _ Hp); unfold next; rewrite Hg; simpl;
         rewrite ?Hc, ?Hs; simpl; reflexivity|];
        simpl; unfold calm in *; simpl in *; split_and?; naive_solver
  end.

Lemma rpc_up {A} o (r : result kexn A) : o ∈ [ConnectRpc; CheckSegsRpc; RebuildRpc; GcRpc] ->
  hoare (up false) (call o r) (fun _ => up false) cut.
Proof. rewrite !elem_of_cons. intros [-> |[-> |[-> |[-> |H%elem_of_nil]]]]; [apply hoare_call; phase..|done]. Qed.

Lemma exit_up {A} o : may o = calm ->
  hoare (up false) (_ ← emit (LeftRunning o); hard_exit (A := A)) (fun _ => up false) cut.
Proof.
  intros Ho s (p & Hp & Hc & Hg & Hs & He & Hw). simpl.
  exists (now_gone (now_stuck p)). split; [|done].
  erewrite phase_snoc; [|rewrite (phase_snoc _ _ _ Hp); unfold next; rewrite Hg, Ho, Hc; reflexivity].
  unfold next. simpl. by rewrite Hg.
Qed.

Lemma connect_up : hoare (up false) (connect args w) (fun _ => up false) cut.
Proof. unfold connect. destruct (w_connect w _ _); [apply rpc_up; set_solver|by apply exit_up..]. Qed.

Lemma rebuild_up : hoare (up false) (rebuild args w) (fun _ => up false) cut.
Proof. unfold rebuild. destruct (w_rebuild w _); [apply rpc_up; set_solver..|by apply exit_up|by apply exit_up]. Qed.

Lemma lift_up {A} (r : result kexn A) : hoare (up false) (lift_k r) (fun _ => up false) cut.
Proof. intros s Hs. by destruct r. Qed.

(** Recording that a component was built or started keeps the agreement. *)
Lemma set_up f : (forall s, log (f s) = log s /\ (engine_built s = true -> engine_built (f s) = true) /\
    engine_shutdown_done (f s) = engine_shutdown_done s /\ (keepalive_built s = true -> keepalive_built (f s) = true) /\
    (keepalive_started s = true -> keepalive_started (f s) = true)) ->
  hoare (up false) (modify f) (fun _ => up false) cut.
Proof.
  intros Hf s (p & Hp & Hc & Hg & Hs & He & Hw). destruct (Hf s) as (H1 & H2 & H3 & H4 & H5).
  exists p. rewrite H1, H3. naive_solver.
Qed.

(** A condition on the local variables that the code in between does not touch. *)
Definition up_and (F : Serve -> Prop) (s : Serve) : Prop := up false s /\ F s.

Lemma keep {A} (F : Serve -> Prop) (c : serve_m A) : hoare (up false) c (fun _ => up false) cut ->
  (forall s, F s -> F (c s).1) -> hoare (up_and F) c (fun _ => up_and F) cut.
Proof.
  intros Hc Hf s [Hu HF]. specialize (Hc s Hu). specialize (Hf s HF).
  by destruct (c s) as [s' [a|e]].
Qed.

(** The engine exists, and has not been shut down: tracking and starting are allowed. *)
Definition open_engine (s : Serve) : Prop := engine_built s = true /\ engine_shutdown_done s = false.
Abbreviation with_engine := (up_and open_engine).
Abbreviation with_keepalive := (up_and (fun s => open_engine s /\ keepalive_built s = true)).

Lemma track_up h : hoare with_keepalive (call (TrackHandle h) (Ok tt)) (fun _ => with_keepalive) cut.
Proof. apply hoare_call; [intros s [Hu [[Hb Hd] Hk]]; split; [phase|done]|intros s e [Hu _]; phase]. Qed.

Lemma rebuild_kept : hoare with_keepalive (rebuild args w) (fun _ => with_keepalive) cut.
Proof. apply keep; [apply rebuild_up|]. intros s. unfold rebuild. by destruct (w_rebuild w _) as [[]| | |]. Qed.

Lemma gc_kept : hoare with_keepalive (call GcRpc (w_gc w)) (fun _ => with_keepalive) cut.
Proof. apply keep; [apply rpc_up; set_solver|]. intros s. by destruct (w_gc w). Qed.

Lemma start_keepalive_up : hoare with_keepalive
  (_ ← call StartKeepalive (w_keepalive_start w); modify set_keepalive_started) (fun _ => with_engine) cut.
Proof.
  intros s [Hu [[Hb Hd] Hk]]. destruct (w_keepalive_start w); simpl; [|phase].
  split; [|done]. destruct Hu as (p & Hp & Hc & Hg & Hs & He & Hw).
  exists (sweep_to true p). split; [simpl; rewrite (phase_snoc _ _ _ Hp); unfold next; rewrite Hg; simpl; by rewrite Hc|].
  done.
Qed.

(** The server may start: the engine is live. *)
Lemma start_grpc_up : hoare (fun s => exists p, phase_of (log s) = Some p /\ engine_live p = true /\ up false s)
  (start_grpc args w) up cut.
Proof.
  intros s (p & Hp & Hl & (p' & Hp' & Hc & Hg & Hs & He & Hw)). unfold start_grpc.
  rewrite Hp in Hp'. injection Hp' as <-.
  case_bool_decide; [exists p; split_and!; done|].
  destruct (py_int 10 _); simpl; [|exists p; split_and!; done].
  destruct (w_grpc_start w); simpl.
  - exists (serving_to true p). split; [|done]. cbn [log set_log]. rewrite (phase_snoc _ _ _ Hp). unfold next. rewrite Hg. simpl. by rewrite Hc, Hl.
  - exists p. split; [|done]. cbn [log set_log]. rewrite (phase_snoc _ _ _ Hp). unfold next. rewrite Hg. simpl. by rewrite Hc, Hl.
Qed.

Lemma start_engine_up : hoare with_engine (_ ← call StartEngine (w_engine_start w); start_grpc args w) up cut.
Proof.
  eapply hoare_bind; [|intros ?; apply start_grpc_up]. apply hoare_call.
  - intros s [Hu [Hb Hd]]. destruct Hu as (p & Hp & Hc & Hg & Hs & He & Hw).
    assert (phase_of (log s ++ [Did StartEngine]) = Some (engine_to true p)) as Hn.
    { rewrite (phase_snoc _ _ _ Hp). unfold next. rewrite Hg. simpl. by rewrite Hc. }
    exists (engine_to true p). split_and!; [done|done|]. exists (engine_to true p). done.
  - intros s e [Hu _]. phase.
Qed.

Lemma hoare_bind_assoc {A B C} (c : serve_m A) (d : serve_m B) (k : serve_m C) P Q R X :
  hoare P (_ ← c; d) (fun _ => Q) X -> hoare Q k R X -> hoare P (_ ← c; _ ← d; k) R X.
Proof.
  intros H1 H2 s Hs. specialize (H1 s Hs). unfold mbind, M_bind in *.
  destruct (c s) as [s1 [a|e]]; [|done]. destruct (d s1) as [s2 [b|e]]; [by apply H2|done].
Qed.

(** Every state of the start-up from the construction of the engine on. *)
Lemma late_startup_up : hoare with_keepalive
  (restored ← rebuild args w;
   _ ← for_each restored (fun h => call (TrackHandle h) (Ok tt));
   _ ← call GcRpc (w_gc w);
   _ ← call StartKeepalive (w_keepalive_start w);
   _ ← modify set_keepalive_started;
   _ ← call StartEngine (w_engine_start w);
   start_grpc args w) up cut.
Proof.
  eapply hoare_bind; [exact rebuild_kept|]. intros restored.
  eapply hoare_bind; [apply hoare_for_each; intros h _; apply track_up|]. intros ?.
  eapply hoare_bind; [apply gc_kept|]. intros ?.
  eapply hoare_bind_assoc; [apply start_keepalive_up|apply start_engine_up].
Qed.

Lemma startup_up : hoare (fun s => s = init_serve) (startup args w) up cut.
Proof.
  set (F := fun s => engine_shutdown_done s = false).
  assert (Hlift : forall A (r : result kexn A) G, hoare (up_and G) (lift_k r) (fun _ => up_and G) cut).
  { intros A r G. apply keep; [apply lift_up|]. by destruct r. }
  assert (Hconnect : hoare (up_and F) (connect args w) (fun _ => up_and F) cut).
  { apply keep; [apply connect_up|]. intros s. unfold connect. by destruct (w_connect w _ _) as [[]| | |]. }
  unfold startup. eapply hoare_bind; [eapply hoare_conseq; [apply Hconnect|intros s ->|done|done]|].
  { split; [exists phase0; done|done]. }
  intros ?. eapply hoare_bind; [apply Hlift|]. intros ?.
  eapply hoare_bind; [apply (keep F); [by apply set_up|done]|]. intros ?.
  eapply hoare_bind; [apply (keep F); [apply rpc_up; set_solver|by destruct (check_instance_segs_against_admin _ _ _)]|]. intros ?.
  eapply hoare_bind; [apply Hlift|]. intros ?.
  eapply (hoare_bind _ _ _ (fun _ => up_and (fun s => F s /\ keepalive_built s = true))).
  { intros s [Hu HF]. split; [|done]. by apply (set_up set_keepalive_built) in Hu. }
  intros ?. eapply hoare_bind; [apply Hlift|]. intros ?. eapply hoare_bind; [apply Hlift|]. intros ?.
  eapply hoare_bind; [|intros ?; apply late_startup_up].
  intros s (Hu & HF & Hk). split; [|done]. by apply (set_up set_engine_built) in Hu.
Qed.

(** Stopping the server, also when that raises: the engine may be shut down. *)
Lemma stop_grpc_up r : hoare (up true) (call StopGrpc r) (fun _ : unit => up false) cut.
Proof.
  apply hoare_call.
  all: intros s; intros; match goal with H : up _ _ |- _ => destruct H as (p & Hp & Hc & Hg & Hs & He & Hw) end.
  - exists (serving_to false p). split; [|done]. cbn [log set_log]. rewrite (phase_snoc _ _ _ Hp). unfold next. rewrite Hg. simpl. by rewrite Hc.
  - exists (stop_failed p). split; [cbn [log set_log]; rewrite (phase_snoc _ _ _ Hp); unfold next; rewrite Hg; simpl; by rewrite Hc|].
    split_and!; [done|done|apply orb_true_r|done|done].
Qed.

Lemma graceful_up b : hoare (up b) (graceful args w b) (fun _ => up false) cut.
Proof.
  unfold graceful. eapply (hoare_bind _ _ _ (fun _ => up false)).
  - destruct b; [apply stop_grpc_up|by intros s Hs].
  - intros ?. eapply (hoare_bind_assoc _ _ _ _ (up false)).
    + intros s Hu. destruct (w_shutdown w _); simpl; [|phase].
      destruct Hu as (p & Hp & Hc & Hg & Hs & He & Hw). exists (engine_to false p). split; [|done].
      cbn [log set_log set_engine_shutdown_done]. rewrite (phase_snoc _ _ _ Hp). unfold next. rewrite Hg. simpl.
      by rewrite Hc, Hs.
    + eapply hoare_bind; [apply (hoare_call _ _ _ (up false)); phase|]. intros ? s Hs. exact Hs.
Qed.

(** A call of [finally] itself raises. *)
Definition finally_fails : Prop :=
  (exists e, w_shutdown' w (a_shutdown_timeout args) = Raise e) \/ (exists e, w_stop' w (a_shutdown_timeout args) = Raise e) \/ (exists o e, w_close w o = Raise e).

(** How [finally] may end: everything closed in order, the process gone because a
    thread hangs, or one of its own calls raised. *)
Definition ended (e : option dexn) (s : Serve) : Prop :=
  exists p, phase_of (log s) = Some p /\
    match e with
    | None => client_open p = false /\ ledger_open p = false
    | Some DExit => gone p = true
    | Some (DRaise _) => finally_fails
    end.

(** While [finally] stops the components: [e] and [k] say whether the engine and the
    sweep may still be live. *)
Definition stopping (e k : bool) (s : Serve) : Prop :=
  exists p, phase_of (log s) = Some p /\ calm p = true /\ gone p = false /\ halted p = true /\
    (engine_live p = true -> e = true) /\ (sweep_live p = true -> k = true).

(** Once the pool was waited for: quiet, or stuck. *)
Definition waited_for (drained : bool) (s : Serve) : Prop :=
  exists p, phase_of (log s) = Some p /\ gone p = false /\ idle p = true /\ client_open p = true /\ ledger_open p = true /\
    (if drained then quiet p = true else stuck p = true).

Ltac next_phase Hp Hg := cbn [log set_log set_engine_shutdown_done]; rewrite (phase_snoc _ _ _ Hp); unfold next; rewrite Hg; simpl.

Lemma finally_engine e k : hoare (stopping e k)
  (if e then _ ← call ShutdownEngine (w_shutdown' w (a_shutdown_timeout args)); modify set_engine_shutdown_done else mret tt)
  (fun _ => stopping false k) (fun x => ended (Some x)).
Proof.
  intros s (p & Hp & Hc & Hg & Hs & He & Hk). destruct e; [|by exists p].
  destruct (w_shutdown' w _) eqn:E; simpl.
  - exists (engine_to false p). split; [next_phase Hp Hg; by rewrite Hc, Hs|done].
  - exists p. split; [next_phase Hp Hg; by rewrite Hc, Hs|]. left. eauto.
Qed.

Lemma finally_keepalive k : hoare (stopping false k)
  (if k then call StopKeepalive (w_stop' w (a_shutdown_timeout args)) else mret tt) (fun _ => stopping false false) (fun x => ended (Some x)).
Proof.
  intros s (p & Hp & Hc & Hg & Hs & He & Hk). destruct k; [|by exists p].
  destruct (w_stop' w _) eqn:E; simpl.
  - exists (sweep_to false p). split; [next_phase Hp Hg; by rewrite Hc|done].
  - exists p. split; [next_phase Hp Hg; by rewrite Hc|]. right. left. eauto.
Qed.

Lemma finally_wait : hoare (stopping false false) (wait_executor args w) waited_for (fun x => ended (Some x)).
Proof.
  intros s (p & Hp & Hc & Hg & Hs & He & Hk).
  assert (idle p = true) as Hi by (unfold idle; destruct (engine_live p), (sweep_live p); naive_solver).
  pose proof Hc as Hc'. unfold calm in Hc'. unfold wait_executor. destruct (w_drained w _); simpl.
  - exists (pool_closed p). split; [next_phase Hp Hg; by rewrite Hc, Hi|]. unfold quiet, idle in *. simpl. zbool.
    repeat match goal with H : _ = false |- _ => rewrite H; clear H end. done.
  - exists (now_stuck p). split; [next_phase Hp Hg; by rewrite Hc, Hi|]. simpl. zbool. done.
Qed.

Lemma finally_close_keepalive (k d : bool) : hoare (waited_for d)
  (if k then call CloseKeepalive (w_close w CloseKeepalive) else mret tt) (fun _ => waited_for d) (fun x => ended (Some x)).
Proof.
  intros s (p & Hp & Hg & Hi & H). destruct k; [|by exists p].
  assert (sweep_live p = false) as Hw by (unfold idle in Hi; by destruct (sweep_live p), (engine_live p)).
  destruct (w_close w CloseKeepalive) eqn:E; simpl; exists p; (split; [next_phase Hp Hg; by rewrite Hw|]); [done|].
  right. right. eauto.
Qed.

Lemma finally_close_backend (k : bool) : hoare (waited_for true)
  (if k then call CloseBackend (w_close w CloseBackend) else mret tt) (fun _ => waited_for true) (fun x => ended (Some x)).
Proof.
  intros s (p & Hp & Hg & Hi & Hc & Hl & Hq). destruct k; [|by exists p].
  destruct (w_close w CloseBackend) eqn:E; simpl; exists p; (split; [next_phase Hp Hg; by rewrite Hq, Hc|]); [done|].
  right. right. eauto.
Qed.

Lemma finally_close : hoare (waited_for true)
  (_ ← call CloseClient (w_close w CloseClient); call CloseLedger (w_close w CloseLedger))
  (fun _ => ended None) (fun x => ended (Some x)).
Proof.
  intros s (p & Hp & Hg & Hi & Hc & Hl & Hq).
  destruct (w_close w CloseClient) eqn:E1; simpl.
  2: { exists p. split; [next_phase Hp Hg; by rewrite Hq, Hc|]. right. right. eauto. }
  assert (phase_of (log s ++ [Did CloseClient]) = Some (client_closed p)) as Hp1 by (next_phase Hp Hg; by rewrite Hq, Hc).
  assert (quiet (client_closed p) = true) as Hq1 by exact Hq. assert (gone (client_closed p) = false) as Hg1 by exact Hg.
  destruct (w_close w CloseLedger) eqn:E2; simpl.
  - exists (ledger_closed (client_closed p)). split; [next_phase Hp1 Hg1; by rewrite Hq1|done].
  - exists (client_closed p). split; [next_phase Hp1 Hg1; by rewrite Hq1|]. right. right. eauto.
Qed.

Lemma finally_body (e k kb bb : bool) : hoare (stopping e k)
  (_ ← (if e then _ ← call ShutdownEngine (w_shutdown' w (a_shutdown_timeout args)); modify set_engine_shutdown_done else mret tt);
   _ ← (if k then call StopKeepalive (w_stop' w (a_shutdown_timeout args)) else mret tt);
   drained ← wait_executor args w;
   _ ← (if kb then call CloseKeepalive (w_close w CloseKeepalive) else mret tt);
   if negb drained then hard_exit
   else
     _ ← (if bb then call CloseBackend (w_close w CloseBackend) else mret tt);
     _ ← call CloseClient (w_close w CloseClient);
     call CloseLedger (w_close w CloseLedger))
  (fun _ => ended None) (fun x => ended (Some x)).
Proof.
  eapply hoare_bind; [apply finally_engine|intros ?]. eapply hoare_bind; [apply finally_keepalive|intros ?].
  eapply hoare_bind; [apply finally_wait|intros drained].
  eapply hoare_bind; [apply finally_close_keepalive|intros ?]. destruct drained; simpl.
  - eapply hoare_bind; [apply finally_close_backend|intros ?]. apply finally_close.
  - intros s (p & Hp & Hg & _ & _ & _ & Hq). exists (now_gone p). split; [|done]. next_phase Hp Hg. by rewrite Hq.
Qed.

Lemma finalize_ends : hoare (up false) (finalize args w) (fun _ => ended None) (fun e => ended (Some e)).
Proof.
  intros s0 Hu.
  set (e := engine_built s0 && negb (engine_shutdown_done s0)). set (k := keepalive_built s0 && keepalive_started s0).
  apply (finally_body e k (keepalive_built s0) (backend_built s0) s0).
  destruct Hu as (p & Hp & Hc & Hg & Hs & He & Hk). exists p. unfold e, k. split_and!; [done..| |].
  - intros H. by destruct (He H) as [-> ->].
  - intros H. by destruct (Hk H) as [-> ->].
Qed.
End protocol.

(** What a run leaves behind; [phase0] when the ledger could not be opened. *)
Definition run_ended (args : Args) (w : Answers) (r : result dexn Z) (p : Phase) : Prop :=
  match w_open w (a_ledger args), r with
  | Raise e, _ => r = Raise (DRaise e) /\ p = phase0
  | Ok _, Raise DExit => gone p = true
  | Ok _, _ => (client_open p = false /\ ledger_open p = false) \/ finally_fails args w
  end.

Lemma serve_follows args w : exists p, phase_of (log (serve args w init_serve).1) = Some p /\
  run_ended args w (serve args w init_serve).2 p.
Proof.
  assert (hoare (fun s => s = init_serve) (grpc_server ← startup args w; graceful args w grpc_server) (fun _ => up false) cut) as Hb.
  { eapply hoare_bind; [apply startup_up|]. apply graceful_up. }
  unfold run_ended, serve. destruct (w_open w _) as [[]|e0]; [|by exists phase0].
  change ((_ ← lift_k (Ok tt); with_finally args w (grpc_server ← startup args w; graceful args w grpc_server)) init_serve)
    with (with_finally args w (grpc_server ← startup args w; graceful args w grpc_server) init_serve).
  unfold with_finally. specialize (Hb init_serve eq_refl).
  destruct ((grpc_server ← startup args w; graceful args w grpc_server) init_serve) as [s1 [code|[|e]]]; simpl in Hb.
  2: { exact Hb. }
  all: pose proof (finalize_ends args w s1 Hb) as Hf; destruct (finalize args w s1) as [s2 [[]|[|e2]]];
    destruct Hf as (p & Hp & Hf); exists p; (split; [exact Hp|]); simpl; auto.
Qed.

(** ** Reading the protocol *)

Lemma follow_None l : foldl follow None l = None.
Proof. by induction l. Qed.

Lemma follow_cons p e l p' : foldl follow (Some p) (e :: l) = Some p' ->
  exists p1, next p e = Some p1 /\ foldl follow (Some p1) l = Some p'.
Proof. simpl. destruct (next p e) as [p1|]; [eauto|]. by rewrite follow_None. Qed.

Lemma phase_app l1 l2 p : phase_of (l1 ++ l2) = Some p ->
  exists p1, phase_of l1 = Some p1 /\ foldl follow (Some p1) l2 = Some p.
Proof.
  unfold phase_of. rewrite foldl_app. destruct (foldl _ (Some phase0) l1) as [p1|]; [eauto|]. by rewrite follow_None.
Qed.

Ltac next_cases H := unfold next, allow in H; repeat (case_match; simplify_eq/=).

(** The pool is closed only by draining it, and a process that hangs or is gone never
    closes the client. *)
Lemma follow_pool l : forall p p', foldl follow (Some p) l = Some p' ->
  pool_open p = true -> pool_open p' = false -> Did DrainPool ∈ l.
Proof.
  induction l as [|e l IH]; intros p p' H Hp Hp'; [simpl in H; congruence|].
  apply follow_cons in H as (p1 & Hn & H). destruct (pool_open p1) eqn:Hp1; [right; by eapply IH|].
  next_cases Hn; try congruence. destruct o; simpl in *; try congruence. left.
Qed.

Lemma follow_stuck l : forall p p', foldl follow (Some p) l = Some p' -> stuck p' = false -> (Exited ∉ l) /\ stuck p = false.
Proof.
  induction l as [|e l IH]; intros p p' H Hp'; [simpl in H; split; [apply not_elem_of_nil|congruence]|].
  apply follow_cons in H as (p1 & Hn & H). destruct (IH _ _ H Hp') as [Hl Hs].
  rewrite not_elem_of_cons. next_cases Hn; try destruct o; simpl in *; try congruence; done.
Qed.

Lemma follow_quiet l : forall p p', foldl follow (Some p) l = Some p' -> quiet p = true -> Exited ∉ l.
Proof.
  induction l as [|e l IH]; intros p p' H Hq; [apply not_elem_of_nil|].
  apply follow_cons in H as (p1 & Hn & H). rewrite not_elem_of_cons.
  assert (pool_open p = false /\ stuck p = false) as [Hp Hs] by (unfold quiet in Hq; by zbool).
  assert (calm p = false) as Hc by (unfold calm; by rewrite Hp).
  assert (e <> Exited /\ quiet p1 = true) as [He Hq1]; [|split; [done|by eapply IH]].
  next_cases Hn; try congruence; split; try done.
  all: rewrite ?Hc in *; try done. destruct o; simpl in *; rewrite ?Hc in *; done.
Qed.

(** C29. Whatever the awaited calls answer, the calls a run makes follow the
    protocol: the store is called only while the pool and the client are open, the
    server accepts only while the engine is live and is stopped before the engine is
    shut down, or that stop raised, the engine and the sweep have stopped before the pool is drained,
    the client and the backend are closed only when no thread is inside the store,
    the ledger last.  The process is ended at once only when a call hangs;
    otherwise everything is closed, unless a shutdown call itself raised.  When the
    ledger cannot be opened nothing is started at all. *)
Theorem serve_orderly args w :
  let '(s, r) := serve args w init_serve in exists p, phase_of (log s) = Some p /\ run_ended args w r p.
Proof. pose proof (serve_follows args w) as H. by destruct (serve args w init_serve). Qed.

(** C30. The store client is never closed under a thread that is still inside it: in
    every run a return of [client.close()] comes after the threads of the pool have
    all ended, and never in a run that is cut off because a call hangs. *)
Theorem client_closed_after_drain args w l1 l2 :
  log (serve args w init_serve).1 = l1 ++ Did CloseClient :: l2 ->
  (Did DrainPool ∈ l1) /\ (Exited ∉ l1 ++ l2).
Proof.
  intros E. destruct (serve_follows args w) as (p & Hp & _). rewrite E in Hp.
  apply phase_app in Hp as (p1 & Hp1 & Hrest). apply follow_cons in Hrest as (p2 & Hn & Hrest).
  assert (quiet p1 = true /\ quiet p2 = true) as [Hq1 Hq2].
  { next_cases Hn; zbool; done. }
  assert (pool_open p1 = false /\ stuck p1 = false) as [Hpool Hs] by (unfold quiet in Hq1; by zbool).
  split; [by eapply follow_pool|]. rewrite not_elem_of_app. split.
  - by eapply follow_stuck in Hp1 as [? _].
  - by eapply follow_quiet.
Qed.

(** A service that starts, serves and shuts down; and one whose shutdown hangs. *)
Definition demo_args : Args := mkArgs (mkKeyComputer "m" 128 1 None 1) ["a=s0"] "main" (Some "http://127.0.0.1:9003")
  "127.0.0.1:50088" "127.0.0.1:7001" "tcp" 0 "sha256" "/tmp/l.db" 30000 30000 5000 4 10000 5000 600000 4 [] "127.0.0.1:9000".
Definition demo_body : string :=
  let q := String "034" EmptyString in
  "{" +:+ q +:+ "success" +:+ q +:+ ": true, " +:+ q +:+ "segments" +:+ q +:+ ": [{" +:+
  q +:+ "segment_name" +:+ q +:+ ": " +:+ q +:+ "s0" +:+ q +:+ ", " +:+
  q +:+ "te_endpoint" +:+ q +:+ ": " +:+ q +:+ "s0" +:+ q +:+ "}]}".
Definition demo_answers (drained : bool) : Answers :=
  let fine {A} (_ : A) : result kexn unit := Ok tt in
  mkAnswers fine (fun _ _ => WDone (Ok tt)) 64 (fun _ => Ok demo_body) (fun _ => WDone (Ok [mkHandle COPY []])) (Ok 0)
    (Ok tt) (Ok tt) (Ok tt) (Ok tt) fine fine fine fine (fun _ => drained) fine.

Example demo_serves : run demo_args (demo_answers true) =
  Some (mkServe [Did ConnectRpc; Did CheckSegsRpc; Did RebuildRpc; Did (TrackHandle (mkHandle COPY [])); Did GcRpc;
                 Did StartKeepalive; Did StartEngine; Did StartGrpc; Did StopGrpc; Did ShutdownEngine; Did StopKeepalive;
                 Did StopKeepalive; Did DrainPool; Did CloseKeepalive; Did CloseBackend; Did CloseClient; Did CloseLedger]
          true true true true true, Ok 0).
Proof. vm_compute. reflexivity. Qed.

Example demo_hangs : (snd <$> run demo_args (demo_answers false)) = Some (Raise DExit).
Proof. vm_compute. reflexivity. Qed.

Lemma client_closed_after_drain_witness : exists l1 l2,
  log (serve demo_args (demo_answers true) init_serve).1 = l1 ++ Did CloseClient :: l2 /\
  (Did DrainPool ∈ l1) /\ (Exited ∉ l1 ++ l2).
Proof.
  eexists (take 15 (log (serve demo_args (demo_answers true) init_serve).1)), _.
  assert (log (serve demo_args (demo_answers true) init_serve).1 =
    take 15 (log (serve demo_args (demo_answers true) init_serve).1) ++ Did CloseClient :: [Did CloseLedger]) as E
    by (vm_compute; reflexivity).
  split; [exact E|]. exact (client_closed_after_drain _ _ _ _ E).
Defined.

(** ** Start-up and the segments *)

(** The segments a directory answers were configured, and have stripped names. *)
Lemma register_specs_configured specs : forall d d' l,
  register_specs specs d = (d', Ok tt) -> configured_segs specs = Ok l ->
  forall i segs, dget i d' = Some segs -> dget i d = Some segs \/ (forall s, s ∈ segs -> s ∈ l /\ strip s = s /\ s <> EmptyString).
Proof.
  induction specs as [|spec specs IH]; intros d d' l H Hl i segs Hi.
  - simpl in H. injection H as <-. by left.
  - simpl in H, Hl. unfold mbind, M_bind, lift, result_bind in H, Hl.
    destruct (parse_instance_segs spec) as [is_|] eqn:Hp; [|done].
    destruct (configured_segs specs) as [l'|] eqn:Hc; [|done]. injection Hl as <-.
    pose proof (parse_stripped _ _ Hp) as Hs. rewrite (register_stripped _ _ Hs) in H.
    destruct (din is_.1 d); [done|].
    destruct (IH _ _ _ H eq_refl _ _ Hi) as [Hd|Hd].
    + destruct (decide (i = is_.1)) as [->|Hne]; [|left; by rewrite dget_dset_ne in Hd].
      rewrite dget_dset_eq in Hd. injection Hd as <-. right. intros s Hin.
      split; [rewrite elem_of_app; by left|]. destruct Hs as (_ & _ & Hn & _). rewrite <- Hn in Hin.
      unfold strip_names in Hin. apply list_elem_of_filter in Hin as [Hne Hin].
      apply list_elem_of_fmap in Hin as (x & -> & _). split; [apply strip_idem|done].
    + right. intros s Hin. destruct (Hd s Hin) as [? ?]. split; [rewrite elem_of_app; by right|done].
Qed.

(** The daemon serves only instances whose segments the master knows: when the
    start-up succeeds, every segment that [locate] can answer is mounted on the
    master under its own transport endpoint, the name replicas are verified with. *)
Theorem started_segments_mounted args w s s' b :
  startup args w s = (s', Ok b) ->
  exists conf details, build_backend args = Ok conf /\ get_segments_detail (w_depth w) (w_get w) = Ok details /\
    forall instance segs seg, locate (bc_directory conf) instance = Ok segs -> seg ∈ segs -> seg_ok (by_name details) seg.
Proof.
  intros H. unfold startup in H.
  apply bind_ok_inv in H as (s1 & ? & _ & H). apply bind_ok_inv in H as (s2 & conf & Hb & H).
  apply bind_ok_inv in H as (s3 & ? & _ & H). apply bind_ok_inv in H as (s4 & [] & Hc & _).
  assert (build_backend args = Ok conf) as Hconf by (destruct (build_backend args); by inversion Hb).
  assert (check_instance_segs_against_admin (w_depth w) (w_get w) args = Ok tt) as Hcheck.
  { destruct (check_instance_segs_against_admin (w_depth w) (w_get w) args) as [[]|]; [done|]. by inversion Hc. }
  unfold check_instance_segs_against_admin, mbind, result_bind in Hcheck.
  destruct (configured_segs _) as [l|] eqn:Hl; [|done]. destruct (get_segments_detail _ _) as [details|]; [|done].
  exists conf, details. split_and!; [done|done|]. intros instance segs seg Hloc Hin.
  unfold build_backend, mbind, result_bind in Hconf. destruct (directory_from_specs _) as [d|] eqn:Hd; [|done].
  assert (bc_directory conf = d) as Ed by (repeat (case_match; try done); by injection Hconf as <-).
  rewrite Ed in Hloc. unfold locate in Hloc. destruct (dget (strip instance) d) as [ss|] eqn:Hg; [|done]. injection Hloc as ->.
  unfold directory_from_specs in Hd. destruct (a_instance_segs args) as [|sp sps] eqn:Esp; [done|].
  destruct (register_specs _ []) as [d' [[]|]] eqn:Hr; [|done]. injection Hd as ->.
  destruct (register_specs_configured _ _ _ _ Hr Hl _ _ Hg) as [|Hall]; [done|].
  destruct (Hall seg Hin) as (Hin' & Hst & Hne).
  pose proof (proj1 (proj1 (validate_segs_iff l details)) Hcheck seg Hin') as Hok. rewrite Hst in Hok. by apply Hok.
Qed.

Lemma started_segments_mounted_witness : exists s' b details,
  startup demo_args (demo_answers true) init_serve = (s', Ok b) /\
  get_segments_detail 64 (fun _ => Ok demo_body) = Ok details /\ seg_ok (by_name details) "s0".
Proof.
  destruct (startup demo_args (demo_answers true) init_serve) as [s' [b|e]] eqn:E; [|vm_compute in E; discriminate E].
  destruct (started_segments_mounted _ _ _ _ _ E) as (conf & details & Hb & Hd & Hall).
  exists s', b, details. split; [reflexivity|]. split; [exact Hd|]. vm_compute in Hb. injection Hb as <-.
  apply (Hall "a" ["s0"]); [reflexivity|left].
Defined.
