(* ===== verification/DaemonMain.v ===== *)
(** * kvcm: the daemon's command line

    [main] of [kvcm/daemon.py]: the options of the process, the namespace they are
    read into, and what [run] makes of it.  Options are parsed as in [ArgParse], the
    service runs as in [Daemon].  Help texts are not modelled. *)

From S2P Require Import Prelude PyDict PyStr KvcmTypes Keys Instances ArgParse Daemon.
From Stdlib Require Import Ascii.
Local Open Scope Z_scope.

#[local] Arguments String.append !_ _ /.

Section main.
(** [secs n]: the literal [n.0]; [ms]: a duration in the unit of [Daemon]. *)
Context {F : Type} (py_float : string -> option F) (secs : Z -> F) (ms : F -> Z).
Abbreviation option_ := (@opt F).

Definition req_str (name dest : string) : option_ := mkOpt name dest StoreStr VNone true None.
Definition def_str (name dest default : string) : option_ := mkOpt name dest StoreStr (VStr default) false None.
Definition def_int (name dest : string) (default : Z) : option_ := mkOpt name dest StoreInt (VInt default) false None.
Definition def_float (name dest : string) (default : Z) : option_ := mkOpt name dest StoreFloat (VFloat (secs default)) false None.

Definition o_master := req_str "--master" "master".
Definition o_local_hostname := req_str "--local-hostname" "local_hostname".
Definition o_protocol := def_str "--protocol" "protocol" "tcp".
Definition o_device := def_int "--device" "device" 0.
Definition o_model_name := req_str "--model-name" "model_name".
Definition o_block_size := def_int "--block-size" "block_size" 128.
Definition o_tp_size := def_int "--tp-size" "tp_size" 1.
Definition o_peer_tp_size : option_ := mkOpt "--peer-tp-size" "peer_tp_size" StoreInt VNone false None.
Definition o_put_step := def_int "--put-step" "put_step" 1.
Definition o_hash_algo := def_str "--hash-algo" "hash_algo" "sha256".
Definition o_instance_segs : option_ := mkOpt "--instance-segs" "instance_segs" Append VNone true None.
Definition o_capability : option_ := mkOpt "--capability" "capability" StoreStr (VStr "main") false (Some ["v0311"; "main"]).
Definition o_ledger := req_str "--ledger" "ledger".
Definition o_max_concurrent := def_int "--max-concurrent" "max_concurrent" 4.
Definition o_listen := def_str "--listen" "listen" "127.0.0.1:9000".
Definition o_keepalive_interval := def_float "--keepalive-interval-s" "keepalive_interval_s" 5.
Definition o_lease_ttl := def_float "--lease-ttl-s" "lease_ttl_s" 10.
Definition o_keepalive_window := def_float "--keepalive-window-s" "keepalive_window_s" 600.
Definition o_connect_timeout := def_float "--connect-timeout-s" "connect_timeout_s" 30.
Definition o_copy_submit_concurrency := def_int "--copy-submit-concurrency" "copy_submit_concurrency" 4.
Definition o_rpc_timeout := def_float "--rpc-timeout-s" "rpc_timeout_s" 30.
Definition o_shutdown_timeout := def_float "--shutdown-timeout-s" "shutdown_timeout_s" 5.
Definition o_kv_event_endpoint : option_ := mkOpt "--kv-event-endpoint" "kv_event_endpoint" Append VNone false None.
Definition o_admin : option_ := mkOpt "--admin" "admin" StoreStr VNone false None.
Definition o_help (name : string) : option_ := mkOpt name "help" Help VNone false None.

Definition daemon_options : list option_ :=
  [o_help "-h"; o_help "--help"; o_master; o_local_hostname; o_protocol; o_device; o_model_name; o_block_size; o_tp_size;
   o_peer_tp_size; o_put_step; o_hash_algo; o_instance_segs; o_capability; o_ledger; o_max_concurrent; o_listen;
   o_keepalive_interval; o_lease_ttl; o_keepalive_window; o_connect_timeout; o_copy_submit_concurrency; o_rpc_timeout;
   o_shutdown_timeout; o_kv_event_endpoint; o_admin].

(** The namespace, by attribute. *)
Record Config : Type := mkConfig {
  n_master : string;
  n_local_hostname : string;
  n_protocol : string;
  n_device : Z;
  n_model_name : string;
  n_block_size : Z;
  n_tp_size : Z;
  n_peer_tp_size : option Z;
  n_put_step : Z;
  n_hash_algo : string;
  n_instance_segs : list string;
  n_capability : string;
  n_ledger : string;
  n_max_concurrent : Z;
  n_listen : string;
  n_keepalive_interval_s : F;
  n_lease_ttl_s : F;
  n_keepalive_window_s : F;
  n_connect_timeout_s : F;
  n_copy_submit_concurrency : Z;
  n_rpc_timeout_s : F;
  n_shutdown_timeout_s : F;
  n_kv_event_endpoint : option (list string);
  n_admin : option string }.

(** The value of an attribute, with the type its option gives it. *)
Definition str_of (d : @Namespace F) (k : string) : string := match dget k d with Some (VStr s) => s | _ => EmptyString end.
Definition str_opt (d : @Namespace F) (k : string) : option string := match dget k d with Some (VStr s) => Some s | _ => None end.
Definition int_of (d : @Namespace F) (k : string) : Z := match dget k d with Some (VInt z) => z | _ => 0 end.
Definition int_opt (d : @Namespace F) (k : string) : option Z := match dget k d with Some (VInt z) => Some z | _ => None end.
Definition float_of (d : @Namespace F) (k : string) : F := match dget k d with Some (VFloat f) => f | _ => secs 0 end.
Definition list_opt (d : @Namespace F) (k : string) : option (list string) := match dget k d with Some (VList l) => Some l | _ => None end.

Definition config_of (d : @Namespace F) : Config :=
  mkConfig (str_of d "master") (str_of d "local_hostname") (str_of d "protocol") (int_of d "device") (str_of d "model_name")
    (int_of d "block_size") (int_of d "tp_size") (int_opt d "peer_tp_size") (int_of d "put_step") (str_of d "hash_algo")
    (default [] (list_opt d "instance_segs")) (str_of d "capability") (str_of d "ledger") (int_of d "max_concurrent")
    (str_of d "listen") (float_of d "keepalive_interval_s") (float_of d "lease_ttl_s") (float_of d "keepalive_window_s")
    (float_of d "connect_timeout_s") (int_of d "copy_submit_concurrency") (float_of d "rpc_timeout_s")
    (float_of d "shutdown_timeout_s") (list_opt d "kv_event_endpoint") (str_opt d "admin").

(** What [run] reads of it. *)
Definition args_of (c : Config) : Args :=
  mkArgs (mkKeyComputer (n_model_name c) (n_block_size c) (n_tp_size c) (n_peer_tp_size c) (n_put_step c))
    (n_instance_segs c) (n_capability c) (n_admin c) (n_master c) (n_local_hostname c) (n_protocol c) (n_device c) (n_hash_algo c)
    (n_ledger c) (ms (n_connect_timeout_s c)) (ms (n_rpc_timeout_s c)) (ms (n_shutdown_timeout_s c))
    (n_copy_submit_concurrency c) (ms (n_lease_ttl_s c))
    (ms (n_keepalive_interval_s c)) (ms (n_keepalive_window_s c)) (n_max_concurrent c) (default [] (n_kv_event_endpoint c)) (n_listen c).

(** [main]: the process ends with a status before anything runs, or the service runs. *)
Inductive main_end : Type := Status (code : Z) | Served (s : Serve) (r : result dexn Z).

Definition main (argv : list string) (w : Answers) : main_end :=
  match parse_args py_float daemon_options argv with
  | Exit c => Status c
  | Parsed d =>
      match run (args_of (config_of d)) w with
      | None => Status 1
      | Some (s, r) => Served s r
      end
  end.

(** ** The texts of the options *)

Context (f_str : F -> string).

(** The options of a configuration, each with the text of its value. *)
Definition line (c : Config) : list (option_ * string) :=
  [(o_master, n_master c); (o_local_hostname, n_local_hostname c); (o_protocol, n_protocol c); (o_device, py_str (n_device c));
   (o_model_name, n_model_name c); (o_block_size, py_str (n_block_size c)); (o_tp_size, py_str (n_tp_size c));
   (o_put_step, py_str (n_put_step c)); (o_hash_algo, n_hash_algo c); (o_capability, n_capability c); (o_ledger, n_ledger c);
   (o_max_concurrent, py_str (n_max_concurrent c)); (o_listen, n_listen c);
   (o_keepalive_interval, f_str (n_keepalive_interval_s c)); (o_lease_ttl, f_str (n_lease_ttl_s c));
   (o_keepalive_window, f_str (n_keepalive_window_s c)); (o_connect_timeout, f_str (n_connect_timeout_s c));
   (o_copy_submit_concurrency, py_str (n_copy_submit_concurrency c)); (o_rpc_timeout, f_str (n_rpc_timeout_s c));
   (o_shutdown_timeout, f_str (n_shutdown_timeout_s c))] ++
  ((fun s => (o_instance_segs, s)) <$> n_instance_segs c) ++
  ((fun s => (o_kv_event_endpoint, s)) <$> default [] (n_kv_event_endpoint c)) ++
  match n_peer_tp_size c with Some z => [(o_peer_tp_size, py_str z)] | None => [] end ++
  match n_admin c with Some a => [(o_admin, a)] | None => [] end.

Lemma dset_dset {K V} `{EqDecision K} (k : K) (v w : V) d : dset k v (dset k w d) = dset k v d.
Proof.
  induction d as [|[k' x] d IH]; simpl; [by rewrite decide_True|].
  destruct (decide (k = k')) as [->|Hne]; simpl; [by rewrite decide_True|]. by rewrite decide_False, IH.
Qed.

Lemma apply_app l1 l2 (d : @Namespace F) : apply_all py_float (l1 ++ l2) d = (d1 ← apply_all py_float l1 d; apply_all py_float l2 d1).
Proof. revert d. induction l1 as [|[o s] l1 IH]; intros d; [done|]. simpl. destruct (take_action _ _ _ _); [apply IH|done]. Qed.

(** An option that collects, given once or more. *)
Lemma apply_append (o : option_) l s : o_action o = Append -> o_choices o = None -> forall d,
  apply_all py_float ((fun s => (o, s)) <$> (s :: l)) d =
    Some (dset (o_dest o) (VList (match dget (o_dest o) d with Some (VList l0) => l0 | _ => [] end ++ s :: l)) d).
Proof.
  intros Ha Hc. revert s. induction l as [|s' l IH]; intros s d.
  - simpl. unfold take_action, convert, allowed, store. by rewrite Ha, Hc.
  - rewrite fmap_cons. cbn [apply_all]. unfold take_action at 1, convert, allowed, store. rewrite Ha, Hc. simpl option_bind.
    cbn [mbind option_bind]. rewrite IH, dget_dset_eq, dset_dset, <- app_assoc. done.
Qed.

(** What a namespace must satisfy to come from a command line. *)
Record config_ok (c : Config) : Prop := {
  ok_capability : n_capability c ∈ ["v0311"; "main"];
  ok_segs : n_instance_segs c <> [];
  ok_events : n_kv_event_endpoint c <> Some [] }.

Context (f_str_ok : forall x, py_float (f_str x) = Some x).

Lemma take_str (o : option_) s d : o_action o = StoreStr -> allowed o s = true ->
  take_action py_float o s d = Some (dset (o_dest o) (VStr s) d).
Proof. intros Ha Hs. unfold take_action, convert, store. rewrite Ha. simpl. by rewrite Hs. Qed.
Lemma take_int (o : option_) z d : o_action o = StoreInt -> o_choices o = None ->
  take_action py_float o (py_str z) d = Some (dset (o_dest o) (VInt z) d).
Proof. intros Ha Hc. unfold take_action, convert, store, allowed. by rewrite Ha, Hc, py_int_str. Qed.
Lemma take_float (o : option_) x d : o_action o = StoreFloat -> o_choices o = None ->
  take_action py_float o (f_str x) d = Some (dset (o_dest o) (VFloat x) d).
Proof. intros Ha Hc. unfold take_action, convert, store, allowed. by rewrite Ha, Hc, f_str_ok. Qed.

Lemma apply_cons o s l (d : @Namespace F) : apply_all py_float ((o, s) :: l) d = (d1 ← take_action py_float o s d; apply_all py_float l d1).
Proof. done. Qed.

Lemma daemon_options_ok : opts_ok daemon_options.
Proof. split; [apply (bool_decide_unpack _); by vm_compute|]. by repeat constructor. Qed.

Lemma line_known c : Forall (fun a => a.1 ∈ daemon_options /\ long_name (o_name a.1) = true) (line c).
Proof.
  assert (H : forall o, o ∈ daemon_options -> o_action o <> Help -> long_name (o_name o) = true).
  { intros o Ho. unfold daemon_options in Ho. repeat (apply elem_of_cons in Ho as [->|Ho]; [done|]). by apply not_elem_of_nil in Ho. }
  assert (H2 : Forall (fun a : option_ * string => a.1 ∈ daemon_options /\ o_action a.1 <> Help) (line c)).
  { unfold line. rewrite !Forall_app. split_and!.
    - repeat (constructor; [split; [unfold daemon_options; set_solver|done]|]). constructor.
    - apply Forall_fmap, Forall_true. intros s. split; [unfold daemon_options; set_solver|done].
    - apply Forall_fmap, Forall_true. intros s. split; [unfold daemon_options; set_solver|done].
    - destruct (n_peer_tp_size c); constructor; [split; [unfold daemon_options; set_solver|done]|constructor].
    - destruct (n_admin c); constructor; [split; [unfold daemon_options; set_solver|done]|constructor]. }
  eapply Forall_impl; [exact H2|]. intros a [Ha1 Ha2]. split; [done|by apply H].
Qed.

Lemma line_required c : n_instance_segs c <> [] ->
  forallb (fun o => negb (o_required o) || bool_decide (o_name o ∈ o_name <$> (line c).*1)) daemon_options = true.
Proof.
  intros Hsegs. apply forallb_forall. intros o Ho%list_elem_of_In. destruct (o_required o) eqn:Er; [|done]. cbn [negb orb].
  apply bool_decide_eq_true_2, list_elem_of_fmap_2.
  assert (Hin : exists s, (o, s) ∈ line c); [|destruct Hin as [s Hs]; by apply (list_elem_of_fmap_2 fst) in Hs].
  unfold daemon_options in Ho.
  repeat (apply elem_of_cons in Ho as [->|Ho]; [first [done|eexists; unfold line; apply elem_of_app; left; solve [repeat first [apply list_elem_of_here|apply list_elem_of_further]]|idtac]|]);
    try (by apply not_elem_of_nil in Ho).
  destruct (n_instance_segs c) as [|s0 segs] eqn:Es; [done|]. exists s0. unfold line. rewrite Es. set_solver.
Qed.

(** A line of options that is parsed is what the process runs with. *)
Lemma main_line l d w : Forall (fun a => a.1 ∈ daemon_options /\ long_name (o_name a.1) = true) l ->
  forallb (fun o => negb (o_required o) || bool_decide (o_name o ∈ o_name <$> l.*1)) daemon_options = true ->
  apply_all py_float l (defaults daemon_options) = Some d ->
  main (assign <$> l) w = match run (args_of (config_of d)) w with None => Status 1 | Some (s, r) => Served s r end.
Proof. intros Hk Hr Hd. unfold main. by rewrite (parse_assign py_float _ _ d daemon_options_ok Hk Hd), Hr. Qed.

(** The namespace of the options of a configuration is the configuration. *)
Lemma line_config c : config_ok c ->
  exists d, apply_all py_float (line c) (defaults daemon_options) = Some d /\ config_of d = c.
Proof.
  intros [Hcap Hsegs Hev].
  destruct c as [c1 c2 c3 c4 c5 c6 c7 peer c9 c10 segs cap c13 c14 c15 c16 c17 c18 c19 c20 c21 c22 ev adm]. simpl in Hcap, Hsegs, Hev.
  unfold line. cbn [app n_master n_local_hostname n_protocol n_device n_model_name n_block_size n_tp_size n_peer_tp_size n_put_step
    n_hash_algo n_instance_segs n_capability n_ledger n_max_concurrent n_listen n_keepalive_interval_s n_lease_ttl_s
    n_keepalive_window_s n_connect_timeout_s n_copy_submit_concurrency n_rpc_timeout_s n_shutdown_timeout_s n_kv_event_endpoint n_admin].
  repeat (rewrite apply_cons; first [rewrite take_int by done|rewrite take_float by done
    |rewrite take_str by first [done|by apply bool_decide_eq_true_2]]; cbn [mbind option_bind]).
  destruct segs as [|s0 segs]; [done|]. rewrite apply_app, apply_append by done. cbn [mbind option_bind].
  destruct ev as [[|e0 ev]|]; [done| |]; simpl default.
  - rewrite apply_app, apply_append by done. cbn [mbind option_bind].
    destruct peer as [z|], adm as [a|]; cbn [app];
      repeat (rewrite apply_cons; first [rewrite take_int by done|rewrite take_str by done]; cbn [mbind option_bind]);
      (eexists; split; [reflexivity|vm_compute; reflexivity]).
  - cbn [fmap list_fmap app]. destruct peer as [z|], adm as [a|]; cbn [app];
      repeat (rewrite apply_cons; first [rewrite take_int by done|rewrite take_str by done]; cbn [mbind option_bind]);
      (eexists; split; [reflexivity|vm_compute; reflexivity]).
Qed.

(** The options that must be given. *)
Definition required_line (master host model seg ledger : string) : list (option_ * string) :=
  [(o_master, master); (o_local_hostname, host); (o_model_name, model); (o_instance_segs, seg); (o_ledger, ledger)].

Lemma required_known master host model seg ledger l : Forall (fun a => a.1 = o_admin) l ->
  Forall (fun a => a.1 ∈ daemon_options /\ long_name (o_name a.1) = true) (required_line master host model seg ledger ++ l).
Proof.
  intros Hl. apply Forall_app. split.
  - repeat (constructor; [split; [unfold daemon_options; set_solver|done]|]). constructor.
  - eapply Forall_impl; [exact Hl|]. intros a ->. split; [unfold daemon_options; set_solver|done].
Qed.

(** C36. What the daemon runs with is what its command line says, option by option:
    each of the 24 options, written out with its value, sets the one argument it is
    named after; on the line of the required options and [--admin] the others have the
    defaults written out here; and a line without [--admin] ends the process with status 1. *)
Theorem daemon_command_line w
    master host protocol device model block tp peer step algo segs capability ledger concurrent listen
    interval ttl window connect_s copies rpc_s shutdown_s events admin :
  capability ∈ ["v0311"; "main"] -> segs <> [] ->
  main (["--master=" +:+ master; "--local-hostname=" +:+ host; "--protocol=" +:+ protocol; "--device=" +:+ py_str device;
         "--model-name=" +:+ model; "--block-size=" +:+ py_str block; "--tp-size=" +:+ py_str tp; "--put-step=" +:+ py_str step;
         "--hash-algo=" +:+ algo; "--capability=" +:+ capability; "--ledger=" +:+ ledger;
         "--max-concurrent=" +:+ py_str concurrent; "--listen=" +:+ listen; "--keepalive-interval-s=" +:+ f_str interval;
         "--lease-ttl-s=" +:+ f_str ttl; "--keepalive-window-s=" +:+ f_str window; "--connect-timeout-s=" +:+ f_str connect_s;
         "--copy-submit-concurrency=" +:+ py_str copies; "--rpc-timeout-s=" +:+ f_str rpc_s;
         "--shutdown-timeout-s=" +:+ f_str shutdown_s] ++
        ((fun s => "--instance-segs=" +:+ s) <$> segs) ++ ((fun e => "--kv-event-endpoint=" +:+ e) <$> events) ++
        ["--peer-tp-size=" +:+ py_str peer; "--admin=" +:+ admin]) w =
    match run (mkArgs (mkKeyComputer model block tp (Some peer) step) segs capability (Some admin) master host protocol device algo
                 ledger (ms connect_s) (ms rpc_s) (ms shutdown_s) copies (ms ttl) (ms interval) (ms window) concurrent events listen) w
    with None => Status 1 | Some (s, r) => Served s r end /\
  (forall seg, main ["--master=" +:+ master; "--local-hostname=" +:+ host; "--model-name=" +:+ model; "--instance-segs=" +:+ seg;
         "--ledger=" +:+ ledger; "--admin=" +:+ admin] w =
    match run (mkArgs (mkKeyComputer model 128 1 None 1) [seg] "main" (Some admin) master host "tcp" 0 "sha256"
                 ledger (ms (secs 30)) (ms (secs 30)) (ms (secs 5)) 4 (ms (secs 10)) (ms (secs 5)) (ms (secs 600)) 4 [] "127.0.0.1:9000") w
    with None => Status 1 | Some (s, r) => Served s r end) /\
  (forall seg, main ["--master=" +:+ master; "--local-hostname=" +:+ host; "--model-name=" +:+ model; "--instance-segs=" +:+ seg;
         "--ledger=" +:+ ledger] w = Status 1).
Proof.
  intros Hcap Hsegs. split_and!.
  - set (c := mkConfig master host protocol device model block tp (Some peer) step algo segs capability ledger concurrent listen
      interval ttl window connect_s copies rpc_s shutdown_s (match events with [] => None | _ => Some events end) (Some admin)).
    assert (default [] (n_kv_event_endpoint c) = events) as Hev by by destruct events.
    assert (config_ok c) as Hc by (constructor; simpl; [done|done|by destruct events]).
    destruct (line_config c Hc) as (d & Hd & Hcd).
    pose proof (main_line (line c) d w (line_known c) (line_required c Hsegs) Hd) as H. rewrite Hcd in H.
    unfold line in H. rewrite !fmap_app, Hev, <- !list_fmap_compose in H. unfold args_of in H. rewrite Hev in H. exact H.
  - intros seg. assert (Forall (fun a : option_ * string => a.1 = o_admin) [(o_admin, admin)]) as Hl by by repeat constructor.
    exact (main_line _ _ w (required_known master host model seg ledger _ Hl) eq_refl eq_refl).
  - intros seg. exact (main_line _ _ w (required_known master host model seg ledger [] (Forall_nil_2 _)) eq_refl eq_refl).
Qed.
End main.

(** The service runs only when every required option was given. *)
Lemma served_required {F} (py_float : string -> option F) secs ms argv w s r o :
  main py_float secs ms argv w = Served s r -> o ∈ daemon_options secs -> o_required o = true ->
  exists o' v, TOpt o' v ∈ tokens (daemon_options secs) argv /\ o_name o' = o_name o.
Proof.
  unfold main. destruct (parse_args _ _ _) as [d|c] eqn:E; [|done]. intros _ Ho Hr.
  by eapply parse_required.
Qed.

(** ** Whole seconds *)

Definition seconds_main := main (py_int 10) id (fun s => s * 1000).

Lemma daemon_command_line_witness :
  seconds_main ["--master=127.0.0.1:50088"; "--local-hostname=127.0.0.1:7001"; "--protocol=ascend"; "--device=3"; "--model-name=m";
      "--block-size=64"; "--tp-size=2"; "--put-step=1"; "--hash-algo=sha256"; "--capability=main"; "--ledger=/tmp/l.db"; "--max-concurrent=8";
      "--listen="; "--keepalive-interval-s=4"; "--lease-ttl-s=11"; "--keepalive-window-s=60"; "--connect-timeout-s=20";
      "--copy-submit-concurrency=2"; "--rpc-timeout-s=9"; "--shutdown-timeout-s=6"; "--instance-segs=a=s0"; "--kv-event-endpoint=a=tcp://*:5557";
      "--peer-tp-size=4"; "--admin=http://127.0.0.1:9003"] (demo_answers true) =
    match run (mkArgs (mkKeyComputer "m" 64 2 (Some 4) 1) ["a=s0"] "main" (Some "http://127.0.0.1:9003") "127.0.0.1:50088" "127.0.0.1:7001"
                 "ascend" 3 "sha256" "/tmp/l.db" 20000 9000 6000 2 11000 4000 60000 8 ["a=tcp://*:5557"] EmptyString) (demo_answers true)
    with None => Status 1 | Some (s, r) => Served s r end.
Proof.
  refine (proj1 (daemon_command_line (py_int 10) id (fun s => s * 1000) py_str py_int_str (demo_answers true)
    "127.0.0.1:50088" "127.0.0.1:7001" "ascend" 3 "m" 64 2 4 1 "sha256" ["a=s0"] "main" "/tmp/l.db" 8 EmptyString
    4 11 60 20 2 9 6 ["a=tcp://*:5557"] "http://127.0.0.1:9003" _ _)); [right; left|discriminate].
Defined.

(** Nothing, help, an abbreviation with a value, an ambiguous one, a wrong choice. *)
Example no_arguments : seconds_main [] (demo_answers true) = Status 2.
Proof. vm_compute. reflexivity. Qed.
Example help : seconds_main ["--master"; "m:1"; "-h"] (demo_answers true) = Status 0.
Proof. vm_compute. reflexivity. Qed.
Example short_line : match seconds_main ["--mas"; "127.0.0.1:50088"; "--loc=127.0.0.1:7001"; "--model-name"; "m"; "--instance-segs"; "a=s0";
    "--ledger"; "/tmp/l.db"; "--admin"; "http://127.0.0.1:9003"] (demo_answers true) with Served _ r => r = Ok 0 | Status _ => False end.
Proof. vm_compute. reflexivity. Qed.
Example ambiguous : seconds_main ["--help"; "--l"] (demo_answers true) = Status 2.
Proof. vm_compute. reflexivity. Qed.
Example no_such_choice : seconds_main ["--capability=v1"; "--help"] (demo_answers true) = Status 2.
Proof. vm_compute. reflexivity. Qed.
