(* ===== verification/Prototype.v ===== *)
(** * The single-process prototype

    [src/src/]: the content-addressed block pool with reference counts
    ([kv_pool.py]), the prefill and decode pools ([compute.py]), the router
    ([scheduler.py]) and the tiered cache ([storage.py]).  SHA-256 is a parameter;
    block data is its length. *)

From S2P Require Import Prelude PyDict.
From stdpp Require Import sorting.
Local Open Scope Z_scope.

Inductive pexn : Type := POverflowError | PValueError.

Record KVBlockID : Type := mkBlockID {
  bid_model : string;
  bid_layer : Z;
  bid_hash : string
}.
#[export] Instance KVBlockID_eq_dec : EqDecision KVBlockID.
Proof. solve_decision. Defined.

Record KVBlock : Type := mkBlock {
  blk_id : KVBlockID;
  blk_len : Z;
  ref_count : Z;
  access_count : Z
}.

(** ** The block pool *)

Module Pool.
Abbreviation KVPool := (dict KVBlockID KVBlock).

Definition touch (b : KVBlock) : KVBlock := mkBlock (blk_id b) (blk_len b) (ref_count b) (access_count b + 1).
Definition hold (d : Z) (b : KVBlock) : KVBlock := mkBlock (blk_id b) (blk_len b) (ref_count b + d) (access_count b).

Definition put (i : KVBlockID) (len : Z) (p : KVPool) : KVPool :=
  let p1 := if din i p then p else dset i (mkBlock i len 0 0) p in
  match dget i p1 with Some b => dset i (touch b) p1 | None => p1 end.

Definition get (i : KVBlockID) (p : KVPool) : KVPool * option KVBlock :=
  match dget i p with
  | Some b => (dset i (touch b) p, Some (touch b))
  | None => (p, None)
  end.

Definition acquire (i : KVBlockID) (p : KVPool) : KVPool * option KVBlock :=
  match get i p with
  | (p1, Some b) => (dset i (hold 1 b) p1, Some (hold 1 b))
  | r => r
  end.

Definition release (i : KVBlockID) (p : KVPool) : KVPool :=
  match dget i p with
  | Some b => if 0 <? ref_count b then dset i (hold (-1) b) p else p
  | None => p
  end.

(** [list.sort(key=access_count)] is stable. *)
Fixpoint insert_cold (b : KVBlock) (l : list KVBlock) : list KVBlock :=
  match l with
  | [] => [b]
  | c :: l' => if access_count b <=? access_count c then b :: l else c :: insert_cold b l'
  end.
Definition sort_cold (l : list KVBlock) : list KVBlock := foldr insert_cold [] l.

Definition evict_cold (max_blocks : Z) (p : KVPool) : KVPool * Z :=
  if zlen p <=? max_blocks then (p, 0)
  else
    let candidates := sort_cold (filter (fun b => ref_count b = 0) (dvals p)) in
    let n := zlen p - max_blocks in
    (foldl (fun p b => ddel (blk_id b) p) p (py_take n candidates), Z.min n (zlen candidates)).

(** Each block is filed under its own id, with a sensible count. *)
Definition pool_ok (p : KVPool) : Prop :=
  dict_wf p /\ forall i b, dget i p = Some b -> blk_id b = i /\ 0 <= ref_count b.

Inductive op : Type :=
| OPut (i : KVBlockID) (len : Z)
| OGet (i : KVBlockID)
| OAcquire (i : KVBlockID)
| ORelease (i : KVBlockID)
| OEvict (max_blocks : Z).
Definition run_op (p : KVPool) (o : op) : KVPool :=
  match o with
  | OPut i n => put i n p
  | OGet i => (get i p).1
  | OAcquire i => (acquire i p).1
  | ORelease i => release i p
  | OEvict m => (evict_cold m p).1
  end.

Lemma pool_ok_dset i b p : pool_ok p -> blk_id b = i -> 0 <= ref_count b -> pool_ok (dset i b p).
Proof.
  intros [Hw Hp] Hi Hr. split; [by apply dict_wf_dset|]. intros j c. destruct (decide (j = i)) as [->|Hne].
  - rewrite dget_dset_eq. by intros [= <-].
  - rewrite dget_dset_ne by done. apply Hp.
Qed.

Lemma insert_cold_perm b l : insert_cold b l ≡ₚ b :: l.
Proof. induction l as [|c l IH]; [done|]. simpl. destruct (_ <=? _); [done|]. rewrite IH. apply Permutation_swap. Qed.

Lemma sort_cold_perm l : sort_cold l ≡ₚ l.
Proof. induction l as [|b l IH]; [done|]. simpl. by rewrite insert_cold_perm, IH. Qed.

Abbreviation colder := (fun b c => access_count b <= access_count c).

Lemma sort_cold_sorted l : StronglySorted colder (sort_cold l).
Proof.
  assert (Hi : forall b l, StronglySorted colder l -> StronglySorted colder (insert_cold b l)).
  { intros b l0 Hs. induction Hs as [|c l0 Hs IH Hc]; [by repeat constructor|]. simpl.
    destruct (access_count b <=? access_count c) eqn:E; zbool.
    - constructor; [by constructor|]. constructor; [done|]. eapply Forall_impl; [exact Hc|]. simpl. lia.
    - constructor; [done|]. rewrite insert_cold_perm. constructor; [lia|done]. }
  induction l as [|b l IH]; [constructor|]. by apply Hi.
Qed.

Lemma ddel_all_get bs : forall (p : KVPool) i, dict_wf p ->
  dict_wf (foldl (fun p b => ddel (blk_id b) p) p bs) /\
  dget i (foldl (fun p b => ddel (blk_id b) p) p bs) = if decide (i ∈ (blk_id <$> bs)) then None else dget i p.
Proof.
  induction bs as [|b bs IH]; intros p i Hw; [split; [done|]; by rewrite decide_False by apply not_elem_of_nil|].
  simpl. destruct (IH (ddel (blk_id b) p) i (dict_wf_ddel _ _ Hw)) as [Hw' ->]. split; [done|].
  destruct (decide (i = blk_id b)) as [->|Hne].
  - rewrite (decide_True (P := blk_id b ∈ blk_id b :: _)) by left. case_decide; [done|]. by apply dget_ddel_eq.
  - rewrite dget_ddel_ne by done. repeat case_decide; set_solver.
Qed.

Lemma ddel_all_length bs : forall (p : KVPool), dict_wf p -> NoDup (blk_id <$> bs) -> (forall b, b ∈ bs -> blk_id b ∈ dkeys p) ->
  (length (foldl (fun p b => ddel (blk_id b) p) p bs) + length bs = length p)%nat.
Proof.
  induction bs as [|b bs IH]; intros p Hw Hnd Hin; [simpl; lia|]. simpl. rewrite fmap_cons, NoDup_cons in Hnd. destruct Hnd as [Hb Hnd].
  pose proof (length_ddel (blk_id b) p (Hin b (list_elem_of_here _ _))) as Hl.
  specialize (IH (ddel (blk_id b) p) (dict_wf_ddel _ _ Hw) Hnd). rewrite <- Hl, <- IH; [lia|].
  intros c Hc. apply elem_of_dkeys_ddel; [done|]. split; [apply Hin; by right|].
  intros E. apply Hb. apply list_elem_of_fmap. exists c. by rewrite E.
Qed.

Definition unreferenced (p : KVPool) : list KVBlock := filter (fun b => ref_count b = 0) (dvals p).

Lemma unreferenced_spec p b : pool_ok p -> b ∈ unreferenced p <-> dget (blk_id b) p = Some b /\ ref_count b = 0.
Proof.
  intros [Hw Hp]. unfold unreferenced, dvals. rewrite list_elem_of_filter, list_elem_of_fmap. split.
  - intros (Hr&[i c]&->&Hin). apply dget_elem_of in Hin; [|done]. destruct (Hp _ _ Hin) as [E _]. simpl in *. by rewrite E.
  - intros [Hg Hr]. split; [done|]. exists (blk_id b, b). split; [done|]. by apply dget_elem_of.
Qed.

Lemma unreferenced_ids p : pool_ok p -> NoDup (blk_id <$> unreferenced p).
Proof.
  intros [Hw Hp]. unfold unreferenced. apply NoDup_fmap_2_strong.
  - intros b c [Hb _]%unreferenced_spec [Hc _]%unreferenced_spec E; [congruence|done|done].
  - apply NoDup_filter. unfold dvals, dict_wf, dkeys in *.
    apply (NoDup_fmap_1 blk_id). rewrite <- list_fmap_compose. erewrite list_fmap_ext; [exact Hw|].
    intros i [j b] Hi. apply list_elem_of_lookup_2, dget_elem_of, Hp in Hi; [|done]. by destruct Hi as [<- _].
Qed.

Lemma py_take_split {A} n (l : list A) : 0 <= n -> exists k, py_take n l = take k l /\ length (take k l) = Z.to_nat (Z.min n (zlen l)).
Proof. intros Hn. exists (Z.to_nat n). rewrite py_take_nonneg by done. split; [done|]. rewrite length_take. lia. Qed.

(** Eviction takes only blocks nobody holds, the coldest first, exactly as many as
    are needed to reach the bound or as there are; the count it returns is the
    number of blocks removed, and no other block changes. *)
Theorem evict_cold_spec m p : pool_ok p ->
  let '(p', n) := evict_cold m p in
  pool_ok p' /\ n = Z.min (Z.max 0 (zlen p - m)) (zlen (unreferenced p)) /\ zlen p' = zlen p - n /\
  (forall i b, dget i p' = Some b -> dget i p = Some b) /\
  (forall i b, dget i p = Some b -> dget i p' = None ->
     ref_count b = 0 /\ forall c, c ∈ unreferenced p' -> access_count b <= access_count c).
Proof.
  intros Hok. pose proof Hok as [Hw Hp]. unfold evict_cold. destruct (zlen p <=? m) eqn:Em; zbool.
  { split_and!; try done; [lia|lia|]. congruence. }
  fold (unreferenced p). set (cand := sort_cold (unreferenced p)).
  pose proof (sort_cold_perm (unreferenced p)) as Hperm. fold cand in Hperm.
  pose proof (sort_cold_sorted (unreferenced p)) as Hsort. fold cand in Hsort.
  destruct (py_take_split (zlen p - m) cand ltac:(lia)) as (k&->&Hk).
  assert (Hin : forall b, b ∈ take k cand -> dget (blk_id b) p = Some b /\ ref_count b = 0).
  { intros b Hb. apply unreferenced_spec; [done|]. rewrite <- Hperm, <- (take_drop k cand). set_solver. }
  assert (Hget : forall i, dget i (foldl (fun p b => ddel (blk_id b) p) p (take k cand)) =
    if decide (i ∈ (blk_id <$> take k cand)) then None else dget i p) by (intros i; by apply ddel_all_get).
  assert (Hsub : forall i b, dget i (foldl (fun p b => ddel (blk_id b) p) p (take k cand)) = Some b -> dget i p = Some b).
  { intros i b. rewrite Hget. by case_decide. }
  assert (Hok' : pool_ok (foldl (fun p b => ddel (blk_id b) p) p (take k cand))).
  { split; [by apply (ddel_all_get (take k cand) p (mkBlockID EmptyString 0 EmptyString))|]. intros i b E. apply Hp. by apply Hsub. }
  split_and!; try done.
  - rewrite <- Hperm. lia.
  - assert (Hl : (length (foldl (fun p b => ddel (blk_id b) p) p (take k cand)) + length (take k cand) = length p)%nat).
    { apply ddel_all_length; [done| |].
      - pose proof (unreferenced_ids p Hok) as Hnd. rewrite <- Hperm, <- (take_drop k cand), fmap_app in Hnd.
        by apply NoDup_app in Hnd as [? _].
      - intros b [Hb _]%Hin. by apply dget_Some_key in Hb. }
    lia.
  - intros i b Hb. rewrite Hget. case_decide as Hi; [|congruence]. intros _.
    apply list_elem_of_fmap in Hi as (b'&->&Hb'). destruct (Hin _ Hb') as [Hg Hr].
    replace b' with b in * by congruence. split; [done|]. intros c [Hc Hrc]%unreferenced_spec; [|done].
    pose proof Hc as Hc0. rewrite Hget in Hc. case_decide as Hn; [done|].
    assert (Hcc : c ∈ drop k cand).
    { assert (c ∈ cand) as Hcand by (rewrite Hperm; by apply unreferenced_spec).
      rewrite <- (take_drop k cand), elem_of_app in Hcand. destruct Hcand as [Hx|]; [|done].
      exfalso. apply Hn, list_elem_of_fmap. eauto. }
    rewrite <- (take_drop k cand) in Hsort. by eapply (StronglySorted_app_1_elem_of colder).
Qed.

Lemma pool_ok_run p o : pool_ok p -> pool_ok (run_op p o).
Proof.
  intros Hok. pose proof Hok as [Hw Hp]. destruct o as [i n|i|i|i|m]; simpl.
  - unfold put. set (p1 := if din i p then p else dset i (mkBlock i n 0 0) p).
    assert (H1 : pool_ok p1) by (subst p1; destruct (din i p); [done|by apply pool_ok_dset]).
    destruct (dget i p1) as [b|] eqn:E; [|done]. destruct H1 as [Hw1 Hp1]. destruct (Hp1 _ _ E). by apply pool_ok_dset.
  - unfold get. destruct (dget i p) as [b|] eqn:E; [|done]. destruct (Hp _ _ E). by apply pool_ok_dset.
  - unfold acquire, get. destruct (dget i p) as [b|] eqn:E; [|done]. destruct (Hp _ _ E).
    apply pool_ok_dset; [by apply pool_ok_dset|done|simpl; lia].
  - unfold release. destruct (dget i p) as [b|] eqn:E; [|done]. destruct (Hp _ _ E).
    destruct (0 <? ref_count b) eqn:Er; [|done]. zbool. apply pool_ok_dset; [done|done|simpl; lia].
  - pose proof (evict_cold_spec m p Hok) as He. destruct (evict_cold m p). by destruct He.
Qed.

End Pool.

(** ** Prefill, decode and routing *)

Module Router.
Import Pool.
Section router.
(** [hashlib.sha256(bytes).hexdigest()] *)
Context (sha256_bytes : list Z -> string).

(** [t.to_bytes(8, "little")] *)
Definition to_bytes8 (t : Z) : result pexn (list Z) :=
  if (0 <=? t) && (t <? 2 ^ 64) then Ok ((fun k => Z.land (Z.shiftr t (8 * k)) 255) <$> zseq 0 8) else Raise POverflowError.

Fixpoint token_bytes (toks : list Z) : result pexn (list Z) :=
  match toks with
  | [] => Ok []
  | t :: toks => b ← to_bytes8 t; bs ← token_bytes toks; Ok (b ++ bs)
  end.
Definition block_hash (toks : list Z) : result pexn string := b ← token_bytes toks; Ok (sha256_bytes b).

(** The chunks [tokens[i : i + bs] for i in range(0, len, bs)]. *)
Definition chunks (bs : Z) (toks : list Z) : result pexn (list (list Z)) :=
  if bs =? 0 then Raise PValueError
  else Ok ((fun i => py_slice i (i + bs) toks) <$>
             (if bs <? 0 then [] else (fun k => k * bs) <$> py_range ((zlen toks + bs - 1) / bs))).

Definition block_id (model : string) (layer : Z) (chunk : list Z) : result pexn KVBlockID :=
  h ← block_hash chunk; Ok (mkBlockID model layer h).

Abbreviation P := (M KVPool pexn).

Fixpoint prefill_chunks (model : string) (layer : Z) (cs : list (list Z)) : P (list KVBlockID) :=
  match cs with
  | [] => mret []
  | c :: cs =>
      i ← lift (block_id model layer c);
      _ ← modify (put i (zlen c * 8));
      ids ← prefill_chunks model layer cs;
      mret (i :: ids)
  end.

Fixpoint prefill_layers (model : string) (bs : Z) (toks : list Z) (layers : list Z) : P (list KVBlockID) :=
  match layers with
  | [] => mret []
  | l :: layers =>
      cs ← lift (chunks bs toks);
      a ← prefill_chunks model l cs;
      b ← prefill_layers model bs toks layers;
      mret (a ++ b)
  end.

Record PrefillPool : Type := mkPrefillPool { pp_model : string; pp_block_size : Z }.

Definition prefill (pp : PrefillPool) (toks : list Z) (n_layers : Z) : P (list KVBlockID) :=
  prefill_layers (pp_model pp) (pp_block_size pp) toks (py_range n_layers).

(** [DecodePool.load_prefix] *)
Fixpoint load_prefix (ids : list KVBlockID) : P Z :=
  match ids with
  | [] => mret 0
  | i :: ids =>
      fun p => let '(p1, b) := acquire i p in
               (n ← load_prefix ids; mret (match b with Some _ => n + 1 | None => n end)) p1
  end.

Record Request : Type := mkRequest {
  rq_model : string;
  rq_prompt : list Z;
  rq_block_size : Z;
  rq_layers : Z
}.
Record RouteDecision : Type := mkDecision {
  reused_blocks : Z;
  prefill_blocks : Z;
  decode_ready : bool
}.

Fixpoint ids_of (model : string) (cs : list (list Z)) : result pexn (list KVBlockID) :=
  match cs with
  | [] => Ok []
  | c :: cs => i ← block_id model 0 c; ids ← ids_of model cs; Ok (i :: ids)
  end.
Definition prefix_blocks (r : Request) : result pexn (list KVBlockID) :=
  cs ← chunks (rq_block_size r) (rq_prompt r); ids_of (rq_model r) cs.

(** [sum(1 for bid in ids if pool.get(bid) is not None)] *)
Fixpoint count_hits (ids : list KVBlockID) : P Z :=
  match ids with
  | [] => mret 0
  | i :: ids =>
      fun p => let '(p1, b) := get i p in
               (n ← count_hits ids; mret (match b with Some _ => n + 1 | None => n end)) p1
  end.

Definition route (pp : PrefillPool) (r : Request) : P RouteDecision :=
  ids ← lift (prefix_blocks r);
  reused ← count_hits ids;
  _ ← (if reused <? zlen ids then (_ ← prefill pp (rq_prompt r) (rq_layers r); mret tt) else mret tt);
  all ← lift (prefix_blocks r);
  _ ← load_prefix all;
  mret (mkDecision reused (Z.max 0 (zlen ids - reused)) true).

(** ** Shared prefixes are reused *)

(** Blocks only ever appear while requests are routed. *)
Definition grows (p p' : KVPool) : Prop := forall i, is_Some (dget i p) -> is_Some (dget i p').

Lemma grows_dset i b p : grows p (dset i b p).
Proof. intros j. rewrite !dget_is_Some, elem_of_dkeys_dset. tauto. Qed.
#[global] Instance grows_preorder : PreOrder grows.
Proof. split; [by intros p i|]. intros p q r H1 H2 i Hi. by apply H2, H1. Qed.

Lemma grows_put i n p : grows p (put i n p) /\ is_Some (dget i (put i n p)).
Proof.
  unfold put. set (p1 := if din i p then p else dset i (mkBlock i n 0 0) p).
  assert (H1 : grows p p1 /\ is_Some (dget i p1)).
  { subst p1. unfold din. destruct (dget i p) eqn:E; [by rewrite E|]. split; [apply grows_dset|]. by rewrite dget_dset_eq. }
  destruct H1 as [Hg [b Hb]]. rewrite Hb. split; [etrans; [done|apply grows_dset]|]. by rewrite dget_dset_eq.
Qed.

Lemma grows_get i p : grows p (get i p).1.
Proof. unfold get. destruct (dget i p); [apply grows_dset|done]. Qed.
Lemma grows_acquire i p : grows p (acquire i p).1.
Proof. unfold acquire, get. destruct (dget i p); [|done]. etrans; apply grows_dset. Qed.

Lemma count_hits_spec ids : forall p, exists p', count_hits ids p =
    (p', Ok (zlen (filter (fun i => is_Some (dget i p)) ids))) /\ grows p p' /\ dkeys p' = dkeys p.
Proof.
  induction ids as [|i ids IH]; intros p; [by exists p|]. cbn [count_hits]. unfold mbind, M_bind.
  pose proof (grows_get i p) as Hg. assert (Hk : dkeys (get i p).1 = dkeys p).
  { unfold get. destruct (dget i p) eqn:E; [|done]. apply dkeys_dset_in. by eapply dget_Some_key. }
  assert (Hb : is_Some (get i p).2 <-> is_Some (dget i p)) by (unfold get; destruct (dget i p); by split; intros []).
  destruct (get i p) as [p1 b]. simpl in *. destruct (IH p1) as (p'&E&Hg'&Hk'). rewrite E. exists p'.
  split_and!; [|by etrans|congruence]. rewrite filter_cons.
  rewrite (filter_iff_in (fun j => is_Some (dget j p1)) (fun j => is_Some (dget j p))) by
    (intros j _; by rewrite !dget_is_Some, Hk).
  destruct (decide (is_Some (dget i p))) as [Hs|Hs]; rewrite <- Hb in Hs.
  - destruct Hs as [? ->]. unfold mret, M_ret. do 3 f_equal. simpl. lia.
  - destruct b; [|done]. by destruct Hs.
Qed.

Lemma load_prefix_grows ids : forall p, exists p' n, load_prefix ids p = (p', Ok n) /\ grows p p'.
Proof.
  induction ids as [|i ids IH]; intros p; [by exists p, 0|]. cbn [load_prefix]. unfold mbind, M_bind.
  pose proof (grows_acquire i p) as Hg. destruct (acquire i p) as [p1 b]. destruct (IH p1) as (p'&n&E&Hg').
  rewrite E. simpl in *. eexists _, _. split; [reflexivity|]. by etrans.
Qed.

(** A prefill of the same chunks leaves every block of its first layer in the pool. *)
Lemma prefill_chunks_fills model cs : forall p ids, ids_of model cs = Ok ids ->
  exists p', prefill_chunks model 0 cs p = (p', Ok ids) /\ grows p p' /\ forall i, i ∈ ids -> is_Some (dget i p').
Proof.
  induction cs as [|c cs IH]; intros p ids; simpl.
  { intros [= <-]. exists p. split_and!; try done. by intros i Hi%elem_of_nil. }
  unfold mbind at 1, result_bind at 1. destruct (block_id model 0 c) as [i|x] eqn:Ei; [|done].
  unfold mbind at 1, result_bind at 1. destruct (ids_of model cs) as [ids'|x] eqn:Eids; [|done]. intros [= <-].
  unfold mbind, M_bind, lift, modify. destruct (grows_put i (zlen c * 8) p) as [Hg Hi].
  destruct (IH (put i (zlen c * 8) p) ids' eq_refl) as (p'&E&Hg'&Hin). rewrite E. exists p'. split_and!; [done|by etrans|].
  intros j [->|Hj]%elem_of_cons; [by apply Hg'|by apply Hin].
Qed.

Lemma block_id_layer model l1 l2 c i : block_id model l1 c = Ok i -> exists j, block_id model l2 c = Ok j.
Proof. unfold block_id, mbind, result_bind. destruct (block_hash c); [eauto|done]. Qed.

Lemma prefill_chunks_grows model l cs ids : ids_of model cs = Ok ids -> forall p,
  exists p' js, prefill_chunks model l cs p = (p', Ok js) /\ grows p p'.
Proof.
  revert ids. induction cs as [|c cs IH]; intros ids Hids p; [by exists p, []|]. revert Hids. simpl.
  unfold mbind at 1, result_bind at 1. destruct (block_id model 0 c) as [i|x] eqn:Ei; [|done].
  unfold mbind at 1, result_bind at 1. destruct (ids_of model cs) as [ids'|x] eqn:Eids; [|done]. intros _.
  destruct (block_id_layer model 0 l c i Ei) as [j Ej]. unfold mbind, M_bind, lift, modify. rewrite Ej.
  destruct (IH ids' eq_refl (put j (zlen c * 8) p)) as (p'&js&E&Hg). rewrite E. eexists _, _. split; [reflexivity|].
  etrans; [|done]. apply grows_put.
Qed.

Lemma prefill_layers_grows model bs toks cs ids : chunks bs toks = Ok cs -> ids_of model cs = Ok ids ->
  forall ls p, exists p' js, prefill_layers model bs toks ls p = (p', Ok js) /\ grows p p'.
Proof.
  intros Hc Hids. induction ls as [|l ls IH]; intros p; [by exists p, []|]. cbn [prefill_layers].
  unfold mbind, M_bind, lift. rewrite Hc. destruct (prefill_chunks_grows model l cs ids Hids p) as (p1&j1&->&H1).
  destruct (IH p1) as (p2&j2&->&H2). eexists _, _. split; [reflexivity|]. by etrans.
Qed.

Lemma filter_full {A} (Q : A -> Prop) `{forall x, Decision (Q x)} (l : list A) x :
  (length l <= length (filter Q l))%nat -> x ∈ l -> Q x.
Proof.
  induction l as [|y l IH]; [by intros _ ?%elem_of_nil|]. rewrite filter_cons.
  pose proof (length_filter Q l). destruct (decide (Q y)); simpl; [|lia]. intros Hl [->|Hx]%elem_of_cons; [done|].
  apply IH; [lia|done].
Qed.

Lemma filter_mono_length {A} (Q R : A -> Prop) `{forall x, Decision (Q x), forall x, Decision (R x)} (l : list A) :
  (forall x, x ∈ l -> Q x -> R x) -> zlen (filter Q l) <= zlen (filter R l).
Proof.
  induction l as [|x l IH]; intros Hqr; [done|]. rewrite !filter_cons.
  specialize (IH (fun y Hy => Hqr y (list_elem_of_further _ _ _ Hy))).
  destruct (decide (Q x)) as [Hq|]; [rewrite decide_True by (apply Hqr; [left|done]); simpl; lia|].
  destruct (decide (R x)); simpl; lia.
Qed.

(** Routing a request that fits the prefill pool succeeds and leaves all its blocks
    in the pool; what it reports as reused is what was there before. *)
Theorem route_fills pp r ids p :
  pp_model pp = rq_model r -> pp_block_size pp = rq_block_size r -> 1 <= rq_layers r -> prefix_blocks r = Ok ids ->
  exists p' d, route pp r p = (p', Ok d) /\ grows p p' /\ (forall i, i ∈ ids -> is_Some (dget i p')) /\
    reused_blocks d = zlen (filter (fun i => is_Some (dget i p)) ids) /\
    prefill_blocks d = zlen ids - reused_blocks d.
Proof.
  intros Hm Hb Hl Hids. unfold route. unfold mbind, M_bind at 1, lift at 1. rewrite Hids.
  destruct (count_hits_spec ids p) as (p1&E1&Hg1&Hk1). unfold M_bind at 1. rewrite E1.
  pose proof (length_filter (fun i => is_Some (dget i p)) ids) as Hle. set (n := zlen (filter _ ids)) in *.
  assert (Hfill : exists p2, (if n <? zlen ids then (_ ← prefill pp (rq_prompt r) (rq_layers r); mret tt) else mret tt) p1 = (p2, Ok tt) /\
    grows p1 p2 /\ forall i, i ∈ ids -> is_Some (dget i p2)).
  { destruct (n <? zlen ids) eqn:En; zbool.
    - unfold prefill, py_range. rewrite Hm, Hb. destruct (Z.to_nat (rq_layers r)) as [|k] eqn:Ek; [lia|]. rewrite zseq_S.
      revert Hids. unfold prefix_blocks, mbind at 1, result_bind. destruct (chunks (rq_block_size r) (rq_prompt r)) as [cs|x] eqn:Ec; [|done].
      intros Hids. cbn [prefill_layers]. unfold mbind, M_bind, lift. rewrite Ec.
      destruct (prefill_chunks_fills (rq_model r) cs p1 ids Hids) as (p2&->&H2&Hin).
      destruct (prefill_layers_grows (rq_model r) _ _ cs ids Ec Hids (zseq (0 + 1) k) p2) as (p3&js&->&H3).
      exists p3. split_and!; [done|by etrans|]. intros i Hi. by apply H3, Hin.
    - exists p1. split_and!; [done|done|]. intros i Hi. rewrite dget_is_Some, Hk1, <- dget_is_Some.
      by apply (filter_full (fun i => is_Some (dget i p)) ids); [lia|]. }
  destruct Hfill as (p2&E2&Hg2&Hin). unfold mbind, M_bind in E2 |- *. rewrite E2. unfold lift.
  destruct (load_prefix_grows ids p2) as (p3&k&E3&Hg3). rewrite E3. eexists _, _. split; [reflexivity|]. simpl.
  split_and!; [by do 2 (etrans; [done|])|intros i Hi; by apply Hg3, Hin|done|lia].
Qed.

(** A shared prompt prefix is computed once: after a request was routed, a second one
    reuses every block they have in common, and routing the same request again
    computes nothing. *)
Theorem route_reuses pp r1 r2 ids1 ids2 p :
  pp_model pp = rq_model r1 -> pp_block_size pp = rq_block_size r1 -> 1 <= rq_layers r1 -> prefix_blocks r1 = Ok ids1 ->
  pp_model pp = rq_model r2 -> pp_block_size pp = rq_block_size r2 -> 1 <= rq_layers r2 -> prefix_blocks r2 = Ok ids2 ->
  exists p1 d1 p2 d2, route pp r1 p = (p1, Ok d1) /\ route pp r2 p1 = (p2, Ok d2) /\
    zlen (filter (fun i => i ∈ ids1) ids2) <= reused_blocks d2 /\ (ids2 = ids1 -> prefill_blocks d2 = 0).
Proof.
  intros Hm1 Hb1 Hl1 Hi1 Hm2 Hb2 Hl2 Hi2.
  destruct (route_fills pp r1 ids1 p Hm1 Hb1 Hl1 Hi1) as (p1&d1&E1&_&Hin1&_).
  destruct (route_fills pp r2 ids2 p1 Hm2 Hb2 Hl2 Hi2) as (p2&d2&E2&_&_&Hr2&Hp2).
  exists p1, d1, p2, d2.
  assert (Hle : zlen (filter (fun i => i ∈ ids1) ids2) <= reused_blocks d2).
  { rewrite Hr2. apply filter_mono_length. intros i _ Hi. by apply Hin1. }
  split_and!; try done. intros ->.
  assert (Hall : filter (fun i => i ∈ ids1) ids1 = ids1).
  { clear. assert (H : forall l : list KVBlockID, (forall x, x ∈ l -> x ∈ ids1) -> filter (fun i => i ∈ ids1) l = l).
    { induction l as [|x l IH]; intros Hl; [done|]. rewrite filter_cons, decide_True by (apply Hl; left). f_equal.
      apply IH. intros y Hy. apply Hl. by right. }
    by apply H. }
  rewrite Hall in Hle. pose proof (length_filter (fun i => is_Some (dget i p1)) ids1). lia.
Qed.

End router.

(** Defect: when the request's block size is not the prefill pool's, the router still
    answers that decoding can start although it loaded no block. *)
Theorem mismatched_blocks_not_loaded :
  let h := fun l : list Z => match l with [] => EmptyString | _ => String.String (Ascii.ascii_of_nat (length l)) EmptyString end in
  let pp := mkPrefillPool "m" 2 in
  let r := mkRequest "m" [1; 2; 3; 4] 4 1 in
  exists p, (route h pp r []).1 = p /\ (route h pp r []).2 = Ok (mkDecision 0 1 true) /\
    (load_prefix [mkBlockID "m" 0 (h (seq 0 32 ≫= fun _ => [0]))] p).2 = Ok 0.
Proof. eexists. split_and!; reflexivity. Qed.

End Router.

(** ** Nodes and the demonstration *)

Module Node.
Inductive NodeState : Type := IDLE | WARM | READY | SERVING | DRAIN.
Record ComputeNode : Type := mkNode { node_id : string; node_pool : string; node_state : NodeState; node_inflight : Z }.

Definition accept (n : ComputeNode) : bool := match node_state n with READY | SERVING => true | _ => false end.
Definition drain (n : ComputeNode) : ComputeNode := mkNode (node_id n) (node_pool n) DRAIN (node_inflight n).

(** [DecodePool.decode_step] *)
Definition decode_step (n_new_tokens : Z) : Z := n_new_tokens.

(** [__main__.main]: two requests with a shared prefix; what is printed. *)
Definition demo_main (sha256_bytes : list Z -> string) : result pexn (Router.RouteDecision * Router.RouteDecision * Z) :=
  let pp := Router.mkPrefillPool "demo-llm" 16 in
  let sys_prompt := py_range 48 in
  let req_a := Router.mkRequest "demo-llm" (sys_prompt ++ [100; 101]) 16 4 in
  let req_b := Router.mkRequest "demo-llm" (sys_prompt ++ [200; 201]) 16 4 in
  match Router.route sha256_bytes pp req_a [] with
  | (_, Raise x) => Raise x
  | (p1, Ok d1) =>
      match Router.route sha256_bytes pp req_b p1 with
      | (_, Raise x) => Raise x
      | (p2, Ok d2) => Ok (d1, d2, zlen p2)
      end
  end.

(** A drained node takes nothing more, and with a hash that tells its inputs apart the
    second request reuses the three blocks of the shared prefix. *)
Lemma drained_refuses n : accept (drain n) = false.
Proof. done. Qed.

Fixpoint spell (l : list Z) : string :=
  match l with [] => EmptyString | x :: l => String.String (Ascii.ascii_of_N (Z.to_N x)) (spell l) end.
Example demo_output : demo_main spell = Ok (Router.mkDecision 0 4 true, Router.mkDecision 3 1 true, 20).
Proof. vm_compute. reflexivity. Qed.
End Node.

(** ** The tiered cache *)

Module Tiers.
(** [LRUCache]: oldest first. *)
Record LRUCache : Type := mkLRU { lru_capacity : Z; lru_store : dict string Z }.

Definition lru_get (k : string) (c : LRUCache) : LRUCache * option Z :=
  match dget k (lru_store c) with
  | Some v => (mkLRU (lru_capacity c) (dmove_to_end k (lru_store c)), Some v)
  | None => (c, None)
  end.

(** [while len > capacity: popitem(last=False)] and the last key it popped. *)
Fixpoint shrink (capacity : Z) (d : dict string Z) (evicted : option string) : dict string Z * option string :=
  match d with
  | [] => ([], evicted)
  | (k, v) :: d' => if zlen d <=? capacity then (d, evicted) else shrink capacity d' (Some k)
  end.

Definition lru_put (k : string) (v : Z) (c : LRUCache) : LRUCache * option string :=
  let d := if din k (lru_store c) then dmove_to_end k (lru_store c) else lru_store c in
  let '(d', ev) := shrink (lru_capacity c) (dset k v d) None in
  (mkLRU (lru_capacity c) d', ev).

Record TieredStorage : Type := mkTiered { ts_l1 : LRUCache; ts_l2 : LRUCache; ts_l4 : dict string Z }.
Definition init (ram nvme : Z) : TieredStorage := mkTiered (mkLRU ram []) (mkLRU nvme []) [].

Definition tiered_get (k : string) (s : TieredStorage) : TieredStorage * option Z :=
  match lru_get k (ts_l1 s) with
  | (l1, Some v) => (mkTiered l1 (ts_l2 s) (ts_l4 s), Some v)
  | (l1, None) =>
      match lru_get k (ts_l2 s) with
      | (l2, Some v) => (mkTiered (lru_put k v l1).1 l2 (ts_l4 s), Some v)
      | (l2, None) =>
          match dget k (ts_l4 s) with
          | Some v => (mkTiered (lru_put k v l1).1 (lru_put k v l2).1 (ts_l4 s), Some v)
          | None => (mkTiered l1 l2 (ts_l4 s), None)
          end
      end
  end.

Definition tiered_put (k : string) (v : Z) (persist : bool) (s : TieredStorage) : TieredStorage :=
  let '(l1, ev) := lru_put k v (ts_l1 s) in
  let '(l1, l2) := match ev with
                   | Some e => ((lru_get e l1).1, (lru_put e v (ts_l2 s)).1)
                   | None => (l1, ts_l2 s)
                   end in
  mkTiered l1 l2 (if persist then dset k v (ts_l4 s) else ts_l4 s).

Definition lru_ok (c : LRUCache) : Prop := dict_wf (lru_store c) /\ zlen (lru_store c) <= lru_capacity c.

Lemma shrink_spec cap d : forall ev, 0 <= cap -> dict_wf d ->
  let '(d', _) := shrink cap d ev in
  dict_wf d' /\ zlen d' <= cap /\ forall k v, dget k d' = Some v -> dget k d = Some v.
Proof.
  induction d as [|[k v] d IH]; intros ev Hc Hw; [done|]. cbn [shrink].
  destruct (zlen ((k, v) :: d) <=? cap) eqn:E; zbool; [done|].
  unfold dict_wf, dkeys in Hw. rewrite fmap_cons, NoDup_cons in Hw. destruct Hw as [Hk Hw].
  specialize (IH (Some k) Hc Hw). destruct (shrink cap d (Some k)) as [d' ev']. destruct IH as (Hw'&Hl&Hg).
  split_and!; try done. intros j u Hj. specialize (Hg j u Hj). cbn [dget]. destruct (decide (j = k)) as [->|]; [|done].
  apply dget_Some_key in Hg. by destruct Hk.
Qed.

Lemma dict_wf_move k (d : dict string Z) : dict_wf d -> dict_wf (dmove_to_end k d).
Proof. intros Hw. unfold dmove_to_end. destruct (dget k d); [|done]. by apply dict_wf_replace. Qed.

Lemma length_move k (d : dict string Z) : length (dmove_to_end k d) = length d.
Proof.
  unfold dmove_to_end. destruct (dget k d) eqn:E; [|done]. apply dget_Some_key, length_ddel in E.
  rewrite length_app. simpl. lia.
Qed.

Lemma lru_put_ok k v c : lru_ok c -> 0 <= lru_capacity c -> lru_ok (lru_put k v c).1.
Proof.
  intros [Hw Hl] Hc. unfold lru_put. set (d := if din k (lru_store c) then _ else _).
  assert (Hd : dict_wf d) by (subst d; destruct (din k (lru_store c)); [by apply dict_wf_move|done]).
  pose proof (shrink_spec (lru_capacity c) (dset k v d) None Hc (dict_wf_dset _ _ _ Hd)) as Hs.
  destruct (shrink _ _ _) as [d' ev]. by destruct Hs as (?&?&_).
Qed.

(** The tiers keep their bounds over any sequence of reads and writes. *)
Definition tiers_ok (s : TieredStorage) : Prop :=
  lru_ok (ts_l1 s) /\ 0 <= lru_capacity (ts_l1 s) /\ lru_ok (ts_l2 s) /\ 0 <= lru_capacity (ts_l2 s).

Lemma lru_put_capacity k v c : lru_capacity (lru_put k v c).1 = lru_capacity c.
Proof. unfold lru_put. by destruct (shrink _ _ _). Qed.
Lemma lru_get_ok k c : lru_ok c -> lru_ok (lru_get k c).1 /\ lru_capacity (lru_get k c).1 = lru_capacity c.
Proof.
  intros [Hw Hl]. unfold lru_get. destruct (dget k (lru_store c)); [|done]. split; [|done].
  split; simpl; [by apply dict_wf_move|by rewrite length_move].
Qed.

Theorem tiers_bounded s k v persist : tiers_ok s ->
  tiers_ok (tiered_put k v persist s) /\ tiers_ok (tiered_get k s).1.
Proof.
  intros (H1&C1&H2&C2). split.
  - unfold tiered_put. pose proof (lru_put_ok k v _ H1 C1) as H1'. pose proof (lru_put_capacity k v (ts_l1 s)) as E1.
    destruct (lru_put k v (ts_l1 s)) as [l1 [e|]]; simpl in *; [|split_and!; simpl; try done; by rewrite E1].
    destruct (lru_get_ok e l1 H1') as [H1'' E1']. pose proof (lru_put_ok e v _ H2 C2). pose proof (lru_put_capacity e v (ts_l2 s)) as E2.
    split_and!; simpl; try done; [by rewrite E1', E1|by rewrite E2].
  - unfold tiered_get. destruct (lru_get_ok k _ H1) as [H1' E1]. destruct (lru_get k (ts_l1 s)) as [l1 [u|]]; simpl in *.
    { split_and!; simpl; try done. by rewrite E1. }
    destruct (lru_get_ok k _ H2) as [H2' E2]. rewrite <- E1 in C1. rewrite <- E2 in C2.
    destruct (lru_get k (ts_l2 s)) as [l2 [u|]]; simpl in *.
    { pose proof (lru_put_ok k u _ H1' C1). pose proof (lru_put_capacity k u l1) as E. split_and!; simpl; try done. by rewrite E. }
    destruct (dget k (ts_l4 s)) as [u|]; [|done]. pose proof (lru_put_ok k u _ H1' C1). pose proof (lru_put_capacity k u l1) as Ea.
    pose proof (lru_put_ok k u _ H2' C2). pose proof (lru_put_capacity k u l2) as Eb.
    split_and!; simpl; try done; [by rewrite Ea|by rewrite Eb].
Qed.

(** Defect: a block pushed out of the first tier is demoted with the value of the block
    that pushed it out, and read back with that value. *)
Theorem demotion_loses_value (va vb : Z) :
  let s := tiered_put "b" vb false (tiered_put "a" va false (init 1 4)) in
  (tiered_get "a" s).2 = Some vb.
Proof. reflexivity. Qed.

End Tiers.

(** Three blocks, one of them held, one colder than the other. *)
Lemma evict_cold_spec_witness :
  let i := fun n => mkBlockID "m" n "h" in
  let p := [(i 0, mkBlock (i 0) 8 1 0); (i 1, mkBlock (i 1) 8 0 5); (i 2, mkBlock (i 2) 8 0 2)] in
  (Pool.evict_cold 2 p).2 = 1 /\ zlen (Pool.evict_cold 2 p).1 = zlen p - (Pool.evict_cold 2 p).2.
Proof.
  intros i p. split; [reflexivity|].
  assert (Hok : Pool.pool_ok p).
  { split; [apply (bool_decide_unpack (NoDup (dkeys p))); vm_compute; exact I|]. intros j b. simpl.
    repeat (case_decide; [intros [= <-]; subst; simpl; split; [reflexivity|lia]|]). discriminate. }
  exact (proj1 (proj2 (proj2 (Pool.evict_cold_spec 2 p Hok)))).
Defined.
